(* ===== verification/_CoqProject ===== *)
-Q . S2P
Prelude.v
Words.v
Bits.v
ArmState.v
ArmSupp.v
ArmBanks.v
ArmFlags.v
ArmPsr.v
ArmShift.v
ArmMul.v
ThumbDecode.v
ThumbBranch.v
ArmInit.v
UartDev.v
Machine.v
LpcState.v
LpcVic.v
LpcUart.v
LpcTimer.v
LpcIo.v
LpcSafe.v
LpcRegs.v
LpcReset.v
LpcWitness.v
LpcBoard.v
ArmSys.v
ArmMem.v
MemSpec.v
Tlb.v
TlbSpec.v
Cache.v
Arm7100.v
MmuSpec.v
ArmVirt.v
ArmLdSt.v
ArmBlock.v
ArmDp.v
ArmXfer.v
ArmCopro.v
ArmValid.v
ValidSpec.v
ArmEmulate.v
DpSpec.v
DspSpec.v
LdStSpec.v
FaultSpec.v
BlockSpec.v
SysWitness.v
ExecWitness.v
GdbLink.v
GdbTarget.v
GdbTrace.v
GdbServer.v
GdbSpec.v
GdbWitness.v
LpcCore.v
CoreTypes.v
ExecTypes.v
SysTypes.v
SysSound.v
FlashIntel.v
FlashSpec.v
FlashSafe.v
FlashBus.v
FlashAm29.v
FlashSst.v
FlashJedec.v
FlashAm29Spec.v
FlashSstSpec.v
FlashDump.v
FlashWitness.v
MmuBuffers.v
Harvard.v
Arm9Mmu.v
StrongArm.v
WbSpec.v
CacheLines.v
Coherence.v
DataSide.v
DataWitness.v
