(* ===== verification/Prelude.v ===== *)
(** * SkyEye for LPC2300: a verification library

    SkyEye emulates embedded boards.  This library models its LPC2300 board
    as it is built by default: the ARM core of [src/src/arch/arm/common], the
    memory map, the MMU and cache of the ARM7 processors, and the on-chip
    peripherals of [src/src/arch/arm/mach/skyeye_mach_lpc2300.c].  Every
    definition is translated from the C function of the same name; the
    theorems compare the definitions with the architecture (the ARM and Thumb
    manuals, the LPC23xx manual) or with a simpler reference.

    ** How the parts interact

    The instruction loop ([ARMul_Emulate32]) fetches words through the core's
    memory accesses (armvirt.c), which go through the operations of the
    configured MMU; the MMU translates with its buffer, uses its cache, and
    ends in the memory map (armmem.c), which finds the bank of an address and
    calls RAM, ROM or the machine (armio.c).  Once per instruction the loop
    runs the machine's cycle: timers and UARTs move, the interrupt controller
    arbitrates and drives the two interrupt pins of the core, which the loop
    tests before it executes the next instruction.  Coprocessors are tables of
    handlers; scheduled events are a ring of lists of functions.

    Interfaces, as records or classes: [Board] (Machine.v) is what the
    memory map needs of a machine, with the LPC2300 as its instance
    (LpcBoard.v); [MmuOps] (ArmVirt.v) the operations of an MMU, with the
    ARM7100 (Arm7100.v); [CoPros] (ArmCopro.v) the coprocessors, with those
    of a plain core (ArmValid.v); [UartDriver] (UartDev.v) the host module
    behind a serial line; [FlatView] (LdStSpec.v) a memory that behaves like
    an array of bytes, with the memory map behind a switched-off MMU;
    [SafeBus], [SafeCoPros] (ExecTypes.v) and [SafeBoard] (SysTypes.v) memory
    systems, coprocessors and machines that keep an invariant of their own,
    each with a flag that says whether they also always return ([outcome] in
    Prelude.v: the result, if there is one, and that there is one).

    ** State and errors

    The C structures are records, one field per member that the modelled code
    uses; [s <| f := v |>] updates a field.  [ARMul_State] (ArmState.v) is the
    core; [machine] (LpcState.v) the core with the peripherals; [system]
    (ArmSys.v) a machine with the memory and the MMU.  A word is an integer
    in [0, 2^32) and the arithmetic that wraps is written with [u32] and its
    kin (Words.v).  C arrays are lists of their C length.  A function of
    type [option] returns [None] where the C has undefined behaviour (an index
    outside an array, a negative shift) or ends the simulator.  One exception:
    [1 << 31] on an [int] ([BITMSK]) is taken as compilers define it, 2^31.

    ** Files

    - Shared: Prelude (notation, record update, automation), Words (machine
      words and instruction fields), Bits (words built from fields).
    - armsupp.c, arminit.c: ArmState, ArmSupp, ArmBanks, ArmFlags, ArmPsr,
      ArmInit, ArmCopro (coprocessor instructions and events).
    - armemu.c: ArmShift (operands, writes of R15), ArmMul (long products),
      ArmDp (the cases that work on the core alone), ArmLdSt, ArmBlock and
      ArmXfer (transfers), ArmEmulate (decoding and the loop).
    - thumbemu.c: ThumbDecode, ThumbBranch.
    - armcopro.c: ArmValid.
    - armio.c, skyeye_uart.c: Machine, UartDev.
    - skyeye_mach_lpc2300.c: LpcState, LpcVic, LpcUart, LpcTimer, LpcIo, with
      LpcSafe, LpcRegs, LpcReset for the theorems on the whole block.
    - armmem.c, mmu/tlb.c, mmu/cache.c, mmu/arm7100_mmu.c, armvirt.c: ArmMem,
      Tlb, Cache, Arm7100, ArmVirt on the state of ArmSys.
    - mmu/wb.c, mmu/rb.c, mmu/arm920t_mmu.c, mmu/arm926ejs_mmu.c,
      mmu/sa_mmu.c: MmuBuffers, Harvard (the functions the three
      MMUs repeat, over a class of parts), Arm9Mmu, StrongArm.
    - All of these together: CoreTypes, ExecTypes, SysTypes, LpcCore and
      SysSound (the typing of the machine).
    - gdbserver.c, skyeye2gdb.c, arm_regdefs.c, gdb_tracepoint.c: GdbLink
      (hexadecimal and frames), GdbTarget (registers, memory, breakpoints),
      GdbTrace (tracepoints), GdbServer (requests), with GdbSpec.
    - dev_flash_intel.c: FlashIntel, with FlashSpec and FlashSafe.
    - dev_flash_am29.c, dev_flash_sst39lvf160.c: FlashAm29 and FlashSst, on
      FlashBus, with FlashJedec (unlock sequences as an automaton),
      FlashAm29Spec and FlashSstSpec; armflash.c and skyeye_flash.c:
      FlashBus, with FlashDump.
    - LpcWitness, SysWitness, ExecWitness, GdbWitness, FlashWitness,
      DataWitness, SysSound: the theorems at concrete
      states where their hypotheses hold.

    ** What the theorems show

    - Exceptions and modes: entry to each of the seven exceptions and the
      return from them (ArmInit); the copying of registers between banks
      implements the banked register file (ArmBanks); what a write of the CPSR
      changes and what it may not change (ArmPsr); the priority of interrupts
      (ArmInit).
    - Arithmetic: the two operand shifters equal one reference shifter
      (ArmShift); data processing instructions equal the architecture's
      definition, an adder with carry in, and the fourteen conditions after a
      compare (DpSpec); carry and overflow (ArmFlags); long, halfword and
      saturating arithmetic (ArmMul, DspSpec).
    - Thumb: the decoder agrees with the manual, encoding by encoding
      (ThumbDecode), and so do the branches (ThumbBranch).
    - Memory: the memory map implements a flat array of bytes, whatever the
      state of the cached bank pointer (MemSpec); the translation buffer is
      transparent and stays coherent (TlbSpec); virtual memory with faults as
      the architecture has it, up to three deviations of the code that are
      named there (MmuSpec); behind a write-back cache and a write buffer a
      program sees a flat memory all the same (WbSpec, CacheLines, Coherence,
      DataSide).
    - Transfers: what single and block transfers do to registers and memory
      (LdStSpec, BlockSpec), and that a fault is taken as a data abort
      (FaultSpec).
    - Debugger: a packet arrives whatever the stream does to it (GdbLink);
      memory and registers written by the debugger are those of the program
      (of the mode before the write) and read back, the breakpoint requests
      implement a set (GdbSpec).
    - Flash: no sequence of writes whose buffers stay in a sector gets around
      a lock bit, and what each command does to contents and status
      (FlashSafe); the AMD and SST chips are command automata (FlashAm29Spec,
      FlashSstSpec), and a dump holds the words of the chip (FlashDump).
    - Types: every operation of the core (CoreTypes), every instruction and
      the loop against the interface [SafeBus] (ExecTypes), the memory system
      for any board (SysTypes) and the LPC2300 (LpcCore, SysSound) keep
      registers and memories words, flags bits and indices in range on any
      memory map; regular instructions always return if every address lies in
      a bank and the interrupt priorities in none of devices (SysSound).
    - Peripherals: the interrupt controller selects the request the manual
      selects and its priorities in service form a stack (LpcVic); a UART
      loses and reorders nothing of what is written to an empty THR (LpcUart);
      a timer counts periodically (LpcTimer); registers read back, GPIO bit by bit (LpcRegs); reset
      quiesces (LpcReset); no sequence of operations leaves the well-formed
      states, and none meets undefined behaviour as long as the guest writes
      no interrupt priority of 2^31 or more (LpcSafe); the rate of the device
      loop (Machine).
    - Termination: the busy wait of a coprocessor ends (ValidSpec).

    ** Fuel and bounds

    Loops of the C that count over a range are [for_range] or structural
    recursion.  The loops that wait (a busy coprocessor, the emulation loop)
    take fuel and return [None] when it runs out; ValidSpec.v gives the
    fuel that suffices for a busy wait.  [loop] is [ARMul_Emulate32]'s own
    loop, which ends only when the emulation is stopped, so that its fuel
    bounds the number of instructions of a run.

    ** Not modelled

    - The 26-bit build of the same core code ([ARMul_Emulate26], armemu.c
      compiled again with [MODE26]), the XScale and iWMMXt extensions, the
      XScale and Maverick coprocessors: no LPC2300 has them.
    - Host work: configuration files, ELF loading, terminals, sockets, LCD,
      sound, network and NAND devices, energy and coverage measurement,
      logging.  Where the core depends on them, they are parameters.
    - The dynamic binary translator, which writes x86 code.
    - The other machines and the MIPS, PowerPC, ColdFire and Blackfin
      simulators, which share only the front end with the ARM one. *)

From Stdlib Require Export ZArith Lia Bool Btauto.
From stdpp Require Export base tactics option list numbers.

#[export] Set Default Goal Selector "!".
Open Scope Z_scope.

(** Linear arithmetic with division and remainder by constants. *)
Ltac dlia := Z.div_mod_to_equations; lia.

(** ** Notation for C's bit operations

    All the machine words of the library are integers of type [Z]; the
    bit operations of C are the ones of [Z].  [a &&~ b] is the idiom
    [a & ~b] of the sources, which on words is [Z.ldiff]. *)

Declare Scope c_scope.
Delimit Scope c_scope with C.
Notation "a &&& b" := (Z.land a b) (at level 40, left associativity) : c_scope.
Notation "a &&~ b" := (Z.ldiff a b) (at level 40, left associativity) : c_scope.
Notation "a ||| b" := (Z.lor a b) (at level 50, left associativity) : c_scope.
Notation "a ^^^ b" := (Z.lxor a b) (at level 43, left associativity) : c_scope.
Notation "a <<< b" := (Z.shiftl a b) (at level 38, left associativity) : c_scope.
Notation "a >>> b" := (Z.shiftr a b) (at level 38, left associativity) : c_scope.
Open Scope c_scope.

(** C's conversions between integers and truth values. *)
Definition truth (x : Z) : bool := negb (x =? 0).
Definition c_bool (b : bool) : Z := if b then 1 else 0.

(** ** Record update

    [s <| f := v |>] is the record [s] with field [f] replaced.  A record
    declares one [Eta] instance, the list of its fields; the updater of each
    field is then found by pattern matching on that list. *)

Class Eta (R : Type) := eta : R -> R.
Class Upd {R T : Type} (f : R -> T) := upd : (T -> T) -> R -> R.
Arguments upd {R T} f {_} _ _.

Ltac derive_upd :=
  lazymatch goal with
  | |- @Upd ?R ?T ?f =>
      let body := constr:(fun r__ : R => ltac:(
        let e := constr:(_ : Eta R) in
        let e' := eval hnf in e in
        let b := eval cbv beta in (e' r__) in
        exact b)) in
      exact (fun (g__ : T -> T) (r__ : R) => ltac:(
        let b := eval cbv beta in (body r__) in
        lazymatch eval pattern (f r__) in b with
        | ?F _ => let t := eval cbv beta in (F (g__ (f r__))) in exact t
        end))
  end.

#[export] Hint Extern 1 (Upd _) => derive_upd : typeclass_instances.

Notation "s <| f := v |>" := (upd f (fun _ => v) s)
  (at level 1, f at level 0, left associativity, format "s  <| f  :=  v |>").
Notation "s <| f ::= g |>" := (upd f g s)
  (at level 1, f at level 0, left associativity, format "s  <| f  ::=  g |>").

(** Reading a field of an updated record.  The equation is checked for a
    variable state and then used to rewrite, which stays fast under many
    nested updates. *)
Ltac upd_eq R T U f g i :=
  match constr:(Set) with
  | _ => let _ := match goal with _ => constr_eq f g end in
      constr:(fun (h : T -> T) (x : R) => @eq_refl T (h (f x)) : f (@upd R T g i h x) = h (f x))
  | _ => constr:(fun (h : T -> T) (x : R) => @eq_refl U (f x) : f (@upd R T g i h x) = f x)
  end.
Ltac upd_step :=
  match goal with
  | |- context [?f (@upd ?R ?T ?g ?i ?h ?s)] =>
      let U := type of (f s) in let H := upd_eq R T U f g i in
      let E := fresh in pose proof H as E; rewrite (E h s); clear E
  end.
Ltac upd_step_in H :=
  match type of H with
  | context [?f (@upd ?R ?T ?g ?i ?h ?s)] =>
      let U := type of (f s) in let E := upd_eq R T U f g i in
      let E' := fresh in pose proof E as E'; rewrite (E' h s) in H; clear E'
  end.
Ltac upds := repeat upd_step; cbv beta.
Ltac upds_in H := repeat upd_step_in H; cbv beta in H.

(** ** Arrays and counted loops

    A C array is a list; [rd a i] is [a[i]] and [wr a i v] is the array
    after [a[i] = v].  An index out of range is undefined behaviour in C; here
    it reads 0 and writes nothing, and the components prove that their
    indices are in range, or return [None] where they need not be. *)

Definition rd (a : list Z) (i : Z) : Z := nth (Z.to_nat i) a 0.
Definition wr {A} (a : list A) (i : Z) (v : A) : list A := <[Z.to_nat i := v]> a.

(** [for (i = lo; i < hi; i++) body]. *)
Definition for_range {A} (lo hi : Z) (body : Z -> A -> A) (a : A) : A :=
  fold_left (fun acc i => body i acc) (seqZ lo (hi - lo)) a.

Lemma rd_wr_eq a i v : 0 <= i < Z.of_nat (length a) -> rd (wr a i v) i = v.
Proof.
  intros. unfold rd, wr. rewrite nth_lookup, list_lookup_insert_eq by lia. done.
Qed.

Lemma rd_wr_ne (a : list Z) i j v : 0 <= i -> 0 <= j -> i <> j -> rd (wr a i v) j = rd a j.
Proof.
  intros. unfold rd, wr. rewrite !nth_lookup, list_lookup_insert_ne by lia. done.
Qed.

Lemma length_wr {A} (a : list A) i v : length (wr a i v) = length a.
Proof. apply length_insert. Qed.

(** Two arrays of the same length are equal when they agree at every index. *)
Lemma rd_ext (a b : list Z) :
  length a = length b -> (forall i, 0 <= i < Z.of_nat (length a) -> rd a i = rd b i) -> a = b.
Proof.
  intros Hl Hr. apply (nth_ext a b 0 0 Hl). intros n Hn.
  specialize (Hr (Z.of_nat n)). unfold rd in Hr. rewrite Nat2Z.id in Hr. apply Hr. lia.
Qed.

(** The invariant rule of a counted loop. *)
Lemma for_range_ind {A} (I : Z -> A -> Prop) lo hi body a :
  lo <= hi -> I lo a -> (forall i x, lo <= i < hi -> I i x -> I (i + 1) (body i x)) ->
  I hi (for_range lo hi body a).
Proof.
  intros Hle H0 Hs. unfold for_range. remember (Z.to_nat (hi - lo)) as n eqn:Hn.
  revert lo a Hle H0 Hs Hn. induction n as [|n IH]; intros.
  - assert (lo = hi) as -> by lia. by rewrite seqZ_nil by lia.
  - rewrite seqZ_cons by lia. simpl. replace (Z.pred (hi - lo)) with (hi - Z.succ lo) by lia.
    apply IH; [lia| |intros; apply Hs; [lia|done]|lia].
    replace (Z.succ lo) with (lo + 1) by lia. apply Hs; [lia|done].
Qed.

Lemma for_range_inv {A} (I : A -> Prop) lo hi body a :
  I a -> (forall i x, lo <= i < hi -> I x -> I (body i x)) -> I (for_range lo hi body a).
Proof.
  intros H0 Hs. destruct (Z.le_gt_cases lo hi).
  - by apply (for_range_ind (fun _ => I)).
  - unfold for_range. by rewrite seqZ_nil by lia.
Qed.

(** The same loop with a body that may meet undefined behaviour. *)
Definition for_range_opt {A} (lo hi : Z) (body : Z -> A -> option A) (a : A) : option A :=
  fold_left (fun acc i => acc ≫= body i) (seqZ lo (hi - lo)) (Some a).

Lemma for_range_opt_ind {A} (I : Z -> A -> Prop) lo hi body a :
  lo <= hi -> I lo a ->
  (forall i x, lo <= i < hi -> I i x -> exists y, body i x = Some y /\ I (i + 1) y) ->
  exists b, for_range_opt lo hi body a = Some b /\ I hi b.
Proof.
  intros Hle H0 Hs. unfold for_range_opt. change (fold_left _ _ _) with
    (for_range lo hi (fun i acc => acc ≫= body i) (Some a)).
  apply (for_range_ind (fun i o => exists b, o = Some b /\ I i b)); [done|by exists a|].
  intros i x Hi (b & -> & Hb). by apply Hs.
Qed.

Lemma for_range_opt_inv {A} (I : A -> Prop) lo hi body a :
  I a -> (forall i x, lo <= i < hi -> I x -> exists y, body i x = Some y /\ I y) ->
  exists b, for_range_opt lo hi body a = Some b /\ I b.
Proof.
  intros H0 Hs. destruct (Z.le_gt_cases lo hi).
  - by apply (for_range_opt_ind (fun _ => I)).
  - unfold for_range_opt. rewrite seqZ_nil by lia. by exists a.
Qed.

(** ** Outcomes

    A result satisfies [P]; there is one when [total]. *)
Definition outcome {A} (total : bool) (P : A -> Prop) (o : option A) : Prop :=
  match o with Some a => P a | None => total = false end.

Lemma outcome_bind {A B} t (P : A -> Prop) (Q : B -> Prop) o (k : A -> option B) :
  outcome t P o -> (forall a, P a -> outcome t Q (k a)) -> outcome t Q (o ≫= k).
Proof. intros H Hk. destruct o as [a|]; [by apply Hk|done]. Qed.
Lemma outcome_mono {A} t t' (P Q : A -> Prop) o :
  outcome t P o -> (t' = true -> t = true) -> (forall a, P a -> Q a) -> outcome t' Q o.
Proof.
  intros H Ht HP. destruct o as [a|]; cbn in *; [by apply HP|]. destruct t'; [|done]. rewrite Ht in H by done. discriminate.
Qed.
Lemma outcome_total {A} (P : A -> Prop) o : outcome true P o -> exists a, o = Some a /\ P a.
Proof. destruct o as [a|]; [by exists a|done]. Qed.

Lemma outcome_if {A} t (P : A -> Prop) (b : bool) o o' : outcome t P o -> outcome t P o' -> outcome t P (if b then o else o').
Proof. by destruct b. Qed.
Lemma outcome_loop {A} t (P : A -> Prop) lo hi body a :
  P a -> (forall i x, lo <= i < hi -> P x -> outcome t P (body i x)) -> outcome t P (for_range_opt lo hi body a).
Proof.
  intros Ha Hb. unfold for_range_opt.
  assert (forall l o, outcome t P o -> Forall (fun i => lo <= i < hi) l ->
            outcome t P (fold_left (fun acc i => acc ≫= body i) l o)) as Hl.
  { intros l. induction l as [|i l IH]; intros o Ho HF; cbn [fold_left]; [done|]. apply list.Forall_cons in HF as [Hi HF].
    apply IH; [|done]. eapply outcome_bind; [exact Ho|]. intros x. by apply Hb. }
  apply Hl; [done|]. apply list.Forall_forall. intros i Hi%elem_of_seqZ. lia.
Qed.

(** ** Lists *)

Lemma omap_none {A B} (f : A -> option B) (l : list A) : (forall x, x ∈ l -> f x = None) -> omap f l = [].
Proof.
  induction l as [|x l IH]; intros H; simpl; [done|].
  rewrite H by apply list_elem_of_here. apply IH. intros y Hy. by apply H, list_elem_of_further.
Qed.

Lemma omap_ext_in {A B} (f g : A -> option B) (l : list A) : (forall x, x ∈ l -> f x = g x) -> omap f l = omap g l.
Proof.
  induction l as [|x l IH]; intros H; simpl; [done|].
  rewrite (H x) by apply list_elem_of_here.
  destruct (g x); [f_equal|]; apply IH; intros y Hy; by apply H, list_elem_of_further.
Qed.

Lemma Forall_wr {A} (P : A -> Prop) l i x : Forall P l -> P x -> Forall P (wr l i x).
Proof. intros. unfold wr. by apply Forall_insert. Qed.

Lemma Forall_rd (P : Z -> Prop) l i : Forall P l -> 0 <= i < Z.of_nat (length l) -> P (rd l i).
Proof.
  intros HF Hi. unfold rd. destruct (lookup_lt_is_Some_2 l (Z.to_nat i)) as [x Hx]; [lia|].
  rewrite (nth_lookup_Some _ _ _ _ Hx). rewrite Forall_lookup in HF. by eapply HF.
Qed.
