(* ===== verification/Words.v ===== *)
(** * 32-bit machine words

    [ARMword] is [unsigned int] in armdefs.h.  A word is an integer in
    [0, 2^32); the arithmetic that can leave that range is written with its
    wrap-around, the bit operations that cannot are the ones of [Z].  The
    file also holds the instruction-field macros of armdefs.h and armemu.h. *)

From S2P Require Import Prelude.

(** Splits the comparisons of a goal, innermost first, with the facts they
    give. *)
Ltac no_if a := lazymatch a with context [if _ then _ else _] => fail | _ => idtac end.
Ltac cases_Z := repeat match goal with
  | |- context [?a <? ?b] => no_if a; no_if b; destruct (Z.ltb_spec a b)
  | |- context [?a <=? ?b] => no_if a; no_if b; destruct (Z.leb_spec a b)
  | |- context [?a =? ?b] => no_if a; no_if b; destruct (Z.eqb_spec a b)
  end.

Definition word (x : Z) : Prop := 0 <= x < 4294967296.
#[export] Instance word_dec x : Decision (word x).
Proof. unfold word. apply _. Defined.

Definition u32 (x : Z) : Z := x mod 4294967296.
Definition u64 (x : Z) : Z := x mod 18446744073709551616.
Definition add32 (a b : Z) : Z := u32 (a + b).
Definition sub32 (a b : Z) : Z := u32 (a - b).
Definition mul32 (a b : Z) : Z := u32 (a * b).
Definition neg32 (a : Z) : Z := u32 (- a).
Definition not32 (a : Z) : Z := u32 (Z.lnot a).
Definition shl32 (a n : Z) : Z := u32 (a <<< n).

(** The value of a word converted to [int], and the arithmetic right shift of
    that conversion converted back, [(ARMword) ((int) a >> n)]. *)
Definition s32 (a : Z) : Z := if a <? 2147483648 then a else a - 4294967296.
Definition asr32 (a n : Z) : Z := u32 (s32 a >>> n).

(** ** Field macros of armdefs.h *)

Definition BIT (instr n : Z) : Z := (instr >>> n) &&& 1.
Definition BITS (instr m n : Z) : Z := u32 (instr <<< (31 - n)) >>> (31 - n + m).
Definition TOPBITS (instr n : Z) : Z := instr >>> n.

(** ** Sign tests and rotation of armemu.h *)

Definition NEG (i : Z) : Z := i >>> 31.
Definition POS (i : Z) : Z := not32 i >>> 31.
Definition ROTATER (n b : Z) : Z := u32 ((n >>> b) ||| (n <<< (32 - b))).

(** ** Ranges *)

Create HintDb words.

Lemma word_u32 x : word (u32 x).
Proof. unfold word, u32. apply Z.mod_pos_bound. lia. Qed.

Lemma u32_id x : word x -> u32 x = x.
Proof. unfold word, u32. intros. by apply Z.mod_small. Qed.

Lemma u32_land x : u32 x = x &&& 4294967295.
Proof. change 4294967295 with (Z.ones 32). by rewrite Z.land_ones by lia. Qed.

Lemma u32_idemp x : u32 (u32 x) = u32 x.
Proof. apply u32_id, word_u32. Qed.

Lemma word_pow2 x n : 0 <= n <= 32 -> 0 <= x < 2 ^ n -> word x.
Proof.
  intros Hn Hx. unfold word. split; [lia|].
  apply (Z.lt_le_trans _ (2 ^ n)); [lia|].
  change 4294967296 with (2 ^ 32). apply Z.pow_le_mono_r; lia.
Qed.

(** A non-negative integer is below [2^n] when its bits above [n] are clear. *)
Lemma bits_lt_pow2 x n :
  0 <= n -> 0 <= x -> (forall i, n <= i -> Z.testbit x i = false) -> x < 2 ^ n.
Proof.
  intros Hn Hx Hb. assert (x = x mod 2 ^ n) as ->; [|apply Z.mod_pos_bound; lia].
  apply Z.bits_inj'. intros i Hi. destruct (Z.lt_ge_cases i n).
  - by rewrite Z.mod_pow2_bits_low by lia.
  - by rewrite Z.mod_pow2_bits_high, Hb by lia.
Qed.

Lemma testbit_high x n i : 0 <= x < 2 ^ n -> 0 <= n <= i -> Z.testbit x i = false.
Proof.
  intros Hx Hi. rewrite <- (Z.mod_small x (2 ^ n)) by lia.
  apply Z.mod_pow2_bits_high. lia.
Qed.

Lemma word_testbit x i : word x -> 32 <= i -> Z.testbit x i = false.
Proof. intros. apply (testbit_high x 32); [exact H|lia]. Qed.

Lemma word_bits x : 0 <= x -> (forall i, 32 <= i -> Z.testbit x i = false) -> word x.
Proof. intros. split; [done|]. by apply (bits_lt_pow2 x 32). Qed.

Lemma land_le_l a b : 0 <= a -> 0 <= a &&& b <= a.
Proof.
  intros. split; [apply Z.land_nonneg; auto|].
  assert (a &&~ b + (a &&& b) = a).
  { rewrite Z.add_nocarry_lxor.
    - apply Z.bits_inj'. intros i Hi.
      rewrite Z.lxor_spec, Z.ldiff_spec, Z.land_spec. by destruct (Z.testbit a i), (Z.testbit b i).
    - apply Z.bits_inj'. intros i Hi.
      rewrite Z.land_spec, Z.ldiff_spec, Z.land_spec, Z.bits_0. by destruct (Z.testbit a i), (Z.testbit b i). }
  assert (0 <= a &&~ b) by (apply Z.ldiff_nonneg; auto). lia.
Qed.

Lemma land_le_r a b : 0 <= b -> 0 <= a &&& b <= b.
Proof. rewrite Z.land_comm. apply land_le_l. Qed.

Lemma word_land_l a b : word a -> word (a &&& b).
Proof. unfold word. intros. pose proof (land_le_l a b). lia. Qed.
Lemma word_land_r a b : word b -> word (a &&& b).
Proof. unfold word. intros. pose proof (land_le_r a b). lia. Qed.

Lemma word_ldiff a b : word a -> word (a &&~ b).
Proof.
  intros Ha. apply word_bits.
  - apply Z.ldiff_nonneg. destruct Ha. auto.
  - intros. by rewrite Z.ldiff_spec, word_testbit.
Qed.

Lemma word_lor a b : word a -> word b -> word (a ||| b).
Proof.
  intros Ha Hb. apply word_bits.
  - apply Z.lor_nonneg. destruct Ha, Hb. auto.
  - intros. by rewrite Z.lor_spec, !word_testbit.
Qed.

Lemma word_lxor a b : word a -> word b -> word (a ^^^ b).
Proof.
  intros Ha Hb. apply word_bits.
  - apply Z.lxor_nonneg. destruct Ha, Hb. split; auto.
  - intros. by rewrite Z.lxor_spec, !word_testbit.
Qed.

Lemma word_shiftr a n : 0 <= n -> word a -> word (a >>> n).
Proof.
  unfold word. intros Hn Ha. rewrite Z.shiftr_div_pow2 by lia.
  pose proof (Z.pow_pos_nonneg 2 n). split; [apply Z.div_pos; lia|].
  apply Z.div_lt_upper_bound; nia.
Qed.

Lemma word_add32 a b : word (add32 a b). Proof. apply word_u32. Qed.
Lemma word_sub32 a b : word (sub32 a b). Proof. apply word_u32. Qed.
Lemma word_mul32 a b : word (mul32 a b). Proof. apply word_u32. Qed.
Lemma word_neg32 a : word (neg32 a). Proof. apply word_u32. Qed.
Lemma word_not32 a : word (not32 a). Proof. apply word_u32. Qed.
Lemma word_shl32 a n : word (shl32 a n). Proof. apply word_u32. Qed.
Lemma word_asr32 a n : word (asr32 a n). Proof. apply word_u32. Qed.
Lemma word_ROTATER n b : word (ROTATER n b). Proof. apply word_u32. Qed.
Lemma word_c_bool b : word (c_bool b). Proof. destruct b; by compute. Qed.

#[export] Hint Resolve word_u32 word_add32 word_sub32 word_mul32 word_neg32 word_not32
  word_shl32 word_asr32 word_ROTATER word_c_bool word_lor word_lxor word_ldiff : words.
#[export] Hint Extern 2 (word (Z.shiftr _ _)) => apply word_shiftr; [lia|] : words.
#[export] Hint Extern 2 (word (Z.land _ _)) =>
  first [ solve [apply word_land_r; eauto 6 with words] | apply word_land_l ] : words.
#[export] Hint Extern 1 (word _) => assumption : words.
#[export] Hint Extern 3 (word _) => (unfold word; lia) : words.

(** ** Bit-by-bit equality

    [bitwise] proves an equation between bit expressions: it compares bit
    [i] of both sides for a symbolic [i], rewriting each operation with its
    bit-level specification. *)

Lemma testbit_u32 x i : Z.testbit (u32 x) i = (i <? 32) && Z.testbit x i.
Proof.
  unfold u32. change 4294967296 with (2 ^ 32). destruct (Z.ltb_spec i 32); simpl.
  - destruct (Z.lt_ge_cases i 0); [by rewrite !Z.testbit_neg_r by lia|].
    apply Z.mod_pow2_bits_low. lia.
  - apply Z.mod_pow2_bits_high. lia.
Qed.

Lemma testbit_shiftl a n i : Z.testbit (a <<< n) i = (0 <=? i) && Z.testbit a (i - n).
Proof.
  destruct (Z.leb_spec 0 i); simpl; [by apply Z.shiftl_spec|].
  apply Z.testbit_neg_r. lia.
Qed.

Lemma testbit_shiftr a n i : Z.testbit (a >>> n) i = (0 <=? i) && Z.testbit a (i + n).
Proof.
  destruct (Z.leb_spec 0 i); simpl; [by apply Z.shiftr_spec|].
  apply Z.testbit_neg_r. lia.
Qed.

Lemma testbit_ones k n i : k = Z.ones n -> 0 <= n -> Z.testbit k i = (0 <=? i) && (i <? n).
Proof. intros -> Hn. by rewrite Z.testbit_ones by done. Qed.

Create Rewrite HintDb tbits.
#[export] Hint Rewrite Z.land_spec Z.lor_spec Z.lxor_spec Z.ldiff_spec testbit_u32
  testbit_shiftl testbit_shiftr Z.bits_0 : tbits.

Lemma testbit_not32 x i : Z.testbit (not32 x) i = (0 <=? i) && (i <? 32) && negb (Z.testbit x i).
Proof.
  unfold not32. rewrite testbit_u32. destruct (Z.leb_spec 0 i); simpl.
  - by rewrite Z.lnot_spec.
  - rewrite Z.testbit_neg_r by lia. apply andb_false_r.
Qed.
#[export] Hint Rewrite testbit_not32 : tbits.

(** *** Bit by bit for concrete indices *)

(** Bit [i] of a word, for each of the 32 indices. *)
Ltac const_testbit := repeat match goal with
  | |- context [Z.testbit (Zpos ?c) ?i] =>
      let r := eval vm_compute in (Z.testbit (Zpos c) i) in change (Z.testbit (Zpos c) i) with r
  end.

(** Constant differences, which [simpl] leaves alone. *)
Ltac eval_sub := repeat match goal with
  | |- context [Zpos ?a - Zpos ?b] =>
      let r := eval vm_compute in (Zpos a - Zpos b) in change (Zpos a - Zpos b) with r
  end.

Lemma testbit_c_bool b i : Z.testbit (c_bool b) i = b && (i =? 0).
Proof. destruct b; [|apply Z.bits_0]. by destruct i as [|[]|]. Qed.

Definition bits32 : list Z := Eval vm_compute in seqZ 0 32.

Lemma word_bits_cases (P : Z -> Prop) :
  Forall P bits32 -> forall i, 0 <= i < 32 -> P i.
Proof. change bits32 with (seqZ 0 32). intros H i Hi. rewrite Forall_seqZ in H. apply H. lia. Qed.

Lemma word_ext a b :
  word a -> word b -> (forall i, 0 <= i < 32 -> Z.testbit a i = Z.testbit b i) -> a = b.
Proof.
  intros Ha Hb H. apply Z.bits_inj'. intros i Hi. destruct (Z.lt_ge_cases i 32).
  - by apply H.
  - by rewrite !word_testbit by done.
Qed.

(** ** Instruction fields *)

Lemma BIT_testbit instr n : 0 <= n -> BIT instr n = c_bool (Z.testbit instr n).
Proof.
  intros Hn. unfold BIT. rewrite (Z.land_ones _ 1), Z.shiftr_div_pow2 by lia.
  change (2 ^ 1) with 2. rewrite <- Z.testbit_spec' by lia.
  by destruct (Z.testbit instr n).
Qed.

Lemma truth_BIT instr n : 0 <= n -> truth (BIT instr n) = Z.testbit instr n.
Proof. intros. rewrite BIT_testbit by done. by destruct (Z.testbit instr n). Qed.

(** [BITS (m, n)] is the field of bits [m] to [n]. *)
Lemma BITS_spec instr m n :
  0 <= m <= n -> n <= 31 -> BITS instr m n = (instr >>> m) &&& Z.ones (n - m + 1).
Proof.
  intros. unfold BITS. apply Z.bits_inj'. intros i Hi. autorewrite with tbits.
  rewrite Z.testbit_ones by lia.
  replace (i + (31 - n + m) - (31 - n)) with (i + m) by lia.
  destruct (Z.leb_spec 0 i), (Z.ltb_spec (i + (31 - n + m)) 32), (Z.ltb_spec i (n - m + 1)),
    (Z.leb_spec 0 (i + (31 - n + m))); simpl; lia || btauto.
Qed.

Lemma BITS_range instr m n : 0 <= m <= n -> n <= 31 -> 0 <= BITS instr m n < 2 ^ (n - m + 1).
Proof.
  intros. rewrite BITS_spec, Z.land_ones by lia. apply Z.mod_pos_bound.
  apply Z.pow_pos_nonneg; lia.
Qed.

Lemma NEG_c_bool a : word a -> NEG a = c_bool (2147483648 <=? a).
Proof.
  unfold word, NEG. intros. rewrite Z.shiftr_div_pow2 by lia. change (2 ^ 31) with 2147483648.
  destruct (Z.leb_spec 2147483648 a); simpl; Z.div_mod_to_equations; lia.
Qed.

Lemma not32_sub a : word a -> not32 a = 4294967295 - a.
Proof. unfold word, not32, Z.lnot, u32. intros. Z.div_mod_to_equations. lia. Qed.

Lemma POS_c_bool a : word a -> POS a = c_bool (a <? 2147483648).
Proof.
  intros Ha. unfold POS. fold (NEG (not32 a)).
  rewrite NEG_c_bool, not32_sub by auto with words. unfold word in Ha. f_equal.
  destruct (Z.leb_spec 2147483648 (4294967295 - a)), (Z.ltb_spec a 2147483648); lia.
Qed.

(** ** Single bits and signs *)

Lemma truth_land_pow2 c n : 0 <= n -> truth (c &&& 2 ^ n) = Z.testbit c n.
Proof.
  intros Hn. unfold truth. destruct (Z.testbit c n) eqn:E.
  - destruct (Z.eqb_spec (c &&& 2 ^ n) 0) as [H0|]; [|done].
    assert (Hb : Z.testbit (c &&& 2 ^ n) n = true) by (by rewrite Z.land_spec, E, Z.pow2_bits_true).
    by rewrite H0, Z.bits_0 in Hb.
  - assert (c &&& 2 ^ n = 0) as ->; [|done]. apply Z.bits_inj'. intros i Hi.
    rewrite Z.land_spec, Z.bits_0, Z.pow2_bits_eqb by done.
    destruct (Z.eqb_spec n i) as [<-|]; [by rewrite E|apply andb_false_r].
Qed.

Lemma land_1_testbit x k : 0 <= k -> (x >>> k) &&& 1 = c_bool (Z.testbit x k).
Proof. apply BIT_testbit. Qed.

Lemma land_1_testbit_0 x : x &&& 1 = c_bool (Z.testbit x 0).
Proof. rewrite <- (land_1_testbit x 0) by lia. done. Qed.

Lemma top_testbit x : word x -> x >>> 31 = c_bool (Z.testbit x 31).
Proof.
  intros Hx. rewrite <- land_1_testbit by lia. change 1 with (Z.ones 1).
  rewrite Z.land_ones_low; [done| |].
  - apply Z.shiftr_nonneg. apply Hx.
  - destruct (Z.eq_dec (x >>> 31) 0) as [->|]; [done|]. apply Z.log2_lt_pow2.
    + assert (0 <= x >>> 31) by (apply Z.shiftr_nonneg; apply Hx). lia.
    + rewrite Z.shiftr_div_pow2 by lia. apply Z.div_lt_upper_bound; [lia|]. unfold word in Hx. lia.
Qed.

Lemma s32_range x : word x -> -2147483648 <= s32 x < 2147483648.
Proof. unfold word, s32. intros. cases_Z; lia. Qed.

Lemma testbit_31 x : word x -> Z.testbit x 31 = (s32 x <? 0).
Proof.
  intros Hx. pose proof (NEG_c_bool x Hx) as E. unfold NEG in E. rewrite top_testbit in E by done.
  assert (Z.testbit x 31 = (2147483648 <=? x)) as -> by (by destruct (Z.testbit x 31), (_ <=? _)).
  unfold s32, word in *. cases_Z; done || lia.
Qed.

Lemma u32_add_l a b : u32 (u32 a + b) = u32 (a + b).
Proof. unfold u32. by rewrite Z.add_mod_idemp_l by lia. Qed.

Lemma word_rd a i : Forall word a -> word (rd a i).
Proof.
  intros Ha. unfold rd. rewrite nth_lookup. destruct (a !! Z.to_nat i) eqn:E; simpl.
  - by apply (Forall_lookup_1 _ _ _ _ Ha E).
  - by compute.
Qed.
