(* ===== verification/Bits.v ===== *)
(** * Words built from fields

    Instruction encodings, and tables indexed by fields of an instruction, are
    words put together from short fields.  [same_bits] proves that two such
    words are equal by comparing them one bit at a time. *)

From S2P Require Import Prelude Words.

(** ** Fields *)

(** [x] fits in [n] bits. *)
Definition fits (n x : Z) : Prop := 0 <= x < 2 ^ n.
#[export] Instance fits_dec n x : Decision (fits n x).
Proof. unfold fits. apply _. Defined.

Lemma fits_word n x : 0 <= n <= 32 -> fits n x -> word x.
Proof. intros. by apply (word_pow2 x n). Qed.

Lemma fits_high n x j : 0 <= n -> fits n x -> (n <=? j) || (j <? 0) = true -> Z.testbit x j = false.
Proof.
  intros Hn Hx Hj. assert (n <= j \/ j < 0) as [?|?] by lia.
  - by apply (testbit_high x n).
  - by apply Z.testbit_neg_r.
Qed.

(** Turns the bounds on the fields into facts about their bits. *)
Ltac fields := repeat match goal with
  | H : _ /\ _ |- _ => destruct H
  | H : fits ?n ?x |- _ =>
      let Hw := fresh "Hw" in let Hb := fresh "Hb" in
      pose proof (fits_word n x ltac:(lia) H) as Hw;
      pose proof (fun j => fits_high n x j ltac:(lia) H) as Hb; clear H
  end.

Ltac abstract_bits := repeat match goal with
  | H : word ?x |- context [Z.testbit ?x _] => is_var x; clear H; generalize dependent (Z.testbit x); intros
  end.

Ltac low_bits := repeat match goal with
  | H : forall j, _ -> ?f j = false |- context [?f ?k] => first [rewrite (H k eq_refl) | rewrite (H k) by lia]
  end.

Lemma testbit_if (b : bool) x i : Z.testbit (if b then x else 0) i = b && Z.testbit x i.
Proof. destruct b; [done|apply Z.bits_0]. Qed.

(** An equation between words built from fields: bits 32 and above are clear
    on both sides, the others are compared one index at a time. *)
Lemma bits_ext a b :
  (forall i, 0 <= i < 32 -> Z.testbit a i = Z.testbit b i) ->
  (forall i, 32 <= i -> Z.testbit a i = false) -> (forall i, 32 <= i -> Z.testbit b i = false) -> a = b.
Proof.
  intros H Ha Hb. apply Z.bits_inj'. intros i Hi. destruct (Z.lt_ge_cases i 32).
  - by apply H.
  - by rewrite Ha, Hb.
Qed.

Ltac const_high := repeat match goal with
  | |- context [Z.testbit (Zpos ?c) ?k] =>
      let r := eval vm_compute in (Z.log2 (Zpos c)) in
      rewrite (Z.bits_above_log2 (Zpos c) k) by (first [lia | change (r < k); lia])
  end.

Ltac case_bits := repeat match goal with
  | |- context [?f ?k] => is_var f; destruct (f k)
  end; reflexivity.

Ltac high_clear :=
  let i := fresh "i" in let Hi := fresh "Hi" in
  intros i Hi; autorewrite with tbits; low_bits; const_high;
  rewrite ?andb_false_r, ?andb_false_l; simpl; rewrite ?andb_false_r; reflexivity.

Ltac same_bits :=
  let i := fresh "i" in let Hi := fresh "Hi" in
  apply bits_ext; [|abstract high_clear|abstract high_clear];
  intros i Hi; autorewrite with tbits; abstract_bits;
  revert i Hi; apply word_bits_cases; repeat constructor; vm_compute; low_bits;
  first [reflexivity | case_bits].

(** Short fields by cases. *)
Lemma fits2_cases x : fits 2 x -> x = 0 \/ x = 1 \/ x = 2 \/ x = 3.
Proof. unfold fits. change (2 ^ 2) with 4. lia. Qed.

Lemma fits4_cases x : fits 4 x -> x ∈ seqZ 0 16.
Proof. unfold fits. change (2 ^ 4) with 16. intros. rewrite elem_of_seqZ. lia. Qed.

(** ** Constants *)

(** Evaluates the comparisons of constants of a goal. *)
Ltac is_Z_const a := lazymatch a with Z0 => idtac | Zpos _ => idtac | Zpos _ ||| Z0 => idtac | Zpos _ ||| Zpos _ => idtac end.
Ltac eval_cmp := repeat match goal with
  | |- context [?a <=? ?b] => is_Z_const a; is_Z_const b;
      let r := eval vm_compute in (a <=? b) in change (a <=? b) with r
  | |- context [?a =? ?b] => is_Z_const a; is_Z_const b;
      let r := eval vm_compute in (a =? b) in change (a =? b) with r
  end; cbv iota.

Lemma mul4 x : 4 * x = x <<< 2.
Proof. by rewrite Z.shiftl_mul_pow2, Z.mul_comm by lia. Qed.
Lemma mul2 x : 2 * x = x <<< 1.
Proof. by rewrite Z.shiftl_mul_pow2, Z.mul_comm by lia. Qed.

Lemma add_lor_shift x y k : 0 <= k -> 0 <= y < 2 ^ k -> (x <<< k) + y = (x <<< k) ||| y.
Proof.
  intros Hk Hy. rewrite <- Z.lxor_lor; [apply Z.add_nocarry_lxor|];
    (apply Z.bits_inj'; intros i Hi; rewrite Z.land_spec, testbit_shiftl, Z.bits_0;
     destruct (Z.lt_ge_cases i k); [rewrite (Z.testbit_neg_r x) by lia; by rewrite andb_false_r|];
     rewrite (testbit_high y k) by lia; apply andb_false_r).
Qed.

(** ** Tables *)

(** An equation on a short field, checked for all its values. *)
Lemma offset_table n (f : Z -> Z) (g : Z -> Z) :
  0 <= n -> forallb (fun x => f x =? g x) (seqZ 0 (2 ^ n)) = true -> forall x, fits n x -> f x = g x.
Proof.
  intros Hn Hall x Hx. rewrite forallb_forall in Hall. apply Z.eqb_eq, Hall.
  apply list_elem_of_In, elem_of_seqZ. unfold fits in Hx. lia.
Qed.
