(* ===== verification/ArmState.v ===== *)
(** * The state of the ARM core

    The part of [struct ARMul_State] (armdefs.h) that the modelled code reads
    or writes, with the constants and flag macros of armdefs.h and armemu.h.
    Flags and signals are the 0/1 words the sources keep. *)

From S2P Require Import Prelude Words.

(** ** Modes, banks and constants *)

Definition USER26MODE := 0.
Definition FIQ26MODE := 1.
Definition IRQ26MODE := 2.
Definition SVC26MODE := 3.
Definition USER32MODE := 16.
Definition FIQ32MODE := 17.
Definition IRQ32MODE := 18.
Definition SVC32MODE := 19.
Definition ABORT32MODE := 23.
Definition UNDEF32MODE := 27.
Definition SYSTEM32MODE := 31.

Inductive bank := USERBANK | FIQBANK | IRQBANK | SVCBANK | ABORTBANK | UNDEFBANK | DUMMYBANK.
#[export] Instance bank_eq_dec : EqDecision bank.
Proof. solve_decision. Defined.

(** The number armdefs.h gives a bank ([SYSTEMBANK] is [USERBANK]). *)
Definition bank_index (b : bank) : Z :=
  match b with
  | USERBANK => 0 | FIQBANK => 1 | IRQBANK => 2 | SVCBANK => 3
  | ABORTBANK => 4 | UNDEFBANK => 5 | DUMMYBANK => 6
  end.

Definition BANK_CAN_ACCESS_SPSR (b : bank) : bool :=
  bool_decide (b <> USERBANK /\ b <> DUMMYBANK).

Definition LOW := 0.
Definition HIGH := 1.

(** Values of [Emulate]. *)
Definition STOP := 0.
Definition CHANGEMODE := 1.
Definition ONCE := 2.
Definition RUN := 3.

(** Values of [NextInstr]. *)
Definition SEQ := 0.
Definition NONSEQ := 1.
Definition PCINCEDSEQ := 2.
Definition PCINCEDNONSEQ := 3.
Definition PRIMEPIPE := 4.
Definition RESUME := 8.

Definition NBIT := 2147483648.
Definition ZBIT := 1073741824.
Definition CBIT := 536870912.
Definition VBIT := 268435456.
Definition SBIT := 134217728.
Definition IBIT := 128.
Definition FBIT := 64.
Definition TBIT := 32.

Definition PSR_FBITS := 0xff000000.
Definition PSR_SBITS := 0x00ff0000.
Definition PSR_XBITS := 0x0000ff00.
Definition PSR_CBITS := 0x000000ff.

(** [CCBITS] with [MODET]; [PCBITS] and [R15PCBITS] as the files other than
    armemu32.o see them, and as armemu32.o does. *)
Definition CCBITS := 0xf8000000.
Definition INTBITS := 0xc0.
Definition MODEBITS := 0x1f.
Definition R15INTBITS := 0x0c000000.
Definition R15MODEBITS := 3.
Definition PCBITS := 0xfffffffc.
Definition R15PCBITS := 0x03fffffc.
Definition PCBITS_MODE32 := 0xffffffff.

(** Exception vectors. *)
Definition ARMul_ResetV := 0.
Definition ARMul_UndefinedInstrV := 4.
Definition ARMul_SWIV := 8.
Definition ARMul_PrefetchAbortV := 12.
Definition ARMul_DataAbortV := 16.
Definition ARMul_AddrExceptnV := 20.
Definition ARMul_IRQV := 24.
Definition ARMul_FIQV := 28.

Definition CONTROL_VECTOR := 8192.

(** ** The record

    [isize] is the global of armemu.c, the size of the current instruction. *)

Record ARMul_State := mkState {
  Emulate : Z; EndCondition : Z; ErrorCode : Z;
  Reg : list Z; RegBank : list (list Z); Cpsr : Z; Spsr : list Z;
  NFlag : Z; ZFlag : Z; CFlag : Z; VFlag : Z; IFFlags : Z; SFlag : Z; TFlag : Z;
  Bank : bank; Mode : Z;
  st_pc : Z; st_loaded : Z; st_decoded : Z;
  NumScycles : Z; NumNcycles : Z; NumIcycles : Z; NumCcycles : Z; NumFcycles : Z;
  NumInstrs : Z; NextInstr : Z;
  NresetSig : Z; NfiqSig : Z; NirqSig : Z; abortSig : Z; NtransSig : Z;
  bigendSig : Z; prog32Sig : Z; data32Sig : Z; lateabtSig : Z;
  Aborted : Z; Base : Z; AbortAddr : Z;
  mmu_control : Z; mmu_fault_status : Z; mmu_fault_address : Z; mmu_last_domain : Z;
  is_v4 : Z; is_v5 : Z; is_v5e : Z; is_v6 : Z; is_XScale : Z; is_iWMMXt : Z;
  is_ep9312 : Z; is_pxa27x : Z;
  vector_remap_flag : Z; vector_remap_addr : Z; vector_remap_size : Z;
  tea_break_ok : Z; tea_break_addr : Z; tea_pc : Z;
  isize : Z
}.

#[export] Instance eta_ARMul_State : Eta ARMul_State := fun s => mkState
  (Emulate s) (EndCondition s) (ErrorCode s)
  (Reg s) (RegBank s) (Cpsr s) (Spsr s)
  (NFlag s) (ZFlag s) (CFlag s) (VFlag s) (IFFlags s) (SFlag s) (TFlag s)
  (Bank s) (Mode s)
  (st_pc s) (st_loaded s) (st_decoded s)
  (NumScycles s) (NumNcycles s) (NumIcycles s) (NumCcycles s) (NumFcycles s)
  (NumInstrs s) (NextInstr s)
  (NresetSig s) (NfiqSig s) (NirqSig s) (abortSig s) (NtransSig s)
  (bigendSig s) (prog32Sig s) (data32Sig s) (lateabtSig s)
  (Aborted s) (Base s) (AbortAddr s)
  (mmu_control s) (mmu_fault_status s) (mmu_fault_address s) (mmu_last_domain s)
  (is_v4 s) (is_v5 s) (is_v5e s) (is_v6 s) (is_XScale s) (is_iWMMXt s)
  (is_ep9312 s) (is_pxa27x s)
  (vector_remap_flag s) (vector_remap_addr s) (vector_remap_size s)
  (tea_break_ok s) (tea_break_addr s) (tea_pc s)
  (isize s).

(** ** Registers *)

Definition reg (s : ARMul_State) (i : Z) : Z := rd (Reg s) i.
Definition set_reg (i v : Z) (s : ARMul_State) : ARMul_State := s <| Reg ::= fun r => wr r i v |>.
Definition bank_reg (s : ARMul_State) (b : bank) (i : Z) : Z :=
  rd (nth (Z.to_nat (bank_index b)) (RegBank s) []) i.
Definition set_bank_reg (b : bank) (i v : Z) (s : ARMul_State) : ARMul_State :=
  s <| RegBank ::= fun m =>
         wr m (bank_index b) (wr (nth (Z.to_nat (bank_index b)) m []) i v) |>.
Definition spsr (s : ARMul_State) (b : bank) : Z := rd (Spsr s) (bank_index b).
Definition set_spsr (b : bank) (v : Z) (s : ARMul_State) : ARMul_State :=
  s <| Spsr ::= fun p => wr p (bank_index b) v |>.

(** ** Flag and PSR macros of armemu.h *)

Definition ARMul_MODE32BIT (s : ARMul_State) : bool := 3 <? Mode s.
Definition ARMul_MODE26BIT (s : ARMul_State) : bool := Mode s <=? 3.

Definition INSN_SIZE (s : ARMul_State) : Z := if truth (TFlag s) then 2 else 4.

Definition IFLAG (s : ARMul_State) : Z := IFFlags s >>> 1.
Definition FFLAG (s : ARMul_State) : Z := IFFlags s &&& 1.

Definition ECC (s : ARMul_State) : Z :=
  shl32 (NFlag s) 31 ||| shl32 (ZFlag s) 30 ||| shl32 (CFlag s) 29 ||| shl32 (VFlag s) 28
  ||| shl32 (SFlag s) 27.
Definition EINT (s : ARMul_State) : Z := shl32 (IFFlags s) 6.
Definition ER15INT (s : ARMul_State) : Z := shl32 (IFFlags s) 26.
Definition EMODE (s : ARMul_State) : Z := Mode s.
Definition CPSR (s : ARMul_State) : Z :=
  ECC s ||| EINT s ||| EMODE s ||| shl32 (TFlag s) 5.

Definition R15PC (s : ARMul_State) : Z := reg s 15 &&& R15PCBITS.
Definition R15INT (s : ARMul_State) : Z := reg s 15 &&& R15INTBITS.
Definition R15MODE (s : ARMul_State) : Z := reg s 15 &&& R15MODEBITS.
Definition R15CCINTMODE (s : ARMul_State) : Z :=
  reg s 15 &&& (CCBITS ||| R15INTBITS ||| R15MODEBITS).

Definition ASSIGNN (b : bool) (s : ARMul_State) := s <| NFlag := c_bool b |>.
Definition ASSIGNZ (b : bool) (s : ARMul_State) := s <| ZFlag := c_bool b |>.
Definition ASSIGNC (v : Z) (s : ARMul_State) := s <| CFlag := v |>.
Definition ASSIGNV (b : bool) (s : ARMul_State) := s <| VFlag := c_bool b |>.
Definition ASSIGNS (b : bool) (s : ARMul_State) := s <| SFlag := c_bool b |>.
Definition ASSIGNT (b : bool) (s : ARMul_State) := s <| TFlag := c_bool b |>.
Definition ASSIGNINT (res : Z) (s : ARMul_State) := s <| IFFlags := (res >>> 6) &&& 3 |>.
Definition ASSIGNR15INT (res : Z) (s : ARMul_State) := s <| IFFlags := (res >>> 26) &&& 3 |>.

Definition SETPSR (mask d s : Z) : Z := (d &&~ mask) ||| (s &&& mask).

(** Starting the next instruction (armemu.h). *)
Definition NORMALCYCLE (s : ARMul_State) := s <| NextInstr := 0 |>.
Definition BUSUSEDN (s : ARMul_State) := s <| NextInstr ::= fun n => n ||| 1 |>.
Definition BUSUSEDINCPCS (s : ARMul_State) : ARMul_State :=
  if truth (is_v4 s) then s
  else let s := set_reg 15 (add32 (reg s 15) (isize s)) s in
       s <| NextInstr ::= fun n => n &&& 0xff ||| 2 |>.
Definition BUSUSEDINCPCN (s : ARMul_State) : ARMul_State :=
  if truth (is_v4 s) then BUSUSEDN s
  else let s := set_reg 15 (add32 (reg s 15) (isize s)) s in
       s <| NextInstr ::= fun n => n ||| 3 |>.
Definition INCPC (s : ARMul_State) : ARMul_State :=
  let s := set_reg 15 (add32 (reg s 15) (isize s)) s in
  s <| NextInstr ::= fun n => n ||| 2 |>.
Definition FLUSHPIPE (s : ARMul_State) : ARMul_State :=
  s <| NextInstr ::= fun n => n ||| PRIMEPIPE |>.

(** ** Well-formed states

    What [ARMul_NewState] and [ARMul_Reset] establish and every operation
    below keeps: the arrays have their C sizes and hold words, the flags are
    0 or 1, and the bank is the one of the mode. *)

Definition bit (x : Z) : Prop := x = 0 \/ x = 1.

Record wf (s : ARMul_State) : Prop := {
  wf_Reg_len : length (Reg s) = 16%nat;
  wf_Reg : Forall word (Reg s);
  wf_RegBank_len : length (RegBank s) = 7%nat;
  wf_RegBank : Forall (fun r => length r = 16%nat /\ Forall word r) (RegBank s);
  wf_Spsr_len : length (Spsr s) = 7%nat;
  wf_Spsr : Forall word (Spsr s);
  wf_Cpsr : word (Cpsr s);
  wf_NFlag : bit (NFlag s);
  wf_ZFlag : bit (ZFlag s);
  wf_CFlag : bit (CFlag s);
  wf_VFlag : bit (VFlag s);
  wf_SFlag : bit (SFlag s);
  wf_TFlag : bit (TFlag s);
  wf_IFFlags : 0 <= IFFlags s < 4;
  wf_Mode : 0 <= Mode s < 32
}.

(** A concrete state, for the witnesses: user mode, everything else zero. *)
Definition zero_state : ARMul_State := mkState
  0 0 0 (replicate 16 0) (replicate 7 (replicate 16 0)) 16 (replicate 7 0)
  0 0 0 0 0 0 0 USERBANK USER32MODE
  0 0 0 0 0 0 0 0 0 0
  1 1 1 0 0 0 1 1 1
  0 0 1 0x70 0 0 0
  1 0 0 0 0 0 0 0
  0 0 0 0 0 0 4.
