(* ===== verification/ArmSupp.v ===== *)
(** * armsupp.c: registers, processor modes and flags

    The support routines of the core: access to the registers of a mode and
    to the PSRs, the switch between register banks, the condition flags, and
    the rotation of unaligned words. *)

From S2P Require Import Prelude Words ArmState.

(** ** Register banks *)

Definition bankofmode : list bank :=
  [USERBANK; FIQBANK; IRQBANK; SVCBANK;
   DUMMYBANK; DUMMYBANK; DUMMYBANK; DUMMYBANK;
   DUMMYBANK; DUMMYBANK; DUMMYBANK; DUMMYBANK;
   DUMMYBANK; DUMMYBANK; DUMMYBANK; DUMMYBANK;
   USERBANK; FIQBANK; IRQBANK; SVCBANK;
   DUMMYBANK; DUMMYBANK; DUMMYBANK; ABORTBANK;
   DUMMYBANK; DUMMYBANK; DUMMYBANK; UNDEFBANK;
   DUMMYBANK; DUMMYBANK; DUMMYBANK; USERBANK (* SYSTEMBANK *)].

Definition ModeToBank (mode : Z) : bank :=
  if 32 <=? mode then DUMMYBANK else nth (Z.to_nat mode) bankofmode DUMMYBANK.

(** The two switches of [ARMul_SwitchMode].  Its [default: abort ()] arms are
    for a bank number other than the seven, which [ModeToBank] never gives. *)
Definition SwitchMode_save (oldbank newbank : bank) (s : ARMul_State) : ARMul_State :=
  match oldbank with
  | USERBANK | IRQBANK | SVCBANK | ABORTBANK | UNDEFBANK =>
      let s := if decide (newbank = FIQBANK)
               then for_range 8 13 (fun i s => set_bank_reg USERBANK i (reg s i) s) s
               else s in
      let s := set_bank_reg oldbank 13 (reg s 13) s in
      set_bank_reg oldbank 14 (reg s 14) s
  | FIQBANK => for_range 8 15 (fun i s => set_bank_reg FIQBANK i (reg s i) s) s
  | DUMMYBANK => for_range 8 15 (fun i s => set_bank_reg DUMMYBANK i 0 s) s
  end.

Definition SwitchMode_restore (oldbank newbank : bank) (s : ARMul_State) : ARMul_State :=
  match newbank with
  | USERBANK | IRQBANK | SVCBANK | ABORTBANK | UNDEFBANK =>
      let s := if decide (oldbank = FIQBANK)
               then for_range 8 13 (fun i s => set_reg i (bank_reg s USERBANK i) s) s
               else s in
      let s := set_reg 13 (bank_reg s newbank 13) s in
      set_reg 14 (bank_reg s newbank 14) s
  | FIQBANK => for_range 8 15 (fun i s => set_reg i (bank_reg s FIQBANK i) s) s
  | DUMMYBANK => for_range 8 15 (fun i s => set_reg i 0 s) s
  end.

(** The state after [ARMul_SwitchMode (state, oldmode, newmode)], whose return
    value is [newmode]. *)
Definition ARMul_SwitchMode (oldmode newmode : Z) (s : ARMul_State) : ARMul_State :=
  let oldbank := ModeToBank oldmode in
  let newbank := ModeToBank newmode in
  let s := s <| Bank := newbank |> in
  if decide (oldbank <> newbank)
  then SwitchMode_restore oldbank newbank (SwitchMode_save oldbank newbank s)
  else s.

(** ** Registers of a mode *)

Definition ARMul_GetReg (s : ARMul_State) (mode r : Z) : Z :=
  let mode := mode &&& MODEBITS in
  if mode =? Mode s then reg s r else bank_reg s (ModeToBank mode) r.

Definition ARMul_SetReg (mode r value : Z) (s : ARMul_State) : ARMul_State :=
  let mode := mode &&& MODEBITS in
  if mode =? Mode s then set_reg r value s else set_bank_reg (ModeToBank mode) r value s.

Definition ARMul_GetPC (s : ARMul_State) : Z :=
  if SVC26MODE <? Mode s then reg s 15 else R15PC s.

Definition ARMul_GetNextPC (s : ARMul_State) : Z :=
  if SVC26MODE <? Mode s then add32 (reg s 15) (isize s)
  else add32 (reg s 15) (isize s) &&& R15PCBITS.

Definition ARMul_SetPC (value : Z) (s : ARMul_State) : ARMul_State :=
  let s := if ARMul_MODE32BIT s then set_reg 15 (value &&& PCBITS) s
           else set_reg 15 (R15CCINTMODE s ||| (value &&& R15PCBITS)) s in
  FLUSHPIPE s.

Definition ARMul_GetR15 (s : ARMul_State) : Z :=
  if SVC26MODE <? Mode s then reg s 15 else R15PC s ||| ECC s ||| ER15INT s ||| EMODE s.

(** ** Program status registers *)

Definition ARMul_GetCPSR (s : ARMul_State) : Z := CPSR s.

(** The unpacking below reads [state->Cpsr] (or [state->Reg[15]]) into one name,
    as no step in between changes it.

    [if (state->Mode != mode) { SwitchMode; NtransSig = ... }], shared by
    [ARMul_CPSRAltered] and [ARMul_R15Altered]. *)
Definition change_mode (mode : Z) (s : ARMul_State) : ARMul_State :=
  if Mode s =? mode then s
  else let s := (ARMul_SwitchMode (Mode s) mode s) <| Mode := mode |> in
       s <| NtransSig := if truth (Mode s &&& 3) then HIGH else LOW |>.

Definition ARMul_CPSRAltered (s : ARMul_State) : ARMul_State :=
  let s := if prog32Sig s =? LOW
           then s <| Cpsr ::= fun c => c &&& (CCBITS ||| INTBITS ||| R15MODEBITS) |> else s in
  let oldmode := Mode s in
  let c := Cpsr s in
  let s := change_mode (c &&& MODEBITS) s in
  let s := ASSIGNINT (c &&& INTBITS) s in
  let s := ASSIGNN (truth (c &&& NBIT)) s in
  let s := ASSIGNZ (truth (c &&& ZBIT)) s in
  let s := ASSIGNC (c_bool (truth (c &&& CBIT))) s in
  let s := ASSIGNV (truth (c &&& VBIT)) s in
  let s := ASSIGNS (truth (c &&& SBIT)) s in
  let s := ASSIGNT (truth (c &&& TBIT)) s in
  if SVC26MODE <? oldmode then
    if Mode s <=? SVC26MODE then
      let s := s <| Emulate := CHANGEMODE |> in
      set_reg 15 (ECC s ||| ER15INT s ||| EMODE s ||| R15PC s) s
    else s
  else
    if SVC26MODE <? Mode s then
      let s := s <| Emulate := CHANGEMODE |> in
      set_reg 15 (R15PC s) s
    else set_reg 15 (ECC s ||| ER15INT s ||| EMODE s ||| R15PC s) s.

Definition ARMul_SetCPSR (value : Z) (s : ARMul_State) : ARMul_State :=
  ARMul_CPSRAltered (s <| Cpsr := value |>).

Definition ARMul_R15Altered (s : ARMul_State) : ARMul_State :=
  let s := change_mode (R15MODE s) s in
  let s := if SVC26MODE <? Mode s then s <| Emulate := CHANGEMODE |> else s in
  let r15 := reg s 15 in
  let s := ASSIGNR15INT (r15 &&& R15INTBITS) s in
  let s := ASSIGNN (truth (r15 &&& NBIT)) s in
  let s := ASSIGNZ (truth (r15 &&& ZBIT)) s in
  let s := ASSIGNC (c_bool (truth (r15 &&& CBIT))) s in
  ASSIGNV (truth (r15 &&& VBIT)) s.

Definition ARMul_SetR15 (value : Z) (s : ARMul_State) : ARMul_State :=
  let s := if ARMul_MODE32BIT s then set_reg 15 (value &&& PCBITS) s
           else ARMul_R15Altered (set_reg 15 value s) in
  FLUSHPIPE s.

Definition ARMul_FixCPSR (instr rhs : Z) (s : ARMul_State) : ARMul_State :=
  let s := s <| Cpsr := ARMul_GetCPSR s |> in
  let s := if negb (Mode s =? USER26MODE) && negb (Mode s =? USER32MODE) then
             let s := if truth (BIT instr 16) then s <| Cpsr ::= fun c => SETPSR PSR_CBITS c rhs |> else s in
             let s := if truth (BIT instr 17) then s <| Cpsr ::= fun c => SETPSR PSR_XBITS c rhs |> else s in
             if truth (BIT instr 18) then s <| Cpsr ::= fun c => SETPSR PSR_SBITS c rhs |> else s
           else s in
  let s := if truth (BIT instr 19) then s <| Cpsr ::= fun c => SETPSR PSR_FBITS c rhs |> else s in
  ARMul_CPSRAltered s.

Definition ARMul_GetSPSR (s : ARMul_State) (mode : Z) : Z :=
  let b := ModeToBank (mode &&& MODEBITS) in
  if negb (BANK_CAN_ACCESS_SPSR b) then ARMul_GetCPSR s else spsr s b.

Definition ARMul_SetSPSR (mode value : Z) (s : ARMul_State) : ARMul_State :=
  let b := ModeToBank (mode &&& MODEBITS) in
  if BANK_CAN_ACCESS_SPSR b then set_spsr b value s else s.

Definition ARMul_FixSPSR (instr rhs : Z) (s : ARMul_State) : ARMul_State :=
  let fix_field (n mask : Z) (s : ARMul_State) :=
    if truth (BIT instr n) then set_spsr (Bank s) (SETPSR mask (spsr s (Bank s)) rhs) s else s in
  if BANK_CAN_ACCESS_SPSR (Bank s) then
    fix_field 19 PSR_FBITS (fix_field 18 PSR_SBITS (fix_field 17 PSR_XBITS
      (fix_field 16 PSR_CBITS s)))
  else s.

(** ** Condition flags *)

Definition ARMul_NegZero (result : Z) (s : ARMul_State) : ARMul_State :=
  if truth (NEG result) then s <| NFlag := 1 |> <| ZFlag := 0 |>
  else if result =? 0 then s <| NFlag := 0 |> <| ZFlag := 1 |>
  else s <| NFlag := 0 |> <| ZFlag := 0 |>.

Definition AddOverflow (a b result : Z) : bool :=
  (truth (NEG a) && truth (NEG b) && truth (POS result))
  || (truth (POS a) && truth (POS b) && truth (NEG result)).

Definition SubOverflow (a b result : Z) : bool :=
  (truth (NEG a) && truth (POS b) && truth (POS result))
  || (truth (POS a) && truth (NEG b) && truth (NEG result)).

Definition ARMul_AddCarry (a b result : Z) (s : ARMul_State) : ARMul_State :=
  ASSIGNC (c_bool ((truth (NEG a) && truth (NEG b))
                   || (truth (NEG a) && truth (POS result))
                   || (truth (NEG b) && truth (POS result)))) s.

Definition ARMul_AddOverflow (a b result : Z) (s : ARMul_State) : ARMul_State :=
  ASSIGNV (AddOverflow a b result) s.

Definition ARMul_SubCarry (a b result : Z) (s : ARMul_State) : ARMul_State :=
  ASSIGNC (c_bool ((truth (NEG a) && truth (POS b))
                   || (truth (NEG a) && truth (POS result))
                   || (truth (POS b) && truth (POS result)))) s.

Definition ARMul_SubOverflow (a b result : Z) (s : ARMul_State) : ARMul_State :=
  ASSIGNV (SubOverflow a b result) s.

(** ** Register lists, alignment and time *)

(** The loop of [ARMul_NthReg].  [BIT (bit)] with [bit >= 32] is a shift by
    the width of the word, undefined in C, and gives [None]; [fuel] bounds the
    32 iterations before that. *)
Fixpoint NthReg_loop (fuel : nat) (instr number bit upto : Z) : option Z :=
  if number <? upto then Some (bit - 1)
  else if 32 <=? bit then None
  else match fuel with
       | O => None
       | S f => NthReg_loop f instr number (bit + 1)
                  (if truth (BIT instr bit) then upto + 1 else upto)
       end.

Definition ARMul_NthReg (instr number : Z) : option Z := NthReg_loop 32 instr number 0 0.

(** [None] for an aligned address: the shift by 32 is undefined in C, as the
    comment of the source says. *)
Definition ARMul_Align (address data : Z) : option Z :=
  let address := (address &&& 3) <<< 3 in
  if address =? 0 then None
  else Some ((data >>> address) ||| shl32 data (32 - address)).

Definition ARMul_Time (s : ARMul_State) : Z :=
  u32 (NumScycles s + NumNcycles s + NumIcycles s + NumCcycles s + NumFcycles s).

(** The word a fetch or a load that aborts gives (armdefs.h). *)
Definition ARMul_ABORTWORD (s : ARMul_State) : Z :=
  if truth (TFlag s) then 0xefffdfff else 0xefffffff.
