(* ===== verification/ArmBanks.v ===== *)
(** * The banked register file

    [ARMul_SwitchMode] copies registers between [Reg] and [RegBank].  The
    abstraction [phys] is the register file of the architecture: which value
    register [r] has in mode [m], wherever the emulator currently keeps it.  A
    switch between modes of the architecture leaves [phys] alone, so that
    the emulator's copying implements register banking. *)

From S2P Require Import Prelude Words ArmState ArmSupp.

(** ** Well-formedness of arrays and updates *)

Lemma bank_index_bound b : 0 <= bank_index b < 7.
Proof. destruct b; simpl; lia. Qed.

Lemma bank_index_inj b b' : bank_index b = bank_index b' -> b = b'.
Proof. by destruct b, b'. Qed.

Definition bank_ok (r : list Z) : Prop := length r = 16%nat /\ Forall word r.

Lemma RegBank_row s b : wf s -> bank_ok (nth (Z.to_nat (bank_index b)) (RegBank s) []).
Proof.
  intros Hwf. pose proof (bank_index_bound b). rewrite nth_lookup.
  destruct (RegBank s !! Z.to_nat (bank_index b)) eqn:E; simpl.
  - by apply (Forall_lookup_1 _ _ _ _ (wf_RegBank s Hwf) E).
  - apply lookup_ge_None in E. rewrite (wf_RegBank_len s Hwf) in E. lia.
Qed.

(** Updates that touch no field of [wf], or one of them. *)
Ltac wf_frame := match goal with
  | H : wf ?s |- wf _ => destruct H; constructor; upds; auto
  end.

Lemma word_reg s i : wf s -> word (reg s i).
Proof. intros []. by apply word_rd. Qed.
Lemma word_bank_reg s b i : wf s -> word (bank_reg s b i).
Proof. intros. apply word_rd. by apply RegBank_row. Qed.
Lemma word_spsr s b : wf s -> word (spsr s b).
Proof. intros []. by apply word_rd. Qed.

Lemma wf_set_reg i v s : wf s -> word v -> wf (set_reg i v s).
Proof.
  intros Hwf Hv. unfold set_reg. wf_frame.
  - by rewrite length_wr.
  - by apply Forall_wr.
Qed.

Lemma wf_set_bank_reg b i v s : wf s -> word v -> wf (set_bank_reg b i v s).
Proof.
  intros Hwf Hv. pose proof (RegBank_row s b Hwf) as [Hl Hw]. unfold set_bank_reg. wf_frame.
  - by rewrite length_wr.
  - apply Forall_wr; [done|]. split; [by rewrite length_wr|by apply Forall_wr].
Qed.

Lemma wf_set_spsr b v s : wf s -> word v -> wf (set_spsr b v s).
Proof.
  intros Hwf Hv. unfold set_spsr. wf_frame.
  - by rewrite length_wr.
  - by apply Forall_wr.
Qed.

Lemma wf_Bank b s : wf s -> wf (s <| Bank := b |>).
Proof. intros Hwf. wf_frame. Qed.

Create HintDb wf.
#[export] Hint Resolve word_reg word_bank_reg word_spsr word_rd : words.
#[export] Hint Resolve wf_set_reg wf_set_bank_reg wf_set_spsr wf_Bank : wf.

Lemma wf_zero_state : wf zero_state.
Proof.
  assert (H0 : word 0) by (unfold word; lia).
  assert (Hr : forall n, Forall word (replicate n 0)) by (intros; by apply Forall_replicate).
  constructor; cbn -[replicate];
    first [ exact (Hr _) | reflexivity | by left | unfold word; lia | unfold USER32MODE; lia | idtac ].
  apply Forall_replicate. split; [done|apply Hr].
Qed.

(** ** Reads after writes *)

Lemma reg_set_reg s i j v :
  wf s -> 0 <= i < 16 -> 0 <= j < 16 -> reg (set_reg i v s) j = if j =? i then v else reg s j.
Proof.
  intros [Hl _] Hi Hj. unfold reg, set_reg. upds. destruct (Z.eqb_spec j i) as [->|].
  - apply rd_wr_eq. rewrite Hl. lia.
  - apply rd_wr_ne; lia.
Qed.

Lemma bank_reg_set_bank_reg s b i v b' j :
  wf s -> 0 <= i < 16 -> 0 <= j < 16 ->
  bank_reg (set_bank_reg b i v s) b' j =
  if bool_decide (b' = b) && (j =? i) then v else bank_reg s b' j.
Proof.
  intros Hwf Hi Hj. unfold bank_reg, set_bank_reg. upds.
  pose proof (bank_index_bound b). pose proof (bank_index_bound b').
  destruct (RegBank_row s b Hwf) as [Hrow _]. unfold wr at 1. rewrite nth_lookup.
  case_bool_decide as Hb; [subst b'|].
  - rewrite list_lookup_insert_eq by (rewrite (wf_RegBank_len s Hwf); lia). simpl.
    destruct (Z.eqb_spec j i) as [->|].
    + apply rd_wr_eq. rewrite Hrow. lia.
    + by apply rd_wr_ne; lia.
  - rewrite list_lookup_insert_ne.
    + by rewrite nth_lookup.
    + intros E. apply Hb. symmetry. apply bank_index_inj. lia.
Qed.

Lemma reg_set_bank_reg s b i v j : reg (set_bank_reg b i v s) j = reg s j.
Proof. reflexivity. Qed.
Lemma bank_reg_set_reg s i v b j : bank_reg (set_reg i v s) b j = bank_reg s b j.
Proof. reflexivity. Qed.

(** ** The copying loops of [ARMul_SwitchMode] *)

(** What saving registers [lo] to [hi - 1] in bank [b] does. *)
Record saved (b : bank) (lo hi : Z) (s s' : ARMul_State) : Prop := {
  saved_wf : wf s';
  saved_frame : s' = s <| RegBank := RegBank s' |>;
  saved_bank : forall b' j, 0 <= j < 16 -> bank_reg s' b' j =
    if bool_decide (b' = b) && (lo <=? j) && (j <? hi) then reg s j else bank_reg s b' j
}.

(** What loading registers [lo] to [hi - 1] from bank [b] does. *)
Record loaded_regs (b : bank) (lo hi : Z) (s s' : ARMul_State) : Prop := {
  loaded_wf : wf s';
  loaded_frame : s' = s <| Reg := Reg s' |>;
  loaded_reg : forall j, 0 <= j < 16 -> reg s' j =
    if (lo <=? j) && (j <? hi) then bank_reg s b j else reg s j
}.

Lemma saved_same s b lo : wf s -> saved b lo lo s s.
Proof.
  split; [done|by destruct s|]. intros b' j Hj.
  destruct (bool_decide (b' = b)), (Z.leb_spec lo j), (Z.ltb_spec j lo); simpl; done || lia.
Qed.

Lemma loaded_same s b lo : wf s -> loaded_regs b lo lo s s.
Proof.
  split; [done|by destruct s|]. intros j Hj.
  destruct (Z.leb_spec lo j), (Z.ltb_spec j lo); simpl; done || lia.
Qed.

Lemma saved_step s s' b lo i :
  0 <= i < 16 -> lo <= i -> saved b lo i s s' -> saved b lo (i + 1) s (set_bank_reg b i (reg s' i) s').
Proof.
  intros Hi Hlo [Hwf Hf Hb].
  assert (Hreg : forall j, reg s' j = reg s j) by (intros; rewrite Hf; reflexivity).
  split; [auto with wf words|rewrite Hf; reflexivity|].
  intros b' j Hj. rewrite bank_reg_set_bank_reg by done. rewrite Hb, Hreg by done.
  case_bool_decide; simpl; [|done].
  destruct (Z.eqb_spec j i); subst; [|].
  - replace (lo <=? i) with true by lia. by replace (i <? i + 1) with true by lia.
  - by replace (j <? i + 1) with (j <? i) by lia.
Qed.

Lemma loaded_step s s' b lo i :
  0 <= i < 16 -> lo <= i -> loaded_regs b lo i s s' -> loaded_regs b lo (i + 1) s (set_reg i (bank_reg s' b i) s').
Proof.
  intros Hi Hlo [Hwf Hf Hb].
  assert (Hreg : forall j, bank_reg s' b j = bank_reg s b j) by (intros; rewrite Hf; reflexivity).
  split; [auto with wf words|rewrite Hf; reflexivity|].
  intros j Hj. rewrite reg_set_reg by done. rewrite Hb, Hreg by done.
  destruct (Z.eqb_spec j i); subst; [|].
  - replace (lo <=? i) with true by lia. by replace (i <? i + 1) with true by lia.
  - by replace (j <? i + 1) with (j <? i) by lia.
Qed.

Lemma save_loop s b lo hi :
  wf s -> 0 <= lo <= hi -> hi <= 16 ->
  saved b lo hi s (for_range lo hi (fun i s => set_bank_reg b i (reg s i) s) s).
Proof.
  intros Hwf Hlo Hhi. apply (for_range_ind (fun i => saved b lo i s)); [lia|by apply saved_same|].
  intros. apply saved_step; done || lia.
Qed.

Lemma load_loop s b lo hi :
  wf s -> 0 <= lo <= hi -> hi <= 16 ->
  loaded_regs b lo hi s (for_range lo hi (fun i s => set_reg i (bank_reg s b i) s) s).
Proof.
  intros Hwf Hlo Hhi. apply (for_range_ind (fun i => loaded_regs b lo i s)); [lia|by apply loaded_same|].
  intros. apply loaded_step; done || lia.
Qed.

(** ** The architectural register file *)

(** Registers 8 to 12 have a FIQ copy and a copy for all other banks; 13 and
    14 have a copy per bank; the others have one copy. *)
Definition phys (s : ARMul_State) (b : bank) (r : Z) : Z :=
  if (8 <=? r) && (r <? 13) then
    if decide (b = FIQBANK)
    then if decide (Bank s = FIQBANK) then reg s r else bank_reg s FIQBANK r
    else if decide (Bank s = FIQBANK) then bank_reg s USERBANK r else reg s r
  else if (13 <=? r) && (r <? 15) then
    if decide (Bank s = b) then reg s r else bank_reg s b r
  else reg s r.

(** Which registers of which bank [SwitchMode_save] writes. *)
Definition save_writes (oldbank newbank b : bank) (j : Z) : bool :=
  if decide (oldbank = FIQBANK) then bool_decide (b = FIQBANK) && (8 <=? j) && (j <? 15)
  else (bool_decide (b = oldbank) && (13 <=? j) && (j <? 15))
       || (bool_decide (newbank = FIQBANK) && bool_decide (b = USERBANK) && (8 <=? j) && (j <? 13)).

Lemma SwitchMode_save_spec oldbank newbank s (s' := SwitchMode_save oldbank newbank s) :
  wf s -> oldbank <> DUMMYBANK ->
  wf s' /\ s' = s <| RegBank := RegBank s' |> /\
  forall b j, 0 <= j < 16 ->
    bank_reg s' b j = if save_writes oldbank newbank b j then reg s j else bank_reg s b j.
Proof.
  intros Hwf Hold.
  assert (Hcommon : oldbank <> FIQBANK -> s' =
    let s1 := if decide (newbank = FIQBANK)
              then for_range 8 13 (fun i s => set_bank_reg USERBANK i (reg s i) s) s else s in
    set_bank_reg oldbank 14 (reg s1 14) (set_bank_reg oldbank 13 (reg s1 13) s1)).
  { destruct oldbank; try done; intros _; reflexivity. }
  unfold save_writes. destruct (decide (oldbank = FIQBANK)) as [->|Hf].
  - clear Hcommon. destruct (save_loop s FIQBANK 8 15 Hwf ltac:(lia) ltac:(lia)) as [Hw Hfr Hb].
    split; [exact Hw|]. by split.
  - rewrite (Hcommon Hf). clear s' Hcommon. cbv zeta.
    assert (exists hi, saved USERBANK 8 hi s (if decide (newbank = FIQBANK)
      then for_range 8 13 (fun i s => set_bank_reg USERBANK i (reg s i) s) s else s)
      /\ hi = if decide (newbank = FIQBANK) then 13 else 8) as (hi & Hs & Hhi).
    { eexists. split; [|done]. destruct (decide (newbank = FIQBANK)).
      - by apply save_loop.
      - by apply saved_same. }
    destruct Hs as [Hw Hfr Hb]. set (s1 := if decide (newbank = FIQBANK) then _ else _) in *.
    assert (Hreg : forall j, reg s1 j = reg s j) by (intros; rewrite Hfr; reflexivity).
    assert (wf (set_bank_reg oldbank 13 (reg s1 13) s1)) by auto with wf words.
    split; [auto with wf words|]. split; [rewrite Hfr; reflexivity|].
    intros b j Hj. rewrite !bank_reg_set_bank_reg, !Hreg, Hb by (done || lia).
    rewrite Hhi. destruct (decide (newbank = FIQBANK)) as [->|Hn].
    + rewrite (bool_decide_eq_true_2 (FIQBANK = FIQBANK)) by done.
      destruct (bool_decide (b = oldbank)), (bool_decide (b = USERBANK)),
        (Z.eqb_spec j 14), (Z.eqb_spec j 13), (Z.leb_spec 13 j), (Z.ltb_spec j 15), (Z.leb_spec 8 j),
        (Z.ltb_spec j 13); simpl; subst; done || lia.
    + rewrite (bool_decide_eq_false_2 (newbank = FIQBANK)) by done.
      destruct (bool_decide (b = oldbank)), (bool_decide (b = USERBANK)),
        (Z.eqb_spec j 14), (Z.eqb_spec j 13), (Z.leb_spec 13 j), (Z.ltb_spec j 15), (Z.leb_spec 8 j),
        (Z.ltb_spec j 8); simpl; subst; done || lia.
Qed.

(** Which registers [SwitchMode_restore] writes, and from which bank. *)
Definition restore_from (oldbank newbank : bank) (j : Z) : option bank :=
  if (13 <=? j) && (j <? 15) then Some newbank
  else if (8 <=? j) && (j <? 13) then
    if decide (newbank = FIQBANK) then Some FIQBANK
    else if decide (oldbank = FIQBANK) then Some USERBANK else None
  else None.

Lemma SwitchMode_restore_spec oldbank newbank s (s' := SwitchMode_restore oldbank newbank s) :
  wf s -> newbank <> DUMMYBANK ->
  wf s' /\ s' = s <| Reg := Reg s' |> /\
  forall j, 0 <= j < 16 ->
    reg s' j = match restore_from oldbank newbank j with Some b => bank_reg s b j | None => reg s j end.
Proof.
  intros Hwf Hnew.
  assert (Hcommon : newbank <> FIQBANK -> s' =
    let s1 := if decide (oldbank = FIQBANK)
              then for_range 8 13 (fun i s => set_reg i (bank_reg s USERBANK i) s) s else s in
    let s2 := set_reg 13 (bank_reg s1 newbank 13) s1 in
    set_reg 14 (bank_reg s2 newbank 14) s2).
  { destruct newbank; try done; intros _; reflexivity. }
  unfold restore_from. destruct (decide (newbank = FIQBANK)) as [->|Hf].
  - clear Hcommon. destruct (load_loop s FIQBANK 8 15 Hwf ltac:(lia) ltac:(lia)) as [Hw Hfr Hb].
    split; [exact Hw|]. split; [done|]. intros j Hj. etransitivity; [apply (Hb j Hj)|].
    destruct (Z.leb_spec 8 j), (Z.leb_spec 13 j), (Z.ltb_spec j 15), (Z.ltb_spec j 13); simpl; done || lia.
  - rewrite (Hcommon Hf). clear s' Hcommon. cbv zeta.
    assert (exists hi, loaded_regs USERBANK 8 hi s (if decide (oldbank = FIQBANK)
      then for_range 8 13 (fun i s => set_reg i (bank_reg s USERBANK i) s) s else s)
      /\ hi = if decide (oldbank = FIQBANK) then 13 else 8) as (hi & Hs & Hhi).
    { eexists. split; [|done]. destruct (decide (oldbank = FIQBANK)).
      - by apply load_loop.
      - by apply loaded_same. }
    destruct Hs as [Hw Hfr Hb]. set (s1 := if decide (oldbank = FIQBANK) then _ else _) in *.
    assert (Hreg : forall b j, bank_reg s1 b j = bank_reg s b j) by (intros; rewrite Hfr; reflexivity).
    assert (wf (set_reg 13 (bank_reg s1 newbank 13) s1)) by auto with wf words.
    split; [auto with wf words|]. split; [rewrite Hfr; reflexivity|].
    intros j Hj. rewrite !reg_set_reg, !bank_reg_set_reg, !Hreg, Hb by (done || lia). rewrite Hhi.
    destruct (decide (oldbank = FIQBANK)),
      (Z.eqb_spec j 14), (Z.eqb_spec j 13), (Z.leb_spec 13 j), (Z.ltb_spec j 15), (Z.leb_spec 8 j),
      (Z.ltb_spec j 13), (Z.ltb_spec j 8); simpl; subst; done || lia.
Qed.

(** What a switch between two banks of the architecture does. *)
Record switched (s s' : ARMul_State) (b : bank) : Prop := {
  switched_wf : wf s';
  switched_frame : s' = s <| Bank := b |> <| Reg := Reg s' |> <| RegBank := RegBank s' |>;
  switched_phys : forall b r, b <> DUMMYBANK -> 0 <= r < 16 -> phys s' b r = phys s b r
}.

Lemma SwitchMode_switched oldmode newmode s :
  wf s -> Bank s = ModeToBank oldmode ->
  ModeToBank oldmode <> DUMMYBANK -> ModeToBank newmode <> DUMMYBANK ->
  switched s (ARMul_SwitchMode oldmode newmode s) (ModeToBank newmode).
Proof.
  intros Hwf HB Ho Hn. unfold ARMul_SwitchMode.
  set (ob := ModeToBank oldmode) in *. set (nb := ModeToBank newmode) in *.
  destruct (decide (ob <> nb)) as [Hne|He].
  - destruct (SwitchMode_save_spec ob nb (s <| Bank := nb |>)) as (Hw1 & Hf1 & Hb1); [auto with wf|done|].
    set (s1 := SwitchMode_save ob nb _) in *.
    destruct (SwitchMode_restore_spec ob nb s1) as (Hw2 & Hf2 & Hb2); [done|done|].
    set (s2 := SwitchMode_restore ob nb _) in *.
    assert (HB2 : Bank s2 = nb) by (rewrite Hf2, Hf1; reflexivity).
    assert (Hr1 : forall j, reg s1 j = reg s j) by (intros; rewrite Hf1; reflexivity).
    assert (Hbk : forall b j, bank_reg s2 b j = bank_reg s1 b j) by (intros; rewrite Hf2; reflexivity).
    split; [done|rewrite Hf2, Hf1; reflexivity|].
    intros b r Hb Hr. unfold phys. rewrite HB2, HB, !Hbk, !Hb2, !Hb1, !Hr1 by done.
    unfold restore_from, save_writes.
    assert (Hfr : forall b j, bank_reg (s <| Bank := nb |>) b j = bank_reg s b j) by reflexivity.
    assert (Hfr' : forall j, reg (s <| Bank := nb |>) j = reg s j) by reflexivity.
    destruct (Z.leb_spec 13 r), (Z.ltb_spec r 15), (Z.leb_spec 8 r), (Z.ltb_spec r 13); simpl; try lia;
      destruct ob, nb, b; simpl; rewrite ?Hb1, ?Hfr, ?Hfr' by done; simpl; done || lia.
  - assert (ob = nb) as <- by (destruct (decide (ob = nb)); tauto).
    split; [auto with wf| |]; rewrite <- HB; destruct s; reflexivity.
Qed.

(** ** Property *)

(** C8: [ARMul_SwitchMode] implements register banking: a switch between two
    modes of the architecture changes only the current bank and the emulator's
    two arrays, and leaves every register of every mode, as the
    architecture numbers them, with its value. *)
Theorem SwitchMode_preserves_registers oldmode newmode s :
  wf s -> Bank s = ModeToBank oldmode ->
  ModeToBank oldmode <> DUMMYBANK -> ModeToBank newmode <> DUMMYBANK ->
  let s' := ARMul_SwitchMode oldmode newmode s in
  wf s' /\ Bank s' = ModeToBank newmode /\
  s' = s <| Bank := Bank s' |> <| Reg := Reg s' |> <| RegBank := RegBank s' |> /\
  forall b r, b <> DUMMYBANK -> 0 <= r < 16 -> phys s' b r = phys s b r.
Proof.
  intros Hwf HB Ho Hn s'. destruct (SwitchMode_switched oldmode newmode s) as [Hw Hf Hp]; [done..|].
  fold s' in Hw, Hf, Hp. assert (HB' : Bank s' = ModeToBank newmode) by (rewrite Hf; by upds).
  rewrite HB'. done.
Qed.

Lemma SwitchMode_preserves_registers_witness :
  let s := set_reg 8 11 (set_reg 13 22 zero_state) in
  let s' := ARMul_SwitchMode USER32MODE FIQ32MODE s in
  phys s' USERBANK 8 = 11 /\ phys s' USERBANK 13 = 22 /\ reg s' 8 = 0.
Proof.
  set (s := set_reg 8 11 (set_reg 13 22 zero_state)).
  assert (Hwf : wf s) by (repeat apply wf_set_reg; [apply wf_zero_state|unfold word; lia..]).
  destruct (SwitchMode_preserves_registers USER32MODE FIQ32MODE s Hwf) as (_ & _ & _ & Hp);
    [reflexivity|discriminate|discriminate|].
  cbv zeta. rewrite (Hp USERBANK 8), (Hp USERBANK 13) by (discriminate || lia).
  split; [reflexivity|]. split; reflexivity.
Defined.
