(* ===== verification/ArmFlags.v ===== *)
(** * The condition flags and the helper arithmetic of armsupp.c

    The flag routines of armsupp.c look only at the sign bits of their two
    operands and of the result.  The theorems say that this computes the carry
    out of the unsigned operation and the overflow of the signed one, with a
    carry or borrow in as ADC, SBC and RSC have it.  The rest of the file
    is about [ARMul_Align] and [ARMul_NthReg]. *)

From S2P Require Import Prelude Words ArmState ArmSupp.

(** ** Sign bits as comparisons *)

Lemma truth_NEG a : word a -> truth (NEG a) = (2147483648 <=? a).
Proof. intros. rewrite NEG_c_bool by done. by destruct (_ <=? _). Qed.
Lemma truth_POS a : word a -> truth (POS a) = (a <? 2147483648).
Proof. intros. rewrite POS_c_bool by done. by destruct (_ <? _). Qed.

Ltac sign_bits :=
  rewrite ?truth_NEG, ?truth_POS by auto with words.

Definition signed (x : Z) : Prop := -2147483648 <= x < 2147483648.
#[export] Instance signed_dec x : Decision (signed x).
Proof. unfold signed. apply _. Defined.

Lemma u32_carry x : 0 <= x < 2 * 4294967296 ->
  (x < 4294967296 /\ u32 x = x) \/ (4294967296 <= x /\ u32 x = x - 4294967296).
Proof. intros. unfold u32. Z.div_mod_to_equations; lia. Qed.

Lemma u32_borrow x : - 4294967296 <= x < 4294967296 ->
  (x < 0 /\ u32 x = x + 4294967296) \/ (0 <= x /\ u32 x = x).
Proof. intros. unfold u32. Z.div_mod_to_equations; lia. Qed.

(** ** Carry and overflow *)

Lemma AddOverflow_spec a b c :
  word a -> word b -> bit c ->
  AddOverflow a b (u32 (a + b + c)) = bool_decide (~ signed (s32 a + s32 b + c)).
Proof.
  intros Ha Hb Hc. unfold AddOverflow. sign_bits. unfold word, bit in *.
  unfold s32. destruct (u32_carry (a + b + c)) as [[? ->]|[? ->]]; [lia|..];
  case_bool_decide as Hd; unfold signed in Hd; revert Hd; cases_Z; simpl; intros; done || lia.
Qed.

Lemma SubOverflow_spec a b c :
  word a -> word b -> bit c ->
  SubOverflow a b (u32 (a - b - c)) = bool_decide (~ signed (s32 a - s32 b - c)).
Proof.
  intros Ha Hb Hc. unfold SubOverflow. sign_bits. unfold word, bit in *.
  unfold s32. destruct (u32_borrow (a - b - c)) as [[? ->]|[? ->]]; [lia|..];
  case_bool_decide as Hd; unfold signed in Hd; revert Hd; cases_Z; simpl; intros; done || lia.
Qed.

Lemma AddCarry_spec a b c :
  word a -> word b -> bit c -> forall s,
  CFlag (ARMul_AddCarry a b (u32 (a + b + c)) s) = c_bool (4294967296 <=? a + b + c).
Proof.
  intros Ha Hb Hc s. unfold ARMul_AddCarry, ASSIGNC. upds. sign_bits. unfold word, bit in *.
  f_equal. destruct (u32_carry (a + b + c)) as [[? ->]|[? ->]]; [lia|..]; cases_Z; simpl; done || lia.
Qed.

Lemma SubCarry_spec a b c :
  word a -> word b -> bit c -> forall s,
  CFlag (ARMul_SubCarry a b (u32 (a - b - c)) s) = c_bool (0 <=? a - b - c).
Proof.
  intros Ha Hb Hc s. unfold ARMul_SubCarry, ASSIGNC. upds. sign_bits. unfold word, bit in *.
  f_equal. destruct (u32_borrow (a - b - c)) as [[? ->]|[? ->]]; [lia|..]; cases_Z; simpl; done || lia.
Qed.

(** N and Z after a result. *)
Lemma NegZero_spec result s :
  word result ->
  ARMul_NegZero result s =
  s <| NFlag := c_bool (s32 result <? 0) |> <| ZFlag := c_bool (result =? 0) |>.
Proof.
  intros Hw. unfold ARMul_NegZero, s32. sign_bits. unfold word in *.
  cases_Z; simpl; done || lia.
Qed.

(** ** [ARMul_Align] and [ARMul_NthReg] *)

Lemma Align_rotates address data :
  word data -> truth (address &&& 3) = true ->
  exists r, ARMul_Align address data = Some r /\ word r /\
    forall i, 0 <= i < 32 ->
      Z.testbit r i = Z.testbit data ((i + 8 * (address &&& 3)) mod 32).
Proof.
  intros Hd Ht. unfold ARMul_Align. pose proof (land_le_r address 3 ltac:(lia)) as Hr.
  set (k := address &&& 3) in *. unfold truth in Ht.
  assert (k <> 0) by (destruct (Z.eqb_spec k 0); done).
  assert (Hk : k <<< 3 = 8 * k) by (rewrite Z.shiftl_mul_pow2 by lia; lia).
  rewrite Hk. replace (8 * k =? 0) with false by lia.
  eexists. split; [done|]. split; [auto with words|].
  intros i Hi. unfold shl32. autorewrite with tbits.
  replace (0 <=? i) with true by lia. replace (i <? 32) with true by lia. simpl.
  destruct (Z.lt_ge_cases (i + 8 * k) 32).
  - rewrite (Z.mod_small (i + 8 * k)) by lia. rewrite (Z.testbit_neg_r data (i - _)) by lia.
    apply orb_false_r.
  - rewrite (word_testbit data (i + 8 * k)) by done. simpl. f_equal.
    Z.div_mod_to_equations; lia.
Qed.

(** The registers of a list, in increasing order. *)
Definition reg_list (instr lo : Z) : list Z := filter (fun i => Z.testbit instr i = true) (seqZ lo (32 - lo)).

Lemma NthReg_loop_spec fuel instr number bit upto :
  0 <= bit -> bit + Z.of_nat fuel = 32 -> upto <= number ->
  NthReg_loop fuel instr number bit upto = reg_list instr bit !! Z.to_nat (number - upto).
Proof.
  revert bit upto. induction fuel as [|fuel IH]; intros bit upto Hb Hf Hu; unfold reg_list.
  - replace bit with 32 by lia. simpl. replace (number <? upto) with false by lia. done.
  - assert (Hstep : NthReg_loop (S fuel) instr number bit upto =
      NthReg_loop fuel instr number (bit + 1) (if Z.testbit instr bit then upto + 1 else upto)).
    { cbn [NthReg_loop]. rewrite truth_BIT by lia.
      replace (number <? upto) with false by lia. by replace (32 <=? bit) with false by lia. }
    rewrite Hstep, seqZ_cons, filter_cons by lia.
    replace (Z.succ bit) with (bit + 1) by lia. replace (Z.pred (32 - bit)) with (32 - (bit + 1)) by lia.
    destruct (decide (Z.testbit instr bit = true)) as [Ht|Ht].
    + rewrite Ht. destruct (Z.eq_dec number upto) as [->|Hne].
      * replace (upto - upto) with 0 by lia. simpl.
        destruct fuel; simpl; replace (upto <? upto + 1) with true by lia; f_equal; lia.
      * rewrite IH by lia. replace (Z.to_nat (number - upto)) with (S (Z.to_nat (number - (upto + 1)))) by lia.
        done.
    + apply not_true_is_false in Ht. rewrite Ht. by rewrite IH by lia.
Qed.

(** ** Properties *)

(** The carry and overflow routines, which look at sign bits only, compute
    for ADD and ADC the carry out of the unsigned sum with carry in, and the
    overflow of the signed sum. *)
Theorem add_flags a b c s (r := u32 (a + b + c)) :
  word a -> word b -> bit c ->
  let s' := ARMul_AddOverflow a b r (ARMul_AddCarry a b r s) in
  CFlag s' = c_bool (4294967296 <=? a + b + c) /\
  VFlag s' = c_bool (bool_decide (~ signed (s32 a + s32 b + c))).
Proof.
  intros Ha Hb Hc. cbv zeta. unfold ARMul_AddOverflow, ASSIGNV. upds.
  split; [by apply AddCarry_spec|f_equal; by apply AddOverflow_spec].
Qed.

Lemma add_flags_witness :
  CFlag (ARMul_AddOverflow 0x80000000 0x7fffffff 0 (ARMul_AddCarry 0x80000000 0x7fffffff 0 zero_state)) = 1.
Proof.
  destruct (add_flags 0x80000000 0x7fffffff 1 zero_state) as [H _];
    [by vm_compute|by vm_compute|by right|exact H].
Defined.

(** For SUB, SBC and RSC the carry flag is set when the unsigned
    difference with borrow in does not borrow, and the overflow flag is the
    overflow of the signed difference. *)
Theorem sub_flags a b c s (r := u32 (a - b - c)) :
  word a -> word b -> bit c ->
  let s' := ARMul_SubOverflow a b r (ARMul_SubCarry a b r s) in
  CFlag s' = c_bool (0 <=? a - b - c) /\
  VFlag s' = c_bool (bool_decide (~ signed (s32 a - s32 b - c))).
Proof.
  intros Ha Hb Hc. cbv zeta. unfold ARMul_SubOverflow, ASSIGNV. upds.
  split; [by apply SubCarry_spec|f_equal; by apply SubOverflow_spec].
Qed.

Lemma sub_flags_witness :
  VFlag (ARMul_SubOverflow 0x80000000 1 0x7fffffff (ARMul_SubCarry 0x80000000 1 0x7fffffff zero_state)) = 1.
Proof.
  destruct (sub_flags 0x80000000 1 0 zero_state) as [_ H];
    [by vm_compute|by vm_compute|by left|exact H].
Defined.

(** [ARMul_NthReg] returns the register number of the [number]-th set bit of
    the instruction, counted from bit 0, and is undefined exactly when there
    are not that many. *)
Theorem NthReg_nth_set_bit instr number :
  0 <= number -> ARMul_NthReg instr number = reg_list instr 0 !! Z.to_nat number.
Proof.
  intros. unfold ARMul_NthReg. rewrite NthReg_loop_spec by lia. by rewrite Z.sub_0_r.
Qed.

Lemma NthReg_nth_set_bit_witness : ARMul_NthReg 0xe92d4810 2 = Some 14.
Proof. rewrite NthReg_nth_set_bit by lia. by vm_compute. Defined.
