(* ===== verification/ArmPsr.v ===== *)
(** * The program status registers

    Writing the CPSR unpacks it into the separate flag fields, changes the
    register bank and, for the 26-bit modes, rewrites R15; reading it packs the
    fields again.  The theorems: what a read returns after a write, for
    [ARMul_SetCPSR] and for the field-masked write of MSR; what the
    write does to the banked registers; and that the state stays well formed. *)

From S2P Require Import Prelude Words ArmState ArmSupp ArmBanks.

(** ** A change of mode touches the banks only *)

(** [s'] is well formed and differs from [s] in the banks only. *)
Definition bank_frame (s s' : ARMul_State) : Prop :=
  wf s' /\ s' = s <| Bank := Bank s' |> <| Reg := Reg s' |> <| RegBank := RegBank s' |>.

Lemma bank_frame_refl s : wf s -> bank_frame s s.
Proof. split; [done|by destruct s]. Qed.

Lemma bank_frame_step s s1 s2 :
  bank_frame s s1 -> wf s2 ->
  s2 = s1 <| Bank := Bank s2 |> <| Reg := Reg s2 |> <| RegBank := RegBank s2 |> -> bank_frame s s2.
Proof. intros [_ E] Hw E2. split; [done|]. rewrite E2, E. reflexivity. Qed.

Lemma bank_frame_set_reg s s1 i v : bank_frame s s1 -> word v -> bank_frame s (set_reg i v s1).
Proof.
  intros H Hv. destruct H as [Hw E]. split; [auto with wf|]. rewrite E. reflexivity.
Qed.

Lemma bank_frame_set_bank_reg s s1 b i v :
  bank_frame s s1 -> word v -> bank_frame s (set_bank_reg b i v s1).
Proof.
  intros H Hv. destruct H as [Hw E]. split; [auto with wf|]. rewrite E. reflexivity.
Qed.

Lemma bank_frame_wf s s' : bank_frame s s' -> wf s'.
Proof. by intros []. Qed.

Lemma bank_frame_save s0 s b i : bank_frame s0 s -> bank_frame s0 (set_bank_reg b i (reg s i) s).
Proof. intros H. apply bank_frame_set_bank_reg; [done|]. apply word_reg. by destruct H. Qed.
Lemma bank_frame_load s0 s b i : bank_frame s0 s -> bank_frame s0 (set_reg i (bank_reg s b i) s).
Proof. intros H. apply bank_frame_set_reg; [done|]. apply word_bank_reg. by destruct H. Qed.

#[export] Hint Resolve bank_frame_wf bank_frame_refl bank_frame_save bank_frame_load : wf.
#[export] Hint Extern 1 (bank_frame _ (set_reg _ 0 _)) => apply bank_frame_set_reg; [|by compute] : wf.
#[export] Hint Extern 1 (bank_frame _ (set_bank_reg _ _ 0 _)) =>
  apply bank_frame_set_bank_reg; [|by compute] : wf.

Lemma SwitchMode_save_frame ob nb s0 s : bank_frame s0 s -> bank_frame s0 (SwitchMode_save ob nb s).
Proof.
  intros H. unfold SwitchMode_save.
  assert (bank_frame s0 (if decide (nb = FIQBANK)
    then for_range 8 13 (fun i s => set_bank_reg USERBANK i (reg s i) s) s else s)).
  { destruct (decide _); [apply for_range_inv|]; auto with wf. }
  destruct ob; cbv zeta; first [solve [auto with wf] | apply for_range_inv; auto with wf].
Qed.

Lemma SwitchMode_restore_frame ob nb s0 s : bank_frame s0 s -> bank_frame s0 (SwitchMode_restore ob nb s).
Proof.
  intros H. unfold SwitchMode_restore.
  assert (bank_frame s0 (if decide (ob = FIQBANK)
    then for_range 8 13 (fun i s => set_reg i (bank_reg s USERBANK i) s) s else s)).
  { destruct (decide _); [apply for_range_inv|]; auto with wf. }
  destruct nb; cbv zeta; first [solve [auto with wf] | apply for_range_inv; auto with wf].
Qed.

Lemma SwitchMode_frame om nm s : wf s -> bank_frame s (ARMul_SwitchMode om nm s).
Proof.
  intros H. unfold ARMul_SwitchMode.
  assert (bank_frame s (s <| Bank := ModeToBank nm |>)) by (split; [auto with wf|by destruct s]).
  destruct (decide _); [|done]. by apply SwitchMode_restore_frame, SwitchMode_save_frame.
Qed.

Lemma SwitchMode_Bank om nm s : Bank (ARMul_SwitchMode om nm s) = ModeToBank nm.
Proof.
  unfold ARMul_SwitchMode. destruct (decide _); [|done].
  set (s1 := s <| Bank := _ |>). set (ob := ModeToBank om). set (nb := ModeToBank nm) in *.
  assert (Hs : Bank (SwitchMode_save ob nb s1) = nb).
  { unfold SwitchMode_save. assert (Bank (if decide (nb = FIQBANK)
      then for_range 8 13 (fun i s => set_bank_reg USERBANK i (reg s i) s) s1 else s1) = nb)
      by (destruct (decide _); [apply for_range_inv|]; done).
    destruct ob; cbv zeta; upds; try done; by apply for_range_inv. }
  set (s2 := SwitchMode_save ob nb s1) in *. unfold SwitchMode_restore.
  assert (Bank (if decide (ob = FIQBANK)
    then for_range 8 13 (fun i s => set_reg i (bank_reg s USERBANK i) s) s2 else s2) = nb)
    by (destruct (decide _); [apply for_range_inv|]; done).
  destruct nb; cbv zeta; upds; try done; by apply for_range_inv.
Qed.

Lemma wf_change_mode m s : wf s -> 0 <= m < 32 -> wf (change_mode m s).
Proof.
  intros Hwf Hm. unfold change_mode. destruct (_ =? _); [done|].
  destruct (SwitchMode_frame (Mode s) m s Hwf) as [H _]. by wf_frame.
Qed.

Lemma change_mode_frame m s : wf s ->
  change_mode m s = s <| Bank := Bank (change_mode m s) |> <| Reg := Reg (change_mode m s) |>
                      <| RegBank := RegBank (change_mode m s) |> <| Mode := m |>
                      <| NtransSig := NtransSig (change_mode m s) |>.
Proof.
  intros Hwf. unfold change_mode. destruct (Z.eqb_spec (Mode s) m) as [<-|]; [by destruct s|].
  destruct (SwitchMode_frame (Mode s) m s Hwf) as [_ E].
  generalize dependent (ARMul_SwitchMode (Mode s) m s). intros s1 E. cbv zeta. upds.
  rewrite E. reflexivity.
Qed.

(** ** Packing *)

Lemma bit_c_bool x : bit x -> exists b, x = c_bool b.
Proof. intros [->| ->]; [by exists false|by exists true]. Qed.

(** The bits of a packed PSR: flags, interrupt masks, T and mode. *)
Definition psr_bit (s : ARMul_State) (i : Z) : bool :=
  if i =? 31 then truth (NFlag s) else if i =? 30 then truth (ZFlag s)
  else if i =? 29 then truth (CFlag s) else if i =? 28 then truth (VFlag s)
  else if i =? 27 then truth (SFlag s) else if i =? 7 then Z.testbit (IFFlags s) 1
  else if i =? 6 then Z.testbit (IFFlags s) 0 else if i =? 5 then truth (TFlag s)
  else if i <? 5 then Z.testbit (Mode s) i else false.

Lemma word_CPSR s : wf s -> word (CPSR s).
Proof.
  intros Hwf. pose proof (wf_Mode s Hwf).
  assert (word (Mode s)) by (unfold word; lia). unfold CPSR, ECC, EINT, EMODE. auto 12 with words.
Qed.

Lemma psr_bit_CPSR s i : wf s -> 0 <= i < 32 -> Z.testbit (CPSR s) i = psr_bit s i.
Proof.
  intros Hwf Hi.
  destruct (bit_c_bool _ (wf_NFlag s Hwf)) as [n Hn], (bit_c_bool _ (wf_ZFlag s Hwf)) as [z Hz],
    (bit_c_bool _ (wf_CFlag s Hwf)) as [c Hc], (bit_c_bool _ (wf_VFlag s Hwf)) as [v Hv],
    (bit_c_bool _ (wf_SFlag s Hwf)) as [sf Hs], (bit_c_bool _ (wf_TFlag s Hwf)) as [t Ht].
  pose proof (wf_IFFlags s Hwf). pose proof (wf_Mode s Hwf).
  assert (Hf : forall j, 2 <= j \/ j < 0 -> Z.testbit (IFFlags s) j = false)
    by (intros j [?|?]; [apply (testbit_high _ 2); lia|by apply Z.testbit_neg_r]).
  assert (Hm : forall j, 5 <= j -> Z.testbit (Mode s) j = false)
    by (intros; apply (testbit_high _ 5); lia).
  assert (Htr : forall b, truth (c_bool b) = b) by (by intros []).
  unfold CPSR, ECC, EINT, EMODE, psr_bit, shl32. rewrite Hn, Hz, Hc, Hv, Hs, Ht, !Htr.
  autorewrite with tbits. rewrite !testbit_c_bool.
  generalize dependent (Z.testbit (IFFlags s)). generalize dependent (Z.testbit (Mode s)). intros fm Hm fi Hf.
  revert i Hi. apply word_bits_cases. repeat constructor; simpl; eval_sub;
    rewrite ?andb_true_r, ?andb_false_r, ?orb_false_r, ?Hm, ?Hf by lia; first [done | btauto].
Qed.

(** ** Unpacking *)

(** The CPSR that [ARMul_CPSRAltered] unpacks. *)
Definition altered_cpsr (s : ARMul_State) : Z :=
  if prog32Sig s =? LOW then Cpsr s &&& (CCBITS ||| INTBITS ||| R15MODEBITS) else Cpsr s.

(** The fields of [s'] hold the parts of [c]. *)
Record unpacked (c : Z) (s s' : ARMul_State) : Prop := {
  up_wf : wf s';
  up_N : NFlag s' = c_bool (truth (c &&& NBIT));
  up_Z : ZFlag s' = c_bool (truth (c &&& ZBIT));
  up_C : CFlag s' = c_bool (truth (c &&& CBIT));
  up_V : VFlag s' = c_bool (truth (c &&& VBIT));
  up_S : SFlag s' = c_bool (truth (c &&& SBIT));
  up_T : TFlag s' = c_bool (truth (c &&& TBIT));
  up_IF : IFFlags s' = ((c &&& INTBITS) >>> 6) &&& 3;
  up_Mode : Mode s' = c &&& MODEBITS;
  up_Spsr : Spsr s' = Spsr s;
  up_banks : (forall b r, b <> DUMMYBANK -> 0 <= r < 15 ->
                phys s' b r = phys (change_mode (c &&& MODEBITS) s) b r)
             /\ Bank s' = Bank (change_mode (c &&& MODEBITS) s)
}.

Lemma bit_c_bool_intro b : bit (c_bool b).
Proof. destruct b; unfold bit; auto. Qed.
#[export] Hint Resolve bit_c_bool_intro : core.

Lemma wf_set_Cpsr c s : wf s -> word c -> wf (s <| Cpsr := c |>).
Proof. intros Hwf ?. wf_frame. Qed.

Lemma land_range a n : 0 <= n -> 0 <= a &&& Z.ones n < 2 ^ n.
Proof. intros. rewrite Z.land_ones by done. apply Z.mod_pos_bound. by apply Z.pow_pos_nonneg. Qed.

(** Everything of [ARMul_CPSRAltered] but the mask and the update of R15. *)
Definition unpack (c : Z) (s : ARMul_State) : ARMul_State :=
  let s := change_mode (c &&& MODEBITS) s in
  let s := ASSIGNINT (c &&& INTBITS) s in
  let s := ASSIGNN (truth (c &&& NBIT)) s in
  let s := ASSIGNZ (truth (c &&& ZBIT)) s in
  let s := ASSIGNC (c_bool (truth (c &&& CBIT))) s in
  let s := ASSIGNV (truth (c &&& VBIT)) s in
  let s := ASSIGNS (truth (c &&& SBIT)) s in
  ASSIGNT (truth (c &&& TBIT)) s.

Lemma unpack_spec c s : wf s -> unpacked c s (unpack c s).
Proof.
  intros Hwf. pose proof (land_range c 5 ltac:(lia)) as Hm.
  change (Z.ones 5) with MODEBITS in Hm. change (2 ^ 5) with 32 in Hm.
  pose proof (wf_change_mode _ s Hwf Hm) as Hw. unfold unpack. cbv zeta.
  pose proof (change_mode_frame (c &&& MODEBITS) s Hwf) as E.
  remember (change_mode (c &&& MODEBITS) s) as s1 eqn:Hs1.
  assert (Hmode : Mode s1 = c &&& MODEBITS) by (rewrite E; reflexivity).
  assert (Hsp : Spsr s1 = Spsr s) by (rewrite E; reflexivity).
  unfold ASSIGNINT, ASSIGNN, ASSIGNZ, ASSIGNC, ASSIGNV, ASSIGNS, ASSIGNT.
  constructor; upds; [|reflexivity..|exact Hmode|exact Hsp|].
  - wf_frame. by apply (land_range _ 2).
  - rewrite <- Hs1. split; [|by upds]. intros. unfold phys, reg, bank_reg. upds. reflexivity.
Qed.

Lemma reg_set_reg_ne s i j v : 0 <= i -> 0 <= j -> i <> j -> reg (set_reg i v s) j = reg s j.
Proof. intros. unfold reg, set_reg. upds. by apply rd_wr_ne. Qed.

Lemma phys_set_reg15 s v b r : 0 <= r < 15 -> phys (set_reg 15 v s) b r = phys s b r.
Proof.
  intros Hr. unfold phys. rewrite reg_set_reg_ne by lia.
  rewrite !bank_reg_set_reg. unfold set_reg. by upds.
Qed.

(** The rewriting of R15 when the CPSR changes, by the width of the old and the
    new mode. *)
Definition fix_r15 (oldmode : Z) (s : ARMul_State) : ARMul_State :=
  if SVC26MODE <? oldmode then
    if Mode s <=? SVC26MODE then
      let s := s <| Emulate := CHANGEMODE |> in
      set_reg 15 (ECC s ||| ER15INT s ||| EMODE s ||| R15PC s) s
    else s
  else
    if SVC26MODE <? Mode s then
      let s := s <| Emulate := CHANGEMODE |> in
      set_reg 15 (R15PC s) s
    else set_reg 15 (ECC s ||| ER15INT s ||| EMODE s ||| R15PC s) s.

Lemma CPSRAltered_parts s :
  ARMul_CPSRAltered s = fix_r15 (Mode s) (unpack (altered_cpsr s) (s <| Cpsr := altered_cpsr s |>)).
Proof.
  unfold altered_cpsr, ARMul_CPSRAltered. destruct (prog32Sig s =? LOW).
  - reflexivity.
  - assert (s <| Cpsr := Cpsr s |> = s) as -> by by destruct s. reflexivity.
Qed.

Lemma word_r15_26 s : wf s -> word (ECC s ||| ER15INT s ||| EMODE s ||| R15PC s).
Proof.
  intros Hwf. pose proof (wf_Mode s Hwf). assert (word (Mode s)) by (unfold word; lia).
  unfold ECC, ER15INT, EMODE, R15PC. auto 12 with words.
Qed.

Lemma wf_Emulate e s : wf s -> wf (s <| Emulate := e |>).
Proof. intros Hwf. wf_frame. Qed.
#[export] Hint Resolve word_r15_26 wf_Emulate : wf.

Lemma fix_r15_cases m s : wf s ->
  fix_r15 m s = s \/ exists e v, word v /\ fix_r15 m s = set_reg 15 v (s <| Emulate := e |>).
Proof.
  intros Hwf. assert (Hsame : s <| Emulate := Emulate s |> = s) by by destruct s.
  assert (forall e, word (R15PC (s <| Emulate := e |>))) by (unfold R15PC; auto with wf words).
  unfold fix_r15. destruct (SVC26MODE <? m), (Mode s <=? SVC26MODE), (SVC26MODE <? Mode s); cbv zeta;
    first [ by left | right; exists CHANGEMODE; eexists; split; [|reflexivity]; by auto with wf
          | right; exists (Emulate s); rewrite Hsame; eexists; split; [|reflexivity]; by auto with wf ].
Qed.

Lemma fix_r15_unpacked c s s' m : unpacked c s s' -> unpacked c s (fix_r15 m s').
Proof.
  intros Hu. destruct (fix_r15_cases m s' (up_wf _ _ _ Hu)) as [->|(e & v & Hv & ->)]; [done|].
  destruct Hu as [Hw ? ? ? ? ? ? ? ? ? [Hp Hb]].
  split; [by auto with wf|..]; try (unfold set_reg; upds; done).
  split; [|unfold set_reg; by upds]. intros. rewrite phys_set_reg15 by done. rewrite <- Hp by done.
  unfold phys, reg, bank_reg. by upds.
Qed.

Lemma word_altered_cpsr s : word (Cpsr s) -> word (altered_cpsr s).
Proof. intros. unfold altered_cpsr. destruct (_ =? _); auto with words. Qed.

Lemma CPSRAltered_unpacked s :
  wf s -> unpacked (altered_cpsr s) (s <| Cpsr := altered_cpsr s |>) (ARMul_CPSRAltered s).
Proof.
  intros Hwf. rewrite CPSRAltered_parts. apply fix_r15_unpacked, unpack_spec.
  apply wf_set_Cpsr; [done|]. apply word_altered_cpsr. apply Hwf.
Qed.

(** ** Reading back *)

(** The bits a PSR has. *)
Definition PSR_MASK := 0xf80000ff.

Lemma unpacked_CPSR c s s' : word c -> unpacked c s s' -> CPSR s' = c &&& PSR_MASK.
Proof.
  intros Hc Hu. pose proof (up_wf _ _ _ Hu) as Hw.
  assert (Htr : forall b, truth (c_bool b) = b) by (by intros []).
  apply word_ext; [by apply word_CPSR|by auto with words|].
  intros i Hi'.
  rewrite psr_bit_CPSR by done. unfold psr_bit.
  destruct Hu as [_ -> -> -> -> -> -> -> -> _ _]. rewrite !Htr.
  change NBIT with (2 ^ 31). change ZBIT with (2 ^ 30). change CBIT with (2 ^ 29).
  change VBIT with (2 ^ 28). change SBIT with (2 ^ 27). change TBIT with (2 ^ 5).
  rewrite !truth_land_pow2 by lia.
  autorewrite with tbits. generalize (Z.testbit c). intros f.
  revert i Hi'. apply word_bits_cases. repeat constructor; simpl; eval_sub;
    rewrite ?andb_true_r, ?andb_false_r; reflexivity.
Qed.

(** ** MSR with its field mask *)

Lemma SETPSR_0 d r : SETPSR 0 d r = d.
Proof. unfold SETPSR. by rewrite Z.ldiff_0_r, Z.land_0_r, Z.lor_0_r. Qed.

Lemma SETPSR_SETPSR m1 m2 d r : SETPSR m2 (SETPSR m1 d r) r = SETPSR (m1 ||| m2) d r.
Proof. apply Z.bits_inj'. intros i _. unfold SETPSR. autorewrite with tbits. btauto. Qed.

Lemma SETPSR_if (b : bool) m d r :
  (if b then SETPSR m d r else d) = SETPSR (if b then m else 0) d r.
Proof. destruct b; [done|by rewrite SETPSR_0]. Qed.

Lemma word_SETPSR m d r : word d -> word r -> word (SETPSR m d r).
Proof. unfold SETPSR. auto with words. Qed.

(** Instruction bits 16 to 19 select the fields c, x, s and f. *)
Definition field_mask (instr : Z) : Z :=
  (if Z.testbit instr 16 then PSR_CBITS else 0) ||| (if Z.testbit instr 17 then PSR_XBITS else 0)
  ||| (if Z.testbit instr 18 then PSR_SBITS else 0) ||| (if Z.testbit instr 19 then PSR_FBITS else 0).

(** User mode may change the flags field only. *)
Definition user_mode (s : ARMul_State) : bool := (Mode s =? USER26MODE) || (Mode s =? USER32MODE).
Definition msr_mask (instr : Z) (s : ARMul_State) : Z :=
  if user_mode s then field_mask instr &&& PSR_FBITS else field_mask instr.

Lemma set_Cpsr_twice s a b : s <| Cpsr := a |> <| Cpsr := b |> = s <| Cpsr := b |>.
Proof. by destruct s. Qed.

Lemma set_Cpsr_if (b : bool) s c d :
  (if b then s <| Cpsr := c |> else s <| Cpsr := d |>) = s <| Cpsr := if b then c else d |>.
Proof. by destruct b. Qed.

Lemma FixCPSR_eq instr rhs s :
  ARMul_FixCPSR instr rhs s =
  ARMul_CPSRAltered (s <| Cpsr := SETPSR (msr_mask instr s) (CPSR s) rhs |>).
Proof.
  unfold ARMul_FixCPSR, ARMul_GetCPSR. cbv zeta. upds. f_equal.
  assert (Hstep : forall (b : bool) m c,
    (if b then (s <| Cpsr := c |>) <| Cpsr ::= fun c => SETPSR m c rhs |> else s <| Cpsr := c |>)
    = s <| Cpsr := SETPSR (if b then m else 0) c rhs |>)
    by (intros [] m c; [by destruct s|by rewrite SETPSR_0]).
  rewrite !truth_BIT by lia.
  assert (Huser : negb (Mode s =? USER26MODE) && negb (Mode s =? USER32MODE) = negb (user_mode s))
    by (unfold user_mode; btauto).
  rewrite Huser. unfold msr_mask, field_mask. destruct (user_mode s); simpl negb; cbv iota.
  - rewrite Hstep. set (m := if Z.testbit instr 19 then PSR_FBITS else 0).
    match goal with |- context [SETPSR (?a &&& PSR_FBITS)] => assert (a &&& PSR_FBITS = m) as -> end; [|done].
    by unfold m; destruct (Z.testbit _ 16), (Z.testbit _ 17), (Z.testbit _ 18), (Z.testbit _ 19).
  - by rewrite !Hstep, !SETPSR_SETPSR, !Z.lor_assoc.
Qed.

(** ** Changing mode keeps the architectural registers *)

(** The current bank is the one of the current mode, and is a bank of the
    architecture. *)
Definition banked (s : ARMul_State) : Prop := Bank s = ModeToBank (Mode s) /\ Bank s <> DUMMYBANK.
#[export] Instance banked_dec s : Decision (banked s).
Proof. unfold banked. apply _. Defined.

Lemma phys_frame b r s s' :
  Bank s' = Bank s -> Reg s' = Reg s -> RegBank s' = RegBank s -> phys s' b r = phys s b r.
Proof. intros H1 H2 H3. unfold phys, reg, bank_reg. by rewrite H1, H2, H3. Qed.

Lemma change_mode_phys m s :
  wf s -> banked s -> ModeToBank m <> DUMMYBANK ->
  Bank (change_mode m s) = ModeToBank m /\
  forall b r, b <> DUMMYBANK -> 0 <= r < 16 -> phys (change_mode m s) b r = phys s b r.
Proof.
  intros Hwf [HB Hd] Hm. unfold change_mode. destruct (Z.eqb_spec (Mode s) m) as [<-|Hne]; [done|].
  assert (ModeToBank (Mode s) <> DUMMYBANK) by (by rewrite <- HB).
  destruct (SwitchMode_switched (Mode s) m s) as [_ _ Hp]; [done..|]. cbv zeta. split.
  - upds. apply SwitchMode_Bank.
  - intros b r Hb Hr. rewrite <- Hp by done. by apply phys_frame; upds.
Qed.

Lemma CPSRAltered_phys s :
  wf s -> banked s -> ModeToBank (altered_cpsr s &&& MODEBITS) <> DUMMYBANK ->
  banked (ARMul_CPSRAltered s) /\
  forall b r, b <> DUMMYBANK -> 0 <= r < 15 -> phys (ARMul_CPSRAltered s) b r = phys s b r.
Proof.
  intros Hwf Hbk Hm. pose proof (CPSRAltered_unpacked s Hwf) as [_ _ _ _ _ _ _ _ HM _ [Hp HB]].
  assert (Hw1 : wf (s <| Cpsr := altered_cpsr s |>)).
  { apply wf_set_Cpsr; [done|]. apply word_altered_cpsr. apply Hwf. }
  destruct (change_mode_phys (altered_cpsr s &&& MODEBITS) (s <| Cpsr := altered_cpsr s |>))
    as [HB1 Hp1]; [done| |done|].
  - unfold banked in *. by upds.
  - split; [unfold banked; rewrite HB, HB1, HM; by split|].
    intros. rewrite Hp, Hp1 by (done || lia). by apply phys_frame; upds.
Qed.

Lemma altered_cpsr_32 s : prog32Sig s <> LOW -> altered_cpsr s = Cpsr s.
Proof. intros H. unfold altered_cpsr. by destruct (Z.eqb_spec (prog32Sig s) LOW). Qed.

(** ** What a change of the CPSR leaves alone *)

(** The fields that unpacking the CPSR and switching banks do not write. *)
Definition psr_rest (s : ARMul_State) :=
  ((EndCondition s, ErrorCode s, Spsr s, st_pc s, st_loaded s, st_decoded s),
   (NumScycles s, NumNcycles s, NumIcycles s, NumCcycles s, NumFcycles s, NumInstrs s, NextInstr s),
   (NresetSig s, NfiqSig s, NirqSig s, abortSig s, bigendSig s, prog32Sig s, data32Sig s, lateabtSig s),
   (Aborted s, Base s, AbortAddr s, mmu_control s, mmu_fault_status s, mmu_fault_address s, mmu_last_domain s),
   (is_v4 s, is_v5 s, is_v5e s, is_v6 s, is_XScale s, is_iWMMXt s, is_ep9312 s, is_pxa27x s),
   (vector_remap_flag s, vector_remap_addr s, vector_remap_size s, tea_break_ok s, tea_break_addr s,
    tea_pc s, isize s)).

Lemma rest_set_reg i v s : psr_rest (set_reg i v s) = psr_rest s.
Proof. reflexivity. Qed.
Lemma rest_Emulate e s : psr_rest (s <| Emulate := e |>) = psr_rest s.
Proof. reflexivity. Qed.
Lemma rest_ASSIGNINT r s : psr_rest (ASSIGNINT r s) = psr_rest s.
Proof. reflexivity. Qed.
Lemma rest_ASSIGNN b s : psr_rest (ASSIGNN b s) = psr_rest s.
Proof. reflexivity. Qed.
Lemma rest_ASSIGNZ b s : psr_rest (ASSIGNZ b s) = psr_rest s.
Proof. reflexivity. Qed.
Lemma rest_ASSIGNC b s : psr_rest (ASSIGNC b s) = psr_rest s.
Proof. reflexivity. Qed.
Lemma rest_ASSIGNV b s : psr_rest (ASSIGNV b s) = psr_rest s.
Proof. reflexivity. Qed.
Lemma rest_ASSIGNS b s : psr_rest (ASSIGNS b s) = psr_rest s.
Proof. reflexivity. Qed.
Lemma rest_ASSIGNT b s : psr_rest (ASSIGNT b s) = psr_rest s.
Proof. reflexivity. Qed.
Lemma rest_Cpsr c s : psr_rest (s <| Cpsr := c |>) = psr_rest s.
Proof. reflexivity. Qed.
Create Rewrite HintDb psr_rest.
#[export] Hint Rewrite rest_set_reg rest_Emulate rest_ASSIGNINT rest_ASSIGNN rest_ASSIGNZ
  rest_ASSIGNC rest_ASSIGNV rest_ASSIGNS rest_ASSIGNT rest_Cpsr : psr_rest.

Lemma fix_r15_rest m s : psr_rest (fix_r15 m s) = psr_rest s.
Proof.
  unfold fix_r15. repeat case_match; cbv zeta; by autorewrite with psr_rest.
Qed.

Lemma change_mode_rest m s : wf s -> psr_rest (change_mode m s) = psr_rest s.
Proof. intros Hwf. rewrite change_mode_frame by done. unfold psr_rest. by upds. Qed.

Lemma CPSRAltered_rest s : wf s -> psr_rest (ARMul_CPSRAltered s) = psr_rest s.
Proof.
  intros Hwf. rewrite CPSRAltered_parts, fix_r15_rest. unfold unpack. cbv zeta.
  assert (Hw : wf (s <| Cpsr := altered_cpsr s |>)).
  { apply wf_set_Cpsr; [done|]. apply word_altered_cpsr, Hwf. }
  autorewrite with psr_rest. rewrite change_mode_rest by done. apply rest_Cpsr.
Qed.

(** ** Writing and reading back *)

Lemma SetCPSR_facts v s :
  wf s -> word v -> prog32Sig s <> LOW ->
  let s' := ARMul_SetCPSR v s in
  wf s' /\ ARMul_GetCPSR s' = v &&& PSR_MASK /\ Mode s' = v &&& MODEBITS /\ Spsr s' = Spsr s /\
  (banked s -> ModeToBank (v &&& MODEBITS) <> DUMMYBANK ->
   banked s' /\ forall b r, b <> DUMMYBANK -> 0 <= r < 15 -> phys s' b r = phys s b r).
Proof.
  intros Hwf Hv Hp. cbv zeta. unfold ARMul_SetCPSR, ARMul_GetCPSR.
  pose proof (wf_set_Cpsr v s Hwf Hv) as Hw.
  pose proof (CPSRAltered_unpacked _ Hw) as Hu. pose proof (CPSRAltered_phys _ Hw) as Hph.
  rewrite altered_cpsr_32 in Hu, Hph by (by upds). upds_in Hu. upds_in Hph.
  split; [apply Hu|]. split; [by apply (unpacked_CPSR _ _ _ Hv Hu)|].
  split; [apply Hu|]. split; [etransitivity; [apply Hu|]; by upds|].
  intros Hb Hm. destruct Hph as [Hb' Hph]; [by unfold banked in *; upds|done|].
  split; [done|]. intros. rewrite Hph by done. by apply phys_frame; upds.
Qed.

(** ** Properties *)

(** C15: Writing the CPSR and reading it back gives the written value
    restricted to the bits a PSR has (N, Z, C, V, Q, I, F, T and the mode); the
    state stays well formed, the SPSRs are not touched, and when the old and the
    new mode are modes of the architecture every banked register keeps its
    value. *)
Theorem SetCPSR_roundtrip v s :
  wf s -> word v -> prog32Sig s <> LOW ->
  let s' := ARMul_SetCPSR v s in
  wf s' /\ ARMul_GetCPSR s' = v &&& PSR_MASK /\ Mode s' = v &&& MODEBITS /\ Spsr s' = Spsr s /\
  (banked s -> ModeToBank (v &&& MODEBITS) <> DUMMYBANK ->
   banked s' /\ forall b r, b <> DUMMYBANK -> 0 <= r < 15 -> phys s' b r = phys s b r).
Proof. apply SetCPSR_facts. Qed.

Lemma SetCPSR_roundtrip_witness :
  wf zero_state /\ ARMul_GetCPSR (ARMul_SetCPSR 0xf00000d3 zero_state) = 0xf00000d3 &&& PSR_MASK.
Proof.
  split; [apply wf_zero_state|].
  destruct (SetCPSR_roundtrip 0xf00000d3 zero_state wf_zero_state) as (_ & E & _);
    [by vm_compute|by vm_compute|exact E].
Defined.

(** C16: The field-masked write of MSR replaces exactly the bits of the CPSR that
    the selected fields cover, and in user mode only those of the flags
    field, so that user code can change neither its mode nor the interrupt masks. *)
Theorem FixCPSR_masked instr rhs s :
  wf s -> word rhs -> prog32Sig s <> LOW ->
  ARMul_GetCPSR (ARMul_FixCPSR instr rhs s) =
    SETPSR (msr_mask instr s) (ARMul_GetCPSR s) rhs &&& PSR_MASK
  /\ (user_mode s = true -> Mode (ARMul_FixCPSR instr rhs s) = Mode s
                            /\ IFFlags (ARMul_FixCPSR instr rhs s) = IFFlags s).
Proof.
  intros Hwf Hr Hp. rewrite FixCPSR_eq. set (c := SETPSR _ _ _).
  assert (Hc : word c) by (by apply word_SETPSR; [apply word_CPSR|]).
  pose proof (CPSRAltered_unpacked _ (wf_set_Cpsr c s Hwf Hc)) as Hu.
  rewrite altered_cpsr_32 in Hu by (by upds). upds_in Hu.
  split; [by apply (unpacked_CPSR _ _ _ Hc Hu)|]. intros Hus.
  assert (Hbits : forall i, 0 <= i < 8 -> Z.testbit c i = psr_bit s i).
  { intros i Hi. unfold c, msr_mask, SETPSR. rewrite Hus. autorewrite with tbits.
    rewrite psr_bit_CPSR by (done || lia).
    assert (Z.testbit PSR_FBITS i = false) as ->; [|btauto].
    clear -Hi. assert (i = 0 \/ i = 1 \/ i = 2 \/ i = 3 \/ i = 4 \/ i = 5 \/ i = 6 \/ i = 7) by lia.
    intuition (subst; done). }
  split.
  - rewrite (up_Mode _ _ _ Hu). apply Z.bits_inj'. intros i Hi. change MODEBITS with (Z.ones 5).
    rewrite Z.land_spec, Z.testbit_ones_nonneg by lia. destruct (Z.ltb_spec i 5).
    + rewrite Hbits, andb_true_r by lia. unfold psr_bit.
      by cases_Z; try lia.
    + rewrite andb_false_r. symmetry. apply (testbit_high _ 5); [apply Hwf|lia].
  - rewrite (up_IF _ _ _ Hu). apply Z.bits_inj'. intros i Hi. change 3 with (Z.ones 2).
    rewrite Z.land_spec, Z.testbit_ones_nonneg by lia. destruct (Z.ltb_spec i 2).
    + assert (i = 0 \/ i = 1) as [-> | ->] by lia; rewrite Z.shiftr_spec, Z.land_spec, Hbits by lia;
        simpl; by rewrite ?andb_true_r.
    + rewrite andb_false_r. symmetry. apply (testbit_high _ 2); [apply Hwf|lia].
Qed.

Lemma FixCPSR_masked_witness :
  ARMul_GetCPSR (ARMul_FixCPSR 0x000f0000 0xa00000d3 zero_state) = 0xa0000010.
Proof.
  destruct (FixCPSR_masked 0x000f0000 0xa00000d3 zero_state) as [-> _];
    [apply wf_zero_state|by vm_compute|by vm_compute|by vm_compute].
Defined.
