(* ===== verification/ArmShift.v ===== *)
(** * The barrel shifter and the writes to R15 (armemu.c, MODE32)

    [GetDPRegRHS], [GetDPSRegRHS], [GetLSRegRHS] and [GetLS7RHS] compute the
    second operand of data processing and load/store instructions; [WriteR15],
    [WriteSR15] and [WriteR15Branch] load the PC.  The theorems compare the two
    shifter routines, which test each boundary of the shift amount by
    hand, with one reference shifter on unbounded amounts. *)

From S2P Require Import Prelude Words ArmState ArmSupp ArmBanks ArmFlags ArmPsr.

(** ** Operand macros of armemu.h *)

Definition DESTReg (instr : Z) : Z := BITS instr 12 15.
Definition LHSReg (instr : Z) : Z := BITS instr 16 19.
Definition RHSReg (instr : Z) : Z := BITS instr 0 3.

Definition LHS (instr : Z) (s : ARMul_State) : Z :=
  if LHSReg instr =? 15 then reg s 15 &&& 0xfffffffc else reg s (LHSReg instr).
Definition RHS (instr : Z) (s : ARMul_State) : Z :=
  if RHSReg instr =? 15 then reg s 15 &&& 0xfffffffc else reg s (RHSReg instr).

(** armvirt.c. *)
Definition ARMul_Icycles (number : Z) (s : ARMul_State) : ARMul_State :=
  s <| NumIcycles ::= fun n => add32 n number |> <| abortSig := LOW |>.

Definition LSL := 0.
Definition LSR := 1.
Definition ASR := 2.
Definition ROR := 3.

(** ** The shifter routines *)

(** [GetDPRegRHS], with a shift amount in a register and as a constant. *)
Definition GetDPRegRHS (instr : Z) (s : ARMul_State) : Z * ARMul_State :=
  let base := RHSReg instr in
  if truth (BIT instr 4) then
    let s := INCPC s in
    let base := reg s base in
    let s := ARMul_Icycles 1 s in
    let shamt := reg s (BITS instr 8 11) &&& 0xff in
    let ty := BITS instr 5 6 in
    (if ty =? LSL then
       if shamt =? 0 then base else if 32 <=? shamt then 0 else shl32 base shamt
     else if ty =? LSR then
       if shamt =? 0 then base else if 32 <=? shamt then 0 else base >>> shamt
     else if ty =? ASR then
       if shamt =? 0 then base else if 32 <=? shamt then asr32 base 31 else asr32 base shamt
     else
       let shamt := shamt &&& 0x1f in
       if shamt =? 0 then base else shl32 base (32 - shamt) ||| (base >>> shamt), s)
  else
    let base := reg s base in
    let shamt := BITS instr 7 11 in
    let ty := BITS instr 5 6 in
    (if ty =? LSL then shl32 base shamt
     else if ty =? LSR then if shamt =? 0 then 0 else base >>> shamt
     else if ty =? ASR then if shamt =? 0 then asr32 base 31 else asr32 base shamt
     else if shamt =? 0 then (base >>> 1) ||| shl32 (CFlag s) 31
     else shl32 base (32 - shamt) ||| (base >>> shamt), s).

(** [GetDPSRegRHS], which also sets the carry flag.  For a constant LSL of 0 the
    source shifts by 32, which [DPSRegRHS] filters out. *)
Definition GetDPSRegRHS_reg (instr : Z) (s : ARMul_State) : Z * ARMul_State :=
  let base := RHSReg instr in
  let s := INCPC s in
  let base := reg s base in
  let s := ARMul_Icycles 1 s in
  let shamt := reg s (BITS instr 8 11) &&& 0xff in
  let ty := BITS instr 5 6 in
  if ty =? LSL then
    if shamt =? 0 then (base, s)
    else if shamt =? 32 then (0, ASSIGNC (base &&& 1) s)
    else if 32 <? shamt then (0, ASSIGNC 0 s)
    else (shl32 base shamt, ASSIGNC ((base >>> (32 - shamt)) &&& 1) s)
  else if ty =? LSR then
    if shamt =? 0 then (base, s)
    else if shamt =? 32 then (0, ASSIGNC (base >>> 31) s)
    else if 32 <? shamt then (0, ASSIGNC 0 s)
    else (base >>> shamt, ASSIGNC ((base >>> (shamt - 1)) &&& 1) s)
  else if ty =? ASR then
    if shamt =? 0 then (base, s)
    else if 32 <=? shamt then (asr32 base 31, ASSIGNC (base >>> 31) s)
    else (asr32 base shamt, ASSIGNC (asr32 base (shamt - 1) &&& 1) s)
  else
    if shamt =? 0 then (base, s)
    else
      let shamt := shamt &&& 0x1f in
      if shamt =? 0 then (base, ASSIGNC (base >>> 31) s)
      else (shl32 base (32 - shamt) ||| (base >>> shamt),
            ASSIGNC ((base >>> (shamt - 1)) &&& 1) s).

Definition GetDPSRegRHS_imm (instr : Z) (s : ARMul_State) : Z * ARMul_State :=
  let base := reg s (RHSReg instr) in
  let shamt := BITS instr 7 11 in
  let ty := BITS instr 5 6 in
  if ty =? LSL then (shl32 base shamt, ASSIGNC ((base >>> (32 - shamt)) &&& 1) s)
  else if ty =? LSR then
    if shamt =? 0 then (0, ASSIGNC (base >>> 31) s)
    else (base >>> shamt, ASSIGNC ((base >>> (shamt - 1)) &&& 1) s)
  else if ty =? ASR then
    if shamt =? 0 then (asr32 base 31, ASSIGNC (base >>> 31) s)
    else (asr32 base shamt, ASSIGNC (asr32 base (shamt - 1) &&& 1) s)
  else
    if shamt =? 0 then
      let shamt := CFlag s in
      let s := ASSIGNC (base &&& 1) s in
      ((base >>> 1) ||| shl32 shamt 31, s)
    else (shl32 base (32 - shamt) ||| (base >>> shamt),
          ASSIGNC ((base >>> (shamt - 1)) &&& 1) s).

Definition GetDPSRegRHS (instr : Z) (s : ARMul_State) : Z * ARMul_State :=
  if truth (BIT instr 4) then GetDPSRegRHS_reg instr s else GetDPSRegRHS_imm instr s.

(** The macros that filter the unshifted register. *)
Definition DPRegRHS (instr : Z) (s : ARMul_State) : Z * ARMul_State :=
  if BITS instr 4 11 =? 0 then (reg s (RHSReg instr), s) else GetDPRegRHS instr s.
Definition DPSRegRHS (instr : Z) (s : ARMul_State) : Z * ARMul_State :=
  if BITS instr 4 11 =? 0 then (reg s (RHSReg instr), s) else GetDPSRegRHS instr s.

Definition GetLSRegRHS (instr : Z) (s : ARMul_State) : Z :=
  let base := reg s (RHSReg instr) in
  let shamt := BITS instr 7 11 in
  let ty := BITS instr 5 6 in
  if ty =? LSL then shl32 base shamt
  else if ty =? LSR then if shamt =? 0 then 0 else base >>> shamt
  else if ty =? ASR then if shamt =? 0 then asr32 base 31 else asr32 base shamt
  else if shamt =? 0 then (base >>> 1) ||| shl32 (CFlag s) 31
  else shl32 base (32 - shamt) ||| (base >>> shamt).

Definition LSRegRHS (instr : Z) (s : ARMul_State) : Z :=
  if BITS instr 4 11 =? 0 then reg s (RHSReg instr) else GetLSRegRHS instr s.
Definition LSImmRHS (instr : Z) : Z := BITS instr 0 11.

Definition GetLS7RHS (instr : Z) (s : ARMul_State) : Z :=
  if BIT instr 22 =? 0 then reg s (RHSReg instr)
  else BITS instr 0 3 ||| shl32 (BITS instr 8 11) 4.

(** ** Writes to R15 *)

Definition WriteR15 (src : Z) (s : ARMul_State) : ARMul_State :=
  let src := if truth (TFlag s) then src &&& 0xfffffffe else src &&& 0xfffffffc in
  FLUSHPIPE (set_reg 15 (src &&& PCBITS_MODE32) s).

Definition WriteSR15 (src : Z) (s : ARMul_State) : ARMul_State :=
  let s := if 0 <? bank_index (Bank s)
           then ARMul_CPSRAltered (s <| Cpsr := spsr s (Bank s) |>) else s in
  let src := if truth (TFlag s) then src &&& 0xfffffffe else src &&& 0xfffffffc in
  FLUSHPIPE (set_reg 15 (src &&& PCBITS_MODE32) s).

Definition WriteR15Branch (src : Z) (s : ARMul_State) : ARMul_State :=
  let s := if truth (src &&& 1) then set_reg 15 (src &&& 0xfffffffe) (s <| TFlag := 1 |>)
           else set_reg 15 (src &&& 0xfffffffc) (s <| TFlag := 0 |>) in
  let s := s <| Cpsr := ARMul_GetCPSR s |> in
  FLUSHPIPE s.

(** The macros that store a result. *)
Definition WRITEDEST (instr d : Z) (s : ARMul_State) : ARMul_State :=
  if DESTReg instr =? 15 then WriteR15 d s else set_reg (DESTReg instr) d s.
Definition WRITESDEST (instr d : Z) (s : ARMul_State) : ARMul_State :=
  if DESTReg instr =? 15 then WriteSR15 d s
  else ARMul_NegZero d (set_reg (DESTReg instr) d s).
Definition WRITEDESTB (instr d : Z) (s : ARMul_State) : ARMul_State :=
  if DESTReg instr =? 15 then WriteR15Branch d s else set_reg (DESTReg instr) d s.

(** ** A reference shifter

    One formula per kind of shift, for every amount: [LSL] multiplies, [LSR]
    and [ASR] divide, [ROR] moves bit 0 to bit 31 [n] times.  The carry is the
    last bit shifted out. *)

Definition ror1 (x : Z) : Z := (x >>> 1) ||| ((x &&& 1) <<< 31).
Definition ror32 (x n : Z) : Z := Nat.iter (Z.to_nat n) ror1 x.

Definition shifted (ty n base : Z) : Z :=
  if ty =? LSL then u32 (base * 2 ^ n)
  else if ty =? LSR then base / 2 ^ n
  else if ty =? ASR then u32 (s32 base / 2 ^ n)
  else ror32 base n.

Definition shift_carry (ty n base c : Z) : Z :=
  if n =? 0 then c
  else c_bool (if ty =? LSL then Z.testbit base (32 - n)
               else if ty =? LSR then Z.testbit base (n - 1)
               else if ty =? ASR then Z.testbit (s32 base) (n - 1)
               else Z.testbit (ror32 base n) 31).

(** The amount a constant [shamt] stands for: 0 means 32 for [LSR] and [ASR].
    (For [ROR] it means RRX, a case of its own.) *)
Definition imm_amount (ty shamt : Z) : Z :=
  if (shamt =? 0) && ((ty =? LSR) || (ty =? ASR)) then 32 else shamt.

(** *** Rotation *)

Lemma word_ror1 x : word x -> word (ror1 x).
Proof.
  intros Hx. unfold ror1. apply word_lor; [auto with words|].
  pose proof (land_le_r x 1 ltac:(lia)). unfold word. rewrite Z.shiftl_mul_pow2 by lia.
  change (2 ^ 31) with 2147483648. lia.
Qed.

Lemma ror1_testbit x i :
  word x -> 0 <= i < 32 -> Z.testbit (ror1 x) i = Z.testbit x ((i + 1) mod 32).
Proof.
  intros Hx Hi. unfold ror1. autorewrite with tbits.
  replace (0 <=? i) with true by lia. simpl. destruct (Z.eq_dec i 31) as [->|].
  - rewrite (word_testbit x (31 + 1)) by (done || lia). simpl. apply andb_true_r.
  - rewrite (Z.testbit_neg_r x (i - 31)), Z.mod_small by lia. apply orb_false_r.
Qed.

Lemma iter_ror1_testbit x m i :
  word x -> 0 <= i < 32 ->
  word (Nat.iter m ror1 x) /\
  Z.testbit (Nat.iter m ror1 x) i = Z.testbit x ((i + Z.of_nat m) mod 32).
Proof.
  intros Hx. revert i. induction m as [|m IH]; intros i Hi; simpl Nat.iter.
  - split; [done|]. f_equal. rewrite Z.mod_small; lia.
  - destruct (IH 0 ltac:(lia)) as [Hw _]. split; [by apply word_ror1|].
    rewrite ror1_testbit by done. destruct (IH ((i + 1) mod 32)) as [_ ->]; [apply Z.mod_pos_bound; lia|].
    f_equal. rewrite Z.add_mod_idemp_l by lia. f_equal. lia.
Qed.

Lemma ror32_testbit x n i :
  word x -> 0 <= n -> 0 <= i < 32 ->
  word (ror32 x n) /\ Z.testbit (ror32 x n) i = Z.testbit x ((i + n) mod 32).
Proof.
  intros Hx Hn Hi. destruct (iter_ror1_testbit x (Z.to_nat n) i Hx Hi) as [Hw Hb].
  rewrite Z2Nat.id in Hb by done. done.
Qed.

Lemma word_ror32 x n : word x -> 0 <= n -> word (ror32 x n).
Proof. intros. by apply (ror32_testbit x n 0). Qed.

(** Rotation by the two shifts of the source. *)
Lemma ror32_shifts x n : word x -> 0 < n < 32 -> shl32 x (32 - n) ||| (x >>> n) = ror32 x n.
Proof.
  intros Hx Hn. apply word_ext; [auto with words|apply word_ror32; done || lia|]. intros i Hi.
  destruct (ror32_testbit x n i) as [_ ->]; [done|lia|done|]. unfold shl32. autorewrite with tbits.
  replace (0 <=? i) with true by lia. replace (i <? 32) with true by lia. simpl.
  destruct (Z.lt_ge_cases (i + n) 32).
  - rewrite (Z.testbit_neg_r x (i - _)), (Z.mod_small (i + n)) by lia. done.
  - rewrite (word_testbit x (i + n)), orb_false_r by done. f_equal. Z.div_mod_to_equations; lia.
Qed.

Lemma ror32_mod x n : word x -> 0 <= n -> ror32 x n = ror32 x (n mod 32).
Proof.
  intros Hx Hn. assert (0 <= n mod 32 < 32) by (apply Z.mod_pos_bound; lia).
  apply word_ext; try (apply word_ror32; done || lia). intros i Hi.
  destruct (ror32_testbit x n i) as [_ ->]; [done..|].
  destruct (ror32_testbit x (n mod 32) i) as [_ ->]; [done|lia|done|].
  f_equal. by rewrite Z.add_mod_idemp_r by lia.
Qed.

(** *** The other shifts *)

Lemma shl32_mul x n : 0 <= n -> shl32 x n = u32 (x * 2 ^ n).
Proof. intros. unfold shl32. by rewrite Z.shiftl_mul_pow2. Qed.

Lemma pow2_ge_word n : 32 <= n -> 4294967296 <= 2 ^ n.
Proof. intros. change 4294967296 with (2 ^ 32). apply Z.pow_le_mono_r; lia. Qed.

Lemma shl_wide x n : 32 <= n -> u32 (x * 2 ^ n) = 0.
Proof.
  intros. unfold u32. replace n with (n - 32 + 32) by lia. rewrite Z.pow_add_r by lia.
  rewrite Z.mul_assoc. change (2 ^ 32) with 4294967296. apply Z.mod_mul. lia.
Qed.

Lemma shr_wide x n : word x -> 32 <= n -> x / 2 ^ n = 0.
Proof. intros Hx Hn. pose proof (pow2_ge_word n Hn). unfold word in Hx. apply Z.div_small. lia. Qed.

Lemma asr_wide x n : word x -> 31 <= n -> u32 (s32 x / 2 ^ n) = asr32 x 31.
Proof.
  intros Hx Hn. unfold asr32. rewrite Z.shiftr_div_pow2 by lia. pose proof (s32_range x Hx).
  assert (H31 : 2147483648 <= 2 ^ n) by (change 2147483648 with (2 ^ 31); apply Z.pow_le_mono_r; lia).
  f_equal. change (2 ^ 31) with 2147483648. destruct (Z.lt_ge_cases (s32 x) 0).
  - assert (Hneg : forall p, 2147483648 <= p -> s32 x / p = -1)
      by (intros p Hp; symmetry; apply Z.div_unique with (r := s32 x + p); lia).
    by rewrite !Hneg by lia.
  - by rewrite !Z.div_small by lia.
Qed.

Lemma asr32_div x n : 0 <= n -> asr32 x n = u32 (s32 x / 2 ^ n).
Proof. intros. unfold asr32. by rewrite Z.shiftr_div_pow2. Qed.

(** *** The case analysis of the source against the formulas *)

Ltac shift_kind ty H :=
  assert (ty = LSL \/ ty = LSR \/ ty = ASR \/ ty = ROR) as H by (unfold LSL, LSR, ASR, ROR; lia);
  destruct H as [-> |[-> |[-> | ->]]]; simpl (_ =? _); cbv iota.

Lemma land_31 n : n &&& 0x1f = n mod 32.
Proof. change 0x1f with (Z.ones 5). by rewrite Z.land_ones by lia. Qed.

Lemma pow2_0_div x : x / 2 ^ 0 = x.
Proof. change (2 ^ 0) with 1. apply Z.div_1_r. Qed.

Lemma u32_pow2_0 x : word x -> u32 (x * 2 ^ 0) = x.
Proof. intros. rewrite Z.mul_1_r. by apply u32_id. Qed.

Lemma u32_s32 x : word x -> u32 (s32 x) = x.
Proof. unfold word, u32, s32. intros. cases_Z; Z.div_mod_to_equations; lia. Qed.

Lemma shifted_0 ty x : 0 <= ty < 4 -> word x -> shifted ty 0 x = x.
Proof.
  intros Ht Hx. unfold shifted. shift_kind ty H.
  - by apply u32_pow2_0.
  - apply pow2_0_div.
  - by rewrite pow2_0_div, u32_s32.
  - done.
Qed.

Lemma reg_shift_value ty n base :
  0 <= ty < 4 -> 0 <= n -> word base ->
  (if ty =? LSL then if n =? 0 then base else if 32 <=? n then 0 else shl32 base n
   else if ty =? LSR then if n =? 0 then base else if 32 <=? n then 0 else base >>> n
   else if ty =? ASR then if n =? 0 then base else if 32 <=? n then asr32 base 31 else asr32 base n
   else if n &&& 0x1f =? 0 then base else shl32 base (32 - (n &&& 0x1f)) ||| (base >>> (n &&& 0x1f)))
  = shifted ty n base.
Proof.
  intros Ht Hn Hb. rewrite land_31. destruct (Z.eqb_spec n 0) as [->|Hn0].
  { rewrite shifted_0 by done. simpl. by destruct (ty =? LSL), (ty =? LSR), (ty =? ASR). }
  unfold shifted. shift_kind ty H.
  - destruct (Z.leb_spec 32 n); [by rewrite shl_wide|by apply shl32_mul].
  - destruct (Z.leb_spec 32 n); [by rewrite shr_wide|by apply Z.shiftr_div_pow2].
  - destruct (Z.leb_spec 32 n); [by rewrite asr_wide by (done || lia)|by apply asr32_div].
  - rewrite ror32_mod by done. assert (0 <= n mod 32 < 32) by (apply Z.mod_pos_bound; lia).
    destruct (Z.eqb_spec (n mod 32) 0) as [->|]; [done|]. by rewrite ror32_shifts by (done || lia).
Qed.

(** The constant shift amounts, all but RRX. *)
Lemma imm_shift_value ty n base c :
  0 <= ty < 4 -> 0 <= n < 32 -> word base -> (ty =? ROR) && (n =? 0) = false ->
  (if ty =? LSL then shl32 base n
   else if ty =? LSR then if n =? 0 then 0 else base >>> n
   else if ty =? ASR then if n =? 0 then asr32 base 31 else asr32 base n
   else if n =? 0 then c else shl32 base (32 - n) ||| (base >>> n))
  = shifted ty (imm_amount ty n) base.
Proof.
  intros Ht Hn Hb Hr. unfold shifted, imm_amount. revert Hr. shift_kind ty H; intros Hr;
    destruct (Z.eqb_spec n 0) as [->|]; simpl; try done.
  - by rewrite shl32_mul.
  - apply shl32_mul. lia.
  - by rewrite shr_wide.
  - apply Z.shiftr_div_pow2. lia.
  - by rewrite asr_wide.
  - apply asr32_div. lia.
  - by rewrite ror32_shifts by (done || lia).
Qed.

(** *** Carry *)

Lemma asr_testbit x k : 0 <= k -> asr32 x k &&& 1 = c_bool (Z.testbit (s32 x) k).
Proof.
  intros Hk. rewrite land_1_testbit_0. unfold asr32. autorewrite with tbits. simpl. by rewrite Z.add_0_l.
Qed.

Lemma s32_testbit_high x k : word x -> 31 <= k -> Z.testbit (s32 x) k = Z.testbit x 31.
Proof.
  intros Hx Hk. pose proof (s32_range x Hx). unfold word in Hx.
  assert (Z.testbit x 31 = (2147483648 <=? x)) as ->.
  { pose proof (NEG_c_bool x Hx) as E. unfold NEG in E. rewrite top_testbit in E by done.
    by destruct (Z.testbit x 31), (_ <=? _). }
  destruct (Z.leb_spec 2147483648 x).
  - assert (Hneg : s32 x < 0) by (unfold s32; cases_Z; lia).
    rewrite <- (Z.lnot_involutive (s32 x)), Z.lnot_spec by lia.
    rewrite (testbit_high _ 31); [done| |lia]. unfold Z.lnot. change (2 ^ 31) with 2147483648. lia.
  - assert (Hpos : 0 <= s32 x) by (unfold s32; cases_Z; lia).
    apply (testbit_high _ 31); [|lia]. change (2 ^ 31) with 2147483648. lia.
Qed.

Lemma ror_carry x n :
  word x -> 0 < n -> Z.testbit (ror32 x n) 31 =
  if n mod 32 =? 0 then Z.testbit x 31 else Z.testbit x (n mod 32 - 1).
Proof.
  intros Hx Hn. destruct (ror32_testbit x n 31) as [_ ->]; [done|lia|lia|].
  assert (0 <= n mod 32 < 32) by (apply Z.mod_pos_bound; lia).
  destruct (Z.eqb_spec (n mod 32) 0); f_equal; Z.div_mod_to_equations; lia.
Qed.

(** *** The whole operand *)

(** The value and carry of the register operand of [instr], with the state in
    which they are taken. *)
Definition shifter_operand (instr : Z) (s : ARMul_State) : Z * Z * ARMul_State :=
  let ty := BITS instr 5 6 in
  if Z.testbit instr 4 then
    let s1 := ARMul_Icycles 1 (INCPC s) in
    let base := reg s1 (RHSReg instr) in
    let n := reg s1 (BITS instr 8 11) mod 256 in
    (shifted ty n base, shift_carry ty n base (CFlag s), s1)
  else
    let base := reg s (RHSReg instr) in
    let k := BITS instr 7 11 in
    if (ty =? ROR) && (k =? 0) then (base / 2 + 2147483648 * CFlag s, base mod 2, s)
    else let n := imm_amount ty k in (shifted ty n base, shift_carry ty n base (CFlag s), s).

Lemma wf_NextInstr n s : wf s -> wf (s <| NextInstr := n |>).
Proof. intros Hwf. wf_frame. Qed.
Lemma wf_Icycles n s : wf s -> wf (ARMul_Icycles n s).
Proof. intros Hwf. unfold ARMul_Icycles. wf_frame. Qed.
Lemma wf_INCPC s : wf s -> wf (INCPC s).
Proof.
  intros Hwf. unfold INCPC. cbv zeta.
  pose proof (wf_set_reg 15 _ s Hwf (word_add32 (reg s 15) (isize s))) as H.
  clear Hwf. wf_frame.
Qed.
Lemma wf_ASSIGNC b s : wf s -> wf (ASSIGNC (c_bool b) s).
Proof. intros Hwf. unfold ASSIGNC. wf_frame. Qed.
#[export] Hint Resolve wf_NextInstr wf_Icycles wf_INCPC wf_ASSIGNC : wf.

Lemma CFlag_same s : s <| CFlag := CFlag s |> = s.
Proof. by destruct s. Qed.

Lemma reg_Icycles n s i : reg (ARMul_Icycles n s) i = reg s i.
Proof. unfold ARMul_Icycles, reg. by upds. Qed.
Lemma CFlag_Icycles_INCPC n s : CFlag (ARMul_Icycles n (INCPC s)) = CFlag s.
Proof. unfold ARMul_Icycles, INCPC, set_reg. cbv zeta. by upds. Qed.

Lemma land_255 x : x &&& 0xff = x mod 256.
Proof. change 0xff with (Z.ones 8). by rewrite Z.land_ones by lia. Qed.

Lemma GetDPRegRHS_operand instr s :
  wf s -> (Z.testbit instr 4 = true \/ (BITS instr 5 6 =? ROR) && (BITS instr 7 11 =? 0) = false) ->
  GetDPRegRHS instr s = (fst (fst (shifter_operand instr s)), snd (shifter_operand instr s)).
Proof.
  intros Hwf Hr. pose proof (BITS_range instr 5 6 ltac:(lia) ltac:(lia)) as Ht.
  change (2 ^ (6 - 5 + 1)) with 4 in Ht.
  unfold GetDPRegRHS, shifter_operand. rewrite truth_BIT by lia. cbv zeta.
  destruct (Z.testbit instr 4).
  - f_equal. rewrite reg_Icycles, land_255. apply reg_shift_value; [done| |auto with wf words].
    apply Z.mod_pos_bound. lia.
  - destruct Hr as [|Hr]; [done|]. rewrite Hr. f_equal.
    pose proof (BITS_range instr 7 11 ltac:(lia) ltac:(lia)).
    apply imm_shift_value; auto with words.
Qed.

Lemma rrx_value base c :
  word base -> bit c -> (base >>> 1) ||| shl32 c 31 = base / 2 + 2147483648 * c.
Proof.
  intros Hb Hc. unfold word in Hb. rewrite Z.shiftr_div_pow2 by lia. change (2 ^ 1) with 2.
  destruct Hc as [-> | ->]; [by rewrite Z.lor_0_r, Z.add_0_r|].
  change (shl32 1 31) with (2 ^ 31). change (2147483648 * 1) with (2 ^ 31).
  assert (Hd : (base / 2) &&& 2 ^ 31 = 0).
  { pose proof (truth_land_pow2 (base / 2) 31 ltac:(lia)) as E. unfold truth in E.
    rewrite (testbit_high _ 31) in E; [|change (2 ^ 31) with 2147483648; Z.div_mod_to_equations; lia|lia].
    by destruct (Z.eqb_spec (base / 2 &&& 2 ^ 31) 0). }
  by rewrite <- Z.lxor_lor, Z.add_nocarry_lxor by done.
Qed.

Lemma reg_shift_carry_lsl n x c : 0 < n -> word x ->
  shift_carry LSL n x c =
  if n =? 32 then x &&& 1 else if 32 <? n then 0 else (x >>> (32 - n)) &&& 1.
Proof.
  intros Hn Hx. unfold shift_carry. replace (n =? 0) with false by lia. simpl.
  destruct (Z.eqb_spec n 32) as [->|]; [by rewrite land_1_testbit_0|].
  destruct (Z.ltb_spec 32 n); [by rewrite Z.testbit_neg_r by lia|by rewrite land_1_testbit by lia].
Qed.

Lemma reg_shift_carry_lsr n x c : 0 < n -> word x ->
  shift_carry LSR n x c =
  if n =? 32 then x >>> 31 else if 32 <? n then 0 else (x >>> (n - 1)) &&& 1.
Proof.
  intros Hn Hx. unfold shift_carry. replace (n =? 0) with false by lia. simpl.
  destruct (Z.eqb_spec n 32) as [->|]; [by rewrite top_testbit|].
  destruct (Z.ltb_spec 32 n); [by rewrite word_testbit by (done || lia)|by rewrite land_1_testbit by lia].
Qed.

Lemma reg_shift_carry_asr n x c : 0 < n -> word x ->
  shift_carry ASR n x c = if 32 <=? n then x >>> 31 else asr32 x (n - 1) &&& 1.
Proof.
  intros Hn Hx. unfold shift_carry. replace (n =? 0) with false by lia. simpl.
  destruct (Z.leb_spec 32 n); [by rewrite s32_testbit_high, top_testbit by (done || lia)|].
  by rewrite asr_testbit by lia.
Qed.

Lemma reg_shift_carry_ror n x c : 0 < n -> word x ->
  shift_carry ROR n x c = if n mod 32 =? 0 then x >>> 31 else (x >>> (n mod 32 - 1)) &&& 1.
Proof.
  intros Hn Hx. unfold shift_carry. replace (n =? 0) with false by lia.
  change (ROR =? LSL) with false. change (ROR =? LSR) with false. change (ROR =? ASR) with false.
  cbv iota. rewrite ror_carry by done. assert (0 <= n mod 32 < 32) by (apply Z.mod_pos_bound; lia).
  destruct (Z.eqb_spec (n mod 32) 0); [by rewrite top_testbit|by rewrite land_1_testbit by lia].
Qed.

Lemma shift_carry_0 ty x c : shift_carry ty 0 x c = c.
Proof. done. Qed.

Lemma GetDPSRegRHS_reg_value instr s : fst (GetDPSRegRHS_reg instr s) =
  let s1 := ARMul_Icycles 1 (INCPC s) in
  let base := reg (INCPC s) (RHSReg instr) in let n := reg s1 (BITS instr 8 11) &&& 0xff in
  let ty := BITS instr 5 6 in
  if ty =? LSL then if n =? 0 then base else if 32 <=? n then 0 else shl32 base n
  else if ty =? LSR then if n =? 0 then base else if 32 <=? n then 0 else base >>> n
  else if ty =? ASR then if n =? 0 then base else if 32 <=? n then asr32 base 31 else asr32 base n
  else if n &&& 0x1f =? 0 then base else shl32 base (32 - (n &&& 0x1f)) ||| (base >>> (n &&& 0x1f)).
Proof.
  unfold GetDPSRegRHS_reg. cbv zeta. set (n := _ &&& 0xff). clearbody n.
  repeat case_match; simpl; try done; try lia.
  by match goal with H : (n =? 0) = true |- _ => apply Z.eqb_eq in H; subst end.
Qed.

Lemma GetDPSRegRHS_reg_state instr s :
  wf s -> 0 <= BITS instr 5 6 < 4 ->
  let s1 := ARMul_Icycles 1 (INCPC s) in
  snd (GetDPSRegRHS_reg instr s) =
  s1 <| CFlag := shift_carry (BITS instr 5 6) (reg s1 (BITS instr 8 11) mod 256)
                   (reg (INCPC s) (RHSReg instr)) (CFlag s) |>.
Proof.
  intros Hwf Ht. cbv zeta. unfold GetDPSRegRHS_reg. rewrite land_255.
  set (s1 := ARMul_Icycles 1 (INCPC s)). set (n := _ mod 256). set (x := reg (INCPC s) _).
  assert (Hn : 0 <= n) by (apply Z.mod_pos_bound; lia).
  assert (Hx : word x) by (unfold x; auto with wf words).
  assert (Hc : CFlag s1 = CFlag s) by apply CFlag_Icycles_INCPC. rewrite <- Hc.
  clearbody n x s1. unfold ASSIGNC. destruct (Z.eqb_spec n 0) as [->|Hn0].
  { rewrite shift_carry_0, CFlag_same. repeat case_match; done. }
  revert Ht. generalize (BITS instr 5 6). intros ty Ht. shift_kind ty H.
  - rewrite reg_shift_carry_lsl by (done || lia). repeat case_match; done.
  - rewrite reg_shift_carry_lsr by (done || lia). repeat case_match; done.
  - rewrite reg_shift_carry_asr by (done || lia). repeat case_match; done.
  - rewrite reg_shift_carry_ror, land_31 by (done || lia). repeat case_match; done.
Qed.

Lemma GetDPSRegRHS_imm_operand instr s :
  wf s -> (BITS instr 5 6 =? LSL) && (BITS instr 7 11 =? 0) = false ->
  let o := shifter_operand instr s in
  Z.testbit instr 4 = false ->
  GetDPSRegRHS_imm instr s = (fst (fst o), s <| CFlag := snd (fst o) |>).
Proof.
  intros Hwf Hl. cbv zeta. intros H4. unfold GetDPSRegRHS_imm, shifter_operand. rewrite H4. cbv zeta.
  pose proof (BITS_range instr 5 6 ltac:(lia) ltac:(lia)) as Ht.
  change (2 ^ (6 - 5 + 1)) with 4 in Ht.
  pose proof (BITS_range instr 7 11 ltac:(lia) ltac:(lia)) as Hn.
  change (2 ^ (11 - 7 + 1)) with 32 in Hn.
  assert (Hx : word (reg s (RHSReg instr))) by auto with words.
  pose proof (wf_CFlag _ Hwf) as Hc. revert Ht Hn Hl Hx.
  generalize (BITS instr 5 6) (BITS instr 7 11) (reg s (RHSReg instr)). intros ty n x Ht Hn Hl Hx.
  assert (Hv := imm_shift_value ty n x ((x >>> 1) ||| shl32 (CFlag s) 31) Ht Hn Hx).
  revert Hl Hv. unfold ASSIGNC. destruct (Z.eqb_spec n 0) as [->|Hn0]; shift_kind ty H; intros Hl Hv; try done.
  - rewrite <- Hv by done. simpl imm_amount. by rewrite reg_shift_carry_lsr by done.
  - rewrite <- Hv by done. simpl imm_amount. by rewrite reg_shift_carry_asr by done.
  - rewrite rrx_value by done. change 1 with (Z.ones 1) at 1. by rewrite Z.land_ones.
  - rewrite <- Hv by done. unfold imm_amount. replace (n =? 0) with false by lia. simpl.
    rewrite reg_shift_carry_lsl by (done || lia).
    replace (n =? 32) with false by lia. by replace (32 <? n) with false by lia.
  - rewrite <- Hv by done. unfold imm_amount. replace (n =? 0) with false by lia. simpl.
    rewrite reg_shift_carry_lsr by (done || lia).
    replace (n =? 32) with false by lia. by replace (32 <? n) with false by lia.
  - rewrite <- Hv by done. unfold imm_amount. replace (n =? 0) with false by lia. simpl.
    rewrite reg_shift_carry_asr by (done || lia). by replace (32 <=? n) with false by lia.
  - rewrite <- Hv by done. unfold imm_amount. replace (n =? 0) with false by lia. simpl.
    rewrite reg_shift_carry_ror, Z.mod_small by (done || lia). by replace (n =? 0) with false by lia.
Qed.

Lemma RRX_operand instr s :
  wf s -> Z.testbit instr 4 = false -> (BITS instr 5 6 =? ROR) && (BITS instr 7 11 =? 0) = true ->
  GetDPRegRHS instr s = (fst (fst (shifter_operand instr s)), s).
Proof.
  intros Hwf H4 Hr. unfold GetDPRegRHS, shifter_operand. rewrite truth_BIT, H4 by lia. cbv zeta.
  rewrite Hr. apply andb_true_iff in Hr as [Ht Hn]. apply Z.eqb_eq in Ht, Hn. rewrite Ht, Hn. simpl.
  rewrite rrx_value; [done|auto with words|apply (wf_CFlag s Hwf)].
Qed.

(** An unshifted register is [LSL #0]. *)
Lemma unshifted instr s :
  wf s -> BITS instr 4 11 = 0 ->
  shifter_operand instr s = (reg s (RHSReg instr), CFlag s, s).
Proof.
  intros Hwf H0.
  assert (Hb : forall i, 4 <= i < 12 -> Z.testbit instr i = false).
  { intros i Hi. rewrite BITS_spec in H0 by lia.
    assert (E : Z.testbit ((instr >>> 4) &&& Z.ones (11 - 4 + 1)) (i - 4) = false) by (by rewrite H0, Z.bits_0).
    rewrite Z.land_spec, Z.testbit_ones_nonneg, Z.shiftr_spec in E by lia.
    replace (i - 4 <? 11 - 4 + 1) with true in E by lia. rewrite andb_true_r in E.
    by replace (i - 4 + 4) with i in E by lia. }
  assert (Hz : forall m n, 4 <= m <= n -> n < 12 -> BITS instr m n = 0).
  { intros m n Hm Hn. rewrite BITS_spec by lia. apply Z.bits_inj'. intros i Hi.
    rewrite Z.land_spec, Z.testbit_ones_nonneg, Z.shiftr_spec, Z.bits_0 by lia.
    destruct (Z.ltb_spec i (n - m + 1)); [|apply andb_false_r]. by rewrite Hb by lia. }
  unfold shifter_operand. rewrite Hb, (Hz 5 6), (Hz 7 11) by lia. simpl.
  unfold shifted. simpl. rewrite u32_pow2_0 by auto with words. done.
Qed.

Lemma BITS_div_mod instr m n :
  0 <= m <= n -> n <= 31 -> BITS instr m n = (instr / 2 ^ m) mod 2 ^ (n - m + 1).
Proof. intros. by rewrite BITS_spec, Z.land_ones, Z.shiftr_div_pow2 by lia. Qed.

Lemma imm_lsl_nonzero instr :
  BITS instr 4 11 <> 0 -> Z.testbit instr 4 = false ->
  (BITS instr 5 6 =? LSL) && (BITS instr 7 11 =? 0) = false.
Proof.
  intros H0 H4. apply not_true_is_false. intros E. apply andb_true_iff in E as [E1 E2].
  apply Z.eqb_eq in E1, E2. apply H0. pose proof (BIT_testbit instr 4 ltac:(lia)) as Hb.
  rewrite H4 in Hb. unfold BIT in Hb. rewrite (Z.land_ones _ 1), Z.shiftr_div_pow2 in Hb by lia.
  rewrite BITS_div_mod in * by lia. unfold LSL in E1. simpl in *.
  change (Z.pow_pos 2 4) with 16 in *. change (Z.pow_pos 2 5) with 32 in *. change (Z.pow_pos 2 7) with 128 in *.
  Z.div_mod_to_equations. lia.
Qed.

Lemma shifter_equiv instr s :
  wf s ->
  let '(v, c, s1) := shifter_operand instr s in
  DPRegRHS instr s = (v, s1) /\ DPSRegRHS instr s = (v, s1 <| CFlag := c |>).
Proof.
  intros Hwf. destruct (shifter_operand instr s) as [[v c] s1] eqn:E.
  unfold DPRegRHS, DPSRegRHS. destruct (Z.eqb_spec (BITS instr 4 11) 0) as [H0|H0].
  { rewrite unshifted in E by done. injection E as <- <- <-. by rewrite CFlag_same. }
  pose proof (BITS_range instr 5 6 ltac:(lia) ltac:(lia)) as Ht. change (2 ^ (6 - 5 + 1)) with 4 in Ht.
  unfold GetDPSRegRHS. rewrite truth_BIT by lia. destruct (Z.testbit instr 4) eqn:H4.
  - split; [rewrite GetDPRegRHS_operand, E by auto; done|].
    rewrite (surjective_pairing (GetDPSRegRHS_reg instr s)), GetDPSRegRHS_reg_state by done.
    pose proof (GetDPRegRHS_operand instr s Hwf (or_introl H4)) as Hv.
    assert (fst (GetDPSRegRHS_reg instr s) = fst (GetDPRegRHS instr s)) as ->.
    { rewrite GetDPSRegRHS_reg_value. unfold GetDPRegRHS. by rewrite truth_BIT, H4 by lia. }
    rewrite Hv, E. simpl. f_equal. unfold shifter_operand in E. rewrite H4 in E.
    injection E as _ <- <-. by rewrite reg_Icycles.
  - assert (Hs1 : s1 = s).
    { unfold shifter_operand in E. rewrite H4 in E. destruct (_ && _) in E; by injection E. }
    subst s1. split.
    + destruct ((BITS instr 5 6 =? ROR) && (BITS instr 7 11 =? 0)) eqn:Hr.
      * by rewrite RRX_operand, E by done.
      * by rewrite GetDPRegRHS_operand, E by auto.
    + rewrite GetDPSRegRHS_imm_operand, E by (done || by apply imm_lsl_nonzero). done.
Qed.

(** C10: The operand of a data processing instruction: for every instruction
    word, [DPRegRHS] returns the value of the reference shifter (amounts
    from a register or a constant, from 0 to 255, and RRX), and [DPSRegRHS]
    returns the same value and leaves the last bit shifted out in the carry flag;
    nothing else of the state changes but the fetch of R15 that a shift by
    register makes.  The shift by the word's width in [GetDPSRegRHS] is not
    reached. *)
Theorem shifter_implements_reference instr s :
  wf s ->
  let '(v, c, s1) := shifter_operand instr s in
  DPRegRHS instr s = (v, s1) /\ DPSRegRHS instr s = (v, s1 <| CFlag := c |>).
Proof. apply shifter_equiv. Qed.

(** [MOVS r0, r1, LSR #32] with the top bit of r1 set. *)
Lemma shifter_implements_reference_witness :
  let s := set_reg 1 0x80000000 zero_state in
  DPSRegRHS 0xe1b00021 s = (0, s <| CFlag := 1 |>).
Proof.
  set (s := set_reg 1 0x80000000 zero_state).
  assert (Hwf : wf s) by (apply wf_set_reg; [apply wf_zero_state|unfold word; lia]).
  pose proof (shifter_implements_reference 0xe1b00021 s Hwf) as H.
  change (shifter_operand 0xe1b00021 s) with (0, 1, s) in H. exact (proj2 H).
Defined.
