(* ===== verification/ArmMul.v ===== *)
(** * Long multiplication (armemu.c)

    [Multiply64] builds the 64-bit product of two words from four 16-bit products
    and carries, with the signs of SMULL and SMLAL handled by hand;
    [MultiplyAdd64] accumulates.  The theorems: the two destination
    registers hold the exact product, signed or unsigned, modulo 2^64. *)

From S2P Require Import Prelude Words ArmState ArmSupp ArmBanks ArmFlags.

(** ** Definitions *)

(** The result of [Add32] and the carry it stores through its pointer. *)
Definition Add32 (a1 a2 : Z) : Z * Z :=
  let result := add32 a1 a2 in
  (result, c_bool (if result =? a1 then negb (a2 =? 0) else result <? a1)).

(** An operand after the adjustment of a signed multiplication. *)
Definition mul64_adjust (msigned : bool) (Rm : Z) : Z := if msigned && (s32 Rm <? 0) then neg32 Rm else Rm.

(** The intermediate results of [Multiply64], low and high word. *)
Definition mul64_parts (msigned : bool) (Rm Rs : Z) : Z * Z :=
  let sign := if msigned then (Rm ^^^ Rs) &&& 0x80000000 else 0 in
  let Rm := mul64_adjust msigned Rm in
  let Rs := mul64_adjust msigned Rs in
  let lo := mul32 (Rs &&& 0xffff) (Rm &&& 0xffff) in
  let mid1 := mul32 (Rs &&& 0xffff) ((Rm >>> 16) &&& 0xffff) in
  let mid2 := mul32 ((Rs >>> 16) &&& 0xffff) (Rm &&& 0xffff) in
  let hi := mul32 ((Rs >>> 16) &&& 0xffff) ((Rm >>> 16) &&& 0xffff) in
  let '(RdLo, carry) := Add32 lo (shl32 mid1 16) in
  let RdHi := carry in
  let '(RdLo, carry) := Add32 RdLo (shl32 mid2 16) in
  let RdHi := u32 (RdHi + (carry + ((mid1 >>> 16) &&& 0xffff) + ((mid2 >>> 16) &&& 0xffff) + hi)) in
  if truth sign then
    let RdLo := not32 RdLo in
    let RdHi := not32 RdHi in
    if RdLo =? 0xffffffff then (0, add32 RdHi 1) else (add32 RdLo 1, RdHi)
  else (RdLo, RdHi).

(** The cycle count, from what is left in [Rm]. *)
Definition mul64_cycles (msigned : bool) (Rm : Z) : Z :=
  let Rm := if msigned && truth (Rm &&& 0x80000000) then not32 Rm else Rm in
  2 + (if Rm &&& 0xffffff00 =? 0 then 1 else if Rm &&& 0xffff0000 =? 0 then 2
       else if Rm &&& 0xff000000 =? 0 then 3 else 4).

(** Returns the cycle count and the state. *)
Definition Multiply64 (instr : Z) (msigned scc : bool) (s : ARMul_State) : Z * ARMul_State :=
  let nRdHi := BITS instr 16 19 in
  let nRdLo := BITS instr 12 15 in
  let nRs := BITS instr 8 11 in
  let nRm := BITS instr 0 3 in
  let Rm := reg s nRm in
  let '(RdLo, RdHi, Rm, s) :=
    if negb (nRdHi =? 15) && negb (nRdLo =? 15) && negb (nRs =? 15) && negb (nRm =? 15)
       && negb (nRdHi =? nRdLo)
    then let '(RdLo, RdHi) := mul64_parts msigned Rm (reg s nRs) in
         (RdLo, RdHi, mul64_adjust msigned Rm, set_reg nRdHi RdHi (set_reg nRdLo RdLo s))
    else (0, 0, Rm, s) in
  let s := if scc then ARMul_NegZero (RdHi ||| (RdLo >>> 16) ||| (RdLo &&& 0xffff)) s else s in
  (mul64_cycles msigned Rm, s).

Definition MultiplyAdd64 (instr : Z) (msigned scc : bool) (s : ARMul_State) : Z * ARMul_State :=
  let nRdHi := BITS instr 16 19 in
  let nRdLo := BITS instr 12 15 in
  let RdHi := reg s nRdHi in
  let RdLo := reg s nRdLo in
  let '(scount, s) := Multiply64 instr msigned false s in
  let '(RdLo, carry) := Add32 RdLo (reg s nRdLo) in
  let RdHi := u32 (u32 (RdHi + reg s nRdHi) + carry) in
  let s := set_reg nRdHi RdHi (set_reg nRdLo RdLo s) in
  let s := if scc then ARMul_NegZero (RdHi ||| (RdLo >>> 16) ||| (RdLo &&& 0xffff)) s else s in
  (scount + 1, s).

(** ** The product *)


Lemma Add32_spec a b :
  word a -> word b ->
  word (fst (Add32 a b)) /\ bit (snd (Add32 a b)) /\
  fst (Add32 a b) + 4294967296 * snd (Add32 a b) = a + b.
Proof.
  intros Ha Hb. unfold Add32, add32. simpl. split; [auto with words|].
  unfold word, bit in *. destruct (u32_carry (a + b)) as [[? ->]|[? ->]]; [lia|..];
    cases_Z; simpl; lia.
Qed.

Lemma mul16 a b : 0 <= a < 65536 -> 0 <= b < 65536 -> mul32 a b = a * b.
Proof. intros. unfold mul32. apply u32_id. unfold word. nia. Qed.

Lemma land_ffff x : x &&& 0xffff = x mod 65536.
Proof. change 0xffff with (Z.ones 16). by rewrite Z.land_ones by lia. Qed.

Lemma shl32_16 x : shl32 x 16 = u32 (x * 65536).
Proof. unfold shl32. by rewrite Z.shiftl_mul_pow2 by lia. Qed.

Lemma shr_16 x : x >>> 16 = x / 65536.
Proof. by rewrite Z.shiftr_div_pow2 by lia. Qed.

Lemma shl32_16_mod x : 0 <= x -> shl32 x 16 = 65536 * (x mod 65536).
Proof. intros. rewrite shl32_16. unfold u32. Z.div_mod_to_equations. lia. Qed.

Lemma shr16_land x : word x -> (x >>> 16) &&& 0xffff = x / 65536.
Proof.
  unfold word. intros. rewrite land_ffff, shr_16. apply Z.mod_small. Z.div_mod_to_equations. lia.
Qed.

(** The four partial products and their sum. *)
Lemma partial_products P0 P1 P2 P3 X :
  0 <= P0 <= 4294836225 -> 0 <= P1 <= 4294836225 -> 0 <= P2 <= 4294836225 -> 0 <= P3 ->
  X = P0 + 65536 * P1 + 65536 * P2 + 4294967296 * P3 -> X < 18446744073709551616 ->
  let '(RdLo, carry) := Add32 P0 (shl32 P1 16) in
  let RdHi := carry in
  let '(RdLo, carry) := Add32 RdLo (shl32 P2 16) in
  let RdHi := u32 (RdHi + (carry + ((P1 >>> 16) &&& 0xffff) + ((P2 >>> 16) &&& 0xffff) + P3)) in
  word RdLo /\ word RdHi /\ RdLo + 4294967296 * RdHi = X.
Proof.
  intros H0 H1 H2 H3 EX HX. rewrite !shl32_16_mod, !shr16_land by (unfold word; lia).
  assert (word P0) by (unfold word; lia).
  assert (Hw : forall P, word (65536 * (P mod 65536)))
    by (intros; unfold word; Z.div_mod_to_equations; lia).
  destruct (Add32_spec P0 (65536 * (P1 mod 65536))) as (Hw1 & Hc1 & E1); [done|apply Hw|].
  destruct (Add32 P0 _) as [r1 c1]. simpl in Hw1, Hc1, E1.
  destruct (Add32_spec r1 (65536 * (P2 mod 65536))) as (Hw2 & Hc2 & E2); [done|apply Hw|].
  destruct (Add32 r1 _) as [r2 c2]. simpl in Hw2, Hc2, E2. cbv zeta.
  assert (E : r2 + 4294967296 * (c1 + (c2 + P1 / 65536 + P2 / 65536 + P3)) = X).
  { rewrite EX. Z.div_mod_to_equations. lia. }
  assert (Hhi : word (c1 + (c2 + P1 / 65536 + P2 / 65536 + P3))).
  { unfold word, bit in *. split; [|lia]. Z.div_mod_to_equations. lia. }
  rewrite (u32_id _ Hhi). done.
Qed.

(** The unsigned product of two words. *)
Lemma mul64_unsigned Rm Rs : word Rm -> word Rs ->
  let '(lo, hi) := mul64_parts false Rm Rs in
  word lo /\ word hi /\ lo + 4294967296 * hi = Rm * Rs.
Proof.
  intros Hm Hs. unfold mul64_parts, mul64_adjust. simpl andb. cbv iota zeta. change (truth 0) with false. cbv iota.
  rewrite (shr16_land Rm), (shr16_land Rs), (land_ffff Rm), (land_ffff Rs) by done.
  unfold word in Hm, Hs.
  assert (Hmb : Rm = 65536 * (Rm / 65536) + Rm mod 65536) by (apply Z.div_mod; lia).
  assert (Hsb : Rs = 65536 * (Rs / 65536) + Rs mod 65536) by (apply Z.div_mod; lia).
  assert (0 <= Rm mod 65536 < 65536) by (apply Z.mod_pos_bound; lia).
  assert (0 <= Rs mod 65536 < 65536) by (apply Z.mod_pos_bound; lia).
  assert (0 <= Rm / 65536 < 65536) by (Z.div_mod_to_equations; lia).
  assert (0 <= Rs / 65536 < 65536) by (Z.div_mod_to_equations; lia).
  rewrite !mul16 by done.
  apply partial_products; try nia.
Qed.

(** Two's complement negation of a 64-bit value held in two words. *)
Lemma neg64_parts lo hi :
  word lo -> word hi ->
  let '(lo', hi') := (if not32 lo =? 0xffffffff then (0, add32 (not32 hi) 1)
                      else (add32 (not32 lo) 1, not32 hi)) in
  word lo' /\ word hi' /\ lo' + 4294967296 * hi' = u64 (- (lo + 4294967296 * hi)).
Proof.
  intros Hl Hh. rewrite !not32_sub by done. unfold word, u64, add32, u32 in *.
  destruct (Z.eqb_spec (4294967295 - lo) 4294967295); Z.div_mod_to_equations; lia.
Qed.

Lemma sign_xor Rm Rs : word Rm -> word Rs ->
  truth ((Rm ^^^ Rs) &&& 0x80000000) = xorb (s32 Rm <? 0) (s32 Rs <? 0).
Proof.
  intros Hm Hs. change 0x80000000 with (2 ^ 31). rewrite truth_land_pow2, Z.lxor_spec by lia.
  by rewrite !testbit_31.
Qed.

Definition mval (msigned : bool) (x : Z) : Z := if msigned then s32 x else x.

Lemma neg32_abs x : word x ->
  word (if s32 x <? 0 then neg32 x else x) /\ (if s32 x <? 0 then neg32 x else x) = Z.abs (s32 x).
Proof.
  unfold word, neg32, u32, s32. intros. destruct (Z.ltb_spec x 2147483648).
  - replace (x <? 0) with false by lia. lia.
  - replace (x - 4294967296 <? 0) with true by lia. Z.div_mod_to_equations. lia.
Qed.

(** The signed product negates the product of the magnitudes when the signs
    differ. *)
Lemma mul64_parts_signed Rm Rs :
  mul64_parts true Rm Rs =
  let '(lo, hi) := mul64_parts false (if s32 Rm <? 0 then neg32 Rm else Rm)
                                     (if s32 Rs <? 0 then neg32 Rs else Rs) in
  if truth ((Rm ^^^ Rs) &&& 0x80000000)
  then if not32 lo =? 0xffffffff then (0, add32 (not32 hi) 1) else (add32 (not32 lo) 1, not32 hi)
  else (lo, hi).
Proof.
  unfold mul64_parts, mul64_adjust. simpl andb. cbv iota zeta. change (truth 0) with false. cbv iota.
  destruct (Add32 _ _) as [l1 c1]. destruct (Add32 _ _) as [l2 c2]. reflexivity.
Qed.

Lemma u64_id x : 0 <= x < 18446744073709551616 -> u64 x = x.
Proof. intros. unfold u64. by apply Z.mod_small. Qed.

Lemma mul64_parts_spec msigned Rm Rs : word Rm -> word Rs ->
  let '(lo, hi) := mul64_parts msigned Rm Rs in
  word lo /\ word hi /\ lo + 4294967296 * hi = u64 (mval msigned Rm * mval msigned Rs).
Proof.
  intros Hm Hs. destruct msigned; simpl mval.
  - rewrite mul64_parts_signed. destruct (neg32_abs Rm Hm) as [Hwm Em], (neg32_abs Rs Hs) as [Hws Es].
    pose proof (mul64_unsigned _ _ Hwm Hws) as P. destruct (mul64_parts false _ _) as [lo hi].
    destruct P as (Hl & Hh & P). rewrite Em, Es, <- Z.abs_mul in P. rewrite sign_xor by done.
    assert (Hx : xorb (s32 Rm <? 0) (s32 Rs <? 0) = true -> s32 Rm * s32 Rs <= 0)
      by (destruct (Z.ltb_spec (s32 Rm) 0), (Z.ltb_spec (s32 Rs) 0); simpl; try done; nia).
    assert (Hn : xorb (s32 Rm <? 0) (s32 Rs <? 0) = false -> 0 <= s32 Rm * s32 Rs)
      by (destruct (Z.ltb_spec (s32 Rm) 0), (Z.ltb_spec (s32 Rs) 0); simpl; try done; nia).
    destruct (xorb _ _).
    + pose proof (neg64_parts lo hi Hl Hh) as N. rewrite P in N. specialize (Hx eq_refl).
      destruct (if not32 lo =? _ then _ else _) as [lo' hi'].
      by replace (- Z.abs (s32 Rm * s32 Rs)) with (s32 Rm * s32 Rs) in N by lia.
    + specialize (Hn eq_refl). split; [done|]. split; [done|].
      rewrite Z.abs_eq in P by done. rewrite <- P. unfold word in *. rewrite u64_id by lia. done.
  - pose proof (mul64_unsigned Rm Rs Hm Hs) as P. destruct (mul64_parts false Rm Rs) as [lo hi].
    destruct P as (Hl & Hh & P). split; [done|]. split; [done|]. rewrite <- P.
    unfold word in *. rewrite u64_id by lia. done.
Qed.

(** The argument of [ARMul_NegZero] after a long multiplication. *)
Lemma long_negzero lo hi : word lo -> word hi ->
  let x := hi ||| (lo >>> 16) ||| (lo &&& 0xffff) in
  word x /\ (s32 x <? 0) = (2 ^ 63 <=? lo + 4294967296 * hi) /\
  (x =? 0) = (lo + 4294967296 * hi =? 0).
Proof.
  intros Hl Hh x. assert (Hx : word x) by (unfold x; auto with words). split; [done|].
  rewrite <- testbit_31 by done. split.
  - unfold x. rewrite !Z.lor_spec, Z.shiftr_spec, Z.land_spec by lia.
    rewrite (word_testbit lo (31 + 16)) by (done || lia). change (Z.testbit 0xffff 31) with false.
    rewrite andb_false_r, !orb_false_r, testbit_31 by done. unfold s32, word in *.
    change (2 ^ 63) with 9223372036854775808. cases_Z; done || lia.
  - destruct (Z.eqb_spec x 0) as [E|E].
    + apply Z.lor_eq_0_iff in E as [E E3]. apply Z.lor_eq_0_iff in E as [-> E2].
      rewrite shr_16 in E2. rewrite land_ffff in E3. unfold word in *.
      symmetry. apply Z.eqb_eq. Z.div_mod_to_equations. lia.
    + symmetry. apply Z.eqb_neq. intros E0. apply E. unfold word in *.
      assert (lo = 0 /\ hi = 0) as [-> ->] by lia. done.
Qed.

(** ** The cycle count *)

(** The significant bytes of a magnitude, at least one. *)
Definition significant_bytes (x : Z) : Z :=
  if x <? 2 ^ 8 then 1 else if x <? 2 ^ 16 then 2 else if x <? 2 ^ 24 then 3 else 4.

Lemma land_high x mask k : word x -> 0 <= k <= 32 -> mask = Z.ones 32 &&~ Z.ones k -> (x &&& mask =? 0) = (x <? 2 ^ k).
Proof.
  intros Hx Hk ->. assert (x &&& (Z.ones 32 &&~ Z.ones k) = x &&~ Z.ones k) as ->.
  { apply Z.bits_inj'. intros i Hi. rewrite Z.land_spec, !Z.ldiff_spec, (testbit_ones (Z.ones 32) 32) by done.
    destruct (Z.ltb_spec i 32); [|by rewrite word_testbit].
    destruct (Z.leb_spec 0 i); [done|lia]. }
  rewrite Z.ldiff_ones_r, Z.shiftr_div_pow2, Z.shiftl_mul_pow2 by lia.
  pose proof (Z.pow_pos_nonneg 2 k ltac:(lia) ltac:(lia)) as Hp. destruct Hx as [Hx _].
  destruct (Z.ltb_spec x (2 ^ k)) as [Hlt|Hge].
  - by rewrite Z.div_small.
  - apply Z.eqb_neq. pose proof (Z.div_str_pos x (2 ^ k) ltac:(lia)). nia.
Qed.

Lemma mul64_cycles_spec msigned Rm : word Rm ->
  mul64_cycles msigned (mul64_adjust msigned Rm) = 2 + significant_bytes (Z.abs (mval msigned Rm)).
Proof.
  intros Hw. unfold mul64_cycles, significant_bytes.
  assert (word (mul64_adjust msigned Rm) /\ mul64_adjust msigned Rm = Z.abs (mval msigned Rm)) as [Hx <-].
  { unfold mul64_adjust. destruct msigned; cbn [andb mval]; [by apply neg32_abs|]. split; [done|]. unfold word in Hw. lia. }
  assert (msigned = true -> mul64_adjust msigned Rm <= 2 ^ 31) as Hle.
  { intros ->. unfold mul64_adjust. cbn [andb]. destruct (neg32_abs Rm Hw) as [_ ->]. pose proof (s32_range Rm Hw). lia. }
  set (x := mul64_adjust msigned Rm) in *. clearbody x. f_equal. cbv zeta.
  change 0x80000000 with (2 ^ 31). rewrite truth_land_pow2, testbit_31 by done. set (y := if _ && _ then _ else _).
  assert (word y /\ forall k, 0 <= k <= 24 -> (y <? 2 ^ k) = (x <? 2 ^ k)) as [Hy Hk].
  { unfold y. destruct msigned; cbn [andb]; [|done]. destruct (Z.ltb_spec (s32 x) 0) as [Hs|]; [|done].
    assert (x = 2 ^ 31) as -> by (unfold s32, word in *; specialize (Hle eq_refl); destruct (x <? 2147483648) eqn:E; lia).
    split; [by compute|]. intros k Hk. change (not32 (2 ^ 31)) with (2 ^ 31 - 1).
    pose proof (Z.pow_le_mono_r 2 k 24 ltac:(lia) ltac:(lia)). change (2 ^ 24) with 16777216 in *. change (2 ^ 31) with 2147483648.
    destruct (Z.ltb_spec (2147483648 - 1) (2 ^ k)), (Z.ltb_spec 2147483648 (2 ^ k)); lia. }
  rewrite (land_high y _ 8), (land_high y _ 16), (land_high y _ 24), !Hk by (done || lia). done.
Qed.

(** ** The instructions *)

(** The operands that the source accepts. *)
Definition mul64_legal (instr : Z) : Prop :=
  BITS instr 16 19 <> 15 /\ BITS instr 12 15 <> 15 /\ BITS instr 8 11 <> 15 /\
  BITS instr 0 3 <> 15 /\ BITS instr 16 19 <> BITS instr 12 15.

(** The 64-bit value of the two destination registers. *)
Definition dest64 (instr : Z) (s : ARMul_State) : Z :=
  reg s (BITS instr 12 15) + 4294967296 * reg s (BITS instr 16 19).

Lemma field4 instr m : 0 <= m -> m + 3 <= 31 -> 0 <= BITS instr m (m + 3) < 16.
Proof.
  intros. pose proof (BITS_range instr m (m + 3) ltac:(lia) ltac:(lia)) as H1.
  by replace (m + 3 - m + 1) with 4 in H1 by lia.
Qed.

Lemma dest64_set instr lo hi s :
  wf s -> word lo -> word hi -> BITS instr 16 19 <> BITS instr 12 15 ->
  dest64 instr (set_reg (BITS instr 16 19) hi (set_reg (BITS instr 12 15) lo s)) = lo + 4294967296 * hi.
Proof.
  intros Hwf Hl Hh Hne. pose proof (field4 instr 16 ltac:(lia) ltac:(lia)).
  pose proof (field4 instr 12 ltac:(lia) ltac:(lia)). unfold dest64.
  assert (wf (set_reg (BITS instr 12 15) lo s)) by auto with wf.
  rewrite !reg_set_reg, !Z.eqb_refl by done.
  by destruct (Z.eqb_spec (BITS instr 12 15) (BITS instr 16 19)).
Qed.

(** [ARMul_NegZero] on the two words of a 64-bit result. *)
Lemma NegZero_long scc lo hi s :
  word lo -> word hi ->
  (if scc : bool then ARMul_NegZero (hi ||| (lo >>> 16) ||| (lo &&& 0xffff)) s else s) =
  if scc then s <| NFlag := c_bool (2 ^ 63 <=? lo + 4294967296 * hi) |>
                <| ZFlag := c_bool (lo + 4294967296 * hi =? 0) |> else s.
Proof.
  intros Hl Hh. destruct scc; [|done]. destruct (long_negzero lo hi Hl Hh) as (Hx & E1 & E2).
  by rewrite NegZero_spec, E1, E2.
Qed.

Lemma dest64_flags instr n z s : dest64 instr (s <| NFlag := n |> <| ZFlag := z |>) = dest64 instr s.
Proof. unfold dest64, reg. by upds. Qed.

Lemma Multiply64_eq instr msigned scc s :
  wf s -> mul64_legal instr ->
  exists lo hi, word lo /\ word hi /\
    lo + 4294967296 * hi = u64 (mval msigned (reg s (BITS instr 0 3)) * mval msigned (reg s (BITS instr 8 11))) /\
    Multiply64 instr msigned scc s =
    (2 + significant_bytes (Z.abs (mval msigned (reg s (BITS instr 0 3)))),
     let s' := set_reg (BITS instr 16 19) hi (set_reg (BITS instr 12 15) lo s) in
     if scc then s' <| NFlag := c_bool (2 ^ 63 <=? lo + 4294967296 * hi) |>
                    <| ZFlag := c_bool (lo + 4294967296 * hi =? 0) |> else s').
Proof.
  intros Hwf (H1 & H2 & H3 & H4 & H5). unfold Multiply64. cbv zeta.
  replace (BITS instr 16 19 =? 15) with false by lia. replace (BITS instr 12 15 =? 15) with false by lia.
  replace (BITS instr 8 11 =? 15) with false by lia. replace (BITS instr 0 3 =? 15) with false by lia.
  replace (BITS instr 16 19 =? BITS instr 12 15) with false by lia. simpl andb. cbv iota.
  pose proof (mul64_parts_spec msigned (reg s (BITS instr 0 3)) (reg s (BITS instr 8 11))
    ltac:(auto with words) ltac:(auto with words)) as P.
  destruct (mul64_parts _ _ _) as [lo hi]. destruct P as (Hl & Hh & P).
  exists lo, hi. split; [done|]. split; [done|]. split; [done|]. rewrite mul64_cycles_spec by auto with words.
  f_equal. by apply NegZero_long.
Qed.

(** SMULL and UMULL. *)
Lemma Multiply64_product instr msigned scc s :
  wf s -> mul64_legal instr ->
  let P := u64 (mval msigned (reg s (BITS instr 0 3)) * mval msigned (reg s (BITS instr 8 11))) in
  let '(cycles, s') := Multiply64 instr msigned scc s in
  dest64 instr s' = P /\
  cycles = 2 + significant_bytes (Z.abs (mval msigned (reg s (BITS instr 0 3)))) /\
  (forall r, 0 <= r < 16 -> r <> BITS instr 16 19 -> r <> BITS instr 12 15 -> reg s' r = reg s r) /\
  (scc = true -> NFlag s' = c_bool (2 ^ 63 <=? P) /\ ZFlag s' = c_bool (P =? 0)).
Proof.
  intros Hwf Hl. cbv zeta. destruct (Multiply64_eq instr msigned scc s Hwf Hl) as (lo & hi & Hlo & Hhi & <- & ->).
  pose proof (field4 instr 16 ltac:(lia) ltac:(lia)). pose proof (field4 instr 12 ltac:(lia) ltac:(lia)).
  cbv zeta. assert (Hne : BITS instr 16 19 <> BITS instr 12 15) by apply Hl.
  split; [|split; [done|split]].
  - destruct scc; rewrite ?dest64_flags; by apply dest64_set.
  - intros r Hr H1 H2. assert (wf (set_reg (BITS instr 12 15) lo s)) by auto with wf.
    assert (E : reg (set_reg (BITS instr 16 19) hi (set_reg (BITS instr 12 15) lo s)) r = reg s r).
    { rewrite !reg_set_reg by done. destruct (Z.eqb_spec r (BITS instr 16 19)); [done|].
      by destruct (Z.eqb_spec r (BITS instr 12 15)). }
    destruct scc; [|done]. rewrite <- E. unfold reg. by upds.
  - intros ->. by upds.
Qed.

Lemma dest64_range instr s : wf s -> 0 <= dest64 instr s < 18446744073709551616.
Proof.
  intros Hwf. pose proof (word_reg s (BITS instr 12 15) Hwf).
  pose proof (word_reg s (BITS instr 16 19) Hwf). unfold dest64, word in *. lia.
Qed.

(** SMLAL and UMLAL. *)
Lemma MultiplyAdd64_accumulates instr msigned scc s :
  wf s -> mul64_legal instr ->
  let P := u64 (mval msigned (reg s (BITS instr 0 3)) * mval msigned (reg s (BITS instr 8 11))) in
  let '(cycles, s') := MultiplyAdd64 instr msigned scc s in
  dest64 instr s' = u64 (dest64 instr s + P) /\
  cycles = 3 + significant_bytes (Z.abs (mval msigned (reg s (BITS instr 0 3)))) /\
  (scc = true -> NFlag s' = c_bool (2 ^ 63 <=? dest64 instr s')).
Proof.
  intros Hwf Hl. cbv zeta. unfold MultiplyAdd64.
  destruct (Multiply64_eq instr msigned false s Hwf Hl) as (lo & hi & Hlo & Hhi & E & ->). cbv zeta.
  assert (Hne : BITS instr 16 19 <> BITS instr 12 15) by apply Hl.
  set (s1 := set_reg (BITS instr 16 19) hi _) in *.
  assert (Hw1 : wf s1) by (unfold s1; auto with wf).
  pose proof (dest64_set instr lo hi s Hwf Hlo Hhi Hne) as D. fold s1 in D.
  assert (Hb : word (reg s (BITS instr 12 15)) /\ word (reg s1 (BITS instr 12 15)) /\
               word (reg s (BITS instr 16 19)) /\ word (reg s1 (BITS instr 16 19))) by auto with words.
  destruct Hb as (Ha & Hb & Hc & Hd).
  destruct (Add32_spec _ _ Ha Hb) as (Hr & Hcy & Es). destruct (Add32 _ _) as [r c]. simpl in Hr, Hcy, Es.
  set (h := u32 (u32 _ + c)). assert (Hh : word h) by apply word_u32.
  assert (Hsum : r + 4294967296 * h = u64 (dest64 instr s + u64
      (mval msigned (reg s (BITS instr 0 3)) * mval msigned (reg s (BITS instr 8 11))))).
  { rewrite <- E, <- D. unfold dest64, h, u64, u32. unfold word, bit in *. Z.div_mod_to_equations. lia. }
  pose proof (dest64_set instr r h s1 Hw1 Hr Hh Hne) as D1.
  rewrite NegZero_long by done. rewrite Hsum in *. split; [|split; [lia|]].
  - destruct scc; by rewrite ?dest64_flags.
  - intros ->. rewrite dest64_flags, D1. by upds.
Qed.

(** C11: The long multiplies, for every combination of registers that is accepted:
    SMULL and UMULL put the exact product, signed or unsigned, modulo 2^64,
    into the destination pair, with S the flags N and Z are its sign and its
    being zero, and no other register changes; SMLAL and UMLAL add the
    product to the old value of the pair modulo 2^64, also when the product
    and the addition carry out of the low word.  Both take two cycles and one
    for each significant byte of the magnitude of Rm, the accumulating ones
    one more. *)
Theorem long_multiplies instr msigned scc s :
  wf s -> mul64_legal instr ->
  let Rm := mval msigned (reg s (BITS instr 0 3)) in
  let Rs := mval msigned (reg s (BITS instr 8 11)) in
  let P := u64 (Rm * Rs) in
  let '(cycles', s') := Multiply64 instr msigned scc s in
  let '(cycles, s'') := MultiplyAdd64 instr msigned scc s in
  (dest64 instr s' = P /\ cycles' = 2 + significant_bytes (Z.abs Rm) /\
   (forall r, 0 <= r < 16 -> r <> BITS instr 16 19 -> r <> BITS instr 12 15 -> reg s' r = reg s r) /\
   (scc = true -> NFlag s' = c_bool (2 ^ 63 <=? P) /\ ZFlag s' = c_bool (P =? 0))) /\
  dest64 instr s'' = u64 (dest64 instr s + P) /\
  cycles = 3 + significant_bytes (Z.abs Rm) /\
  (scc = true -> NFlag s'' = c_bool (2 ^ 63 <=? dest64 instr s'')).
Proof.
  intros Hwf Hl. pose proof (MultiplyAdd64_accumulates instr msigned scc s Hwf Hl) as Ha.
  pose proof (Multiply64_product instr msigned scc s Hwf Hl) as Hp. cbv zeta in *.
  destruct (MultiplyAdd64 instr msigned scc s), (Multiply64 instr msigned scc s). split; [exact Hp|exact Ha].
Qed.

Lemma long_multiplies_witness :
  let s := set_reg 3 0xfffffff0 (set_reg 1 0xffffff00 (set_reg 2 3 zero_state)) in
  let '(cycles', s') := Multiply64 0xe0c43291 true false s in
  let '(cycles, s'') := MultiplyAdd64 0xe0e43291 true false s in
  dest64 0xe0c43291 s' = 2 ^ 64 - 768 /\ cycles' = 4 /\ dest64 0xe0e43291 s'' = 0xfffffcf0 /\ cycles = 5.
Proof.
  set (s := set_reg 3 0xfffffff0 (set_reg 1 0xffffff00 (set_reg 2 3 zero_state))).
  assert (Hwf : wf s) by (repeat apply wf_set_reg; [apply wf_zero_state|unfold word; lia..]).
  pose proof (long_multiplies 0xe0c43291 true false s Hwf) as H. pose proof (long_multiplies 0xe0e43291 true false s Hwf) as H'.
  cbv zeta in *. destruct (Multiply64 0xe0c43291 true false s), (MultiplyAdd64 0xe0c43291 true false s).
  destruct (Multiply64 0xe0e43291 true false s), (MultiplyAdd64 0xe0e43291 true false s).
  destruct H as [(E & C & _) _]; [repeat split; by vm_compute|]. destruct H' as [_ (E' & C' & _)]; [repeat split; by vm_compute|].
  rewrite E, E', C, C'. repeat split; reflexivity.
Defined.
