(* ===== verification/ThumbDecode.v ===== *)
(** * The Thumb decoder (thumbemu.c)

    [ARMul_ThumbDecode] turns a 16-bit Thumb instruction into the ARM
    instruction with the same effect, or performs a Thumb branch itself.
    The theorem: every instruction of the formats 1 to 15 and SWI decodes to the
    ARM instruction that the Thumb manual gives for it, where both
    encodings are written field by field.  The branches are in ThumbBranch.v. *)

From S2P Require Import Prelude Words Bits ArmState ArmSupp ArmBanks.

(** ** Definitions *)

Inductive tdstate := t_undefined | t_decoded | t_branch.
#[export] Instance tdstate_eq_dec : EqDecision tdstate.
Proof. solve_decision. Defined.

Definition SWI_Breakpoint := 0x180000.

(** Formats 1 to 3: shifts, add/subtract, move/compare/add/subtract
    immediate. *)
Definition thumb_fmt1_3 (tinstr : Z) : Z :=
  let op := (tinstr &&& 0xF800) >>> 11 in
  if op <=? 2 then
    0xE1B00000 ||| ((tinstr &&& 0x1800) >>> 6) ||| ((tinstr &&& 0x07C0) <<< 1)
    ||| ((tinstr &&& 0x0038) >>> 3) ||| ((tinstr &&& 0x0007) <<< 12)
  else if op =? 3 then
    rd [0xE0900000; 0xE0500000; 0xE2900000; 0xE2500000] ((tinstr &&& 0x0600) >>> 9)
    ||| ((tinstr &&& 0x01C0) >>> 6) ||| ((tinstr &&& 0x0038) <<< 13)
    ||| ((tinstr &&& 0x0007) <<< 12)
  else
    rd [0xE3B00000; 0xE3500000; 0xE2900000; 0xE2500000] ((tinstr &&& 0x1800) >>> 11)
    ||| ((tinstr &&& 0x00FF) >>> 0) ||| ((tinstr &&& 0x0700) <<< 8)
    ||| ((tinstr &&& 0x0700) <<< 4).

(** Format 4, register arithmetic. *)
Inductive otype := t_norm | t_shift | t_neg | t_mul.
Definition fmt4_subset : list (Z * otype) :=
  [(0xE0100000, t_norm); (0xE0300000, t_norm); (0xE1B00010, t_shift); (0xE1B00030, t_shift);
   (0xE1B00050, t_shift); (0xE0B00000, t_norm); (0xE0D00000, t_norm); (0xE1B00070, t_shift);
   (0xE1100000, t_norm); (0xE2700000, t_neg); (0xE1500000, t_norm); (0xE1700000, t_norm);
   (0xE1900000, t_norm); (0xE0100090, t_mul); (0xE1D00000, t_norm); (0xE1F00000, t_norm)].

Definition thumb_fmt4 (tinstr : Z) : Z :=
  let '(opcode, ot) := nth (Z.to_nat ((tinstr &&& 0x03C0) >>> 6)) fmt4_subset (0, t_norm) in
  opcode ||| match ot with
             | t_norm => ((tinstr &&& 0x0007) <<< 16) ||| ((tinstr &&& 0x0007) <<< 12)
                         ||| ((tinstr &&& 0x0038) >>> 3)
             | t_shift => ((tinstr &&& 0x0007) <<< 12) ||| ((tinstr &&& 0x0007) >>> 0)
                          ||| ((tinstr &&& 0x0038) <<< 5)
             | t_neg => ((tinstr &&& 0x0007) <<< 12) ||| ((tinstr &&& 0x0038) <<< 13)
             | t_mul => ((tinstr &&& 0x0007) <<< 16) ||| ((tinstr &&& 0x0007) <<< 8)
                        ||| ((tinstr &&& 0x0038) >>> 3)
             end.

(** Format 5, high registers; [None] for the undefined encodings. *)
Definition thumb_fmt5 (tinstr is_v5 : Z) : option Z :=
  let Rd := ((tinstr &&& 0x0007) >>> 0) + (if truth (tinstr &&& 128) then 8 else 0) in
  let Rs := ((tinstr &&& 0x0038) >>> 3) + (if truth (tinstr &&& 64) then 8 else 0) in
  match (tinstr &&& 0x03C0) >>> 6 with
  | 1 | 2 | 3 => Some (0xE0800000 ||| (Rd <<< 16) ||| (Rd <<< 12) ||| (Rs <<< 0))
  | 5 | 6 | 7 => Some (0xE1500000 ||| (Rd <<< 16) ||| (Rd <<< 12) ||| (Rs <<< 0))
  | 9 | 10 | 11 => Some (0xE1A00000 ||| (Rd <<< 16) ||| (Rd <<< 12) ||| (Rs <<< 0))
  | 12 | 13 => Some (0xE12FFF10 ||| ((tinstr &&& 0x0078) >>> 3))
  | 14 | 15 => if truth is_v5 then Some (0xE1200030 ||| (Rs <<< 0)) else None
  | _ => None
  end.

(** Formats 6 to 11: loads and stores. *)
Definition thumb_fmt6_11 (tinstr : Z) : Z :=
  let op := (tinstr &&& 0xF800) >>> 11 in
  if op =? 9 then
    0xE59F0000 ||| ((tinstr &&& 0x0700) <<< 4) ||| ((tinstr &&& 0x00FF) <<< 2)
  else if op <=? 11 then
    rd (if tinstr &&& 512 =? 0 then [0xE7800000; 0xE7C00000; 0xE7900000; 0xE7D00000]
        else [0xE18000B0; 0xE19000D0; 0xE19000B0; 0xE19000F0]) ((tinstr &&& 0x0C00) >>> 10)
    ||| ((tinstr &&& 0x0007) <<< 12) ||| ((tinstr &&& 0x0038) <<< 13)
    ||| ((tinstr &&& 0x01C0) >>> 6)
  else if op <=? 15 then
    rd [0xE5800000; 0xE5900000; 0xE5C00000; 0xE5D00000] ((tinstr &&& 0x1800) >>> 11)
    ||| ((tinstr &&& 0x0007) <<< 12) ||| ((tinstr &&& 0x0038) <<< 13)
    ||| ((tinstr &&& 0x07C0) >>> (6 - (if truth (tinstr &&& 4096) then 0 else 2)))
  else if op <=? 17 then
    (if truth (tinstr &&& 2048) then 0xE1D000B0 else 0xE1C000B0)
    ||| ((tinstr &&& 0x0007) <<< 12) ||| ((tinstr &&& 0x0038) <<< 13)
    ||| ((tinstr &&& 0x01C0) >>> 5) ||| ((tinstr &&& 0x0600) >>> 1)
  else
    (if truth (tinstr &&& 2048) then 0xE59D0000 else 0xE58D0000)
    ||| ((tinstr &&& 0x0700) <<< 4) ||| ((tinstr &&& 0x00FF) <<< 2).

(** Formats 12 to 15: address generation, the stack pointer, push and pop,
    multiple transfers. *)
Definition thumb_fmt12_15 (tinstr : Z) : Z :=
  let op := (tinstr &&& 0xF800) >>> 11 in
  if op <=? 21 then
    (if tinstr &&& 2048 =? 0 then 0xE28F0F00 else 0xE28D0F00)
    ||| ((tinstr &&& 0x0700) <<< 4) ||| (tinstr &&& 0x00FF)
  else if op <=? 23 then
    if tinstr &&& 0x0F00 =? 0 then
      (if truth (tinstr &&& 128) then 0xE24DDF00 else 0xE28DDF00) ||| (tinstr &&& 0x007F)
    else if tinstr &&& 0x0F00 =? 0x0e00 then 0xEF000000 ||| SWI_Breakpoint
    else
      rd [0xE92D0000; 0xE92D4000; 0xE8BD0000; 0xE8BD8000]
         (((tinstr &&& 2048) >>> 10) ||| ((tinstr &&& 256) >>> 8))
      ||| (tinstr &&& 0x00FF)
  else
    (if truth (tinstr &&& 2048) then 0xE8B00000 else 0xE8A00000)
    ||| ((tinstr &&& 0x0700) <<< 8) ||| (tinstr &&& 0x00FF).

(** Format 17, SWI. *)
Definition thumb_swi (tinstr pc : Z) (s : ARMul_State) : Z :=
  if (tinstr =? (ARMul_ABORTWORD s &&& 0xffff)) && (AbortAddr s =? pc) then ARMul_ABORTWORD s
  else
    0xEF000000 |||
    (if tinstr &&& 0x00FF =? 0x18 then (tinstr &&& 0x00FF) <<< 16
     else if tinstr &&& 0x00FF =? 0xFE then SWI_Breakpoint
     else tinstr &&& 0x00FF).

(** The condition of format 16, by its number in armdefs.h. *)
Definition thumb_cond (c : Z) (s : ARMul_State) : bool :=
  let n := truth (NFlag s) in let z := truth (ZFlag s) in
  let cf := truth (CFlag s) in let v := truth (VFlag s) in
  match c with
  | 0 => z | 1 => negb z | 6 => v | 7 => negb v | 4 => n | 5 => negb n
  | 2 => cf | 3 => negb cf | 8 => cf && negb z | 9 => negb cf || z
  | 10 => (negb n && negb v) || (n && v)
  | 11 => (n && negb v) || (negb n && v)
  | 12 => (negb n && negb v && negb z) || (n && v && negb z)
  | 13 => ((n && negb v) || (negb n && v)) || z
  | _ => false
  end.

(** Format 19, second half of BL. *)
Definition thumb_bl2 (tinstr pc : Z) (s : ARMul_State) : ARMul_State :=
  let tmp := add32 pc 2 in
  let s := set_reg 15 (add32 (reg s 14) ((tinstr &&& 0x07FF) <<< 1)) s in
  let s := set_reg 14 (tmp ||| 1) s in
  FLUSHPIPE s.

(** Formats 16 to 19. *)
Definition thumb_fmt16_19 (pc tinstr next_instr : Z) (s : ARMul_State) : tdstate * Z * ARMul_State :=
  let op := (tinstr &&& 0xF800) >>> 11 in
  let ainstr := 0xDEADC0DE in
  if op <=? 27 then
    if tinstr &&& 0x0F00 =? 0x0F00 then (t_decoded, thumb_swi tinstr pc s, s)
    else if negb (tinstr &&& 0x0F00 =? 0x0E00) then
      let s := if thumb_cond ((tinstr &&& 0x0F00) >>> 8) s
               then FLUSHPIPE (set_reg 15 (add32 (add32 pc 4)
                      (((tinstr &&& 0x7F) <<< 1) ||| (if truth (tinstr &&& 128) then 0xFFFFFF00 else 0))) s)
               else s in
      (t_branch, ainstr, s)
    else (t_undefined, ainstr, s)
  else if op =? 28 then
    (t_branch, ainstr,
     FLUSHPIPE (set_reg 15 (add32 (add32 pc 4)
       (((tinstr &&& 0x3FF) <<< 1) ||| (if truth (tinstr &&& 1024) then 0xFFFFF800 else 0))) s))
  else if op =? 29 then (t_undefined, ainstr, s)
  else if op =? 30 then
    let s := set_reg 14 (add32 (reg s 15)
      (((tinstr &&& 0x07FF) <<< 12) ||| (if truth (tinstr &&& 1024) then 0xFF800000 else 0))) s in
    let tinstr := next_instr in
    if negb ((tinstr &&& 0xF800) >>> 11 =? 31) then (t_branch, ainstr, s)
    else (t_branch, ainstr, thumb_bl2 tinstr (add32 pc 2) s)
  else (t_branch, ainstr, thumb_bl2 tinstr pc s).

(** The decoder: the kind of the instruction, the ARM instruction, the state. *)
Definition ARMul_ThumbDecode (pc tinstr : Z) (s : ARMul_State) : tdstate * Z * ARMul_State :=
  let '(next_instr, tinstr) :=
    if truth (bigendSig s) then (tinstr &&& 0xFFFF, tinstr >>> 16)
    else (tinstr >>> 16, tinstr &&& 0xFFFF) in
  let op := (tinstr &&& 0xF800) >>> 11 in
  if op <=? 7 then (t_decoded, thumb_fmt1_3 tinstr, s)
  else if op =? 8 then
    if tinstr &&& 1024 =? 0 then (t_decoded, thumb_fmt4 tinstr, s)
    else match thumb_fmt5 tinstr (is_v5 s) with
         | Some ainstr => (t_decoded, ainstr, s)
         | None => (t_undefined, 0xDEADC0DE, s)
         end
  else if op <=? 19 then (t_decoded, thumb_fmt6_11 tinstr, s)
  else if op <=? 25 then (t_decoded, thumb_fmt12_15 tinstr, s)
  else thumb_fmt16_19 pc tinstr next_instr s.

(** ** The Thumb manual

    Thumb instructions with their fields, their encoding, and the ARM
    instruction each stands for, encoded field by field. *)

Inductive tinsn :=
| T_shift (ty imm5 rs rd : Z)          (* 1: LSL, LSR, ASR rd, rs, #imm5 *)
| T_addsub (imm sub : bool) (rn rs rd : Z) (* 2: ADD, SUB rd, rs, rn or #imm3 *)
| T_imm (op rd imm8 : Z)               (* 3: MOV, CMP, ADD, SUB rd, #imm8 *)
| T_alu (op rs rd : Z)                 (* 4 *)
| T_hi (op rs rd : Z)           (* 5: ADD, CMP, MOV on r0 to r15 *)
| T_bx (rs : Z)
| T_ldr_pc (rd imm8 : Z)               (* 6 *)
| T_ls_reg (l b : bool) (ro rb rd : Z) (* 7: STR, STRB, LDR, LDRB *)
| T_lsh_reg (h s : bool) (ro rb rd : Z) (* 8: STRH, LDRH, LDRSB, LDRSH *)
| T_ls_imm (b l : bool) (imm5 rb rd : Z) (* 9 *)
| T_lsh_imm (l : bool) (imm5 rb rd : Z) (* 10 *)
| T_ls_sp (l : bool) (rd imm8 : Z)     (* 11 *)
| T_adr (sp : bool) (rd imm8 : Z)      (* 12 *)
| T_add_sp (sub : bool) (imm7 : Z)     (* 13 *)
| T_pushpop (l r : bool) (rlist : Z)   (* 14 *)
| T_ldmstm (l : bool) (rb rlist : Z)   (* 15 *)
| T_swi (imm8 : Z).                    (* 17 *)

Definition t_ok (t : tinsn) : Prop :=
  match t with
  | T_shift ty imm5 rs rd => 0 <= ty < 3 /\ fits 5 imm5 /\ fits 3 rs /\ fits 3 rd
  | T_addsub _ _ rn rs rd => fits 3 rn /\ fits 3 rs /\ fits 3 rd
  | T_imm op rd imm8 => fits 2 op /\ fits 3 rd /\ fits 8 imm8
  | T_alu op rs rd => fits 4 op /\ fits 3 rs /\ fits 3 rd
  | T_hi op rs rd => 0 <= op < 3 /\ fits 4 rs /\ fits 4 rd /\ (8 <= rs \/ 8 <= rd)
  | T_bx rs => fits 4 rs
  | T_ldr_pc rd imm8 => fits 3 rd /\ fits 8 imm8
  | T_ls_reg _ _ ro rb rd | T_lsh_reg _ _ ro rb rd => fits 3 ro /\ fits 3 rb /\ fits 3 rd
  | T_ls_imm _ _ imm5 rb rd | T_lsh_imm _ imm5 rb rd => fits 5 imm5 /\ fits 3 rb /\ fits 3 rd
  | T_ls_sp _ rd imm8 | T_adr _ rd imm8 => fits 3 rd /\ fits 8 imm8
  | T_add_sp _ imm7 => fits 7 imm7
  | T_pushpop _ _ rlist => fits 8 rlist
  | T_ldmstm _ rb rlist => fits 3 rb /\ fits 8 rlist
  | T_swi imm8 => fits 8 imm8
  end.

Definition fld (x n : Z) : Z := x <<< n.
Definition flag (b : bool) (n : Z) : Z := if b then 1 <<< n else 0.

Definition t_encode (t : tinsn) : Z :=
  match t with
  | T_shift ty imm5 rs rd => fld ty 11 ||| fld imm5 6 ||| fld rs 3 ||| rd
  | T_addsub imm sub rn rs rd =>
      fld 3 11 ||| flag imm 10 ||| flag sub 9 ||| fld rn 6 ||| fld rs 3 ||| rd
  | T_imm op rd imm8 => fld 1 13 ||| fld op 11 ||| fld rd 8 ||| imm8
  | T_alu op rs rd => fld 16 10 ||| fld op 6 ||| fld rs 3 ||| rd
  | T_hi op rs rd => fld 17 10 ||| fld op 8 ||| fld (rd >>> 3) 7 ||| fld rs 3 ||| (rd &&& 7)
  | T_bx rs => fld 17 10 ||| fld 3 8 ||| fld rs 3
  | T_ldr_pc rd imm8 => fld 9 11 ||| fld rd 8 ||| imm8
  | T_ls_reg l b ro rb rd =>
      fld 5 12 ||| flag l 11 ||| flag b 10 ||| fld ro 6 ||| fld rb 3 ||| rd
  | T_lsh_reg h s ro rb rd =>
      fld 5 12 ||| flag h 11 ||| flag s 10 ||| fld 1 9 ||| fld ro 6 ||| fld rb 3 ||| rd
  | T_ls_imm b l imm5 rb rd =>
      fld 3 13 ||| flag b 12 ||| flag l 11 ||| fld imm5 6 ||| fld rb 3 ||| rd
  | T_lsh_imm l imm5 rb rd => fld 8 12 ||| flag l 11 ||| fld imm5 6 ||| fld rb 3 ||| rd
  | T_ls_sp l rd imm8 => fld 9 12 ||| flag l 11 ||| fld rd 8 ||| imm8
  | T_adr sp rd imm8 => fld 10 12 ||| flag sp 11 ||| fld rd 8 ||| imm8
  | T_add_sp sub imm7 => fld 176 8 ||| flag sub 7 ||| imm7
  | T_pushpop l r rlist => fld 11 12 ||| flag l 11 ||| fld 2 9 ||| flag r 8 ||| rlist
  | T_ldmstm l rb rlist => fld 12 12 ||| flag l 11 ||| fld rb 8 ||| rlist
  | T_swi imm8 => fld 223 8 ||| imm8
  end.

(** ARM encodings, all with condition AL. *)
Definition AL_ := fld 14 28.
(** Data processing with an immediate, [imm8] rotated right by [2 * rot]. *)
Definition a_dp_imm (op : Z) (s : bool) (rn rd rot imm8 : Z) : Z :=
  AL_ ||| fld 1 25 ||| fld op 21 ||| flag s 20 ||| fld rn 16 ||| fld rd 12 ||| fld rot 8 ||| imm8.
(** With a register shifted by a constant, and by a register. *)
Definition a_dp_shift (op : Z) (s : bool) (rn rd amount ty rm : Z) : Z :=
  AL_ ||| fld op 21 ||| flag s 20 ||| fld rn 16 ||| fld rd 12 ||| fld amount 7 ||| fld ty 5 ||| rm.
Definition a_dp_rshift (op : Z) (s : bool) (rn rd rs ty rm : Z) : Z :=
  AL_ ||| fld op 21 ||| flag s 20 ||| fld rn 16 ||| fld rd 12 ||| fld rs 8 ||| fld ty 5
  ||| fld 1 4 ||| rm.
Definition a_mul (s : bool) (rd rs rm : Z) : Z :=
  AL_ ||| flag s 20 ||| fld rd 16 ||| fld rs 8 ||| fld 9 4 ||| rm.
Definition a_bx (rm : Z) : Z := AL_ ||| fld 18 20 ||| fld 0xfff 8 ||| fld 1 4 ||| rm.
(** LDR, STR, LDRB, STRB, pre-indexed, offset added, no write back. *)
Definition a_ls_imm (b l : bool) (rn rd imm12 : Z) : Z :=
  AL_ ||| fld 1 26 ||| fld 1 24 ||| fld 1 23 ||| flag b 22 ||| flag l 20
  ||| fld rn 16 ||| fld rd 12 ||| imm12.
Definition a_ls_reg (b l : bool) (rn rd rm : Z) : Z :=
  AL_ ||| fld 3 25 ||| fld 1 24 ||| fld 1 23 ||| flag b 22 ||| flag l 20
  ||| fld rn 16 ||| fld rd 12 ||| rm.
(** Halfword and signed transfers. *)
Definition a_lsh (imm l s h : bool) (rn rd hi lo : Z) : Z :=
  AL_ ||| fld 1 24 ||| fld 1 23 ||| flag imm 22 ||| flag l 20 ||| fld rn 16 ||| fld rd 12
  ||| fld hi 8 ||| fld 1 7 ||| flag s 6 ||| flag h 5 ||| fld 1 4 ||| lo.
(** Multiple transfers with write back. *)
Definition a_ldmstm (p u l : bool) (rn rlist : Z) : Z :=
  AL_ ||| fld 4 25 ||| flag p 24 ||| flag u 23 ||| fld 1 21 ||| flag l 20 ||| fld rn 16 ||| rlist.
Definition a_swi (imm24 : Z) : Z := AL_ ||| fld 15 24 ||| imm24.

(** Opcodes of data processing instructions. *)
Definition o_AND := 0.
Definition o_EOR := 1.
Definition o_SUB := 2.
Definition o_RSB := 3.
Definition o_ADD := 4.
Definition o_ADC := 5.
Definition o_SBC := 6.
Definition o_TST := 8.
Definition o_CMP := 10.
Definition o_CMN := 11.
Definition o_ORR := 12.
Definition o_MOV := 13.
Definition o_BIC := 14.
Definition o_MVN := 15.

(** Format 4.  The source puts [rd] also in the fields that the ARM
    instruction ignores (Rd of TST, CMP and CMN, Rn of MVN and, in formats 3 and
    5, of MOV). *)
Definition alu_arm (op rs rd : Z) : Z :=
  let norm o := a_dp_shift o true rd rd 0 0 rs in
  let shift ty := a_dp_rshift o_MOV true 0 rd rs ty rd in
  match op with
  | 0 => norm o_AND | 1 => norm o_EOR | 2 => shift 0 | 3 => shift 1 | 4 => shift 2
  | 5 => norm o_ADC | 6 => norm o_SBC | 7 => shift 3 | 8 => norm o_TST
  | 9 => a_dp_imm o_RSB true rs rd 0 0 | 10 => norm o_CMP | 11 => norm o_CMN
  | 12 => norm o_ORR | 13 => a_mul true rd rd rs | 14 => norm o_BIC | _ => norm o_MVN
  end.

(** Breakpoints use SWI numbers of their own. *)
Definition swi_number (imm8 : Z) : Z :=
  if imm8 =? 0x18 then 0x180000 else if imm8 =? 0xFE then SWI_Breakpoint else imm8.

Definition arm_of (t : tinsn) : Z :=
  match t with
  | T_shift ty imm5 rs rd => a_dp_shift o_MOV true 0 rd imm5 ty rs
  | T_addsub imm sub rn rs rd =>
      let op := if sub then o_SUB else o_ADD in
      if imm then a_dp_imm op true rs rd 0 rn else a_dp_shift op true rs rd 0 0 rn
  | T_imm op rd imm8 =>
      a_dp_imm (match op with 0 => o_MOV | 1 => o_CMP | 2 => o_ADD | _ => o_SUB end) true rd rd 0 imm8
  | T_alu op rs rd => alu_arm op rs rd
  | T_hi op rs rd =>
      match op with
      | 0 => a_dp_shift o_ADD false rd rd 0 0 rs
      | 1 => a_dp_shift o_CMP true rd rd 0 0 rs
      | _ => a_dp_shift o_MOV false rd rd 0 0 rs
      end
  | T_bx rs => a_bx rs
  | T_ldr_pc rd imm8 => a_ls_imm false true 15 rd (4 * imm8)
  | T_ls_reg l b ro rb rd => a_ls_reg b l rb rd ro
  | T_lsh_reg h s ro rb rd =>
      (* STRH, LDRSB, LDRH, LDRSH *)
      a_lsh false (h || s) s (negb s || h) rb rd 0 ro
  | T_ls_imm b l imm5 rb rd => a_ls_imm b l rb rd (if b then imm5 else 4 * imm5)
  | T_lsh_imm l imm5 rb rd =>
      a_lsh true l false true rb rd ((2 * imm5) >>> 4) ((2 * imm5) &&& 15)
  | T_ls_sp l rd imm8 => a_ls_imm false l 13 rd (4 * imm8)
  | T_adr sp rd imm8 => a_dp_imm o_ADD false (if sp then 13 else 15) rd 15 imm8
  | T_add_sp sub imm7 => a_dp_imm (if sub then o_SUB else o_ADD) false 13 13 15 imm7
  | T_pushpop l r rlist => a_ldmstm (negb l) l l 13 (rlist ||| flag r (if l then 15 else 14))
  | T_ldmstm l rb rlist => a_ldmstm false true l rb rlist
  | T_swi imm8 => a_swi (swi_number imm8)
  end.

(** ** Proofs *)

Definition halfword (s : ARMul_State) (tinstr : Z) : Z :=
  if truth (bigendSig s) then tinstr >>> 16 else tinstr &&& 0xFFFF.

Ltac unfold_encodings :=
  unfold arm_of, t_encode, a_dp_imm, a_dp_shift, a_dp_rshift, a_mul, a_bx, a_ls_imm, a_ls_reg,
    a_lsh, a_ldmstm, a_swi, AL_, fld, flag, o_AND, o_EOR, o_SUB, o_RSB, o_ADD, o_ADC, o_SBC,
    o_TST, o_CMP, o_CMN, o_ORR, o_MOV, o_BIC, o_MVN in *.

(** [(t_encode t & 0xF800) >> 11], the selector of the outer switch. *)
Definition top5 (t : tinsn) : Z :=
  match t with
  | T_shift ty _ _ _ => ty
  | T_addsub _ _ _ _ _ => 3
  | T_imm op _ _ => 4 ||| op
  | T_alu _ _ _ | T_hi _ _ _ | T_bx _ => 8
  | T_ldr_pc _ _ => 9
  | T_ls_reg l _ _ _ _ | T_lsh_reg l _ _ _ _ => if l then 11 else 10
  | T_ls_imm b l _ _ _ => if b then if l then 15 else 14 else if l then 13 else 12
  | T_lsh_imm l _ _ _ => if l then 17 else 16
  | T_ls_sp l _ _ => if l then 19 else 18
  | T_adr sp _ _ => if sp then 21 else 20
  | T_add_sp _ _ => 22
  | T_pushpop l _ _ => if l then 23 else 22
  | T_ldmstm l _ _ => if l then 25 else 24
  | T_swi _ => 27
  end.

Lemma top5_encode t : t_ok t -> (t_encode t &&& 0xF800) >>> 11 = top5 t.
Proof.
  destruct t; simpl t_ok; simpl top5; intros Ht;
    try match goal with |- context [T_shift] => assert (fits 2 ty) by (unfold fits; lia) end;
    try match goal with |- context [T_hi] => assert (fits 2 op) by (unfold fits; lia) end;
    fields; unfold_encodings;
    repeat match goal with b : bool |- _ => destruct b end.
  all: same_bits.
Qed.

(** [selector x] rewrites the table index of the goal to [x]. *)
Ltac split_flags := repeat match goal with b : bool |- _ => destruct b end.
Ltac selector x :=
  match goal with
  | |- context [rd _ ?e] => replace e with x by (symmetry; same_bits)
  end;
  match goal with
  | |- context [rd ?l x] => let r := eval vm_compute in (rd l x) in change (rd l x) with r
  end.

(** Starts a proof about [f (t_encode t)]: selects the case of the format. *)
Ltac format f :=
  try match goal with x := _ : tinsn |- _ => subst x end;
  intros Ht; unfold f; rewrite top5_encode by done; cbv zeta; simpl in Ht; fields;
  split_flags; unfold top5; eval_cmp.

(** Tests of one bit of the encoding. *)
Ltac flag_test n b :=
  match goal with
  | |- context [truth (?e &&& ?m)] =>
      replace (truth (e &&& m)) with b
        by (change m with (2 ^ n); rewrite truth_land_pow2 by lia; symmetry;
            autorewrite with tbits; abstract_bits; vm_compute; low_bits; first [reflexivity|case_bits])
  end.

Lemma fmt1_value ty imm5 Rs Rd (t := T_shift ty imm5 Rs Rd) :
  t_ok t -> thumb_fmt1_3 (t_encode t) = arm_of t.
Proof.
  intros Ht. unfold thumb_fmt1_3. rewrite top5_encode by done. simpl in Ht. simpl top5.
  replace (ty <=? 2) with true by lia. assert (fits 2 ty) by (unfold fits; lia).
  fields. subst t. unfold_encodings. same_bits.
Qed.

Lemma fmt2_value imm sub Rn Rs Rd (t := T_addsub imm sub Rn Rs Rd) :
  t_ok t -> thumb_fmt1_3 (t_encode t) = arm_of t.
Proof.
  format thumb_fmt1_3; unfold_encodings; [selector 3|selector 1|selector 2|selector 0]; same_bits.
Qed.

Lemma fmt3_value op Rd imm8 (t := T_imm op Rd imm8) :
  t_ok t -> thumb_fmt1_3 (t_encode t) = arm_of t.
Proof.
  intros Ht. assert (Ho : op = 0 \/ op = 1 \/ op = 2 \/ op = 3) by (apply fits2_cases, Ht).
  revert Ht. subst t. destruct Ho as [-> |[-> |[-> | ->]]]; format thumb_fmt1_3; unfold_encodings;
    [selector 0|selector 1|selector 2|selector 3]; same_bits.
Qed.

Lemma fmt6_value Rd imm8 (t := T_ldr_pc Rd imm8) :
  t_ok t -> thumb_fmt6_11 (t_encode t) = arm_of t.
Proof.
  format thumb_fmt6_11. unfold arm_of.
  replace (4 * imm8) with (imm8 <<< 2) by (by rewrite Z.shiftl_mul_pow2, Z.mul_comm by lia).
  unfold_encodings. same_bits.
Qed.

(** A test of the form [e & m = 0]. *)
Ltac zero_test v :=
  match goal with
  | |- context [?e &&& ?m =? ?c] => replace (e &&& m) with v by (symmetry; same_bits); eval_cmp
  end.

Lemma fmt7_value l b Ro Rb Rd (t := T_ls_reg l b Ro Rb Rd) :
  t_ok t -> thumb_fmt6_11 (t_encode t) = arm_of t.
Proof.
  format thumb_fmt6_11; unfold_encodings; zero_test 0;
    [selector 3|selector 1|selector 2|selector 0]; same_bits.
Qed.

Lemma fmt8_value h s Ro Rb Rd (t := T_lsh_reg h s Ro Rb Rd) :
  t_ok t -> thumb_fmt6_11 (t_encode t) = arm_of t.
Proof.
  format thumb_fmt6_11; unfold_encodings; simpl orb; simpl negb; cbv iota; zero_test 512;
    [selector 3|selector 1|selector 2|selector 0]; same_bits.
Qed.

Lemma fmt9_value b l imm5 Rb Rd (t := T_ls_imm b l imm5 Rb Rd) :
  t_ok t -> thumb_fmt6_11 (t_encode t) = arm_of t.
Proof.
  format thumb_fmt6_11; unfold arm_of; rewrite ?mul4; unfold_encodings;
    [flag_test 12 true; selector 3|flag_test 12 false; selector 1|
     flag_test 12 true; selector 2|flag_test 12 false; selector 0]; same_bits.
Qed.

Lemma fmt10_value l imm5 Rb Rd (t := T_lsh_imm l imm5 Rb Rd) :
  t_ok t -> thumb_fmt6_11 (t_encode t) = arm_of t.
Proof.
  format thumb_fmt6_11; unfold arm_of; rewrite ?mul2; unfold_encodings;
    [flag_test 11 true|flag_test 11 false]; same_bits.
Qed.

Lemma fmt11_value l Rd imm8 (t := T_ls_sp l Rd imm8) :
  t_ok t -> thumb_fmt6_11 (t_encode t) = arm_of t.
Proof.
  format thumb_fmt6_11; unfold arm_of; rewrite ?mul4; unfold_encodings;
    [flag_test 11 true|flag_test 11 false]; same_bits.
Qed.

Lemma fmt12_value sp Rd imm8 (t := T_adr sp Rd imm8) :
  t_ok t -> thumb_fmt12_15 (t_encode t) = arm_of t.
Proof.
  format thumb_fmt12_15; unfold_encodings; [zero_test 2048|zero_test 0]; same_bits.
Qed.

Lemma fmt13_value sub imm7 (t := T_add_sp sub imm7) :
  t_ok t -> thumb_fmt12_15 (t_encode t) = arm_of t.
Proof.
  format thumb_fmt12_15; unfold_encodings; zero_test 0;
    [flag_test 7 true|flag_test 7 false]; same_bits.
Qed.

Lemma fmt14_value l r rlist (t := T_pushpop l r rlist) :
  t_ok t -> thumb_fmt12_15 (t_encode t) = arm_of t.
Proof.
  format thumb_fmt12_15; unfold_encodings; simpl negb; cbv iota;
    [zero_test 0xd00|zero_test 0x500|zero_test 0xc00|zero_test 0x400];
    [selector 3|selector 1|selector 2|selector 0]; same_bits.
Qed.

Lemma fmt15_value l Rb rlist (t := T_ldmstm l Rb rlist) :
  t_ok t -> thumb_fmt12_15 (t_encode t) = arm_of t.
Proof.
  format thumb_fmt12_15; unfold_encodings; [flag_test 11 true|flag_test 11 false]; same_bits.
Qed.

Lemma fmt4_value op Rs Rd (t := T_alu op Rs Rd) :
  t_ok t -> thumb_fmt4 (t_encode t) = arm_of t.
Proof.
  intros (Ho & Hs & Hd). apply fits4_cases in Ho.
  assert (forall k, fits 4 k -> (t_encode (T_alu k Rs Rd) &&& 0x03C0) >>> 6 = k) as Hsel.
  { intros k Hk. fields. unfold_encodings. same_bits. }
  subst t. unfold thumb_fmt4. rewrite Hsel by (apply elem_of_seqZ in Ho; unfold fits; simpl; lia).
  clear Hsel. revert Ho. fields. change (seqZ 0 16) with [0;1;2;3;4;5;6;7;8;9;10;11;12;13;14;15].
  rewrite !elem_of_cons, elem_of_nil. intros Ho. unfold arm_of, alu_arm.
  repeat destruct Ho as [-> | Ho]; try done;
    match goal with |- context [nth ?n fmt4_subset ?d] =>
      let r := eval vm_compute in (nth n fmt4_subset d) in change (nth n fmt4_subset d) with r end;
    cbv beta iota zeta; unfold_encodings; same_bits.
Qed.

Lemma top_of_4 x : fits 4 x ->
  x >>> 3 = c_bool (8 <=? x) /\ (x &&& 7) + (if Z.testbit x 3 then 8 else 0) = x.
Proof.
  intros Hx. apply fits4_cases in Hx. revert Hx.
  change (seqZ 0 16) with [0;1;2;3;4;5;6;7;8;9;10;11;12;13;14;15].
  rewrite !elem_of_cons, elem_of_nil. intros Ho. by repeat destruct Ho as [-> | Ho].
Qed.

Lemma fmt5_fields e n a x m k :
  fits 4 x -> (e &&& a) >>> n = x &&& 7 -> m = 2 ^ k -> 0 <= k -> Z.testbit e k = Z.testbit x 3 ->
  ((e &&& a) >>> n) + (if truth (e &&& m) then 8 else 0) = x.
Proof.
  intros Hx -> -> Hk Hb. rewrite truth_land_pow2, Hb by done. by apply top_of_4.
Qed.

Ltac one_bit := unfold_encodings; autorewrite with tbits; abstract_bits; vm_compute; low_bits;
  first [reflexivity | case_bits].

Lemma fmt5_value op Rs Rd (t := T_hi op Rs Rd) v5 :
  t_ok t -> thumb_fmt5 (t_encode t) v5 = Some (arm_of t).
Proof.
  intros (Ho & Hs & Hd & Hh). unfold thumb_fmt5.
  pose proof (proj1 (top_of_4 Rs Hs)) as Ts. pose proof (proj1 (top_of_4 Rd Hd)) as Td.
  assert (Hop : fits 2 op) by (unfold fits; simpl; lia). subst t.
  assert (Esel : (t_encode (T_hi op Rs Rd) &&& 0x03C0) >>> 6 = (op <<< 2) ||| ((Rd >>> 3) <<< 1) ||| (Rs >>> 3))
    by (fields; unfold_encodings; same_bits).
  assert (Ed : ((t_encode (T_hi op Rs Rd) &&& 0x0007) >>> 0)
               + (if truth (t_encode (T_hi op Rs Rd) &&& 128) then 8 else 0) = Rd).
  { apply (fmt5_fields _ 0 7 Rd 128 7 Hd); try done; fields;
      [unfold_encodings; same_bits|one_bit]. }
  assert (Es : ((t_encode (T_hi op Rs Rd) &&& 0x0038) >>> 3)
               + (if truth (t_encode (T_hi op Rs Rd) &&& 64) then 8 else 0) = Rs).
  { apply (fmt5_fields _ 3 56 Rs 64 6 Hs); try done; fields;
      [unfold_encodings; same_bits|one_bit]. }
  rewrite Ed, Es, Esel, Ts, Td. clear Ed Es Esel Ts Td.
  assert (op = 0 \/ op = 1 \/ op = 2) as Hc by lia. clear Ho Hop. fields.
  destruct Hc as [-> |[-> | ->]], (Z.leb_spec 8 Rs), (Z.leb_spec 8 Rd); try lia; clear Hh;
    cbn; unfold_encodings; f_equal; same_bits.
Qed.

Lemma bx_value Rs (t := T_bx Rs) v5 : t_ok t -> thumb_fmt5 (t_encode t) v5 = Some (arm_of t).
Proof.
  intros Hs. simpl in Hs. unfold thumb_fmt5. subst t. pose proof (proj1 (top_of_4 Rs Hs)) as Ts.
  assert ((t_encode (T_bx Rs) &&& 0x03C0) >>> 6 = 12 ||| (Rs >>> 3)) as ->
    by (fields; unfold_encodings; same_bits).
  rewrite Ts. fields. destruct (8 <=? Rs); cbn; unfold_encodings; f_equal; same_bits.
Qed.

Lemma swi_value imm8 pc s next (t := T_swi imm8) :
  t_ok t -> AbortAddr s <> pc ->
  thumb_fmt16_19 pc (t_encode t) next s = (t_decoded, arm_of t, s).
Proof.
  intros Ht Hp. unfold thumb_fmt16_19. subst t. rewrite top5_encode by done. unfold top5. eval_cmp.
  simpl in Ht. assert (Hi : t_encode (T_swi imm8) &&& 0xFF = imm8) by (fields; unfold_encodings; same_bits).
  assert (Hf : t_encode (T_swi imm8) &&& 0x0F00 = 0x0F00) by (fields; unfold_encodings; same_bits).
  rewrite Hf. cbv zeta. eval_cmp. unfold thumb_swi. rewrite Hi.
  replace (AbortAddr s =? pc) with false by lia. rewrite andb_false_r. do 2 f_equal.
  unfold arm_of, swi_number, a_swi, AL_, fld.
  destruct (imm8 =? 24) eqn:E; [apply Z.eqb_eq in E; by subst|].
  by destruct (imm8 =? 254).
Qed.

(** ** Properties *)

(** C9: Every Thumb instruction of formats 1 to 15 and 17, with any fields and in
    either byte order, decodes to the ARM instruction that the Thumb manual gives
    for it and leaves the state alone; an SWI is excluded only at the
    address of a pending prefetch abort, where the decoder passes the abort
    marker on. *)
Theorem thumb_decode_correct t pc tinstr s :
  t_ok t -> halfword s tinstr = t_encode t -> (forall n, t = T_swi n -> AbortAddr s <> pc) ->
  ARMul_ThumbDecode pc tinstr s = (t_decoded, arm_of t, s).
Proof.
  intros Ht Hh Ha. unfold ARMul_ThumbDecode, halfword in *.
  set (p := if truth (bigendSig s) then _ else _).
  assert (exists next, p = (next, t_encode t)) as [next ->].
  { unfold p. destruct (truth _); rewrite Hh; by eexists. }
  cbv iota beta zeta. rewrite top5_encode by done. clear Hh.
  destruct t; unfold top5; split_flags; eval_cmp;
    try first [by rewrite fmt2_value | by rewrite fmt6_value | by rewrite fmt7_value
      | by rewrite fmt8_value | by rewrite fmt9_value | by rewrite fmt10_value | by rewrite fmt11_value
      | by rewrite fmt12_value | by rewrite fmt13_value | by rewrite fmt14_value | by rewrite fmt15_value].
  - assert (0 <= ty < 3) by apply Ht. replace (ty <=? 7) with true by lia.
    by rewrite fmt1_value.
  - destruct (fits2_cases op ltac:(apply Ht)) as [-> |[-> |[-> | ->]]]; eval_cmp; by rewrite fmt3_value.
  - assert (t_encode (T_alu op rs rd) &&& 1024 = 0) as -> by (simpl in Ht; fields; unfold_encodings; same_bits).
    eval_cmp. by rewrite fmt4_value.
  - assert (Hop : fits 2 op) by (simpl in Ht; unfold fits; simpl; lia).
    assert (t_encode (T_hi op rs rd) &&& 1024 = 1024) as ->
      by (simpl in Ht; fields; unfold_encodings; same_bits).
    eval_cmp. by rewrite fmt5_value.
  - assert (t_encode (T_bx rs) &&& 1024 = 1024) as -> by (simpl in Ht; fields; unfold_encodings; same_bits).
    eval_cmp. by rewrite bx_value.
  - by apply swi_value, (Ha imm8).
Qed.

(** [ADD r1, r2, #5] in the low half of a word. *)
Lemma thumb_decode_correct_witness :
  ARMul_ThumbDecode 0 0xdead1d51 zero_state = (t_decoded, 0xe2921005, zero_state).
Proof.
  rewrite (thumb_decode_correct (T_addsub true false 5 2 1)); [reflexivity|by vm_compute|reflexivity|done].
Defined.
