(* ===== verification/ThumbBranch.v ===== *)
(** * Thumb branches (thumbemu.c, formats 16, 18 and 19)

    The branches that [ARMul_ThumbDecode] performs itself, against the targets
    of the Thumb manual written with signed offsets. *)

From S2P Require Import Prelude Words Bits ArmState ArmSupp ArmBanks ThumbDecode.

Definition sext (n x : Z) : Z := if Z.testbit x (n - 1) then x - 2 ^ n else x.

(** The conditions of the manual: their numbers, and the flags they test. *)
Inductive tcond := C_EQ | C_NE | C_CS | C_CC | C_MI | C_PL | C_VS | C_VC | C_HI | C_LS | C_GE | C_LT | C_GT | C_LE.
Definition cond_number (c : tcond) : Z :=
  match c with
  | C_EQ => 0 | C_NE => 1 | C_CS => 2 | C_CC => 3 | C_MI => 4 | C_PL => 5 | C_VS => 6 | C_VC => 7
  | C_HI => 8 | C_LS => 9 | C_GE => 10 | C_LT => 11 | C_GT => 12 | C_LE => 13
  end.
Definition cond_passed (c : tcond) (s : ARMul_State) : Prop :=
  let N := truth (NFlag s) in let Z := truth (ZFlag s) in let C := truth (CFlag s) in let V := truth (VFlag s) in
  match c with
  | C_EQ => Z = true | C_NE => Z = false
  | C_CS => C = true | C_CC => C = false
  | C_MI => N = true | C_PL => N = false
  | C_VS => V = true | C_VC => V = false
  | C_HI => C = true /\ Z = false | C_LS => C = false \/ Z = true
  | C_GE => N = V | C_LT => N <> V
  | C_GT => Z = false /\ N = V | C_LE => Z = true \/ N <> V
  end.
#[export] Instance cond_passed_dec c s : Decision (cond_passed c s).
Proof. destruct c; unfold cond_passed; apply _. Defined.

Inductive tbranch :=
| B_cond (cond : tcond) (off8 : Z) (* 16 *)
| B_always (off11 : Z)       (* 18 *)
| BL_pair (hi11 lo11 : Z).   (* 19, both halves *)

Definition b_ok (b : tbranch) : Prop :=
  match b with
  | B_cond _ off8 => fits 8 off8
  | B_always off11 => fits 11 off11
  | BL_pair hi lo => fits 11 hi /\ fits 11 lo
  end.

(** The first halfword, and for BL the one after it. *)
Definition b_encode (b : tbranch) : Z :=
  match b with
  | B_cond cond off8 => fld 13 12 ||| fld (cond_number cond) 8 ||| off8
  | B_always off11 => fld 28 11 ||| off11
  | BL_pair hi _ => fld 30 11 ||| hi
  end.
Definition next_halfword (s : ARMul_State) (tinstr : Z) : Z :=
  if truth (bigendSig s) then tinstr &&& 0xFFFF else tinstr >>> 16.
Definition b_second (b : tbranch) (h : Z) : Prop :=
  match b with BL_pair _ lo => h = fld 31 11 ||| lo | _ => True end.

Definition jump (target : Z) (s : ARMul_State) : ARMul_State := FLUSHPIPE (set_reg 15 target s).

(** What the manual says: offsets are signed and count halfwords; BL leaves the
    address of the instruction after the pair in LR with bit 0 set, and its
    target is relative to R15. *)
Definition b_effect (b : tbranch) (pc : Z) (s : ARMul_State) : ARMul_State :=
  match b with
  | B_cond cond off8 =>
      if decide (cond_passed cond s) then jump (u32 (pc + 4 + 2 * sext 8 off8)) s else s
  | B_always off11 => jump (u32 (pc + 4 + 2 * sext 11 off11)) s
  | BL_pair hi lo =>
      let target := u32 (reg s 15 + 4096 * sext 11 hi + 2 * lo) in
      FLUSHPIPE (set_reg 14 (u32 (pc + 4) ||| 1) (set_reg 15 target
        (set_reg 14 (u32 (reg s 15 + 4096 * sext 11 hi)) s)))
  end.

(** A sign-extended offset as the source builds it. *)
Lemma offset8 x : fits 8 x ->
  ((x &&& 0x7F) <<< 1) ||| (if truth (x &&& 128) then 0xFFFFFF00 else 0) = u32 (2 * sext 8 x).
Proof.
  apply (offset_table 8 (fun x => ((x &&& 0x7F) <<< 1) ||| (if truth (x &&& 128) then 0xFFFFFF00 else 0))
           (fun x => u32 (2 * sext 8 x))); [lia|by vm_compute].
Qed.

Lemma offset11 x : fits 11 x ->
  ((x &&& 0x3FF) <<< 1) ||| (if truth (x &&& 1024) then 0xFFFFF800 else 0) = u32 (2 * sext 11 x).
Proof.
  apply (offset_table 11 (fun x => ((x &&& 0x3FF) <<< 1) ||| (if truth (x &&& 1024) then 0xFFFFF800 else 0))
           (fun x => u32 (2 * sext 11 x))); [lia|by vm_compute].
Qed.

Lemma offset_bl x : fits 11 x ->
  ((x &&& 0x7FF) <<< 12) ||| (if truth (x &&& 1024) then 0xFF800000 else 0) = u32 (4096 * sext 11 x).
Proof.
  apply (offset_table 11 (fun x => ((x &&& 0x7FF) <<< 12) ||| (if truth (x &&& 1024) then 0xFF800000 else 0))
           (fun x => u32 (4096 * sext 11 x))); [lia|by vm_compute].
Qed.

Lemma add32_u32 a b : add32 a (u32 b) = u32 (a + b).
Proof. unfold add32, u32. by rewrite Z.add_mod_idemp_r by lia. Qed.
Lemma bl2_effect lo pc s h :
  wf s -> fits 11 lo -> word h ->
  thumb_bl2 (fld 31 11 ||| lo) pc (set_reg 14 h s) =
  FLUSHPIPE (set_reg 14 (u32 (pc + 2) ||| 1) (set_reg 15 (u32 (h + 2 * lo)) (set_reg 14 h s))).
Proof.
  intros Hwf Hlo Hh. unfold thumb_bl2. cbv zeta.
  assert ((fld 31 11 ||| lo) &&& 0x07FF = lo) as -> by (fields; unfold_encodings; same_bits).
  rewrite reg_set_reg by (done || lia). simpl (14 =? 14). cbv iota. by rewrite mul2.
Qed.

(** The conditions of the decoder. *)
Lemma thumb_cond_passed c s : thumb_cond (cond_number c) s = bool_decide (cond_passed c s).
Proof.
  assert (thumb_cond (cond_number c) s = true <-> cond_passed c s) as H.
  { unfold thumb_cond, cond_passed. destruct c; cbn [cond_number];
      destruct (truth (NFlag s)), (truth (ZFlag s)), (truth (CFlag s)), (truth (VFlag s)); cbn; intuition congruence. }
  case_bool_decide; destruct (thumb_cond _ s); tauto || done.
Qed.

Lemma bcond_effect c off pc next s :
  b_ok (B_cond c off) ->
  25 < (b_encode (B_cond c off) &&& 0xF800) >>> 11 /\
  thumb_fmt16_19 pc (b_encode (B_cond c off)) next s =
    (t_branch, 0xDEADC0DE, b_effect (B_cond c off) pc s).
Proof.
  cbn [b_ok]. intros Ho. set (E := b_encode (B_cond c off)). unfold b_encode in E. unfold b_effect.
  assert (Ec : (if decide (cond_passed c s) then jump (u32 (pc + 4 + 2 * sext 8 off)) s else s) =
    if thumb_cond (cond_number c) s then jump (u32 (pc + 4 + 2 * sext 8 off)) s else s).
  { rewrite thumb_cond_passed. case_bool_decide; by destruct (decide _). }
  rewrite Ec. clear Ec. assert (Hc : 0 <= cond_number c < 14) by (destruct c; cbn; lia).
  revert E. generalize dependent (cond_number c). intros cond Hc E.
  assert (Hc4 : fits 4 cond) by (unfold fits; simpl; lia).
  pose proof (proj1 (top_of_4 cond Hc4)) as Tc. pose proof (offset8 off Ho) as Hoff.
  assert (Eop : (E &&& 0xF800) >>> 11 = 26 ||| (cond >>> 3))
    by (unfold E; clear Hoff; fields; unfold_encodings; same_bits).
  assert (Econd : E &&& 0x0F00 = cond <<< 8)
    by (unfold E; clear Hoff; fields; unfold_encodings; same_bits).
  assert (Elow : E &&& 0x7F = off &&& 0x7F)
    by (unfold E; clear Hoff; fields; unfold_encodings; same_bits).
  assert (Esgn : E &&& 128 = off &&& 128)
    by (unfold E; clear Hoff; fields; unfold_encodings; same_bits).
  assert (Eback : (cond <<< 8) >>> 8 = cond) by (rewrite Z.shiftr_shiftl_l, Z.sub_diag by lia; apply Z.shiftl_0_r).
  assert (Eval : cond <<< 8 = 256 * cond) by (rewrite Z.shiftl_mul_pow2 by lia; simpl; lia).
  unfold thumb_fmt16_19. rewrite Eop, Econd, Eback, Elow, Esgn, Hoff, Tc, Eval.
  replace (256 * cond =? 0x0F00) with false by lia. replace (256 * cond =? 0x0E00) with false by lia.
  rewrite add32_u32. unfold jump.
  unfold add32. rewrite u32_add_l.
  destruct (8 <=? cond); by split.
Qed.

Lemma b_effect_ok off pc next s :
  b_ok (B_always off) ->
  (b_encode (B_always off) &&& 0xF800) >>> 11 = 28 /\
  thumb_fmt16_19 pc (b_encode (B_always off)) next s =
    (t_branch, 0xDEADC0DE, b_effect (B_always off) pc s).
Proof.
  intros Ho. simpl in Ho. pose proof (offset11 off Ho) as Hoff. set (E := b_encode (B_always off)).
  assert (Eop : (E &&& 0xF800) >>> 11 = 28)
    by (unfold E, b_encode; clear Hoff; fields; unfold_encodings; same_bits).
  assert (Elow : E &&& 0x3FF = off &&& 0x3FF)
    by (unfold E, b_encode; clear Hoff; fields; unfold_encodings; same_bits).
  assert (Esgn : E &&& 1024 = off &&& 1024)
    by (unfold E, b_encode; clear Hoff; fields; unfold_encodings; same_bits).
  split; [done|]. unfold thumb_fmt16_19. rewrite Eop. cbv zeta. eval_cmp.
  rewrite Elow, Esgn, Hoff, add32_u32. unfold b_effect, jump, add32. by rewrite u32_add_l.
Qed.

Lemma bl_effect_ok hi lo pc next s :
  wf s -> b_ok (BL_pair hi lo) -> next = fld 31 11 ||| lo ->
  (b_encode (BL_pair hi lo) &&& 0xF800) >>> 11 = 30 /\
  thumb_fmt16_19 pc (b_encode (BL_pair hi lo)) next s =
    (t_branch, 0xDEADC0DE, b_effect (BL_pair hi lo) pc s).
Proof.
  intros Hwf [Hh Hl] ->. pose proof (offset_bl hi Hh) as Hoff. set (E := b_encode (BL_pair hi lo)).
  assert (Eop : (E &&& 0xF800) >>> 11 = 30)
    by (unfold E, b_encode; clear Hoff Hl; fields; unfold_encodings; same_bits).
  assert (Elow : E &&& 0x7FF = hi &&& 0x7FF)
    by (unfold E, b_encode; clear Hoff Hl; fields; unfold_encodings; same_bits).
  assert (Esgn : E &&& 1024 = hi &&& 1024)
    by (unfold E, b_encode; clear Hoff Hl; fields; unfold_encodings; same_bits).
  assert (Enext : ((fld 31 11 ||| lo) &&& 0xF800) >>> 11 = 31)
    by (clear Hoff Hh; fields; unfold_encodings; same_bits).
  split; [done|]. unfold thumb_fmt16_19. rewrite Eop. cbv zeta. eval_cmp.
  rewrite Elow, Esgn, Hoff, Enext, add32_u32. eval_cmp. simpl negb. cbv iota. rewrite bl2_effect by auto with words.
  unfold b_effect, add32. cbv zeta. rewrite !u32_add_l. by replace (pc + 2 + 2) with (pc + 4) by lia.
Qed.

(** C12: The branches the decoder performs itself: a conditional branch moves the
    PC to [pc + 4] plus its signed offset exactly when the flags pass its
    condition, one of the fourteen of the manual, and else does nothing;
    B always does, and the two halves of BL, decoded together, reach the
    target of the 22-bit signed offset and leave the return address in LR
    with bit 0 set; each of them flushes the pipeline. *)
Theorem thumb_branch_targets b pc tinstr s :
  wf s -> b_ok b -> halfword s tinstr = b_encode b -> b_second b (next_halfword s tinstr) ->
  exists ainstr, ARMul_ThumbDecode pc tinstr s = (t_branch, ainstr, b_effect b pc s).
Proof.
  intros Hwf Hb Hh Hn. unfold ARMul_ThumbDecode, halfword, next_halfword in *.
  set (p := if truth (bigendSig s) then _ else _).
  assert (exists next, p = (next, b_encode b) /\ b_second b next) as (next & -> & Hs).
  { unfold p. destruct (truth _); rewrite Hh; by eexists. }
  cbv iota beta zeta. clear Hh Hn. exists 0xDEADC0DE.
  assert (forall k, 25 < k -> (b_encode b &&& 0xF800) >>> 11 = k ->
    thumb_fmt16_19 pc (b_encode b) next s = (t_branch, 0xDEADC0DE, b_effect b pc s) ->
    (let op := (b_encode b &&& 0xF800) >>> 11 in
     if op <=? 7 then (t_decoded, thumb_fmt1_3 (b_encode b), s)
     else if op =? 8 then
       if b_encode b &&& 1024 =? 0 then (t_decoded, thumb_fmt4 (b_encode b), s)
       else match thumb_fmt5 (b_encode b) (is_v5 s) with
            | Some ainstr => (t_decoded, ainstr, s)
            | None => (t_undefined, 0xDEADC0DE, s)
            end
     else if op <=? 19 then (t_decoded, thumb_fmt6_11 (b_encode b), s)
     else if op <=? 25 then (t_decoded, thumb_fmt12_15 (b_encode b), s)
     else thumb_fmt16_19 pc (b_encode b) next s) = (t_branch, 0xDEADC0DE, b_effect b pc s)) as Hdispatch.
  { intros k Hk -> E. cbv zeta. replace (k <=? 7) with false by lia. replace (k =? 8) with false by lia.
    replace (k <=? 19) with false by lia. by replace (k <=? 25) with false by lia. }
  destruct b as [cond off|off|hi lo].
  - destruct (bcond_effect cond off pc next s Hb) as [Hk E]. by eapply Hdispatch.
  - destruct (b_effect_ok off pc next s Hb) as [Hk E]. by apply (Hdispatch 28).
  - destruct (bl_effect_ok hi lo pc next s Hwf Hb Hs) as [Hk E]. by apply (Hdispatch 30).
Qed.

(** [BL] to 0x100 bytes before the PC of the pair at 0x8000, and [BLE] taken. *)
Lemma thumb_branch_targets_witness :
  let s := set_reg 15 0x8004 zero_state in
  (exists ainstr, ARMul_ThumbDecode 0x8000 0xff7ef7ff s =
    (t_branch, ainstr, b_effect (BL_pair 0x7ff 0x77e) 0x8000 s)) /\
  (exists ainstr, ARMul_ThumbDecode 0x8000 0xdd02 (s <| ZFlag := 1 |>) =
    (t_branch, ainstr, jump 0x8008 (s <| ZFlag := 1 |>))).
Proof.
  set (s := set_reg 15 0x8004 zero_state).
  assert (wf s) as Hwf by (apply wf_set_reg; [apply wf_zero_state|unfold word; lia]).
  split; [by apply (thumb_branch_targets (BL_pair 0x7ff 0x77e)); [|vm_compute|..]|].
  assert (wf (s <| ZFlag := 1 |>)) as Hz by (destruct Hwf; constructor; upds; try assumption; by right).
  by apply (thumb_branch_targets (B_cond C_LE 2) 0x8000 0xdd02 (s <| ZFlag := 1 |>) Hz).
Defined.
