(* ===== verification/ArmInit.v ===== *)
(** * arminit.c: tables, initial state, reset and exceptions

    [ARMul_Abort] takes an exception: it banks the CPSR and the return address
    and jumps to the vector.  The theorems state the exception entry of the
    architecture for each of the seven vectors, in ARM and in Thumb state, the
    return by a data processing instruction that writes R15 with the S bit,
    the priority of pending interrupts, and the contents of the tables. *)

From S2P Require Import Prelude Words Bits ArmState ArmSupp ArmBanks ArmFlags ArmPsr ArmShift.

(** ** Tables *)

Definition ImmedTable_entry (i : Z) : Z := ROTATER (i &&& 0xff) ((i >>> 7) &&& 0x1e).
Definition BitList_count (a : list Z) : list Z :=
  for_range 0 8 (fun k a => let j := 1 <<< k in
    for_range 0 256 (fun i a => if 0 <? i &&& j then wr a i (rd a i + 1) else a) a) a.

(** [ARMul_ImmedTable] and [ARMul_BitList] after [ARMul_EmulateInit]. *)
Definition ARMul_EmulateInit (ImmedTable BitList : list Z) : list Z * list Z :=
  let ImmedTable := for_range 0 4096 (fun i t => wr t i (ImmedTable_entry i)) ImmedTable in
  let BitList := for_range 0 256 (fun i a => wr a i 0) BitList in
  let BitList := BitList_count BitList in
  let BitList := for_range 0 256 (fun i a => wr a i (rd a i * 4)) BitList in
  (ImmedTable, BitList).

(** ** The initial state *)

(** The state [ARMul_NewState] builds from zeroed memory (its bookkeeping
    fields that nothing here reads left out). *)
Definition ARMul_NewState : ARMul_State :=
  zero_state <| Emulate := RUN |>
             <| Reg := replicate 16 0 |> <| RegBank := replicate 7 (replicate 16 0) |>
             <| Spsr := replicate 7 0 |> <| Cpsr := 0 |> <| Mode := 0 |>
             <| Aborted := 0 |> <| AbortAddr := 0 |>
             <| prog32Sig := HIGH |> <| data32Sig := HIGH |>
             <| lateabtSig := HIGH |> <| bigendSig := LOW |>
             <| NresetSig := 0 |> <| NfiqSig := 0 |> <| NirqSig := 0 |>
             <| mmu_control := 0 |> <| is_v4 := 0 |>.

Definition ARM_Fix26_Prop := 0x01.
Definition ARM_v4_Prop := 0x40.
Definition ARM_v5_Prop := 0x80.
Definition ARM_v5e_Prop := 0x100.
Definition ARM_XScale_Prop := 0x200.
Definition ARM_ep9312_Prop := 0x400.
Definition ARM_iWMMXt_Prop := 0x800.
Definition ARM_PXA27X_Prop := 0x1000.

(** [ARMul_SelectProcessor] but for the coprocessor tables. *)
Definition ARMul_SelectProcessor (properties : Z) (s : ARMul_State) : ARMul_State :=
  let level (p : Z) := if truth (properties &&& p) then HIGH else LOW in
  let w := if truth (properties &&& ARM_Fix26_Prop) then LOW else HIGH in
  s <| prog32Sig := w |> <| data32Sig := w |>
    <| is_v4 := level (ARM_v4_Prop ||| ARM_v5_Prop) |>
    <| is_v5 := level ARM_v5_Prop |> <| is_v5e := level ARM_v5e_Prop |>
    <| is_XScale := level ARM_XScale_Prop |> <| is_iWMMXt := level ARM_iWMMXt_Prop |>
    <| is_v6 := LOW |> <| is_ep9312 := level ARM_ep9312_Prop |>
    <| is_pxa27x := level ARM_PXA27X_Prop |>.

(** [ARMul_Reset] but for the reset of the MMU and of the memory banks. *)
Definition ARMul_Reset (s : ARMul_State) : ARMul_State :=
  let s := s <| NextInstr := 0 |> in
  let s := if truth (prog32Sig s)
           then (set_reg 15 0 s) <| Cpsr := INTBITS ||| SVC32MODE |> <| Mode := SVC32MODE |>
           else (set_reg 15 (R15INTBITS ||| SVC26MODE) s)
                  <| Cpsr := INTBITS ||| SVC26MODE |> <| Mode := SVC26MODE |> in
  let s := ARMul_CPSRAltered s in
  let s := s <| Bank := SVCBANK |> in
  let s := FLUSHPIPE s in
  let s := s <| EndCondition := 0 |> <| ErrorCode := 0 |>
             <| NresetSig := HIGH |> <| NfiqSig := HIGH |> <| NirqSig := HIGH |> in
  let s := s <| NtransSig := if truth (Mode s &&& 3) then HIGH else LOW |> in
  s <| abortSig := LOW |> <| AbortAddr := 1 |>
    <| NumInstrs := 0 |> <| NumNcycles := 0 |> <| NumScycles := 0 |>
    <| NumIcycles := 0 |> <| NumCcycles := 0 |> <| NumFcycles := 0 |>
    <| tea_break_ok := 0 |> <| tea_break_addr := 0 |> <| tea_pc := 0 |>.

(** ** Exceptions *)

(** The macro [SETABORT (i, m, d)], with the local [temp] of [ARMul_Abort]. *)
Definition SETABORT (i m d temp : Z) (s : ARMul_State) : ARMul_State :=
  let s := ARMul_SetSPSR m (ARMul_GetCPSR s) s in
  let s := ARMul_SetCPSR ((ARMul_GetCPSR s &&~ (EMODE s ||| TBIT)) ||| i ||| m) s in
  set_reg 14 (sub32 temp d) s.

(** [ARMul_OSException] always returns FALSE (armos.c). *)
Definition ARMul_Abort (vector : Z) (s : ARMul_State) : ARMul_State :=
  let isize := INSN_SIZE s in
  let esize := if truth (TFlag s) then 0 else 4 in
  let e2size := if truth (TFlag s) then -4 else 0 in
  let s := s <| Aborted := 0 |> in
  let temp := if truth (prog32Sig s)
              then if ARMul_MODE26BIT s then R15PC s else reg s 15
              else R15PC s ||| ECC s ||| ER15INT s ||| EMODE s in
  let mode (m32 m26 : Z) := if truth (prog32Sig s) then m32 else m26 in
  let s :=
    if vector =? ARMul_ResetV then SETABORT INTBITS (mode SVC32MODE SVC26MODE) 0 temp s
    else if vector =? ARMul_UndefinedInstrV then
      SETABORT IBIT (mode UNDEF32MODE SVC26MODE) isize temp s
    else if vector =? ARMul_SWIV then SETABORT IBIT (mode SVC32MODE SVC26MODE) isize temp s
    else if vector =? ARMul_PrefetchAbortV then
      SETABORT IBIT (mode ABORT32MODE SVC26MODE) esize temp (s <| AbortAddr := 1 |>)
    else if vector =? ARMul_DataAbortV then
      SETABORT IBIT (mode ABORT32MODE SVC26MODE) e2size temp s
    else if vector =? ARMul_AddrExceptnV then SETABORT IBIT SVC26MODE isize temp s
    else if vector =? ARMul_IRQV then SETABORT IBIT (mode IRQ32MODE IRQ26MODE) esize temp s
    else if vector =? ARMul_FIQV then SETABORT INTBITS (mode FIQ32MODE FIQ26MODE) esize temp s
    else s in
  if ARMul_MODE32BIT s then
    let vector := if truth (mmu_control s &&& CONTROL_VECTOR) then add32 vector 0xffff0000 else vector in
    let vector := if truth (vector_remap_flag s) then add32 vector (vector_remap_addr s) else vector in
    ARMul_SetR15 vector s
  else ARMul_SetR15 (R15CCINTMODE s ||| vector) s.

Definition ARMul_UndefInstr (instr : Z) (s : ARMul_State) : ARMul_State :=
  ARMul_Abort ARMul_UndefinedInstrV s.

(** The exception that [IntPending], and the test at the top of the
    emulator's loop, take. *)
Definition IntPending (s : ARMul_State) : bool * ARMul_State :=
  if NresetSig s =? LOW then (true, ARMul_Abort ARMul_ResetV s)
  else if negb (truth (NfiqSig s)) && negb (truth (FFLAG s)) then (true, ARMul_Abort ARMul_FIQV s)
  else if negb (truth (NirqSig s)) && negb (truth (IFLAG s)) then (true, ARMul_Abort ARMul_IRQV s)
  else (false, s).

(** ** Exception entry *)

(** The CPSR of an exception handler: flags kept, ARM state, the interrupt masks
    [i] set, mode [m]. *)
Definition exc_cpsr (i m : Z) (s : ARMul_State) : Z := (CPSR s &&~ 0x3f) ||| i ||| m.

(** The modes that have an SPSR, and the masks an exception sets. *)
Definition exc_mode_ok (m : Z) : Prop :=
  m = SVC32MODE \/ m = UNDEF32MODE \/ m = ABORT32MODE \/ m = IRQ32MODE \/ m = FIQ32MODE.

Lemma exc_mode_bank m : exc_mode_ok m ->
  BANK_CAN_ACCESS_SPSR (ModeToBank m) = true /\ ModeToBank m <> DUMMYBANK /\
  m &&& MODEBITS = m /\ 16 <= m < 32.
Proof. intros [->|[->|[->|[->| ->]]]]; repeat split; done. Qed.

Lemma exc_cpsr_eq i m s :
  wf s -> i = IBIT \/ i = INTBITS -> exc_mode_ok m ->
  (CPSR s &&~ (EMODE s ||| TBIT)) ||| i ||| m = exc_cpsr i m s /\
  word (exc_cpsr i m s) /\ exc_cpsr i m s &&& PSR_MASK = exc_cpsr i m s /\
  exc_cpsr i m s &&& MODEBITS = m.
Proof.
  intros Hwf Hi Hm. pose proof (word_CPSR s Hwf) as Hc. pose proof (wf_Mode s Hwf).
  assert (word (Mode s)) by (unfold word; lia).
  assert (word i) by (destruct Hi as [-> | ->]; unfold word, IBIT, INTBITS; lia).
  assert (word m) by (destruct (exc_mode_bank m Hm); unfold word; lia).
  assert (Hlow : forall k, 0 <= k < 5 -> Z.testbit (CPSR s) k = Z.testbit (Mode s) k).
  { intros k Hk. rewrite psr_bit_CPSR by (done || lia). unfold psr_bit. by cases_Z; try lia. }
  assert (Hgap : forall k, 8 <= k < 27 -> Z.testbit (CPSR s) k = false).
  { intros k Hk. rewrite psr_bit_CPSR by (done || lia). unfold psr_bit. by cases_Z; try lia. }
  assert (Hhigh : forall k, 5 <= k -> Z.testbit (Mode s) k = false)
    by (intros; by apply (testbit_high _ 5); [apply Hwf|lia]).
  unfold exc_cpsr, EMODE.
  assert (word (CPSR s &&~ 0x3f ||| i ||| m)) by auto with words.
  split; [|split; [done|split]].
  - apply word_ext; [auto with words|done|]. intros k Hk. autorewrite with tbits.
    revert Hlow Hhigh. generalize (Z.testbit (CPSR s)) (Z.testbit (Mode s)). intros c mo Hlow Hhigh.
    f_equal. f_equal. revert k Hk. apply word_bits_cases. repeat constructor; rewrite ?Hhigh by lia;
      rewrite ?Hlow by lia; cbn [Z.testbit TBIT Pos.testbit Pos.pred_N Pos.pred_double];
      rewrite ?orb_false_r, ?andb_negb_r, ?andb_false_r; try reflexivity.
    all: vm_compute; by repeat case_match.
  - apply word_ext; [auto with words|done|]. intros k Hk. autorewrite with tbits.
    revert Hgap. generalize (Z.testbit (CPSR s)). intros c Hgap.
    revert k Hk. apply word_bits_cases. repeat constructor; rewrite ?Hgap by lia;
      destruct Hi as [-> | ->], Hm as [->|[->|[->|[->| ->]]]]; vm_compute; by repeat case_match.
  - change MODEBITS with (Z.ones 5). apply Z.bits_inj'. intros k Hk.
    autorewrite with tbits. rewrite Z.testbit_ones_nonneg by lia.
    generalize (Z.testbit (CPSR s)). intros c. destruct (Z.ltb_spec k 5).
    + assert (k = 0 \/ k = 1 \/ k = 2 \/ k = 3 \/ k = 4) as Hc5 by lia.
      destruct Hc5 as [->|[->|[->|[->| ->]]]], Hi as [-> | ->], Hm as [->|[->|[->|[->| ->]]]];
        vm_compute; by repeat case_match.
    + rewrite andb_false_r. symmetry. apply (testbit_high _ 5); [|lia].
      destruct (exc_mode_bank m Hm) as (_ & _ & _ & ?). change (2 ^ 5) with 32. lia.
Qed.

(** What [SETABORT] does to a state in a 32-bit mode. *)
Record set_abort (i m : Z) (s s' : ARMul_State) : Prop := {
  sa_wf : wf s';
  sa_banked : banked s';
  sa_Mode : Mode s' = m;
  sa_CPSR : CPSR s' = exc_cpsr i m s;
  sa_spsr : spsr s' (ModeToBank m) = CPSR s;
  sa_phys : forall b r, b <> DUMMYBANK -> 0 <= r < 15 -> b <> ModeToBank m \/ r <> 14 ->
              phys s' b r = phys s b r;
  sa_rest : psr_rest s' = psr_rest (set_spsr (ModeToBank m) (CPSR s) s)
}.

Lemma banked_set_reg i v s : banked s -> banked (set_reg i v s).
Proof. unfold banked, set_reg. by upds. Qed.

Lemma phys_set_reg14 s v b r :
  wf s -> 0 <= r < 15 -> b <> Bank s \/ r <> 14 -> phys (set_reg 14 v s) b r = phys s b r.
Proof.
  intros Hwf Hr Hne. unfold phys. rewrite reg_set_reg by (done || lia). rewrite !bank_reg_set_reg.
  assert (Bank (set_reg 14 v s) = Bank s) as -> by (unfold set_reg; by upds).
  destruct (Z.eqb_spec r 14) as [->|]; [|done].
  simpl. destruct (decide (Bank s = b)) as [<-|]; [|done]. by destruct Hne.
Qed.

Lemma spsr_set_spsr s b v : wf s -> spsr (set_spsr b v s) b = v.
Proof.
  intros Hwf. unfold spsr, set_spsr. upds. pose proof (bank_index_bound b).
  apply rd_wr_eq. rewrite (wf_Spsr_len s Hwf). lia.
Qed.

Lemma CPSR_set_reg i v s : CPSR (set_reg i v s) = CPSR s.
Proof. unfold CPSR, ECC, EINT, EMODE, set_reg. by upds. Qed.
Lemma CPSR_set_spsr b v s : CPSR (set_spsr b v s) = CPSR s.
Proof. unfold CPSR, ECC, EINT, EMODE, set_spsr. by upds. Qed.

Lemma SETABORT_spec i m d temp s :
  wf s -> banked s -> prog32Sig s <> LOW -> i = IBIT \/ i = INTBITS -> exc_mode_ok m ->
  set_abort i m s (SETABORT i m d temp s) /\ reg (SETABORT i m d temp s) 14 = sub32 temp d.
Proof.
  intros Hwf Hb Hp Hi Hm. destruct (exc_mode_bank m Hm) as (Hacc & Hnd & Hmm & Hmr).
  unfold SETABORT, ARMul_SetSPSR, ARMul_GetCPSR. cbv zeta. rewrite Hmm, Hacc.
  set (s1 := set_spsr (ModeToBank m) (CPSR s) s).
  assert (Hw1 : wf s1) by (apply wf_set_spsr; [done|by apply word_CPSR]).
  assert (HC1 : CPSR s1 = CPSR s) by apply CPSR_set_spsr.
  assert (HM1 : EMODE s1 = EMODE s) by reflexivity.
  rewrite HC1, HM1. destruct (exc_cpsr_eq i m s Hwf Hi Hm) as (-> & Hwv & Hmask & Hmode).
  assert (Hp1 : prog32Sig s1 <> LOW) by exact Hp.
  destruct (SetCPSR_facts (exc_cpsr i m s) s1 Hw1 Hwv Hp1) as (Hw2 & Hr2 & HM2 & HS2 & Hph).
  pose proof (CPSRAltered_rest _ (wf_set_Cpsr (exc_cpsr i m s) s1 Hw1 Hwv)) as Hrest.
  fold (ARMul_SetCPSR (exc_cpsr i m s) s1) in Hrest. rewrite rest_Cpsr in Hrest.
  assert (Hph1 : forall b r, phys s1 b r = phys s b r) by (intros; by apply phys_frame).
  assert (Hsp1 : spsr s1 (ModeToBank m) = CPSR s) by (by apply spsr_set_spsr).
  assert (Hb1 : banked s1) by exact Hb.
  assert (Hr1 : psr_rest s1 = psr_rest (set_spsr (ModeToBank m) (CPSR s) s)) by exact eq_refl.
  generalize dependent (ARMul_SetCPSR (exc_cpsr i m s) s1). intros s2 Hw2 Hr2 HM2 HS2 Hph Hrest.
  clearbody s1. rewrite Hmode in *.
  destruct Hph as [Hb2 Hph]; [done|done|].
  split; [|by rewrite reg_set_reg by (done || lia)].
  split.
  - auto with wf words.
  - by apply banked_set_reg.
  - unfold set_reg. by upds.
  - rewrite CPSR_set_reg. unfold ARMul_GetCPSR in Hr2. by rewrite Hr2, Hmask.
  - unfold spsr, set_reg in *. upds. by rewrite HS2.
  - intros b r Hbd Hr Hne. assert (b <> Bank s2 \/ r <> 14) by (destruct Hb2 as [-> _]; by rewrite HM2).
    rewrite phys_set_reg14, Hph by done. apply Hph1.
  - by rewrite rest_set_reg, Hrest.
Qed.

(** ** The exceptions of the architecture *)

(** The vectors of a 32-bit processor: the mode entered, the masks set, and the
    return address, relative to the address [pc] of the instruction, for an
    instruction of [isize] bytes. *)
Definition exc_vector (v : Z) : Prop :=
  v = ARMul_ResetV \/ v = ARMul_UndefinedInstrV \/ v = ARMul_SWIV \/ v = ARMul_PrefetchAbortV \/
  v = ARMul_DataAbortV \/ v = ARMul_IRQV \/ v = ARMul_FIQV.

Definition exc_mode (v : Z) : Z :=
  if v =? ARMul_UndefinedInstrV then UNDEF32MODE
  else if (v =? ARMul_PrefetchAbortV) || (v =? ARMul_DataAbortV) then ABORT32MODE
  else if v =? ARMul_IRQV then IRQ32MODE
  else if v =? ARMul_FIQV then FIQ32MODE else SVC32MODE.

Definition exc_mask (v : Z) : Z :=
  if (v =? ARMul_ResetV) || (v =? ARMul_FIQV) then INTBITS else IBIT.

Definition exc_return (v isize : Z) : Z :=
  if (v =? ARMul_UndefinedInstrV) || (v =? ARMul_SWIV) then isize
  else if v =? ARMul_DataAbortV then 8
  else if v =? ARMul_ResetV then 2 * isize else 4.

(** Where the vector is, with high vectors and the remapping of LPC chips. *)
Definition exc_target (v : Z) (s : ARMul_State) : Z :=
  u32 (v + (if truth (mmu_control s &&& CONTROL_VECTOR) then 0xffff0000 else 0)
         + (if truth (vector_remap_flag s) then vector_remap_addr s else 0)) &&& 0xfffffffc.

Lemma rest_fields s s' : psr_rest s' = psr_rest s ->
  prog32Sig s' = prog32Sig s /\ mmu_control s' = mmu_control s /\
  vector_remap_flag s' = vector_remap_flag s /\ vector_remap_addr s' = vector_remap_addr s /\
  NextInstr s' = NextInstr s /\
  (NresetSig s' = NresetSig s /\ NfiqSig s' = NfiqSig s /\ NirqSig s' = NirqSig s).
Proof.
  intros H. pose proof (f_equal snd H) as H6. pose proof (f_equal (fun t => snd (fst (fst t))) H) as H4.
  pose proof (f_equal (fun t => snd (fst (fst (fst t)))) H) as H3.
  pose proof (f_equal (fun t => snd (fst (fst (fst (fst t))))) H) as H2.
  split; [exact (f_equal (fun t => snd (fst (fst t))) H3)|].
  split; [exact (f_equal (fun t => snd (fst (fst (fst t)))) H4)|].
  split; [exact (f_equal (fun t => fst (fst (fst (fst (fst (fst t)))))) H6)|].
  split; [exact (f_equal (fun t => snd (fst (fst (fst (fst (fst t)))))) H6)|].
  split; [exact (f_equal snd H2)|].
  split; [exact (f_equal (fun t => fst (fst (fst (fst (fst (fst (fst t))))))) H3)|].
  split; [exact (f_equal (fun t => snd (fst (fst (fst (fst (fst (fst t))))))) H3)|].
  exact (f_equal (fun t => snd (fst (fst (fst (fst (fst t)))))) H3).
Qed.

(** The last step of [ARMul_Abort]. *)
Definition abort_jump (vector : Z) (s : ARMul_State) : ARMul_State :=
  if ARMul_MODE32BIT s then
    let vector := if truth (mmu_control s &&& CONTROL_VECTOR) then add32 vector 0xffff0000 else vector in
    let vector := if truth (vector_remap_flag s) then add32 vector (vector_remap_addr s) else vector in
    ARMul_SetR15 vector s
  else ARMul_SetR15 (R15CCINTMODE s ||| vector) s.

Lemma abort_jump_eq v s :
  3 < Mode s -> word v -> abort_jump v s = FLUSHPIPE (set_reg 15 (exc_target v s) s).
Proof.
  intros Hm Hv. unfold abort_jump, ARMul_SetR15, ARMul_MODE32BIT, exc_target.
  replace (3 <? Mode s) with true by lia. cbv zeta. unfold add32, PCBITS.
  do 2 f_equal. destruct (truth (mmu_control s &&& _)), (truth (vector_remap_flag s));
    rewrite ?Z.add_0_r, ?u32_add_l; try done. by rewrite u32_id.
Qed.

(** What an exception does, as the architecture has it. *)
Record exception_entry (v : Z) (s s' : ARMul_State) : Prop := {
  ee_wf : wf s';
  ee_banked : banked s';
  ee_Mode : Mode s' = exc_mode v;
  ee_CPSR : CPSR s' = exc_cpsr (exc_mask v) (exc_mode v) s;
  ee_spsr : spsr s' (Bank s') = CPSR s;
  ee_lr : forall pc, reg s 15 = u32 (pc + 2 * INSN_SIZE s) ->
            reg s' 14 = u32 (pc + exc_return v (INSN_SIZE s));
  ee_pc : reg s' 15 = exc_target v s;
  ee_flush : NextInstr s' = NextInstr s ||| PRIMEPIPE;
  ee_prog32 : prog32Sig s' = prog32Sig s;
  ee_signals : NresetSig s' = NresetSig s /\ NfiqSig s' = NfiqSig s /\ NirqSig s' = NirqSig s;
  ee_phys : forall b r, b <> DUMMYBANK -> 0 <= r < 15 -> b <> ModeToBank (exc_mode v) \/ r <> 14 ->
              phys s' b r = phys s b r
}.

Lemma exc_mode_exc v : exc_mode_ok (exc_mode v).
Proof. unfold exc_mode, exc_mode_ok. repeat case_match; tauto. Qed.

Lemma wf_Aborted a s : wf s -> wf (s <| Aborted := a |>).
Proof. intros Hwf. wf_frame. Qed.
Lemma wf_AbortAddr a s : wf s -> wf (s <| AbortAddr := a |>).
Proof. intros Hwf. wf_frame. Qed.

(** The offset that [ARMul_Abort] subtracts from R15. *)
Definition exc_delta (v : Z) (s : ARMul_State) : Z :=
  if v =? ARMul_ResetV then 0
  else if (v =? ARMul_UndefinedInstrV) || (v =? ARMul_SWIV) then INSN_SIZE s
  else if v =? ARMul_DataAbortV then if truth (TFlag s) then -4 else 0
  else if truth (TFlag s) then 0 else 4.

(** The state that the vector's case works on. *)
Definition exc_start (v : Z) (s : ARMul_State) : ARMul_State :=
  let s := s <| Aborted := 0 |> in
  if v =? ARMul_PrefetchAbortV then s <| AbortAddr := 1 |> else s.

Lemma Abort_parts v s :
  exc_vector v -> 3 < Mode s -> prog32Sig s <> LOW ->
  ARMul_Abort v s =
  abort_jump v (SETABORT (exc_mask v) (exc_mode v) (exc_delta v s) (reg s 15) (exc_start v s)).
Proof.
  intros Hv Hm Hp. unfold ARMul_Abort, abort_jump. cbv zeta.
  assert (truth (prog32Sig (s <| Aborted := 0 |>)) = true) as ->.
  { upds. unfold truth. destruct (Z.eqb_spec (prog32Sig s) 0); [by subst|done]. }
  assert (ARMul_MODE26BIT (s <| Aborted := 0 |>) = false) as ->.
  { unfold ARMul_MODE26BIT. upds. lia. }
  assert (reg (s <| Aborted := 0 |>) 15 = reg s 15) as -> by (unfold reg; by upds).
  unfold exc_delta, exc_start, INSN_SIZE. cbv zeta. generalize SETABORT, ARMul_SetR15. intros F G.
  destruct Hv as [->|[->|[->|[->|[->|[->| ->]]]]]]; reflexivity.
Qed.

Lemma exc_start_facts v s :
  wf s -> wf (exc_start v s) /\ CPSR (exc_start v s) = CPSR s /\
  (banked s -> banked (exc_start v s)) /\ (forall b r, phys (exc_start v s) b r = phys s b r) /\
  prog32Sig (exc_start v s) = prog32Sig s /\ mmu_control (exc_start v s) = mmu_control s /\
  vector_remap_flag (exc_start v s) = vector_remap_flag s /\
  vector_remap_addr (exc_start v s) = vector_remap_addr s /\ NextInstr (exc_start v s) = NextInstr s /\
  (NresetSig (exc_start v s) = NresetSig s /\ NfiqSig (exc_start v s) = NfiqSig s /\
   NirqSig (exc_start v s) = NirqSig s).
Proof.
  intros Hwf. unfold exc_start. cbv zeta.
  destruct (v =? _); (split; [auto using wf_Aborted, wf_AbortAddr|]);
    (split; [reflexivity|]); (split; [done|]); (split; [intros; by apply phys_frame|]); by split_and!.
Qed.

Lemma word_vector v : exc_vector v -> word v.
Proof. by intros [->|[->|[->|[->|[->|[->| ->]]]]]]. Qed.

Lemma exc_delta_return v s pc :
  exc_vector v -> sub32 (u32 (pc + 2 * INSN_SIZE s)) (exc_delta v s) = u32 (pc + exc_return v (INSN_SIZE s)).
Proof.
  intros Hv. unfold sub32. rewrite <- Z.add_opp_r, u32_add_l. f_equal. unfold exc_delta, exc_return, INSN_SIZE.
  destruct (truth (TFlag s)), Hv as [->|[->|[->|[->|[->|[->| ->]]]]]]; simpl; lia.
Qed.

Lemma Abort_entry v s :
  wf s -> banked s -> prog32Sig s <> LOW -> 3 < Mode s -> exc_vector v ->
  exception_entry v s (ARMul_Abort v s).
Proof.
  intros Hwf Hb Hp Hm Hv. rewrite Abort_parts by done.
  destruct (exc_start_facts v s Hwf) as (Hw0 & HC0 & Hb0 & Hph0 & Hp0 & Hf1 & Hf2 & Hf3 & Hf4 & Hs1 & Hs2 & Hs3).
  assert (Hi : exc_mask v = IBIT \/ exc_mask v = INTBITS) by (unfold exc_mask; case_match; auto).
  pose proof (exc_mode_exc v) as Hmo. destruct (exc_mode_bank _ Hmo) as (_ & _ & _ & Hr).
  destruct (SETABORT_spec (exc_mask v) (exc_mode v) (exc_delta v s) (reg s 15) (exc_start v s))
    as [[Hw2 Hb2 HM2 HC2 HS2 Hp2 Hrest] Hlr]; auto; [by rewrite Hp0|].
  generalize dependent (SETABORT (exc_mask v) (exc_mode v) (exc_delta v s) (reg s 15) (exc_start v s)).
  intros s2 Hw2 Hb2 HM2 HC2 HS2 Hp2 Hrest Hlr.
  destruct (rest_fields _ _ Hrest) as (G0 & G1 & G2 & G3 & G4 & S1 & S2 & S3).
  change (NresetSig (set_spsr _ _ ?x)) with (NresetSig x) in S1.
  change (NfiqSig (set_spsr _ _ ?x)) with (NfiqSig x) in S2.
  change (NirqSig (set_spsr _ _ ?x)) with (NirqSig x) in S3.
  change (prog32Sig (set_spsr _ _ ?x)) with (prog32Sig x) in G0.
  change (NextInstr (set_spsr _ _ ?x)) with (NextInstr x) in G4.
  change (mmu_control (set_spsr _ _ ?x)) with (mmu_control x) in G1.
  change (vector_remap_flag (set_spsr _ _ ?x)) with (vector_remap_flag x) in G2.
  change (vector_remap_addr (set_spsr _ _ ?x)) with (vector_remap_addr x) in G3.
  rewrite abort_jump_eq by (rewrite ?HM2; first [lia | by apply word_vector]).
  assert (Ht : exc_target v s2 = exc_target v s) by (unfold exc_target; by rewrite G1, G2, G3, Hf1, Hf2, Hf3).
  assert (Hwt : word (exc_target v s2)) by (unfold exc_target; auto with words).
  unfold FLUSHPIPE. rewrite Ht in *. unfold exc_cpsr in *. rewrite HC0 in *.
  assert (Hw3 : wf (set_reg 15 (exc_target v s) s2)) by auto with wf.
  split; unfold exc_cpsr.
  - pose proof (wf_NextInstr (NextInstr s2 ||| PRIMEPIPE) _ Hw3) as H. exact H.
  - pose proof (banked_set_reg 15 (exc_target v s) s2 Hb2) as H. exact H.
  - unfold set_reg. by upds.
  - rewrite <- HC2. unfold CPSR, ECC, EINT, EMODE, set_reg. by upds.
  - destruct Hb2 as [Hb2 _]. unfold spsr, set_reg in *. upds. by rewrite Hb2, HM2.
  - intros pc Hpc. rewrite Hpc, exc_delta_return in Hlr by done. rewrite <- Hlr.
    rewrite <- (reg_set_reg_ne s2 15 14 (exc_target v s)) by lia. unfold reg. by upds.
  - transitivity (reg (set_reg 15 (exc_target v s) s2) 15); [unfold reg; by upds|].
    by rewrite reg_set_reg by (done || lia).
  - unfold set_reg. upds. by rewrite G4, Hf4.
  - unfold set_reg. upds. by rewrite G0, Hp0.
  - unfold set_reg. upds. by rewrite S1, S2, S3, Hs1, Hs2, Hs3.
  - intros b r Hbd Hrr Hne. rewrite <- Hph0, <- Hp2 by done.
    rewrite <- (phys_set_reg15 s2 (exc_target v s)) by done. by apply phys_frame; upds.
Qed.

(** ** Exception return *)

Lemma CPSR_masked s : wf s -> CPSR s &&& PSR_MASK = CPSR s /\ CPSR s &&& MODEBITS = Mode s.
Proof.
  intros Hwf. pose proof (wf_Mode s Hwf) as Hm. pose proof (word_CPSR s Hwf).
  assert (Hpsr : forall k, 0 <= k < 32 -> Z.testbit (CPSR s) k = psr_bit s k)
    by (intros; by apply psr_bit_CPSR).
  split.
  - apply word_ext; [auto with words|done|]. intros k Hk. rewrite Z.land_spec, Hpsr by done.
    unfold psr_bit. revert k Hk. apply word_bits_cases. repeat constructor; simpl;
      rewrite ?andb_true_r, ?andb_false_r; reflexivity.
  - change MODEBITS with (Z.ones 5). apply Z.bits_inj'. intros k Hk.
    rewrite Z.land_spec, Z.testbit_ones_nonneg by lia. destruct (Z.ltb_spec k 5).
    + rewrite Hpsr, andb_true_r by lia. unfold psr_bit. by cases_Z; try lia.
    + rewrite andb_false_r. symmetry. apply (testbit_high _ 5); [done|lia].
Qed.

(** The loaded PC: a word address, or a halfword address in Thumb state. *)
Definition pc_mask (s : ARMul_State) : Z := if truth (TFlag s) then 0xfffffffe else 0xfffffffc.

(** A write of R15 that restores the CPSR from the SPSR of the current mode. *)
Record exception_return (src : Z) (s s' : ARMul_State) : Prop := {
  er_wf : wf s';
  er_CPSR : CPSR s' = spsr s (Bank s) &&& PSR_MASK;
  er_Mode : Mode s' = spsr s (Bank s) &&& MODEBITS;
  er_banked : banked s';
  er_pc : reg s' 15 = src &&& pc_mask s';
  er_flush : NextInstr s' = NextInstr s ||| PRIMEPIPE;
  er_phys : forall b r, b <> DUMMYBANK -> 0 <= r < 15 -> phys s' b r = phys s b r
}.

Lemma land_all_ones x m : word m -> (x &&& m) &&& PCBITS_MODE32 = x &&& m.
Proof.
  intros Hm. unfold PCBITS_MODE32. change 0xffffffff with (Z.ones 32).
  rewrite <- Z.land_assoc, (Z.land_ones m) by lia. f_equal. apply Z.mod_small. exact Hm.
Qed.

Lemma WriteSR15_return src s :
  wf s -> banked s -> Bank s <> USERBANK -> prog32Sig s <> LOW -> word src ->
  ModeToBank (spsr s (Bank s) &&& MODEBITS) <> DUMMYBANK ->
  exception_return src s (WriteSR15 src s).
Proof.
  intros Hwf Hb Hu Hp Hsrc Hm. unfold WriteSR15. cbv zeta.
  replace (0 <? bank_index (Bank s)) with true by (by destruct (Bank s)).
  change (ARMul_CPSRAltered (s <| Cpsr := spsr s (Bank s) |>)) with (ARMul_SetCPSR (spsr s (Bank s)) s).
  assert (Hv : word (spsr s (Bank s))) by auto with words.
  destruct (SetCPSR_facts _ s Hwf Hv Hp) as (Hw1 & HC1 & HM1 & _ & Hph).
  destruct (Hph Hb Hm) as [Hb1 Hp1]. clear Hph.
  pose proof (CPSRAltered_rest _ (wf_set_Cpsr _ s Hwf Hv)) as Hrest. rewrite rest_Cpsr in Hrest.
  change (ARMul_CPSRAltered (s <| Cpsr := spsr s (Bank s) |>)) with (ARMul_SetCPSR (spsr s (Bank s)) s) in Hrest.
  destruct (rest_fields _ _ Hrest) as (_ & _ & _ & _ & HN & _).
  generalize dependent (ARMul_SetCPSR (spsr s (Bank s)) s). intros s1 Hw1 HC1 HM1 Hb1 Hp1 Hrest HN.
  set (t := if truth (TFlag s1) then src &&& 0xfffffffe else src &&& 0xfffffffc).
  assert (Ht : t &&& PCBITS_MODE32 = src &&& pc_mask s1).
  { unfold t, pc_mask. destruct (truth _); by apply land_all_ones. }
  rewrite Ht. clear t Ht. assert (Hw : word (src &&& pc_mask s1)) by auto with words.
  assert (Hw2 : wf (set_reg 15 (src &&& pc_mask s1) s1)) by auto with wf.
  unfold FLUSHPIPE. split.
  - pose proof (wf_NextInstr (NextInstr s1 ||| PRIMEPIPE) _ Hw2) as H. exact H.
  - unfold ARMul_GetCPSR in HC1. rewrite <- HC1. unfold CPSR, ECC, EINT, EMODE, set_reg. by upds.
  - rewrite <- HM1. unfold set_reg. by upds.
  - pose proof (banked_set_reg 15 (src &&& pc_mask s1) s1 Hb1) as H. exact H.
  - transitivity (reg (set_reg 15 (src &&& pc_mask s1) s1) 15); [unfold reg; by upds|].
    rewrite reg_set_reg by (done || lia). unfold pc_mask, set_reg. by upds.
  - unfold set_reg. upds. by rewrite HN.
  - intros b r Hbd Hr. rewrite <- Hp1, <- (phys_set_reg15 s1 (src &&& pc_mask s1)) by done.
    by apply phys_frame; upds.
Qed.

(** ** Pending interrupts and the tables *)

Lemma rd_for_range_wr (f : Z -> Z) n (a : list Z) :
  0 <= n <= Z.of_nat (length a) ->
  let a' := for_range 0 n (fun i t => wr t i (f i)) a in
  length a' = length a /\ forall i, 0 <= i < n -> rd a' i = f i.
Proof.
  intros Hn. cbv zeta.
  apply (for_range_ind (fun k t => length t = length a /\ forall i, 0 <= i < k -> rd t i = f i)).
  - lia.
  - split; [done|lia].
  - intros k t Hk [Hl Ht]. rewrite length_wr. split; [done|]. intros i Hi.
    destruct (Z.eq_dec i k) as [->|].
    + apply rd_wr_eq. rewrite Hl. lia.
    + rewrite rd_wr_ne by lia. apply Ht. lia.
Qed.

Lemma ImmedTable_ror i : 0 <= i < 4096 -> ImmedTable_entry i = ror32 (i mod 256) (2 * (i / 256)).
Proof.
  intros Hi. unfold ImmedTable_entry, ROTATER. rewrite land_255.
  assert (Hw : word (i mod 256)) by (unfold word; Z.div_mod_to_equations; lia).
  assert (Hk : (i >>> 7) &&& 0x1e = 2 * (i / 256)).
  { rewrite mul2. change 256 with (2 ^ 8). rewrite <- Z.shiftr_div_pow2 by lia.
    assert (fits 12 i) by done. clear Hi Hw. fields. same_bits. }
  rewrite Hk. assert (0 <= 2 * (i / 256) < 32) by (Z.div_mod_to_equations; lia).
  destruct (Z.eq_dec (2 * (i / 256)) 0) as [->|].
  - unfold ror32. simpl Nat.iter. apply word_ext; [auto with words|done|]. intros k Hk'.
    autorewrite with tbits. rewrite Z.sub_0_r, Z.add_0_r, (Z.testbit_neg_r _ (k - 32)) by lia.
    replace (0 <=? k) with true by lia. replace (k <? 32) with true by lia. simpl.
    by rewrite orb_false_r.
  - rewrite <- ror32_shifts by (done || lia). unfold shl32. rewrite Z.lor_comm.
    apply word_ext; [auto with words..|]. intros k Hk'. autorewrite with tbits.
    replace (k <? 32) with true by lia. simpl. done.
Qed.

(** The number of set bits among the lowest [n]. *)
Definition bits_set (n i : Z) : Z :=
  Z.of_nat (length (filter (fun j => Z.testbit i j = true) (seqZ 0 n))).

Lemma bits_set_step n i : 0 <= n -> bits_set (n + 1) i = bits_set n i + c_bool (Z.testbit i n).
Proof.
  intros Hn. unfold bits_set. rewrite seqZ_app by lia. rewrite list.filter_app, length_app, Nat2Z.inj_add.
  f_equal. replace (0 + n) with n by lia. change (seqZ n 1) with [0 + n]. rewrite Z.add_0_l.
  rewrite filter_cons, filter_nil. destruct (Z.testbit i n); by destruct (decide _).
Qed.

(** One pass of the counting loop. *)
Lemma count_pass k n (a : list Z) :
  0 <= k -> 0 <= n <= Z.of_nat (length a) ->
  let a' := for_range 0 n (fun i a => if 0 <? i &&& (1 <<< k) then wr a i (rd a i + 1) else a) a in
  length a' = length a /\
  forall i, 0 <= i -> rd a' i = if i <? n then rd a i + c_bool (Z.testbit i k) else rd a i.
Proof.
  intros Hk Hn. cbv zeta.
  apply (for_range_ind (fun m t => length t = length a /\
    forall i, 0 <= i -> rd t i = if i <? m then rd a i + c_bool (Z.testbit i k) else rd a i)).
  - lia.
  - split; [done|]. intros i Hi. by replace (i <? 0) with false by lia.
  - intros m t Hm [Hl Ht]. rewrite Z.shiftl_1_l.
    assert (Hbit : (0 <? m &&& 2 ^ k) = Z.testbit m k).
    { rewrite <- truth_land_pow2 by done. unfold truth. pose proof (Z.land_nonneg m (2 ^ k)).
      destruct (Z.ltb_spec 0 (m &&& 2 ^ k)), (Z.eqb_spec (m &&& 2 ^ k) 0); done || lia. }
    rewrite Hbit. destruct (Z.testbit m k) eqn:Eb.
    + rewrite length_wr. split; [done|]. intros i Hi. destruct (Z.eq_dec i m) as [->|].
      * rewrite rd_wr_eq by lia. rewrite Ht, Eb by done. replace (m <? m) with false by lia.
        by replace (m <? m + 1) with true by lia.
      * rewrite rd_wr_ne, Ht by lia. by replace (i <? m + 1) with (i <? m) by lia.
    + split; [done|]. intros i Hi. rewrite Ht by done. destruct (Z.eq_dec i m) as [->|].
      * rewrite Eb. replace (m <? m) with false by lia. replace (m <? m + 1) with true by lia.
        simpl. lia.
      * by replace (i <? m + 1) with (i <? m) by lia.
Qed.

Lemma BitList_count_spec (a : list Z) :
  length a = 256%nat -> (forall i, 0 <= i < 256 -> rd a i = 0) ->
  length (BitList_count a) = 256%nat /\
  forall i, 0 <= i < 256 -> rd (BitList_count a) i = bits_set 8 i.
Proof.
  intros Hl H0. unfold BitList_count. cbv zeta.
  apply (for_range_ind (fun k t => length t = 256%nat /\ forall i, 0 <= i < 256 -> rd t i = bits_set k i)).
  - lia.
  - split; [done|]. intros. by rewrite H0.
  - intros k t Hk [Hlt Ht]. destruct (count_pass k 256 t) as [Hl' Hr]; [lia|lia|].
    split; [lia|]. intros i Hi. rewrite Hr, Ht, bits_set_step by lia.
    by replace (i <? 256) with true by lia.
Qed.

Lemma rd_scale (a : list Z) n :
  0 <= n <= Z.of_nat (length a) ->
  let a' := for_range 0 n (fun i a => wr a i (rd a i * 4)) a in
  length a' = length a /\ forall i, 0 <= i -> rd a' i = if i <? n then rd a i * 4 else rd a i.
Proof.
  intros Hn. cbv zeta.
  apply (for_range_ind (fun m t => length t = length a /\
    forall i, 0 <= i -> rd t i = if i <? m then rd a i * 4 else rd a i)).
  - lia.
  - split; [done|]. intros i Hi. by replace (i <? 0) with false by lia.
  - intros m t Hm [Hl Ht]. rewrite length_wr. split; [done|]. intros i Hi. destruct (Z.eq_dec i m) as [->|].
    + rewrite rd_wr_eq, Ht by lia. replace (m <? m) with false by lia. by replace (m <? m + 1) with true by lia.
    + rewrite rd_wr_ne, Ht by lia. by replace (i <? m + 1) with (i <? m) by lia.
Qed.

(** ** Properties *)

(** C1: Exception entry: from any 32-bit mode, in ARM or in Thumb state, each of
    the seven vectors saves the CPSR in the SPSR of its mode, enters that mode
    in ARM state with the right interrupt masks and the flags kept, puts the
    return address of the architecture into its LR, jumps to the vector
    (high or remapped where configured), flushes the pipeline, and changes no
    other register of any mode. *)
Theorem Abort_exception_entry v s :
  wf s -> banked s -> prog32Sig s <> LOW -> 3 < Mode s -> exc_vector v ->
  exception_entry v s (ARMul_Abort v s).
Proof. apply Abort_entry. Qed.

Lemma banked_zero_state : banked zero_state.
Proof. by vm_compute. Qed.

Lemma Abort_exception_entry_witness :
  let s := set_reg 15 0x8008 zero_state in
  reg (ARMul_Abort ARMul_IRQV s) 14 = 0x8004 /\ reg (ARMul_Abort ARMul_IRQV s) 15 = 0x18.
Proof.
  set (s := set_reg 15 0x8008 zero_state).
  assert (Hwf : wf s) by (apply wf_set_reg; [apply wf_zero_state|unfold word; lia]).
  assert (Hb : banked s) by apply banked_set_reg, banked_zero_state.
  destruct (Abort_exception_entry ARMul_IRQV s Hwf Hb) as [_ _ _ _ _ Hlr Hpc _ _ _ _];
    [discriminate|reflexivity|unfold exc_vector; tauto|].
  cbv zeta. rewrite (Hlr 0x8000), Hpc by reflexivity. split; reflexivity.
Defined.

(** C2: Exception return undoes exception entry: a write of R15 with the S bit
    from the handler's mode brings back the whole CPSR, with mode, flags, masks
    and Thumb bit, and every register of every mode but the handler's own
    LR, and continues at the written address in the state of the
    interrupted code. *)
Theorem exception_return_restores v s src :
  wf s -> banked s -> prog32Sig s <> LOW -> 3 < Mode s -> exc_vector v -> word src ->
  let s' := WriteSR15 src (ARMul_Abort v s) in
  wf s' /\ ARMul_GetCPSR s' = ARMul_GetCPSR s /\ Mode s' = Mode s /\ Bank s' = Bank s /\
  reg s' 15 = src &&& pc_mask s' /\
  (forall b r, b <> DUMMYBANK -> 0 <= r < 15 -> b <> ModeToBank (exc_mode v) \/ r <> 14 ->
     phys s' b r = phys s b r).
Proof.
  intros Hwf Hb Hp Hm Hv Hsrc. cbv zeta.
  pose proof (Abort_entry v s Hwf Hb Hp Hm Hv) as [Hw1 Hb1 HM1 HC1 HS1 _ _ _ Hp1 _ Hph1].
  rewrite <- Hp1 in Hp. clear Hp1. rename Hp into Hp1.
  set (s1 := ARMul_Abort v s) in *. clearbody s1.
  destruct (CPSR_masked s Hwf) as [Hm1 Hm2].
  assert (Hbank : Bank s1 = ModeToBank (exc_mode v)) by (destruct Hb1 as [-> _]; by rewrite HM1).
  destruct Hb as [Hbs Hnd].
  destruct (WriteSR15_return src s1) as [Hw2 HC2 HM2 Hb2 Hpc2 _ Hph2]; try done.
  - rewrite Hbank. pose proof (exc_mode_exc v) as [->|[->|[->|[->| ->]]]]; done.
  - by rewrite HS1, Hm2, <- Hbs.
  - rewrite HS1 in HC2, HM2. rewrite Hm1 in HC2. rewrite Hm2 in HM2.
    split; [done|]. split; [done|]. split; [done|].
    split; [destruct Hb2 as [-> _]; by rewrite HM2|]. split; [done|].
    intros b r Hbd Hr Hne. rewrite Hph2 by done. by apply Hph1.
Qed.

(** A Thumb routine in user mode, interrupted and resumed. *)
Lemma exception_return_restores_witness :
  let s := (set_reg 15 0x8004 zero_state) <| TFlag := 1 |> <| CFlag := 1 |> in
  let s' := WriteSR15 0x8000 (ARMul_Abort ARMul_IRQV s) in
  ARMul_GetCPSR s' = 0x20000030 /\ Mode s' = USER32MODE /\ phys s' IRQBANK 13 = 0.
Proof.
  set (s0 := set_reg 15 0x8004 zero_state).
  assert (Hw0 : wf s0) by (apply wf_set_reg; [apply wf_zero_state|unfold word; lia]).
  set (s := s0 <| TFlag := 1 |> <| CFlag := 1 |>). cbv zeta.
  assert (Hwf : wf s) by (destruct Hw0; constructor; unfold s; upds; try done; by right).
  destruct (exception_return_restores ARMul_IRQV s 0x8000 Hwf) as (_ & HC & HM & _ & _ & Hp);
    [by vm_compute|discriminate|reflexivity|unfold exc_vector; tauto|by vm_compute|].
  rewrite HC, HM, (Hp IRQBANK 13) by (lia || discriminate || by right).
  split; [reflexivity|]. split; reflexivity.
Defined.

(** The pending exception of highest priority, by the signals and the masks of
    the CPSR. *)
Definition pending (s : ARMul_State) : option Z :=
  if NresetSig s =? LOW then Some ARMul_ResetV
  else if (NfiqSig s =? 0) && negb (Z.testbit (CPSR s) 6) then Some ARMul_FIQV
  else if (NirqSig s =? 0) && negb (Z.testbit (CPSR s) 7) then Some ARMul_IRQV
  else None.

Lemma IntPending_pending s : wf s ->
  IntPending s = match pending s with Some v => (true, ARMul_Abort v s) | None => (false, s) end.
Proof.
  intros Hwf. unfold IntPending, pending. rewrite !psr_bit_CPSR by (done || lia).
  change (psr_bit s 6) with (Z.testbit (IFFlags s) 0). change (psr_bit s 7) with (Z.testbit (IFFlags s) 1).
  pose proof (wf_IFFlags s Hwf).
  assert (truth (FFLAG s) = Z.testbit (IFFlags s) 0) as ->.
  { unfold FFLAG. rewrite land_1_testbit_0. by destruct (Z.testbit _ 0). }
  assert (truth (IFLAG s) = Z.testbit (IFFlags s) 1) as ->.
  { unfold IFLAG. assert (IFFlags s = 0 \/ IFFlags s = 1 \/ IFFlags s = 2 \/ IFFlags s = 3) as Hc by lia.
    by destruct Hc as [->|[->|[->| ->]]]. }
  unfold truth. rewrite !negb_involutive. by repeat case_match.
Qed.

(** C17: Interrupts: [IntPending] takes the pending exception of highest priority
    (reset, then FIQ, then IRQ, each unless its mask bit in the CPSR is set) and
    otherwise leaves the state alone; and the handler of an interrupt is not
    interrupted by the same request, nor a FIQ handler by any. *)
Theorem IntPending_priority s :
  wf s -> banked s -> prog32Sig s <> LOW -> 3 < Mode s ->
  IntPending s = match pending s with Some v => (true, ARMul_Abort v s) | None => (false, s) end /\
  (NresetSig s <> LOW ->
   pending (ARMul_Abort ARMul_FIQV s) = None /\ pending (ARMul_Abort ARMul_IRQV s) <> Some ARMul_IRQV).
Proof.
  intros Hwf Hb Hp Hm. split; [by apply IntPending_pending|]. intros Hn.
  assert (Hbits : Z.testbit (exc_cpsr INTBITS FIQ32MODE s) 6 = true /\
    Z.testbit (exc_cpsr INTBITS FIQ32MODE s) 7 = true /\ Z.testbit (exc_cpsr IBIT IRQ32MODE s) 7 = true).
  { unfold exc_cpsr. rewrite !Z.lor_spec. change (Z.testbit INTBITS 6) with true.
    change (Z.testbit INTBITS 7) with true. change (Z.testbit IBIT 7) with true. by rewrite !orb_true_r. }
  destruct Hbits as (H6 & H7 & H7'). unfold pending. split.
  - destruct (Abort_entry ARMul_FIQV s Hwf Hb Hp Hm ltac:(unfold exc_vector; tauto))
      as [_ _ _ HC _ _ _ _ _ (-> & _ & _) _].
    change (exc_cpsr _ _ _) with (exc_cpsr INTBITS FIQ32MODE s) in HC. rewrite HC, H6, H7.
    rewrite !andb_false_r. by destruct (Z.eqb_spec (NresetSig s) LOW).
  - destruct (Abort_entry ARMul_IRQV s Hwf Hb Hp Hm ltac:(unfold exc_vector; tauto))
      as [_ _ _ HC _ _ _ _ _ (-> & _ & _) _].
    change (exc_cpsr _ _ _) with (exc_cpsr IBIT IRQ32MODE s) in HC. rewrite HC, H7'.
    rewrite andb_false_r. destruct (Z.eqb_spec (NresetSig s) LOW); [done|]. by case_match.
Qed.

Lemma IntPending_priority_witness :
  fst (IntPending (zero_state <| NirqSig := 0 |>)) = true.
Proof.
  assert (Hwf : wf (zero_state <| NirqSig := 0 |>)) by (pose proof wf_zero_state; wf_frame).
  destruct (IntPending_priority (zero_state <| NirqSig := 0 |>) Hwf) as [-> _];
    [by vm_compute|discriminate|reflexivity|reflexivity].
Defined.

(** The tables of [ARMul_EmulateInit]: whatever the arrays held, entry [i] of
    the immediate table is the low byte of [i] rotated right by twice its
    high nibble, and entry [i] of the bit list is four times the number of set
    bits of [i]. *)
Theorem EmulateInit_tables ImmedTable BitList :
  length ImmedTable = 4096%nat -> length BitList = 256%nat ->
  let '(immed, bits) := ARMul_EmulateInit ImmedTable BitList in
  (forall i, 0 <= i < 4096 -> rd immed i = ror32 (i mod 256) (2 * (i / 256))) /\
  (forall i, 0 <= i < 256 -> rd bits i = 4 * bits_set 8 i).
Proof.
  intros HI HB. unfold ARMul_EmulateInit. cbv zeta. split.
  - intros i Hi. destruct (rd_for_range_wr ImmedTable_entry 4096 ImmedTable) as [_ Hr]; [lia|].
    rewrite Hr by done. by apply ImmedTable_ror.
  - destruct (rd_for_range_wr (fun _ => 0) 256 BitList) as [Hl0 Hr0]; [lia|].
    destruct (BitList_count_spec (for_range 0 256 (fun i a => wr a i 0) BitList)) as [Hl1 Hr1]; [lia|done|].
    set (a := BitList_count _) in *. clearbody a. intros i Hi.
    destruct (rd_scale a 256) as [_ Hs]; [lia|]. rewrite Hs, Hr1 by lia.
    replace (i <? 256) with true by lia. lia.
Qed.

Lemma EmulateInit_tables_witness :
  rd (fst (ARMul_EmulateInit (replicate 4096 7) (replicate 256 7))) 0x4ff = 0xff000000.
Proof.
  pose proof (EmulateInit_tables (replicate 4096 7) (replicate 256 7)
    (length_replicate _ _) (length_replicate _ _)) as H.
  destruct (ARMul_EmulateInit (replicate 4096 7) (replicate 256 7)) as [immed bits].
  destruct H as [H _]. simpl fst. rewrite H by lia. reflexivity.
Defined.
