(* ===== verification/UartDev.v ===== *)
(** * The UART devices of the host

    skyeye_uart.c gives a machine its serial lines: a table of configured
    devices, each with the functions of the module (standard streams, pipe,
    TCP port) that reads and writes it.  Those modules are operating system
    calls; here they are the interface [UartDriver], and the dispatch over the
    table is modelled on top of it. *)

From S2P Require Import Prelude Words.

(** What a configured device does for one byte: [uart_read] returns what the
    C function returns, and the byte it stores when that is positive;
    [uart_write] returns the number of bytes it wrote.  [uart_count] is
    [skyeye_config.uart.count]. *)
Class UartDriver (host : Type) := {
  uart_count : Z;
  uart_read : Z -> host -> Z * Z * host;
  uart_write : Z -> Z -> host -> Z * host;
  uart_read_byte i h : 0 <= (uart_read i h).1.2 < 256
}.

Section Dispatch.
Context {host : Type} `{!UartDriver host}.

(** [skyeye_uart_read (devIndex, &buf, 1, timeout, NULL)] for a single
    device, with the value returned, the byte read and the host after it. *)
Definition skyeye_uart_read (devIndex : Z) (h : host) : Z * Z * host :=
  if uart_count <=? devIndex then (-1, 0, h) else uart_read devIndex h.

(** [skyeye_uart_write (devIndex, &c, 1, NULL)]: one device, or for a negative
    index all of them from the last to the first. *)
Definition skyeye_uart_write (devIndex c : Z) (h : host) : Z * host :=
  let i := if devIndex <? 0 then uart_count - 1 else devIndex in
  if (i <? 0) || (uart_count <=? i) then (-1, h)
  else
    let devs := if devIndex <? 0 then rev (seqZ 0 (i + 1)) else [i] in
    fold_left (fun '(retVal, h) i =>
      let '(nWrote, h) := uart_write i c h in (Z.max retVal nWrote, h)) devs (-1, h).

Lemma skyeye_uart_read_byte i h : 0 <= (skyeye_uart_read i h).1.2 < 256.
Proof. unfold skyeye_uart_read. destruct (_ <=? _); [simpl; lia|apply uart_read_byte]. Qed.
End Dispatch.

(** What a client may rely on: the device keeps, or passes on in order, the
    bytes it reports as written, and writing to one device leaves the others
    alone.  [sent i h] is what went out on device [i]. *)
Class UartLog (host : Type) `{!UartDriver host} := {
  sent : Z -> host -> list Z;
  sent_write i c h j :
    0 <= i < uart_count -> 0 <= j < uart_count ->
    let '(n, h') := uart_write i c h in
    sent j h' = sent j h ++ if (j =? i) && (0 <? n) then [c] else []
}.

(** The same for the dispatcher. *)
Lemma sent_skyeye_write {host} `{UartLog host} i c h :
  0 <= i -> let '(n, h') := skyeye_uart_write i c h in
  sent i h' = sent i h ++ if 0 <? n then [c] else [].
Proof.
  intros Hi. unfold skyeye_uart_write. destruct (Z.ltb_spec i 0); [lia|].
  cbn [orb]. destruct (Z.ltb_spec i 0); [lia|]. cbn [orb].
  destruct (Z.leb_spec uart_count i) as [|Hlt]; [by rewrite app_nil_r|]. cbn [fold_left].
  pose proof (sent_write i c h i (conj Hi Hlt) (conj Hi Hlt)) as Hs. destruct (uart_write i c h) as [n h'].
  rewrite Hs, Z.eqb_refl. cbn [andb]. destruct (Z.ltb_spec 0 n), (Z.ltb_spec 0 (Z.max (-1) n)); done || lia.
Qed.

(** A host with two lines for the examples: each has bytes waiting to be read
    and collects what is written to it. *)
Definition line : Type := list Z * list Z.
Definition lines : Type := line * line.
Definition line_of (i : Z) (h : lines) : line := if i =? 0 then h.1 else h.2.
Definition set_line (i : Z) (l : line) (h : lines) : lines :=
  if i =? 0 then (l, h.2) else (h.1, l).

Definition line_read (i : Z) (h : lines) : Z * Z * lines :=
  match line_of i h with
  | (c :: rx, tx) => (1, c mod 256, set_line i (rx, tx) h)
  | ([], _) => (0, 0, h)
  end.
Definition line_write (i c : Z) (h : lines) : Z * lines :=
  let '(rx, tx) := line_of i h in (1, set_line i (rx, tx ++ [c]) h).

Lemma line_read_byte i h : 0 <= (line_read i h).1.2 < 256.
Proof.
  unfold line_read. destruct (line_of i h) as [[|c rx] tx]; cbn [fst snd]; [lia|by apply Z.mod_pos_bound].
Qed.

Lemma line_write_sent i c h j :
  0 <= i < 2 -> 0 <= j < 2 ->
  let '(n, h') := line_write i c h in
  (line_of j h').2 = (line_of j h).2 ++ if (j =? i) && (0 <? n) then [c] else [].
Proof.
  intros Hi Hj. destruct h as [[r0 t0] [r1 t1]]. unfold line_write, line_of, set_line.
  destruct (Z.eqb_spec i 0), (Z.eqb_spec j 0), (Z.eqb_spec j i); simpl;
    rewrite ?app_nil_r; done || lia.
Qed.

#[export] Instance lines_driver : UartDriver lines := {
  uart_count := 2; uart_read := line_read; uart_write := line_write;
  uart_read_byte := line_read_byte
}.

#[export] Instance lines_log : UartLog lines := {
  sent i h := (line_of i h).2; sent_write := line_write_sent
}.
