(* ===== verification/Machine.v ===== *)
(** * armio.c: devices and the machine

    The rest of the simulator reaches the peripherals through the operations
    of the configured machine, the fields of [machine_config_t], after the
    devices that were configured on top of it had a chance to answer.  The
    file models these operations as a record, the interface [Board] by which
    the core and the memory use them, and the dispatch of armio.c. *)

From S2P Require Import Prelude Words ArmState.

(** The size of an access ([ARM_BYTE_TYPE], [ARM_HALFWORD_TYPE],
    [ARM_WORD_TYPE]). *)
Inductive width := Byte | Half | Word.
#[export] Instance width_eq_dec : EqDecision width.
Proof. solve_decision. Defined.

Definition width_mask (w : width) : Z :=
  match w with Byte => 0xff | Half => 0xffff | Word => 0xffffffff end.

(** ** The operations of a machine

    [None] is undefined behaviour or the end of the simulation. *)

Record machine_config (M : Type) := {
  mach_io_do_cycle : M -> option M;
  mach_io_reset : M -> M;
  mach_io_read_byte : Z -> M -> option (Z * M);
  mach_io_write_byte : Z -> Z -> M -> option M;
  mach_io_read_halfword : Z -> M -> option (Z * M);
  mach_io_write_halfword : Z -> Z -> M -> option M;
  mach_io_read_word : Z -> M -> option (Z * M);
  mach_io_write_word : Z -> Z -> M -> option M;
  mach_update_int : M -> option M
}.
Arguments mach_io_do_cycle {M} _ _.
Arguments mach_io_reset {M} _ _.
Arguments mach_io_read_byte {M} _ _ _.
Arguments mach_io_write_byte {M} _ _ _ _.
Arguments mach_io_read_halfword {M} _ _ _.
Arguments mach_io_write_halfword {M} _ _ _ _.
Arguments mach_io_read_word {M} _ _ _.
Arguments mach_io_write_word {M} _ _ _ _.
Arguments mach_update_int {M} _ _.

Definition mach_read {M} (c : machine_config M) (w : width) : Z -> M -> option (Z * M) :=
  match w with
  | Byte => mach_io_read_byte c | Half => mach_io_read_halfword c | Word => mach_io_read_word c
  end.
Definition mach_write {M} (c : machine_config M) (w : width) : Z -> Z -> M -> option M :=
  match w with
  | Byte => mach_io_write_byte c | Half => mach_io_write_halfword c | Word => mach_io_write_word c
  end.

(** ** Devices

    [struct device_desc]: an address range (a size of 0 means that the device
    decides by itself) and optional functions.  An access function returns
    [ADDR_NOHIT] when the device does not answer. *)

Definition ADDR_NOHIT := 0.

Record device_desc (M : Type) := {
  dev_base : Z; dev_size : Z;
  dev_reset : option (M -> M);
  dev_update : option (M -> option M);
  dev_read : width -> option (Z -> M -> option (Z * Z * M));
  dev_write : width -> option (Z -> Z -> M -> option (Z * M))
}.
Arguments dev_base {M} _.
Arguments dev_size {M} _.
Arguments dev_reset {M} _.
Arguments dev_update {M} _.
Arguments dev_read {M} _ _.
Arguments dev_write {M} _ _.

Definition dev_covers {M} (d : device_desc M) (addr : Z) : bool :=
  (dev_size d =? 0) || ((dev_base d <=? addr) && (addr <? add32 (dev_base d) (dev_size d))).

(** What the simulator knows of a machine state: the core in it, the
    configured devices and the operations of the machine. *)
Class Board (M : Type) := {
  bcore : M -> ARMul_State;
  set_bcore : ARMul_State -> M -> M;
  devices : list (device_desc M);
  mach : machine_config M;
  bcore_set c m : bcore (set_bcore c m) = c;
  set_bcore_same m : set_bcore (bcore m) m = m;
  set_bcore_twice c c' m : set_bcore c (set_bcore c' m) = set_bcore c m
}.

Section Dispatch.
Context {M : Type} `{!Board M}.
Implicit Type m : M.

(** ** Accesses

    [io_read_byte], [io_read_halfword], [io_read_word] and the writes, by
    the width of the access: the first device that answers, else the
    machine. *)
Definition io_read_devs (w : width) (addr : Z) : list (device_desc M) -> M -> option (Z * M) :=
  fix go ds m :=
    match ds with
    | [] => mach_read mach w addr m
    | d :: ds =>
        match dev_read d w with
        | None => go ds m
        | Some read =>
            if dev_covers d addr then
              '(r, data, m) ← read addr m;
              if negb (r =? ADDR_NOHIT) then Some (data &&& width_mask w, m) else go ds m
            else go ds m
        end
    end.
Definition io_read (w : width) (addr : Z) m : option (Z * M) := io_read_devs w addr devices m.

Definition io_write_devs (w : width) (addr data : Z) : list (device_desc M) -> M -> option M :=
  fix go ds m :=
    match ds with
    | [] => mach_write mach w addr data m
    | d :: ds =>
        match dev_write d w with
        | None => go ds m
        | Some write =>
            if dev_covers d addr then
              '(r, m) ← write addr (data &&& width_mask w) m;
              if negb (r =? ADDR_NOHIT) then Some m else go ds m
            else go ds m
        end
    end.
Definition io_write (w : width) (addr data : Z) m : option M := io_write_devs w addr data devices m.

(** ** Reset and cycles *)

Definition io_reset m : M :=
  mach_io_reset mach
    (fold_left (fun m d => match dev_reset d with Some f => f m | None => m end) devices m).

Definition DIVISOR := 10.

(** [io_do_cycle], with the static [prescale]. *)
Definition io_do_cycle (prescale : Z) m : option (Z * M) :=
  let prescale := prescale - 1 in
  if prescale <? 0 then
    m ← fold_left (fun o d => m ← o; match dev_update d with Some f => f m | None => Some m end)
          devices (Some m);
    m ← mach_io_do_cycle mach m;
    Some (DIVISOR, m)
  else Some (prescale, m).

(** One update of the devices and the machine. *)
Definition board_cycle m : option M := snd <$> io_do_cycle 0 m.

(** ** Facts *)

(** The devices are silent about an address when each one either has no
    function for the access or does not cover it. *)
Definition silent_read (w : width) (addr : Z) : Prop :=
  Forall (fun d => dev_read d w = None \/ dev_covers d addr = false) devices.
Definition silent_write (w : width) (addr : Z) : Prop :=
  Forall (fun d => dev_write d w = None \/ dev_covers d addr = false) devices.

Lemma io_read_silent w addr m : silent_read w addr -> io_read w addr m = mach_read mach w addr m.
Proof.
  unfold silent_read, io_read. intros H. induction H as [|d ds [Hd|Hd] H IH]; [done|..]; simpl.
  - by rewrite Hd.
  - rewrite Hd. by destruct (dev_read d w).
Qed.

Lemma io_write_silent w addr data m :
  silent_write w addr -> io_write w addr data m = mach_write mach w addr data m.
Proof.
  unfold silent_write, io_write. intros H. induction H as [|d ds [Hd|Hd] H IH]; [done|..]; simpl.
  - by rewrite Hd.
  - rewrite Hd. by destruct (dev_write d w).
Qed.

(** C27: [io_do_cycle] divides the instruction rate by eleven: called [n]
    times from the initial prescale it updates the devices and the machine
    [n / 11] times, and nothing else. *)
Theorem io_do_cycle_rate m (n : nat) :
  Nat.iter n (fun o => '(p, m) ← o; io_do_cycle p m) (Some (DIVISOR, m)) =
  (fun m => (10 - Z.of_nat n mod 11, m)) <$>
    Nat.iter (Z.to_nat (Z.of_nat n / 11)) (fun o => o ≫= board_cycle) (Some m).
Proof.
  induction n as [|n IH]; [done|]. rewrite Nat.iter_succ, IH. clear IH.
  rewrite Nat2Z.inj_succ, <- Z.add_1_r. set (k := Z.of_nat n).
  assert (Hk : 0 <= k) by lia. pose proof (Z.mod_pos_bound k 11).
  assert (E : k = 11 * (k / 11) + k mod 11) by (apply Z.div_mod; lia).
  set (q := k / 11) in *. set (r := k mod 11) in *. clearbody q r k. subst k.
  destruct (Z.eq_dec r 10) as [->|Hr].
  - replace (11 * q + 10 + 1) with ((q + 1) * 11) by lia. rewrite Z.div_mul, Z_mod_mult by lia.
    replace (Z.to_nat (q + 1)) with (S (Z.to_nat q)) by lia. rewrite Nat.iter_succ.
    destruct (Nat.iter (Z.to_nat q) _ _) as [m'|]; [|done]. simpl. unfold board_cycle.
    change (10 - 10) with 0. unfold io_do_cycle. simpl.
    destruct (fold_left _ _ _) as [m1|]; [|done]. simpl. by destruct (mach_io_do_cycle mach m1).
  - replace (11 * q + r + 1) with (q * 11 + (r + 1)) by lia.
    rewrite Z.div_add_l, (Z.div_small (r + 1)), Z.add_0_r by lia.
    rewrite (Z.add_comm (q * 11)), Z_mod_plus_full, (Z.mod_small (r + 1)) by lia.
    destruct (Nat.iter (Z.to_nat q) _ _) as [m'|]; [|done]. simpl. unfold io_do_cycle.
    destruct (Z.ltb_spec (10 - r - 1) 0); [lia|]. do 2 f_equal. lia.
Qed.
End Dispatch.
