(* ===== verification/LpcState.v ===== *)
(** * The LPC2300 peripherals: state

    The static [lpc2300_io] of skyeye_mach_lpc2300.c, its timers, UARTs, PLL
    and vectored interrupt controller, next to the other state the machine's
    functions touch: the core (for its interrupt pins), the polling counter of
    [lpc2300_io_do_cycle] and the host's UART devices.  Registers are 32-bit
    words; C arrays are lists of their C length. *)

From S2P Require Import Prelude Words ArmState.

Record lpc2300_timer_t := mkTimer {
  t_ir : Z; t_tcr : Z; t_tc : Z; t_pr : Z; t_pc : Z; t_mcr : Z; t_mr : list Z;
  t_ccr : Z; t_cr0 : Z; t_cr1 : Z; t_cr2 : Z; t_cr3 : Z; t_emr : Z; t_ctcr : Z
}.

#[export] Instance eta_timer : Eta lpc2300_timer_t := fun t => mkTimer
  (t_ir t) (t_tcr t) (t_tc t) (t_pr t) (t_pc t) (t_mcr t) (t_mr t)
  (t_ccr t) (t_cr0 t) (t_cr1 t) (t_cr2 t) (t_cr3 t) (t_emr t) (t_ctcr t).

(** [t_fifo] is the transmit queue, a ring of 16 bytes. *)
Record lpc2300_uart_t := mkUart {
  rbr : Z; thr : Z; ier : Z; iir : Z; fcr : Z; lcr : Z; lsr : Z; msr : Z; scr : Z;
  dll : Z; dlm : Z;
  t_fifo : list Z; r_fifo : list Z; t_fifolen : Z; t_fifotop : Z
}.

#[export] Instance eta_uart : Eta lpc2300_uart_t := fun u => mkUart
  (rbr u) (thr u) (ier u) (iir u) (fcr u) (lcr u) (lsr u) (msr u) (scr u)
  (dll u) (dlm u) (t_fifo u) (r_fifo u) (t_fifolen u) (t_fifotop u).

Record lpc2300_pll_t := mkPll { pll_con : Z; pll_cfg : Z; pll_stat : Z; pll_feed : Z }.

#[export] Instance eta_pll : Eta lpc2300_pll_t := fun p =>
  mkPll (pll_con p) (pll_cfg p) (pll_stat p) (pll_feed p).

(** [IRQNumber] holds, for each priority in service, the request serviced. *)
Record lpc2300_vic_t := mkVic {
  IRQStatus : Z; FIQStatus : Z; RawIntr : Z; IntSelect : Z; IntEnable : Z; IntEnClr : Z;
  SoftInt : Z; SoftIntClear : Z; Protection : Z; Vect_Addr : Z;
  SWPrioMask : Z; HWPrioMask : Z; VectAddr : list Z; VectPrio : list Z;
  INTSOURCE : Z; IRQNumber : list Z
}.

#[export] Instance eta_vic : Eta lpc2300_vic_t := fun v => mkVic
  (IRQStatus v) (FIQStatus v) (RawIntr v) (IntSelect v) (IntEnable v) (IntEnClr v)
  (SoftInt v) (SoftIntClear v) (Protection v) (Vect_Addr v)
  (SWPrioMask v) (HWPrioMask v) (VectAddr v) (VectPrio v) (INTSOURCE v) (IRQNumber v).

Record lpc2300_io_t := mkIo {
  syscon : Z; sysflg : Z; pll : lpc2300_pll_t; timer : list lpc2300_timer_t;
  vic : lpc2300_vic_t; pconp : Z; pinsel : list Z; pinmode : list Z; FIO : list Z;
  bcfg : list Z; tc_prescale : Z; uart : list lpc2300_uart_t; mmcr : Z; vibdiv : Z;
  pclksel0 : Z; pclksel1 : Z;
  sec : Z; rtc_min : Z; hour : Z; dom : Z; dow : Z; doy : Z; month : Z; year : Z;
  preint : Z; prefrac : Z; ccr : Z;
  mamcr : Z; mamtim : Z
}.

#[export] Instance eta_io : Eta lpc2300_io_t := fun d => mkIo
  (syscon d) (sysflg d) (pll d) (timer d) (vic d) (pconp d) (pinsel d) (pinmode d) (FIO d)
  (bcfg d) (tc_prescale d) (uart d) (mmcr d) (vibdiv d) (pclksel0 d) (pclksel1 d)
  (sec d) (rtc_min d) (hour d) (dom d) (dow d) (doy d) (month d) (year d)
  (preint d) (prefrac d) (ccr d) (mamcr d) (mamtim d).

(** The machine: [core] is the [state] argument of the C functions, [io] the
    static [lpc2300_io], [uartcnt] the static counter of
    [lpc2300_io_do_cycle], [dev] the UART devices of the host. *)
Record machine (host : Type) := mkMachine {
  core : ARMul_State; io : lpc2300_io_t; uartcnt : Z; dev : host
}.
Arguments mkMachine {host} _ _ _ _.
Arguments core {host} _.
Arguments io {host} _.
Arguments uartcnt {host} _.
Arguments dev {host} _.

#[export] Instance eta_machine host : Eta (machine host) := fun s =>
  mkMachine (core s) (io s) (uartcnt s) (dev s).

(** The zero-initialised statics. *)
Definition zero_timer : lpc2300_timer_t := mkTimer 0 0 0 0 0 0 (replicate 4 0) 0 0 0 0 0 0 0.
Definition zero_uart : lpc2300_uart_t :=
  mkUart 0 0 0 0 0 0 0 0 0 0 0 (replicate 16 0) (replicate 16 0) 0 0.
Definition zero_vic : lpc2300_vic_t :=
  mkVic 0 0 0 0 0 0 0 0 0 0 0 0 (replicate 32 0) (replicate 32 0) 0 (replicate 16 0).
Definition zero_io : lpc2300_io_t := mkIo
  0 0 (mkPll 0 0 0 0) (replicate 4 zero_timer) zero_vic 0 (replicate 11 0) (replicate 10 0)
  (replicate 160 0) (replicate 4 0) 0 (replicate 4 zero_uart) 0 0 0 0
  0 0 0 0 0 0 0 0 0 0 0 0 0.

Definition UART_INT_CYCLE := 128.

(** [BITMSK (n)], [IRQTIMER (i)] and [IRQUART (i)]: request lines.  [1 << 31] on
    an [int] is taken as compilers define it, the word 2^31. *)
Definition BITMSK (n : Z) : Z := 1 <<< n.
Definition IRQTIMER (i : Z) : Z := 1 <<< (if i <? 2 then i + 4 else i + 24).
Definition IRQUART (i : Z) : Z := 1 <<< (if i <? 2 then i + 6 else i + 26).

Section Access.
Context {host : Type}.
Implicit Type s : machine host.

(** [io.timer[i]] and [io.uart[i]], and the assignments to their fields. *)
Definition tmr s (i : Z) : lpc2300_timer_t := nth (Z.to_nat i) (timer (io s)) zero_timer.
Definition uar s (i : Z) : lpc2300_uart_t := nth (Z.to_nat i) (uart (io s)) zero_uart.
Definition upd_io (f : lpc2300_io_t -> lpc2300_io_t) s : machine host := s <| io ::= f |>.
Definition upd_vic (f : lpc2300_vic_t -> lpc2300_vic_t) s : machine host :=
  upd_io (fun d => d <| vic ::= f |>) s.
Definition upd_timer (i : Z) (f : lpc2300_timer_t -> lpc2300_timer_t) s : machine host :=
  let t := f (tmr s i) in upd_io (fun d => d <| timer ::= fun l => wr l i t |>) s.
Definition upd_uart (i : Z) (f : lpc2300_uart_t -> lpc2300_uart_t) s : machine host :=
  let u := f (uar s i) in upd_io (fun d => d <| uart ::= fun l => wr l i u |>) s.

(** *** Reading after an update *)

Lemma nth_wr_eq {A} (l : list A) i x d : 0 <= i < Z.of_nat (length l) -> nth (Z.to_nat i) (wr l i x) d = x.
Proof. intros. unfold wr. by rewrite nth_lookup, list_lookup_insert_eq by lia. Qed.
Lemma nth_wr_ne {A} (l : list A) i j x d :
  0 <= i -> 0 <= j -> i <> j -> nth (Z.to_nat j) (wr l i x) d = nth (Z.to_nat j) l d.
Proof. intros. unfold wr. by rewrite !nth_lookup, list_lookup_insert_ne by lia. Qed.

Lemma uar_upd_uart_eq i f s :
  0 <= i < 4 -> length (uart (io s)) = 4%nat -> uar (upd_uart i f s) i = f (uar s i).
Proof. intros. unfold uar at 1, upd_uart, upd_io. upds. apply nth_wr_eq. lia. Qed.
Lemma uar_upd_uart_ne i j f s : 0 <= i -> 0 <= j -> i <> j -> uar (upd_uart i f s) j = uar s j.
Proof. intros. unfold uar at 1, upd_uart, upd_io. upds. by apply nth_wr_ne. Qed.
Lemma tmr_upd_timer_eq i f s :
  0 <= i < 4 -> length (timer (io s)) = 4%nat -> tmr (upd_timer i f s) i = f (tmr s i).
Proof. intros. unfold tmr at 1, upd_timer, upd_io. upds. apply nth_wr_eq. lia. Qed.
Lemma tmr_upd_timer_ne i j f s : 0 <= i -> 0 <= j -> i <> j -> tmr (upd_timer i f s) j = tmr s j.
Proof. intros. unfold tmr at 1, upd_timer, upd_io. upds. by apply nth_wr_ne. Qed.

Lemma upd_vic_const f s : upd_vic f s = upd_vic (fun _ => f (vic (io s))) s.
Proof. reflexivity. Qed.
Lemma vic_upd_vic f s : vic (io (upd_vic f s)) = f (vic (io s)).
Proof. unfold upd_vic, upd_io. by upds. Qed.
Lemma vic_upd_uart i f s : vic (io (upd_uart i f s)) = vic (io s).
Proof. unfold upd_uart, upd_io. cbv zeta. by upds. Qed.
Lemma vic_upd_timer i f s : vic (io (upd_timer i f s)) = vic (io s).
Proof. unfold upd_timer, upd_io. cbv zeta. by upds. Qed.
Lemma uar_upd_vic f s i : uar (upd_vic f s) i = uar s i.
Proof. unfold uar, upd_vic, upd_io. by upds. Qed.
Lemma uar_upd_timer k f s i : uar (upd_timer k f s) i = uar s i.
Proof. unfold uar, upd_timer, upd_io. cbv zeta. by upds. Qed.
Lemma tmr_upd_vic f s i : tmr (upd_vic f s) i = tmr s i.
Proof. unfold tmr, upd_vic, upd_io. by upds. Qed.
Lemma tmr_upd_uart k f s i : tmr (upd_uart k f s) i = tmr s i.
Proof. unfold tmr, upd_uart, upd_io. cbv zeta. by upds. Qed.
Lemma uart_upd_vic f s : uart (io (upd_vic f s)) = uart (io s).
Proof. unfold upd_vic, upd_io. by upds. Qed.
Lemma timer_upd_vic f s : timer (io (upd_vic f s)) = timer (io s).
Proof. unfold upd_vic, upd_io. by upds. Qed.
End Access.

Create Rewrite HintDb lpc.
#[export] Hint Rewrite @vic_upd_vic @vic_upd_uart @vic_upd_timer @uar_upd_vic @uar_upd_timer
  @tmr_upd_vic @tmr_upd_uart @uart_upd_vic @timer_upd_vic : lpc.
