(* ===== verification/LpcVic.v ===== *)
(** * The vectored interrupt controller of the LPC2300

    [lpc2300_update_int] recomputes the request status and decides which
    request the core sees; a write to the vector address register ends the
    service of the highest priority in service. *)

From S2P Require Import Prelude Words Bits ArmState LpcState.

(** ** [lpc2300_update_int] *)

(** [for (i=0; i<16; i++) if (!(mask & BITMSK(i))) ...]: the first clear bit
    of the mask, 16 when there is none. *)
Definition first_in_service (mask : Z) : Z :=
  match list_find (fun i => truth (mask &&& BITMSK i) = false) (seqZ 0 16) with
  | Some (_, i) => i
  | None => 16
  end.

(** One round of the search for the next request.  A priority is an [int];
    [BITMSK] of a negative one is undefined, as is the later use of it as
    an index. *)
Definition next_irq_step (status : Z) (prios : list Z) (PrioMask irq_no : Z)
    (acc : Z * Z) : option (Z * Z) :=
  let '(ServicingPrio, NextIRQ) := acc in
  if truth (status &&& BITMSK irq_no) then
    let prio := s32 (rd prios irq_no) in
    if prio <? ServicingPrio then
      if prio <? 0 then None
      else if truth (PrioMask &&& BITMSK prio) then Some (prio, irq_no)
      else Some (ServicingPrio, NextIRQ)
    else Some (ServicingPrio, NextIRQ)
  else Some (ServicingPrio, NextIRQ).

(** The controller after [lpc2300_update_int], and the [NfiqSig] and
    [NirqSig] it assigns. *)
Definition vic_update (v : lpc2300_vic_t) : option (lpc2300_vic_t * Z * Z) :=
  let raw := INTSOURCE v ||| SoftInt v in
  let irq := raw &&& IntEnable v in
  let irqst := irq &&~ IntSelect v in
  let fiqst := irq &&& IntSelect v in
  let v := v <| RawIntr := raw |> <| IRQStatus := irqst |> <| FIQStatus := fiqst |> in
  let NfiqSig := if truth fiqst then LOW else HIGH in
  let PrioMask := (SWPrioMask v &&& HWPrioMask v) &&& 0xffff in
  '(ServicingPrio, NextIRQ) ←
    for_range_opt 0 32 (next_irq_step irqst (VectPrio v) PrioMask)
      (first_in_service (HWPrioMask v), -1);
  let NirqSig := if truth irqst then LOW else HIGH in
  if truth fiqst then Some (v, NfiqSig, HIGH)
  else if (0 <=? NextIRQ) && (ServicingPrio <? 16) then
    Some (v <| HWPrioMask ::= fun m => m &&~ BITMSK ServicingPrio |>
            <| IRQNumber ::= fun l => wr l ServicingPrio NextIRQ |>
            <| Vect_Addr := rd (VectAddr v) NextIRQ |>, NfiqSig, LOW)
  else Some (v, NfiqSig, NirqSig).

Section Vic.
Context {host : Type}.
Implicit Type s : machine host.

Definition lpc2300_update_int s : option (machine host) :=
  '(v, fiq, irq) ← vic_update (vic (io s));
  Some (upd_vic (fun _ => v) s <| core ::= fun c => c <| NfiqSig := fiq |> <| NirqSig := irq |> |>).

(** The write of the vector address register (case 0xffffff00 of
    [lpc2300_io_write_word]). *)
Definition vic_write_VAR s : option (machine host) :=
  if truth (FIQStatus (vic (io s))) then Some (upd_vic (fun v => v <| FIQStatus := 0 |>) s)
  else
    let nHighestPrio := first_in_service (HWPrioMask (vic (io s))) in
    if nHighestPrio <? 16 then
      let nIRQNum := rd (IRQNumber (vic (io s))) nHighestPrio in
      let s := upd_vic (fun v => v <| HWPrioMask ::= fun m => m ||| BITMSK nHighestPrio |>
                                   <| INTSOURCE ::= fun x => x &&~ BITMSK nIRQNum |>) s in
      let s := if nIRQNum =? 6 then upd_uart 0 (fun u => u <| iir ::= fun x => x &&~ 0xf ||| 1 |>) s
               else if nIRQNum =? 7 then upd_uart 1 (fun u => u <| iir ::= fun x => x &&~ 0xf ||| 1 |>) s
               else s in
      lpc2300_update_int s
    else Some s.
End Vic.

(** ** Well-formed controllers

    What reset establishes and every operation keeps.  With [strict] the
    priorities are not negative as an [int]; a guest can write others. *)

Definition prio_bound (strict : bool) : Z := if strict then 2147483648 else 4294967296.

Record vic_ok (strict : bool) (v : lpc2300_vic_t) : Prop := {
  vw_VectAddr : length (VectAddr v) = 32%nat /\ Forall word (VectAddr v);
  vw_VectPrio : length (VectPrio v) = 32%nat /\ Forall (fun p => 0 <= p < prio_bound strict) (VectPrio v);
  vw_IRQNumber : length (IRQNumber v) = 16%nat /\ Forall (fun n => 0 <= n < 32) (IRQNumber v);
  vw_words : Forall word [IRQStatus v; FIQStatus v; RawIntr v; IntSelect v; IntEnable v; IntEnClr v;
    SoftInt v; SoftIntClear v; Protection v; Vect_Addr v; SWPrioMask v; HWPrioMask v; INTSOURCE v]
}.
Arguments vw_VectAddr {strict} v _. Arguments vw_VectPrio {strict} v _.
Arguments vw_IRQNumber {strict} v _. Arguments vw_words {strict} v _.
Definition vic_wf : lpc2300_vic_t -> Prop := vic_ok true.

(** The entry of priority [p], when it is in service. *)
Definition service_entry (m : Z) (nums : list Z) (p : Z) : option (Z * Z) :=
  if Z.testbit m p then None else Some (p, rd nums p).

(** ** The service stack

    The priorities whose bit of [HWPrioMask] is clear are in service; listed
    from the highest they are the stack of the interrupts being serviced. *)

Definition serving (v : lpc2300_vic_t) : list (Z * Z) :=
  omap (service_entry (HWPrioMask v) (IRQNumber v)) (seqZ 0 16).

(** Request [n] may interrupt: it is active and enabled as an IRQ, its
    priority is above the ones in service and not masked by software. *)
Definition eligible (v : lpc2300_vic_t) (n : Z) : Prop :=
  0 <= n < 32 /\
  Z.testbit (((INTSOURCE v ||| SoftInt v) &&& IntEnable v) &&~ IntSelect v) n = true /\
  rd (VectPrio v) n < 16 /\
  (forall e, e ∈ serving v -> rd (VectPrio v) n < e.1) /\
  Z.testbit (SWPrioMask v) (rd (VectPrio v) n) = true.

(** The request of highest priority, the lowest line among equals. *)
Definition wins (v : lpc2300_vic_t) (n : Z) : Prop :=
  eligible v n /\ forall m, eligible v m ->
    rd (VectPrio v) n < rd (VectPrio v) m \/ (rd (VectPrio v) n = rd (VectPrio v) m /\ n <= m).

Lemma truth_BITMSK m n : 0 <= n -> truth (m &&& BITMSK n) = Z.testbit m n.
Proof. intros. unfold BITMSK. rewrite Z.shiftl_1_l. by apply truth_land_pow2. Qed.

Lemma first_in_service_spec m :
  let f := first_in_service m in
  0 <= f <= 16 /\ (f < 16 -> Z.testbit m f = false) /\ forall i, 0 <= i < f -> Z.testbit m i = true.
Proof.
  unfold first_in_service. destruct (list_find _ _) as [[k f]|] eqn:E; simpl.
  - apply list_find_Some in E as (Hk & Hf & Hlt). apply lookup_seqZ in Hk as [-> Hk].
    rewrite truth_BITMSK in Hf by lia. repeat split; [lia|lia|done|].
    intros i Hi. destruct (Z.testbit m i) eqn:Ei; [done|]. exfalso.
    apply (Hlt (Z.to_nat i) i); [|lia|by rewrite truth_BITMSK by lia].
    apply lookup_seqZ. lia.
  - apply list_find_None in E. rewrite Forall_seqZ in E. repeat split; [lia|lia|lia|].
    intros i Hi. specialize (E i ltac:(lia)). rewrite truth_BITMSK in E by lia.
    by destruct (Z.testbit m i).
Qed.

Lemma serving_split m nums f :
  0 <= f <= 16 -> (forall i, 0 <= i < f -> Z.testbit m i = true) ->
  omap (service_entry m nums) (seqZ 0 16) = omap (service_entry m nums) (seqZ f (16 - f)).
Proof.
  intros Hf Hs. replace 16 with (f + (16 - f)) at 1 by lia. rewrite seqZ_app, omap_app by lia.
  rewrite omap_none; [done|]. intros x Hx%elem_of_seqZ. unfold service_entry. by rewrite Hs by lia.
Qed.

(** The stack seen from its top. *)
Lemma serving_top m nums f :
  0 <= f < 16 -> (forall i, 0 <= i < f -> Z.testbit m i = true) -> Z.testbit m f = false ->
  omap (service_entry m nums) (seqZ 0 16) =
  (f, rd nums f) :: omap (service_entry m nums) (seqZ (f + 1) (15 - f)).
Proof.
  intros Hf Hs Hc. rewrite (serving_split m nums f) by (lia || done).
  rewrite seqZ_cons by lia. simpl. unfold service_entry at 1. rewrite Hc.
  by replace (Z.pred (16 - f)) with (15 - f) by lia.
Qed.

Lemma serving_above v x :
  x < 16 -> (forall e, e ∈ serving v -> x < e.1) <-> x < first_in_service (HWPrioMask v).
Proof.
  intros Hx. pose proof (first_in_service_spec (HWPrioMask v)) as (Hf & Hc & Hs).
  set (f := first_in_service _) in *. unfold serving. split.
  - intros H. destruct (Z.eq_dec f 16) as [->|]; [done|].
    apply (H (f, rd (IRQNumber v) f)). rewrite (serving_top _ _ f) by (done || lia || apply Hc; lia).
    apply list_elem_of_here.
  - intros H e He%list_elem_of_omap. destruct He as (p & Hp%elem_of_seqZ & He).
    unfold service_entry in He. destruct (Z.testbit (HWPrioMask v) p) eqn:Ep; [done|].
    injection He as <-. simpl.
    destruct (Z.lt_ge_cases p f); [|lia]. by rewrite Hs in Ep by lia.
Qed.

(** The priorities of a well-formed controller. *)
Lemma prio_range v n : vic_wf v -> 0 <= n < 32 -> 0 <= rd (VectPrio v) n < 2147483648.
Proof.
  intros [_ [Hl Hf] _ _] Hn. unfold rd. rewrite Forall_lookup in Hf.
  destruct (lookup_lt_is_Some_2 (VectPrio v) (Z.to_nat n)) as [x Hx]; [lia|].
  rewrite (nth_lookup_Some _ _ _ _ Hx). by eapply Hf.
Qed.

Definition PrioMask (v : lpc2300_vic_t) : Z := (SWPrioMask v &&& HWPrioMask v) &&& 0xffff.
Definition irq_status (v : lpc2300_vic_t) : Z :=
  ((INTSOURCE v ||| SoftInt v) &&& IntEnable v) &&~ IntSelect v.

(** Eligibility as the search tests it. *)
Lemma eligible_alt v n :
  vic_wf v -> 0 <= n < 32 ->
  eligible v n <-> Z.testbit (irq_status v) n = true /\
    rd (VectPrio v) n < first_in_service (HWPrioMask v) /\
    Z.testbit (PrioMask v) (rd (VectPrio v) n) = true.
Proof.
  intros Hwf Hn. pose proof (prio_range v n Hwf Hn) as Hp. unfold eligible. fold (irq_status v).
  pose proof (first_in_service_spec (HWPrioMask v)) as (Hf & _ & Hs).
  set (x := rd (VectPrio v) n) in *. unfold PrioMask.
  assert (Hlt : x < first_in_service (HWPrioMask v) ->
    Z.testbit ((SWPrioMask v &&& HWPrioMask v) &&& 0xffff) x = Z.testbit (SWPrioMask v) x).
  { intros H. autorewrite with tbits. rewrite Hs, (testbit_ones 0xffff 16) by (done || lia).
    destruct (Z.leb_spec 0 x), (Z.ltb_spec x 16); simpl; lia || by rewrite !andb_true_r. }
  split.
  - intros (_ & H1 & H2 & H3 & H4). apply serving_above in H3; [|done]. by rewrite Hlt.
  - intros (H1 & H2 & H3). rewrite Hlt in H3 by done. repeat split; try (lia || done).
    apply serving_above; [lia|done].
Qed.

(** What the search knows after the lines below [k]. *)
Definition found (v : lpc2300_vic_t) (k : Z) (acc : Z * Z) : Prop :=
  let '(sp, nx) := acc in
  (nx = -1 /\ sp = first_in_service (HWPrioMask v) /\ forall n, n < k -> ~ eligible v n) \/
  (eligible v nx /\ nx < k /\ sp = rd (VectPrio v) nx /\ forall m, m < k -> eligible v m ->
     rd (VectPrio v) nx < rd (VectPrio v) m \/ (rd (VectPrio v) nx = rd (VectPrio v) m /\ nx <= m)).

(** Line [i] is passed over, or becomes the best so far. *)
Lemma found_skip v i acc : found v i acc ->
  (eligible v i -> acc.1 <= rd (VectPrio v) i /\ acc.2 <> -1) -> found v (i + 1) acc.
Proof.
  destruct acc as [sp nx]. simpl. intros [(-> & -> & H)|(Hnx & Hlt & -> & H)] Hi; [left|right].
  - do 2 (split; [done|]). intros n Hn Hen. destruct (Z.eq_dec n i) as [->|].
    + by apply Hi in Hen as [_ []].
    + apply (H n); [lia|done].
  - split; [done|]. split; [lia|]. split; [done|]. intros m Hm Hem. destruct (Z.eq_dec m i) as [->|].
    + apply Hi in Hem. lia.
    + apply H; [lia|done].
Qed.

Lemma found_take v i acc : vic_wf v -> found v i acc ->
  eligible v i -> rd (VectPrio v) i < acc.1 -> found v (i + 1) (rd (VectPrio v) i, i).
Proof.
  destruct acc as [sp nx]. simpl. intros Hwf H Hi Hlt. right. do 2 (split; [done || lia|]).
  split; [done|]. intros m Hm Hem. destruct (Z.eq_dec m i) as [->|]; [lia|].
  destruct H as [(-> & -> & H)|(Hnx & _ & -> & H)].
  - by destruct (H m); [lia|].
  - destruct (H m); [lia|done|lia..].
Qed.

Lemma next_irq_step_found v i acc :
  vic_wf v -> 0 <= i < 32 -> found v i acc ->
  exists acc', next_irq_step (irq_status v) (VectPrio v) (PrioMask v) i acc = Some acc' /\
    found v (i + 1) acc'.
Proof.
  intros Hwf Hi HI. pose proof (found_skip v i acc HI) as Hskip.
  pose proof (found_take v i acc Hwf HI) as Htake. unfold next_irq_step.
  pose proof (prio_range v i Hwf Hi) as Hp. pose proof (eligible_alt v i Hwf Hi) as He.
  assert (Hsp : acc.2 <> -1 \/ acc.1 = first_in_service (HWPrioMask v)).
  { destruct acc as [sp nx], HI as [(-> & -> & _)|((? & _) & _)]; simpl; [by right|lia]. }
  destruct acc as [sp nx]. simpl in *. rewrite !truth_BITMSK by lia.
  assert (s32 (rd (VectPrio v) i) = rd (VectPrio v) i) as -> by (unfold s32; cases_Z; lia).
  rewrite truth_BITMSK by lia.
  destruct (Z.testbit (irq_status v) i), (Z.ltb_spec (rd (VectPrio v) i) sp),
    (Z.ltb_spec (rd (VectPrio v) i) 0), (Z.testbit (PrioMask v) (rd (VectPrio v) i)); try lia;
    (eexists; split; [reflexivity|]).
  1: apply Htake; [|lia]; apply He; split; [done|]; split; [|done];
    destruct HI as [(_ & -> & _)|(Hnx & _ & -> & _)]; [done|];
    destruct Hnx as (? & ? & ? & H3 & _); apply serving_above in H3; lia.
  all: apply Hskip; intros (? & ? & ?)%He; try done; lia.
Qed.

(** The search finds the winner. *)
Lemma search_spec v :
  vic_wf v -> exists sp nx,
    for_range_opt 0 32 (next_irq_step (irq_status v) (VectPrio v) (PrioMask v))
      (first_in_service (HWPrioMask v), -1) = Some (sp, nx) /\
    ((nx = -1 /\ forall n, ~ eligible v n) \/ (wins v nx /\ sp = rd (VectPrio v) nx)).
Proof.
  intros Hwf. destruct (for_range_opt_ind (found v) 0 32
    (next_irq_step (irq_status v) (VectPrio v) (PrioMask v)) (first_in_service (HWPrioMask v), -1))
    as ([sp nx] & -> & H); [lia| |intros; by apply next_irq_step_found|].
  - left. do 2 (split; [done|]). intros n Hn [? _]. lia.
  - exists sp, nx. split; [done|]. destruct H as [(-> & _ & H)|(Hnx & _ & Hsp & H)]; [left|right].
    + split; [done|]. intros n Hn. apply (H n); [destruct Hn; lia|done].
    + split; [|done]. split; [done|]. intros m Hm. apply H; [destruct Hm; lia|done].
Qed.

(** ** What [lpc2300_update_int] does *)

Lemma testbit_BITMSK n i : 0 <= n -> Z.testbit (BITMSK n) i = (n =? i).
Proof. intros. unfold BITMSK. rewrite Z.shiftl_1_l. by apply Z.pow2_bits_eqb. Qed.

Lemma word_BITMSK n : 0 <= n < 32 -> word (BITMSK n).
Proof.
  intros. unfold BITMSK. rewrite Z.shiftl_1_l. apply (word_pow2 _ (n + 1)); [lia|].
  pose proof (Z.pow_pos_nonneg 2 n). rewrite Z.pow_add_r by lia. lia.
Qed.

(** Entering a service above the ones in progress pushes it. *)
Lemma serving_push m nums p n :
  0 <= p < first_in_service m -> length nums = 16%nat ->
  omap (service_entry (m &&~ BITMSK p) (wr nums p n)) (seqZ 0 16) =
  (p, n) :: omap (service_entry m nums) (seqZ 0 16).
Proof.
  intros Hp Hl. pose proof (first_in_service_spec m) as (Hf & _ & Hs).
  rewrite (serving_top _ _ p), (serving_split m nums (p + 1)).
  - rewrite rd_wr_eq by lia. f_equal. replace (16 - (p + 1)) with (15 - p) by lia.
    apply omap_ext_in. intros x Hx%elem_of_seqZ. unfold service_entry.
    rewrite Z.ldiff_spec, testbit_BITMSK, rd_wr_ne by lia.
    destruct (Z.eqb_spec p x); [lia|]. by rewrite andb_true_r.
  - lia.
  - intros i Hi. apply Hs. lia.
  - lia.
  - intros i Hi. rewrite Z.ldiff_spec, testbit_BITMSK, Hs by lia.
    destruct (Z.eqb_spec p i); [lia|done].
  - rewrite Z.ldiff_spec, testbit_BITMSK, Z.eqb_refl by lia. apply andb_false_r.
Qed.

Ltac vic_words H :=
  let W := fresh in pose proof (vw_words _ H) as W;
  repeat (apply Forall_cons_1 in W; let a := fresh "Hw" in destruct W as [a W]); clear W.

(** [vic_wf] of an updated controller: the fields one by one. *)
Ltac vic_wf_step H :=
  vic_words H;
  constructor; upds;
  first [ apply (vw_VectAddr _ H) | apply (vw_VectPrio _ H) | apply (vw_IRQNumber _ H)
        | solve [repeat (apply Forall_cons_2; [auto 7 with words|]); apply Forall_nil_2]
        | rewrite length_wr; split; [apply H|apply Forall_wr; [apply H|auto with words]] ].

Lemma vic_ok_status strict v raw irqst fiqst :
  vic_ok strict v -> word raw -> word irqst -> word fiqst ->
  vic_ok strict (v <| RawIntr := raw |> <| IRQStatus := irqst |> <| FIQStatus := fiqst |>).
Proof. intros H ? ? ?. vic_wf_step H. Qed.

Lemma vic_ok_enter strict v p n :
  vic_ok strict v -> 0 <= n < 32 ->
  vic_ok strict (v <| HWPrioMask ::= fun m => m &&~ BITMSK p |> <| IRQNumber ::= fun l => wr l p n |>
            <| Vect_Addr := rd (VectAddr v) n |>).
Proof.
  intros H Hn. assert (word (rd (VectAddr v) n)).
  { destruct (vw_VectAddr _ H) as [Hl HF]. apply Forall_rd; [done|lia]. }
  vic_wf_step H.
Qed.

Lemma vic_update_cases v :
  vic_wf v -> exists v' fiq irq, vic_update v = Some (v', fiq, irq) /\ vic_wf v' /\
  IRQStatus v' = irq_status v /\
  FIQStatus v' = ((INTSOURCE v ||| SoftInt v) &&& IntEnable v) &&& IntSelect v /\
  fiq = (if truth (FIQStatus v') then LOW else HIGH) /\
  ((truth (FIQStatus v') = true /\ irq = HIGH /\ serving v' = serving v) \/
   (truth (FIQStatus v') = false /\ exists n, wins v n /\ irq = LOW /\
      Vect_Addr v' = rd (VectAddr v) n /\ serving v' = (rd (VectPrio v) n, n) :: serving v) \/
   (truth (FIQStatus v') = false /\ (forall n, ~ eligible v n) /\
      irq = (if truth (IRQStatus v') then LOW else HIGH) /\
      Vect_Addr v' = Vect_Addr v /\ serving v' = serving v)).
Proof.
  intros Hwf. destruct (search_spec v Hwf) as (sp & nx & Hs & Hc).
  unfold vic_update. fold (irq_status v). cbv zeta. upds. fold (PrioMask v). rewrite Hs. cbn [mbind option_bind].
  set (fiqst := _ &&& IntSelect v). set (raw := INTSOURCE v ||| SoftInt v).
  assert (Hw : word raw /\ word (irq_status v) /\ word fiqst).
  { subst raw fiqst. unfold irq_status. vic_words Hwf. auto 7 with words. }
  destruct Hw as (Hraw & Hirq & Hfiq).
  pose proof (vic_ok_status true v raw (irq_status v) fiqst Hwf Hraw Hirq Hfiq) as Hwf1.
  set (v1 := v <| RawIntr := raw |> <| IRQStatus := irq_status v |> <| FIQStatus := fiqst |>) in *.
  assert (Hv1 : IRQStatus v1 = irq_status v /\ FIQStatus v1 = fiqst /\ serving v1 = serving v /\
    Vect_Addr v1 = Vect_Addr v /\ VectAddr v1 = VectAddr v /\ HWPrioMask v1 = HWPrioMask v).
  { unfold v1, serving. upds. done. }
  destruct Hv1 as (Hi1 & Hf1 & Hs1 & Ha1 & Hva1 & Hm1). clearbody v1 fiqst raw.
  destruct (truth fiqst) eqn:Hf.
  { eexists v1, _, _. split; [reflexivity|]. rewrite Hf1, Hf, Hi1. repeat (split; [done|]). left. done. }
  destruct Hc as [(-> & Hno)|(Hwin & ->)].
  { eexists v1, _, _. split; [reflexivity|]. rewrite Hf1, Hf, Hi1. repeat (split; [done|]). right. right. done. }
  assert (Hn : 0 <= nx < 32) by apply Hwin. pose proof (prio_range v nx Hwf Hn) as Hp.
  assert (Hlt : rd (VectPrio v) nx < first_in_service (HWPrioMask v)).
  { by apply serving_above; [apply Hwin|apply Hwin]. }
  pose proof (first_in_service_spec (HWPrioMask v)) as (Hfr & _).
  destruct (Z.leb_spec 0 nx), (Z.ltb_spec (rd (VectPrio v) nx) 16); try lia.
  rewrite <- Hva1 in *. eexists _, _, _. split; [reflexivity|]. split; [by apply (vic_ok_enter true)|]. upds.
  rewrite Hf1, Hf, Hi1. repeat (split; [done|]). right. left. split; [done|]. exists nx.
  split; [done|]. split; [done|]. split; [done|].
  rewrite <- Hs1. unfold serving. upds. apply serving_push; [rewrite Hm1; lia|].
  apply (vw_IRQNumber _ Hwf1).
Qed.

(** What the update leaves alone. *)
Definition vic_config (v : lpc2300_vic_t) :=
  (INTSOURCE v, SoftInt v, IntSelect v, IntEnable v, IntEnClr v, SoftIntClear v, Protection v,
   SWPrioMask v, VectAddr v, VectPrio v).

Lemma vic_update_config v v' fiq irq :
  vic_update v = Some (v', fiq, irq) ->
  vic_config v' = vic_config v /\ RawIntr v' = INTSOURCE v ||| SoftInt v.
Proof.
  unfold vic_update. cbv zeta. destruct (for_range_opt _ _ _ _) as [[sp nx]|]; [|done].
  cbn [mbind option_bind]. destruct (truth _), ((0 <=? nx) && (sp <? 16)); intros [= <- <- <-];
    unfold vic_config; upds; done.
Qed.

(** Ending the service on top of the stack pops it. *)
Lemma serving_pop m nums :
  first_in_service m < 16 ->
  omap (service_entry m nums) (seqZ 0 16) =
  (first_in_service m, rd nums (first_in_service m)) ::
  omap (service_entry (m ||| BITMSK (first_in_service m)) nums) (seqZ 0 16).
Proof.
  pose proof (first_in_service_spec m) as (Hf & Hc & Hs). set (f := first_in_service m) in *. intros Hlt.
  rewrite (serving_top m nums f) by (done || lia || by apply Hc). f_equal.
  rewrite (serving_split (m ||| BITMSK f) nums (f + 1)); [|lia|].
  - replace (16 - (f + 1)) with (15 - f) by lia. apply omap_ext_in. intros x Hx%elem_of_seqZ.
    unfold service_entry. rewrite Z.lor_spec, testbit_BITMSK by lia.
    destruct (Z.eqb_spec f x); [lia|]. by rewrite orb_false_r.
  - intros i Hi. rewrite Z.lor_spec, testbit_BITMSK by lia.
    destruct (Z.eqb_spec f i); [apply orb_true_r|]. by rewrite Hs by lia.
Qed.

Lemma vic_ok_end strict v p n :
  vic_ok strict v -> 0 <= p < 16 ->
  vic_ok strict (v <| HWPrioMask ::= fun m => m ||| BITMSK p |> <| INTSOURCE ::= fun x => x &&~ BITMSK n |>).
Proof. intros H Hp. pose proof (word_BITMSK p). assert (word (BITMSK p)) by (apply H0; lia). vic_wf_step H. Qed.

Section Facts.
Context {host : Type}.
Implicit Type s : machine host.

(** [s'] differs from [s] only in the controller and the interrupt pins. *)
Definition vic_only s s' : Prop :=
  io s' = (io s) <| vic := vic (io s') |> /\ uartcnt s' = uartcnt s /\ dev s' = dev s /\
  core s' = (core s) <| NfiqSig := NfiqSig (core s') |> <| NirqSig := NirqSig (core s') |>.

Lemma update_int_inv s s' :
  lpc2300_update_int s = Some s' ->
  vic_update (vic (io s)) = Some (vic (io s'), NfiqSig (core s'), NirqSig (core s')) /\ vic_only s s'.
Proof.
  unfold lpc2300_update_int, vic_only. destruct (vic_update _) as [[[v f] i]|] eqn:E; [|done].
  cbn [mbind option_bind]. intros [= <-]. unfold upd_vic, upd_io. upds. done.
Qed.

Lemma update_int_total s : vic_wf (vic (io s)) ->
  exists s', lpc2300_update_int s = Some s' /\ vic_wf (vic (io s')).
Proof.
  intros H. destruct (vic_update_cases _ H) as (v' & f & i & E & Hv & _).
  unfold lpc2300_update_int. rewrite E. cbn [mbind option_bind]. eexists. split; [reflexivity|].
  unfold upd_vic, upd_io. by upds.
Qed.

(** With any priorities the update keeps the types, if it is defined. *)
Lemma vic_update_ok strict v : vic_ok strict v ->
  outcome false (fun r => vic_ok strict r.1.1) (vic_update v).
Proof.
  intros H. unfold vic_update. cbv zeta. upds.
  set (irqst := _ &&~ IntSelect v). set (fiqst := _ &&& IntSelect v). set (raw := INTSOURCE v ||| SoftInt v).
  assert (word raw /\ word irqst /\ word fiqst) as (Hr & Hi & Hf).
  { subst raw irqst fiqst. vic_words H. auto 7 with words. }
  pose proof (vic_ok_status strict v raw irqst fiqst H Hr Hi Hf) as H1.
  set (v1 := v <| RawIntr := raw |> <| IRQStatus := irqst |> <| FIQStatus := fiqst |>) in *.
  eapply (outcome_bind false (fun acc => -1 <= acc.2 < 32)).
  - apply outcome_loop; [done|]. intros i [sp nx] Hr' Hnx. unfold next_irq_step. cbn [snd] in *.
    repeat case_match; cbn [outcome snd]; lia || done.
  - intros [sp nx] Hnx. cbn [snd] in Hnx. destruct (truth fiqst); [exact H1|].
    destruct (Z.leb_spec 0 nx); cbn [andb]; [|exact H1]. destruct (sp <? 16); [|exact H1].
    replace (VectAddr v) with (VectAddr v1) by (unfold v1; by upds). apply (vic_ok_enter strict); [exact H1|lia].
Qed.

Lemma update_int_ok strict s : vic_ok strict (vic (io s)) ->
  outcome strict (fun s' => vic_ok strict (vic (io s'))) (lpc2300_update_int s).
Proof.
  intros H. pose proof (vic_update_ok strict _ H) as Ht. unfold lpc2300_update_int.
  destruct (vic_update (vic (io s))) as [[[v f] i]|] eqn:E; cbn [mbind option_bind outcome fst] in *.
  - unfold upd_vic, upd_io. by upds.
  - destruct strict; [|done]. destruct (vic_update_cases _ H) as (? & ? & ? & E' & _). by rewrite E in E'.
Qed.

(** C19: [lpc2300_update_int] arbitrates: it never meets undefined behaviour in
    a well-formed controller; a pending FIQ drives the FIQ pin alone; else
    the request of highest priority that is active, unmasked and above the
    ones in service (the lowest line among equals) enters service, which
    pushes it on the stack, sets the vector address and drives the IRQ pin;
    with no such request the stack stays and the IRQ pin follows the status.
    Nothing but the controller and the two pins changes. *)
Theorem update_int_arbitrates s :
  vic_wf (vic (io s)) ->
  exists s', lpc2300_update_int s = Some s' /\ vic_only s s' /\
  let v := vic (io s) in let v' := vic (io s') in
  vic_wf v' /\ vic_config v' = vic_config v /\
  RawIntr v' = INTSOURCE v ||| SoftInt v /\
  IRQStatus v' = (RawIntr v' &&& IntEnable v) &&~ IntSelect v /\
  FIQStatus v' = (RawIntr v' &&& IntEnable v) &&& IntSelect v /\
  NfiqSig (core s') = (if truth (FIQStatus v') then LOW else HIGH) /\
  ((truth (FIQStatus v') = true /\ NirqSig (core s') = HIGH /\ serving v' = serving v) \/
   (truth (FIQStatus v') = false /\ exists n, wins v n /\ NirqSig (core s') = LOW /\
      Vect_Addr v' = rd (VectAddr v) n /\ serving v' = (rd (VectPrio v) n, n) :: serving v) \/
   (truth (FIQStatus v') = false /\ (forall n, ~ eligible v n) /\
      NirqSig (core s') = (if truth (IRQStatus v') then LOW else HIGH) /\
      Vect_Addr v' = Vect_Addr v /\ serving v' = serving v)).
Proof.
  intros Hwf. destruct (update_int_total s Hwf) as (s' & E & Hwf').
  exists s'. destruct (update_int_inv s s' E) as [E' Honly]. do 2 (split; [done|]). cbv zeta.
  destruct (vic_update_config _ _ _ _ E') as [Hc Hr].
  destruct (vic_update_cases _ Hwf) as (v2 & f & i & E2 & Hc2). rewrite E' in E2. injection E2 as <- <- <-.
  destruct Hc2 as (_ & Hi & Hf & Hfiq & Hcase).
  do 3 (split; [done|]). rewrite Hr. do 3 (split; [done|]). exact Hcase.
Qed.

Lemma serving_nil v : first_in_service (HWPrioMask v) = 16 -> serving v = [].
Proof.
  intros E. pose proof (first_in_service_spec (HWPrioMask v)) as (_ & _ & Hs). rewrite E in Hs.
  unfold serving. by rewrite (serving_split _ _ 16) by (lia || done).
Qed.

Lemma entry_inj (p n p' n' : Z) l l' :
  (p, n) :: l = (p', n') :: l' -> p = p' /\ n = n' /\ l = l'.
Proof. by intros [= -> -> ->]. Qed.

Lemma serving_end v p n rest :
  serving v = (p, n) :: rest ->
  first_in_service (HWPrioMask v) = p /\ 0 <= p < 16 /\ rd (IRQNumber v) p = n /\
  serving (v <| HWPrioMask ::= fun m => m ||| BITMSK p |>
             <| INTSOURCE ::= fun x => x &&~ BITMSK n |>) = rest.
Proof.
  intros E. pose proof (first_in_service_spec (HWPrioMask v)) as (Hf & _).
  destruct (Z.lt_ge_cases (first_in_service (HWPrioMask v)) 16) as [Hlt|Hge].
  - unfold serving in E. rewrite serving_pop in E by done. revert E Hf Hlt.
    generalize (first_in_service (HWPrioMask v)) as f. intros f E Hf Hlt.
    apply entry_inj in E as (-> & <- & <-). split; [done|]. split; [lia|]. split; [done|].
    unfold serving. by upds.
  - rewrite serving_nil in E by lia. done.
Qed.

(** The write of the vector address register, with a service in progress. *)
Lemma write_VAR_eq s p n rest :
  vic_wf (vic (io s)) -> truth (FIQStatus (vic (io s))) = false ->
  serving (vic (io s)) = (p, n) :: rest ->
  let v1 := (vic (io s)) <| HWPrioMask ::= fun m => m ||| BITMSK p |>
                         <| INTSOURCE ::= fun x => x &&~ BITMSK n |> in
  let ack u := u <| iir ::= fun x => x &&~ 0xf ||| 1 |> in
  let s1 := upd_vic (fun _ => v1) s in
  serving v1 = rest /\ vic_wf v1 /\
  vic_write_VAR s = lpc2300_update_int
    (if n =? 6 then upd_uart 0 ack s1 else if n =? 7 then upd_uart 1 ack s1 else s1).
Proof.
  intros Hwf Hfiq Hserv. destruct (serving_end _ _ _ _ Hserv) as (Hf & Hp & Hn & Hrest).
  split; [done|]. split; [by apply vic_ok_end|]. clear Hrest Hserv.
  unfold vic_write_VAR. rewrite Hfiq, Hf, Hn, upd_vic_const. cbv zeta.
  destruct (Z.ltb_spec p 16); [done|lia].
Qed.

(** C20: A write to the vector address register ends exactly one service: with
    no FIQ pending it pops the top of the service stack, clears the request
    line of that interrupt (and the interrupt identification of UART 0 or 1),
    and arbitrates again, so that the stack is what it was below the popped
    entry, or that with one new request on top that wins against it. *)
Theorem write_VAR_pops s p n rest :
  vic_wf (vic (io s)) -> truth (FIQStatus (vic (io s))) = false ->
  serving (vic (io s)) = (p, n) :: rest ->
  let v1 := (vic (io s)) <| HWPrioMask ::= fun m => m ||| BITMSK p |>
                         <| INTSOURCE ::= fun x => x &&~ BITMSK n |> in
  exists s', vic_write_VAR s = Some s' /\ vic_wf (vic (io s')) /\
  serving v1 = rest /\ vic_config (vic (io s')) = vic_config v1 /\
  (serving (vic (io s')) = rest \/
   exists m, wins v1 m /\ serving (vic (io s')) = (rd (VectPrio v1) m, m) :: rest /\
     Vect_Addr (vic (io s')) = rd (VectAddr v1) m /\ NirqSig (core s') = LOW) /\
  ((forall m, ~ eligible v1 m) -> serving (vic (io s')) = rest) /\
  (forall i, 0 <= i < 2 -> length (uart (io s)) = 4%nat ->
     iir (uar s' i) = if n =? i + 6 then iir (uar s i) &&~ 0xf ||| 1 else iir (uar s i)).
Proof.
  intros Hwf Hfiq Hserv. destruct (write_VAR_eq s p n rest Hwf Hfiq Hserv) as (Hs1 & Hwf1 & ->).
  cbv zeta. set (v1 := (vic (io s)) <| HWPrioMask ::= _ |> <| INTSOURCE ::= _ |>) in *.
  set (s1 := if n =? 6 then _ else _).
  assert (Hv1 : vic (io s1) = v1).
  { unfold s1. destruct (n =? 6), (n =? 7); by autorewrite with lpc. }
  assert (Hu : forall i, 0 <= i < 2 -> length (uart (io s)) = 4%nat ->
     iir (uar s1 i) = if n =? i + 6 then iir (uar s i) &&~ 0xf ||| 1 else iir (uar s i)).
  { intros i Hi Hl. assert (i = 0 \/ i = 1) as [-> | ->] by lia; [change (0 + 6) with 6|change (1 + 6) with 7]; unfold s1;
      destruct (Z.eqb_spec n 6) as [->|]; try destruct (Z.eqb_spec n 7) as [->|]; try done;
      rewrite ?uar_upd_uart_eq by (autorewrite with lpc; done || lia);
      rewrite ?uar_upd_uart_ne by lia; autorewrite with lpc; upds; done. }
  clearbody s1. rewrite <- Hv1 in Hwf1. destruct (update_int_total s1 Hwf1) as (s' & E & Hwf').
  exists s'. destruct (update_int_inv s1 s' E) as [E' (Hio & _)]. rewrite Hv1 in E'.
  destruct (vic_update_config _ _ _ _ E') as [Hc _]. do 4 (split; [done|]).
  rewrite Hv1 in Hwf1. destruct (vic_update_cases _ Hwf1) as (v2 & f & i & E2 & _ & _ & _ & _ & Hcase).
  rewrite E' in E2. injection E2 as <- <- <-. rewrite Hs1 in Hcase. split; [|split].
  - destruct Hcase as [(_ & _ & ?)|[(_ & m & ? & ? & ? & ?)|(_ & _ & _ & _ & ?)]]; eauto 8.
  - intros Hno. destruct Hcase as [(_ & _ & ?)|[(_ & m & [? _] & _)|(_ & _ & _ & _ & ?)]]; try done.
    by destruct (Hno m).
  - intros j Hj Hl. rewrite <- Hu by done. unfold uar. rewrite Hio. by upds.
Qed.
End Facts.
