(* ===== verification/LpcUart.v ===== *)
(** * The UARTs of the LPC2300

    The transmit queue, the transmission of one byte, and the registers.  The
    queue is a ring of 16 bytes; the theorems show that it is a bounded
    first-in first-out queue, and when bytes leave in the order of their
    writes. *)

From S2P Require Import Prelude Words Bits ArmState UartDev LpcState LpcVic.

(** ** The transmit queue

    Both functions work on [io.uart[i]], here their argument [u]. *)

Definition TxFIFO_enq (u : lpc2300_uart_t) (c : Z) : Z * lpc2300_uart_t :=
  if 16 <=? t_fifolen u then (0, u)
  else (-1, u <| t_fifo ::= fun f => wr f ((t_fifotop u + t_fifolen u) &&& 0xf) c |>
              <| t_fifolen ::= fun n => n + 1 |>).

Definition TxFIFO_deq (u : lpc2300_uart_t) : Z * lpc2300_uart_t :=
  let c := rd (t_fifo u) (t_fifotop u) in
  if 0 <? t_fifolen u then
    (c, u <| t_fifolen ::= fun n => n - 1 |> <| t_fifotop ::= fun t => (t + 1) &&& 0xf |>)
  else (c, u).

(** The first half of [lpc2300_uart_transmit]: THR moves to the queue when
    it holds a byte and there is room. *)
Definition transmit_load (u : lpc2300_uart_t) : lpc2300_uart_t :=
  if (t_fifolen u <? 16) && negb (truth (lsr u &&& 0x20)) then
    let '(r, u) := TxFIFO_enq u (thr u &&& 0xff) in
    if truth r then u <| lsr ::= fun x => x ||| 0x20 |> else u
  else u.

Section Uart.
Context {host : Type} `{!UartDriver host}.
Implicit Type s : machine host.

(** Returns whether the queue and THR became empty. *)
Definition lpc2300_uart_transmit (i : Z) s : bool * machine host :=
  let s := upd_uart i transmit_load s in
  let u := uar s i in
  if 0 <? t_fifolen u then
    let '(n, h) := skyeye_uart_write i (rd (t_fifo u) (t_fifotop u)) (dev s) in
    let s := s <| dev := h |> in
    if 0 <? n then
      let u := (TxFIFO_deq u).2 in
      if (t_fifolen u =? 0) && truth (lsr u &&& 0x20) then
        (true, upd_uart i (fun _ => u <| lsr ::= fun x => x ||| 0x40 |>) s)
      else (false, upd_uart i (fun _ => u) s)
    else (false, s)
  else (false, s).

(** ** Registers *)

(** The end of an interrupt in the identification register, with the
    update of the interrupts: [if ((io.vic.IntEnable & IRQUART(i)) && c) ...]. *)
Definition uart_end_int (i : Z) (c : bool) s : option (machine host) :=
  if truth (IntEnable (vic (io s)) &&& IRQUART i) && c then
    lpc2300_update_int (upd_uart i (fun u => u <| iir ::= fun x => x &&~ 0xe ||| 1 |>) s)
  else Some s.

(** [io.vic.INTSOURCE &= ~mask]. *)
Definition clear_source (mask : Z) s : machine host :=
  upd_vic (fun v => v <| INTSOURCE ::= fun x => x &&~ mask |>) s.

(** A received byte in the receive buffer. *)
Definition uart_receive (i c : Z) s : machine host :=
  upd_uart i (fun u => u <| rbr := c |> <| lsr ::= fun x => x ||| 1 |>) s.

Definition lpc2300_uart_read (addr i : Z) s : option (Z * machine host) :=
  let r := (addr &&& 0xfff) >>> 2 in
  if r =? 0 then
    if truth (lcr (uar s i) &&& 0x80) then Some (dll (uar s i), s)
    else
      let s := upd_uart i (fun u => u <| lsr ::= fun x => x &&~ 1 |>) s in
      let s := clear_source (IRQUART i) s in
      s ← uart_end_int i (iir (uar s i) &&& 0x6 =? 0x4) s;
      Some (rbr (uar s i), s)
  else if r =? 1 then
    Some (if truth (lcr (uar s i) &&& 0x80) then dlm (uar s i) else ier (uar s i), s)
  else if r =? 2 then
    let data := iir (uar s i) in
    let s := clear_source (IRQUART i) s in
    s ← uart_end_int i (data &&& 0xf =? 0x2) s;
    Some (data, s)
  else if r =? 3 then Some (lcr (uar s i), s)
  else if r =? 5 then
    let s := if negb (truth (ier (uar s i) &&& 1)) && negb (truth (lsr (uar s i) &&& 1)) then
               let '(n, buf, h) := skyeye_uart_read i (dev s) in
               let s := s <| dev := h |> in
               if 0 <? n then uart_receive i buf s else s
             else s in
    let s := clear_source (IRQUART i) s in
    s ← uart_end_int i (iir (uar s i) &&& 0xf =? 0x6) s;
    Some (lsr (uar s i), s)
  else if r =? 6 then
    let data := msr (uar s i) in
    let s := clear_source (IRQUART i) s in
    s ← uart_end_int i (iir (uar s i) &&& 0xf =? 0) s;
    Some (data, s)
  else if r =? 7 then Some (scr (uar s i), s)
  else Some (0, s).

Definition lpc2300_uart_write (addr data i : Z) s : option (machine host) :=
  let r := (addr &&& 0xfff) >>> 2 in
  if r =? 0 then
    if truth (lcr (uar s i) &&& 0x80) then Some (upd_uart i (fun u => u <| dll := data |>) s)
    else
      let c := data &&& 0xff in
      let s := upd_uart i (fun u => u <| thr := c |>) s in
      if negb (truth (ier (uar s i) &&& 2)) then
        let '(_, h) := skyeye_uart_write i c (dev s) in
        Some (upd_uart i (fun u => u <| lsr ::= fun x => x ||| 0x20 |>) (s <| dev := h |>))
      else
        let s := clear_source (IRQUART i) s in
        let s := upd_uart i (fun u => u <| lsr ::= fun x => x &&~ 0x20 |>) s in
        uart_end_int i (iir (uar s i) &&& 0xf =? 0x2) s
  else if r =? 1 then
    if truth (lcr (uar s i) &&& 0x80) then Some (upd_uart i (fun u => u <| dlm := data |>) s)
    else Some (upd_uart i (fun u => u <| ier := data |>) s)
  else if r =? 2 then Some (upd_uart i (fun u => u <| fcr := data |>) s)
  else if r =? 3 then Some (upd_uart i (fun u => u <| lcr := data |>) s)
  else if r =? 7 then Some (upd_uart i (fun u => u <| scr := data |>) s)
  else Some s.

(** ** One cycle of a UART *)

Definition uart_powered (i pconp : Z) : bool :=
  negb (((i =? 0) && negb (truth (pconp &&& BITMSK 3))) ||
        ((i =? 1) && negb (truth (pconp &&& BITMSK 4))) ||
        ((i =? 2) && negb (truth (pconp &&& BITMSK 24))) ||
        ((i =? 3) && negb (truth (pconp &&& BITMSK 25)))).

(** The assignment of an interrupt identification and of the request line. *)
Definition uart_raise (i id : Z) s : machine host :=
  upd_vic (fun v => v <| INTSOURCE ::= fun x => x ||| IRQUART i |>)
    (upd_uart i (fun u => u <| iir ::= fun x => x &&~ 0xf ||| id |>) s).

(** The body of the UART loop of [lpc2300_io_do_cycle]. *)
Definition uart_cycle (i : Z) s : option (machine host) :=
  if negb (uart_powered i (pconp (io s))) then Some s
  else if truth (IntEnable (vic (io s)) &&& IRQUART i) &&
          negb (truth (RawIntr (vic (io s)) &&& IRQUART i)) && truth (iir (uar s i) &&& 1) then
    if (uartcnt s =? i) && truth (ier (uar s i) &&& 1) then
      let '(n, buf, h) := skyeye_uart_read i (dev s) in
      let s := s <| dev := h |> in
      let s := if 0 <? n then uart_raise i 0x4 (uart_receive i buf s) else s in
      lpc2300_update_int s
    else if uartcnt s =? i + UART_INT_CYCLE / 2 then
      let '(res, s) := lpc2300_uart_transmit i s in
      if res && truth (ier (uar s i) &&& 2) then lpc2300_update_int (uart_raise i 0x2 s)
      else Some s
    else Some s
  else Some s.
End Uart.

(** ** The queue *)

Definition byte (x : Z) : Prop := 0 <= x < 256.
#[export] Instance byte_dec x : Decision (byte x).
Proof. unfold byte. apply _. Defined.

Record uart_wf (u : lpc2300_uart_t) : Prop := {
  uw_fifo : length (t_fifo u) = 16%nat /\ Forall byte (t_fifo u);
  uw_len : 0 <= t_fifolen u <= 16;
  uw_top : 0 <= t_fifotop u < 16;
  uw_words : Forall word [rbr u; thr u; ier u; iir u; fcr u; lcr u; lsr u; msr u; scr u; dll u; dlm u]
}.

(** The bytes of the ring, oldest first. *)
Definition queue (u : lpc2300_uart_t) : list Z :=
  map (fun k => rd (t_fifo u) ((t_fifotop u + k) mod 16)) (seqZ 0 (t_fifolen u)).

(** The bytes not yet sent: the queue, then THR when it is not empty. *)
Definition unsent (u : lpc2300_uart_t) : list Z :=
  queue u ++ if Z.testbit (lsr u) 5 then [] else [thr u &&& 0xff].

Lemma land_15 x : x &&& 0xf = x mod 16.
Proof. change 0xf with (Z.ones 4). by rewrite Z.land_ones by lia. Qed.

Lemma length_queue u : 0 <= t_fifolen u -> Z.of_nat (length (queue u)) = t_fifolen u.
Proof. intros. unfold queue. rewrite length_map, length_seqZ. lia. Qed.

Lemma map_seqZ_ext {A} (f g : Z -> A) m n m' :
  (forall k, 0 <= k < n -> f (m + k) = g (m' + k)) -> map f (seqZ m n) = map g (seqZ m' n).
Proof.
  intros H. apply list_eq. intros k. rewrite !list_lookup_fmap.
  destruct (decide (Z.of_nat k < n)).
  - rewrite !lookup_seqZ_lt by done. simpl. by rewrite H by lia.
  - by rewrite !lookup_seqZ_ge by lia.
Qed.

Lemma mod16_inj a b t : 0 <= a < 16 -> 0 <= b < 16 -> (t + a) mod 16 = (t + b) mod 16 -> a = b.
Proof. intros. Z.div_mod_to_equations. lia. Qed.

Lemma queue_enq u c :
  uart_wf u -> t_fifolen u < 16 -> queue (TxFIFO_enq u c).2 = queue u ++ [c].
Proof.
  intros [[Hl _] Hn Ht _] Hlt. unfold TxFIFO_enq.
  destruct (Z.leb_spec 16 (t_fifolen u)); [lia|]. unfold queue. cbn [snd]. upds.
  rewrite land_15, seqZ_app, map_app by lia. f_equal.
  - apply map_seqZ_ext. intros k Hk. apply rd_wr_ne; [by apply Z.mod_pos_bound..|].
    intros E%mod16_inj; lia.
  - rewrite seqZ_cons, seqZ_nil by lia. cbn [map]. rewrite Z.add_0_l, rd_wr_eq; [done|].
    rewrite Hl. by apply Z.mod_pos_bound.
Qed.

Lemma queue_cons u :
  uart_wf u -> 0 < t_fifolen u -> queue u = (TxFIFO_deq u).1 :: queue (TxFIFO_deq u).2.
Proof.
  intros [[Hl _] Hn Ht _] Hlt. unfold TxFIFO_deq.
  destruct (Z.ltb_spec 0 (t_fifolen u)); [|lia]. cbn [fst snd]. unfold queue. upds.
  rewrite seqZ_cons by lia. cbn [map]. f_equal.
  - f_equal. rewrite Z.add_0_r. apply Z.mod_small. lia.
  - replace (Z.pred (t_fifolen u)) with (t_fifolen u - 1) by lia. apply map_seqZ_ext. intros k Hk.
    f_equal. rewrite land_15, Zplus_mod_idemp_l. f_equal. lia.
Qed.

Ltac uart_words H :=
  let W := fresh in pose proof (uw_words _ H) as W;
  repeat (apply Forall_cons_1 in W; let a := fresh "Hw" in destruct W as [a W]); clear W.
Ltac uart_wf_step H :=
  uart_words H; constructor; upds;
  try solve [ apply (uw_fifo _ H) | apply (uw_len _ H) | apply (uw_top _ H)
        | repeat (apply Forall_cons_2; [auto 7 with words|]); apply Forall_nil_2 ].

Lemma uart_wf_enq u c : uart_wf u -> byte c -> uart_wf (TxFIFO_enq u c).2.
Proof.
  intros H Hc. unfold TxFIFO_enq. destruct (Z.leb_spec 16 (t_fifolen u)); [done|]. cbn [snd].
  uart_wf_step H.
  - rewrite length_wr. split; [apply H|]. apply Forall_wr; [apply H|done].
  - pose proof (uw_len _ H). lia.
Qed.

Lemma uart_wf_deq u : uart_wf u -> uart_wf (TxFIFO_deq u).2.
Proof.
  intros H. unfold TxFIFO_deq. destruct (Z.ltb_spec 0 (t_fifolen u)); [|done]. cbn [snd].
  uart_wf_step H.
  - pose proof (uw_len _ H). lia.
  - rewrite land_15. apply Z.mod_pos_bound. lia.
Qed.

(** The ring is a first-in first-out queue of at most 16 bytes: enqueueing
    appends the byte and returns -1, or with 16 bytes returns 0 and changes
    nothing; dequeueing returns and removes the oldest byte, or changes
    nothing when there is none. *)
Theorem TxFIFO_is_bounded_queue u c :
  uart_wf u -> byte c ->
  (let '(r, u') := TxFIFO_enq u c in
   uart_wf u' /\
   if Z.of_nat (length (queue u)) <? 16 then r = -1 /\ queue u' = queue u ++ [c] else r = 0 /\ u' = u) /\
  (let '(r, u') := TxFIFO_deq u in
   uart_wf u' /\ match queue u with x :: q => r = x /\ queue u' = q | [] => u' = u end).
Proof.
  intros H Hc. pose proof (uw_len _ H). split.
  - pose proof (queue_enq u c H). pose proof (uart_wf_enq u c H Hc). rewrite length_queue by lia.
    unfold TxFIFO_enq in *.
    destruct (Z.leb_spec 16 (t_fifolen u)), (Z.ltb_spec (t_fifolen u) 16); try lia; auto.
  - pose proof (queue_cons u H). pose proof (uart_wf_deq u H). pose proof (length_queue u).
    destruct (Z.ltb_spec 0 (t_fifolen u)).
    + rewrite H1 by done. by destruct (TxFIFO_deq u).
    + assert (queue u = []) as -> by (unfold queue; by rewrite seqZ_nil by lia).
      unfold TxFIFO_deq in *. by destruct (Z.ltb_spec 0 (t_fifolen u)); [lia|].
Qed.

(** ** Transmission *)

Lemma truth_bit5 x : truth (x &&& 0x20) = Z.testbit x 5.
Proof. change 0x20 with (2 ^ 5). by apply truth_land_pow2. Qed.

Lemma byte_land_ff x : byte (x &&& 0xff).
Proof.
  change 0xff with (Z.ones 8). rewrite Z.land_ones by lia. apply Z.mod_pos_bound. lia.
Qed.

(** Loading the queue from THR keeps the bytes to send, and leaves THR empty
    unless the queue is full. *)
Lemma transmit_load_facts u :
  uart_wf u -> uart_wf (transmit_load u) /\ unsent (transmit_load u) = unsent u /\
  (t_fifolen (transmit_load u) < 16 -> Z.testbit (lsr (transmit_load u)) 5 = true).
Proof.
  intros H. unfold transmit_load. rewrite truth_bit5.
  destruct (Z.ltb_spec (t_fifolen u) 16) as [Hlt|Hge]; cbn [andb]; [|split; [done|split; [done|lia]]].
  destruct (Z.testbit (lsr u) 5) eqn:E5; cbn [negb andb]; [by split; [|split]|].
  pose proof (queue_enq u (thr u &&& 0xff) H Hlt) as Hq.
  pose proof (uart_wf_enq u (thr u &&& 0xff) H (byte_land_ff _)) as Hwf.
  assert (Hlsr : lsr (TxFIFO_enq u (thr u &&& 0xff)).2 = lsr u).
  { unfold TxFIFO_enq. destruct (_ <=? _); simpl; by upds. }
  assert (Hr : (TxFIFO_enq u (thr u &&& 0xff)).1 = -1).
  { unfold TxFIFO_enq. destruct (Z.leb_spec 16 (t_fifolen u)); [lia|done]. }
  destruct (TxFIFO_enq u (thr u &&& 0xff)) as [r u']. cbn [fst snd] in *. subst r. simpl.
  assert (H5 : Z.testbit (lsr u' ||| 0x20) 5 = true) by (rewrite Z.lor_spec; apply orb_true_r).
  split; [|split].
  - uart_wf_step Hwf.
  - unfold unsent, queue. upds. fold (queue u') (queue u). by rewrite H5, E5, Hq, app_nil_r.
  - by upds.
Qed.

Lemma unsent_cons u :
  uart_wf u -> 0 < t_fifolen u ->
  unsent u = rd (t_fifo u) (t_fifotop u) :: unsent (TxFIFO_deq u).2.
Proof.
  intros H Hlt. unfold unsent. rewrite (queue_cons u H Hlt). unfold TxFIFO_deq.
  destruct (Z.ltb_spec 0 (t_fifolen u)); [|lia]. cbn [fst snd]. by upds.
Qed.

Lemma unsent_nil u :
  uart_wf u -> (t_fifolen u =? 0) && truth (lsr u &&& 0x20) = bool_decide (unsent u = []).
Proof.
  intros H. rewrite truth_bit5. unfold unsent. pose proof (length_queue u (proj1 (uw_len _ H))) as Hl.
  destruct (Z.eqb_spec (t_fifolen u) 0) as [E|E].
  - assert (queue u = []) as -> by (unfold queue; rewrite E; reflexivity).
    destruct (Z.testbit (lsr u) 5); [by rewrite bool_decide_eq_true_2|by rewrite bool_decide_eq_false_2].
  - destruct (queue u); [simpl in Hl; lia|]. by rewrite bool_decide_eq_false_2.
Qed.

Section Transmit.
Context {host : Type} `{!UartDriver host}.
Implicit Type s : machine host.

Lemma dev_upd_uart i f s : dev (upd_uart i f s) = dev s.
Proof. unfold upd_uart, upd_io. cbv zeta. by upds. Qed.
Lemma uar_upd_dev s h i : uar (s <| dev := h |>) i = uar s i.
Proof. unfold uar. by upds. Qed.
Lemma uart_len_upd_uart i f s : length (uart (io (upd_uart i f s))) = length (uart (io s)).
Proof. unfold upd_uart, upd_io. cbv zeta. upds. apply length_wr. Qed.
Lemma uart_len_upd_dev s h : length (uart (io (s <| dev := h |>))) = length (uart (io s)).
Proof. by upds. Qed.

Lemma uart_len_transmit i s :
  length (uart (io (lpc2300_uart_transmit i s).2)) = length (uart (io s)).
Proof.
  unfold lpc2300_uart_transmit. cbv zeta. destruct (0 <? _); [|apply uart_len_upd_uart].
  destruct (skyeye_uart_write _ _ _) as [n h]. destruct (0 <? n).
  - destruct (_ && _); cbn [snd]; by rewrite uart_len_upd_uart, uart_len_upd_dev, uart_len_upd_uart.
  - cbn [snd]. by rewrite uart_len_upd_dev, uart_len_upd_uart.
Qed.

Lemma uart_transmit_facts i s :
  0 <= i < 4 -> length (uart (io s)) = 4%nat -> uart_wf (uar s i) ->
  let '(res, s') := lpc2300_uart_transmit i s in
  uart_wf (uar s' i) /\
  match unsent (uar s i) with
  | [] => unsent (uar s' i) = [] /\ dev s' = dev s /\ res = false
  | c :: rest =>
      let '(n, h) := skyeye_uart_write i c (dev s) in
      dev s' = h /\
      if 0 <? n then unsent (uar s' i) = rest /\ res = bool_decide (rest = []) /\
                     (res = true -> Z.testbit (lsr (uar s' i)) 6 = true)
      else unsent (uar s' i) = c :: rest /\ res = false
  end.
Proof.
  intros Hi Hl H. destruct (transmit_load_facts _ H) as (Hwf & Hu & H5). rewrite <- Hu.
  unfold lpc2300_uart_transmit. rewrite uar_upd_uart_eq by done. cbv zeta.
  set (u := transmit_load (uar s i)) in *. rewrite dev_upd_uart.
  assert (Huar : forall f h, uar (upd_uart i f ((upd_uart i transmit_load s) <| dev := h |>)) i = f u).
  { intros f h. rewrite uar_upd_uart_eq by (done || by rewrite uart_len_upd_dev, uart_len_upd_uart).
    rewrite uar_upd_dev. by rewrite uar_upd_uart_eq. }
  assert (Huar0 : forall h, uar ((upd_uart i transmit_load s) <| dev := h |>) i = u).
  { intros h. rewrite uar_upd_dev. by rewrite uar_upd_uart_eq. }
  pose proof (uw_len _ Hwf). destruct (Z.ltb_spec 0 (t_fifolen u)) as [Hlt|Hge].
  - rewrite (unsent_cons u Hwf Hlt). destruct (skyeye_uart_write _ _ _) as [n h].
    pose proof (uart_wf_deq u Hwf) as Hwf'. destruct (Z.ltb_spec 0 n).
    + rewrite (unsent_nil _ Hwf'). set (u' := (TxFIFO_deq u).2) in *. clearbody u'.
      destruct (bool_decide_reflect (unsent u' = [])) as [E|E]; rewrite Huar, dev_upd_uart; upds.
      * split; [uart_wf_step Hwf'|]. split; [done|]. split; [|split].
        -- unfold unsent, queue. upds. fold (queue u'). unfold unsent in E.
           rewrite Z.lor_spec. by rewrite (orb_false_r (Z.testbit _ _)).
        -- done.
        -- intros _. rewrite Z.lor_spec. apply orb_true_r.
      * by do 3 (split; [done|]).
    + rewrite Huar0. upds. repeat (split; [done|]). split; [|done]. by rewrite (unsent_cons u Hwf Hlt).
  - rewrite uar_upd_uart_eq by done. fold u. split; [done|].
    assert (unsent u = []) as ->; [|by rewrite dev_upd_uart].
    unfold unsent, queue. rewrite H5, seqZ_nil by lia. done.
Qed.
End Transmit.

(** ** The order of the bytes *)

Section Order.
Context {host : Type} `{HL : UartLog host}.
Implicit Type s : machine host.

(** A write to THR of UART [i], with the transmit interrupt on or off. *)
Definition writes_THR (i addr : Z) (interrupts : bool) s : Prop :=
  (addr &&& 0xfff) >>> 2 = 0 /\ truth (lcr (uar s i) &&& 0x80) = false /\ truth (ier (uar s i) &&& 2) = interrupts.
(** Whether the line takes a byte. *)
Definition accepts (i c : Z) s : bool := 0 <? (skyeye_uart_write i c (dev s)).1.

(** What the transmitter of UART [i] does: the machine transmits; the guest
    writes THR while it is empty, with the transmit interrupt on; or the guest
    polls, with the interrupt off: it writes a byte that the line takes while
    no byte waits.  The list is the bytes written. *)
Inductive tx_step (i : Z) : machine host -> list Z -> machine host -> Prop :=
  | tx_transmit s : tx_step i s [] (lpc2300_uart_transmit i s).2
  | tx_write s addr d s' :
      writes_THR i addr true s -> Z.testbit (lsr (uar s i)) 5 = true ->
      lpc2300_uart_write addr d i s = Some s' -> tx_step i s [d &&& 0xff] s'
  | tx_poll s addr d s' :
      writes_THR i addr false s -> unsent (uar s i) = [] -> accepts i (d &&& 0xff) s = true ->
      lpc2300_uart_write addr d i s = Some s' -> tx_step i s [d &&& 0xff] s'.

Inductive tx_steps (i : Z) : machine host -> list Z -> machine host -> Prop :=
  | tx_refl s : tx_steps i s [] s
  | tx_trans s1 ws1 s2 ws2 s3 :
      tx_step i s1 ws1 s2 -> tx_steps i s2 ws2 s3 -> tx_steps i s1 (ws1 ++ ws2) s3.

Definition uart_ok (i : Z) s : Prop := length (uart (io s)) = 4%nat /\ uart_wf (uar s i).

Lemma update_int_uart s s' :
  lpc2300_update_int s = Some s' ->
  uart (io s') = uart (io s) /\ timer (io s') = timer (io s) /\ dev s' = dev s.
Proof.
  intros E. destruct (update_int_inv s s' E) as [_ (Hio & _ & Hd & _)]. rewrite Hio. by upds.
Qed.

Lemma uart_end_int_facts i c s s' :
  0 <= i < 4 -> uart_ok i s -> uart_end_int i c s = Some s' ->
  uart_ok i s' /\ dev s' = dev s /\ lsr (uar s' i) = lsr (uar s i) /\ thr (uar s' i) = thr (uar s i) /\
  queue (uar s' i) = queue (uar s i).
Proof.
  intros Hi [Hl Hwf]. unfold uart_end_int. destruct (_ && c); [|by intros [= <-]].
  intros E. destruct (update_int_uart _ _ E) as (Hu & _ & Hd).
  assert (Eu : uar s' i = (uar s i) <| iir ::= fun x => x &&~ 0xe ||| 1 |>).
  { unfold uar at 1. rewrite Hu. by apply uar_upd_uart_eq. }
  unfold uart_ok. rewrite Hu, Eu, uart_len_upd_uart, Hd, dev_upd_uart.
  unfold queue. upds. split; [|done]. split; [done|]. uart_wf_step Hwf.
Qed.

Lemma write_THR_facts i addr d s s' :
  0 <= i < 4 -> uart_ok i s -> writes_THR i addr true s ->
  lpc2300_uart_write addr d i s = Some s' ->
  uart_ok i s' /\ dev s' = dev s /\ queue (uar s' i) = queue (uar s i) /\
  thr (uar s' i) = d &&& 0xff /\ Z.testbit (lsr (uar s' i)) 5 = false.
Proof.
  intros Hi Hok (Ha & Hl & He). unfold lpc2300_uart_write. rewrite Ha, Hl. cbv zeta. rewrite Z.eqb_refl.
  set (s1 := upd_uart i (fun u => u <| thr := d &&& 0xff |>) s).
  assert (H1 : uar s1 i = (uar s i) <| thr := d &&& 0xff |>) by (apply uar_upd_uart_eq; [done|apply Hok]).
  assert (Hl1 : length (uart (io s1)) = 4%nat) by (unfold s1; rewrite uart_len_upd_uart; apply Hok).
  rewrite H1. upds. rewrite He. cbn [negb].
  set (s2 := upd_uart i _ (clear_source _ s1)).
  assert (H2 : uar s2 i = (uar s1 i) <| lsr ::= fun x => x &&~ 0x20 |>).
  { unfold s2, clear_source. rewrite uar_upd_uart_eq by (autorewrite with lpc; done). by autorewrite with lpc. }
  assert (Hl2 : uart_ok i s2).
  { split; [unfold s2, clear_source; rewrite uart_len_upd_uart; by autorewrite with lpc|].
    rewrite H2, H1. destruct Hok as [_ Hwf]. pose proof (word_land_r d 0xff). uart_wf_step Hwf. }
  assert (Hd2 : dev s2 = dev s).
  { unfold s2, clear_source, s1. rewrite dev_upd_uart. unfold upd_vic, upd_io. upds. apply dev_upd_uart. }
  intros E. destruct (uart_end_int_facts _ _ _ _ Hi Hl2 E) as (Hok' & -> & -> & -> & ->).
  rewrite Hd2, H2, H1. unfold queue. upds. repeat (split; [done|]). rewrite Z.ldiff_spec. apply andb_false_r.
Qed.

(** A byte written with the interrupt off goes to the line at once. *)
Lemma poll_THR_facts i addr d s s' :
  0 <= i < 4 -> uart_ok i s -> writes_THR i addr false s -> lpc2300_uart_write addr d i s = Some s' ->
  uart_ok i s' /\ unsent (uar s' i) = queue (uar s i) /\
  sent i (dev s') = sent i (dev s) ++ if accepts i (d &&& 0xff) s then [d &&& 0xff] else [].
Proof.
  intros Hi Hok (Ha & Hl & He). unfold lpc2300_uart_write. rewrite Ha, Hl. cbv zeta. rewrite Z.eqb_refl.
  set (s1 := upd_uart i (fun u => u <| thr := d &&& 0xff |>) s).
  assert (H1 : uar s1 i = (uar s i) <| thr := d &&& 0xff |>) by (apply uar_upd_uart_eq; [done|apply Hok]).
  assert (Hl1 : length (uart (io s1)) = 4%nat) by (unfold s1; rewrite uart_len_upd_uart; apply Hok).
  assert (Hd1 : dev s1 = dev s) by apply dev_upd_uart.
  rewrite H1. upds. rewrite He. cbn [negb]. rewrite Hd1. unfold accepts.
  pose proof (sent_skyeye_write i (d &&& 0xff) (dev s) (proj1 Hi)) as Hs.
  destruct (skyeye_uart_write i (d &&& 0xff) (dev s)) as [n h]. cbn [fst]. intros [= <-].
  assert (H2 : uar (upd_uart i (fun u => u <| lsr ::= fun x => x ||| 0x20 |>) (s1 <| dev := h |>)) i =
    (uar s1 i) <| lsr ::= fun x => x ||| 0x20 |>).
  { rewrite uar_upd_uart_eq by (done || by rewrite uart_len_upd_dev). by rewrite uar_upd_dev. }
  rewrite dev_upd_uart. upds. split; [|split; [|exact Hs]].
  - split; [by rewrite uart_len_upd_uart, uart_len_upd_dev|]. rewrite H2, H1. destruct Hok as [_ Hwf].
    pose proof (word_land_r d 0xff). uart_wf_step Hwf.
  - rewrite H2, H1. unfold unsent, queue. upds. rewrite Z.lor_spec. change (Z.testbit 0x20 5) with true.
    by rewrite orb_true_r, app_nil_r.
Qed.

(** C21: The transmitter sends in order.  For every sequence of transmissions, of
    writes to an empty THR with the transmit interrupt on, and of polled
    writes of bytes that the line takes while no byte waits, what has been sent
    followed by what is still queued or in THR is what it was before, followed
    by the bytes written: none is lost, sent twice or overtaken.  A polled write
    in any other state is not ordered: the byte is sent at once, if the line
    takes it, ahead of the queue, which stays, and a byte waiting in THR is
    lost. *)
Theorem uart_bytes_in_order i s :
  0 <= i < 4 -> uart_ok i s ->
  (forall ws s', tx_steps i s ws s' -> uart_ok i s' /\
     sent i (dev s') ++ unsent (uar s' i) = sent i (dev s) ++ unsent (uar s i) ++ ws) /\
  (forall addr d s', writes_THR i addr false s -> lpc2300_uart_write addr d i s = Some s' ->
     uart_ok i s' /\ unsent (uar s' i) = queue (uar s i) /\
     sent i (dev s') = sent i (dev s) ++ if accepts i (d &&& 0xff) s then [d &&& 0xff] else []).
Proof.
  intros Hi Hok. split; [|intros addr d s'; by apply poll_THR_facts]. intros ws s' H.
  induction H as [s|s1 ws1 s2 ws2 s3 Hstep H IH]; [by rewrite app_nil_r|].
  assert (uart_ok i s2 /\ sent i (dev s2) ++ unsent (uar s2 i) =
    sent i (dev s1) ++ unsent (uar s1 i) ++ ws1) as [Hok2 E].
  { clear IH H. destruct Hstep as [s|s addr d s' Hw H5 E|s addr d s' Hw Hu Ha E].
    - rewrite app_nil_r. pose proof (uart_transmit_facts i s Hi (proj1 Hok) (proj2 Hok)) as Ht.
      pose proof (uart_len_transmit i s) as Hlen.
      destruct (lpc2300_uart_transmit i s) as [res s']. cbn [snd] in *. destruct Ht as [Hwf Ht].
      split; [split; [rewrite Hlen; apply Hok|done]|].
      destruct (unsent (uar s i)) as [|c rest]; [by destruct Ht as (-> & -> & _)|].
      pose proof (sent_skyeye_write i c (dev s) (proj1 Hi)) as Hs.
      destruct (skyeye_uart_write i c (dev s)) as [n h]. destruct Ht as [-> Ht]. rewrite Hs.
      destruct (0 <? n); destruct Ht as (-> & _); [by rewrite <- app_assoc|by rewrite app_nil_r].
    - destruct (write_THR_facts i addr d s s' Hi Hok Hw E) as (Hok' & -> & Hq & Ht & Hb).
      split; [done|]. unfold unsent. rewrite Hq, Ht, Hb, H5, app_nil_r.
      do 3 f_equal. apply Z.bits_inj'. intros k Hk. rewrite !Z.land_spec. by destruct (Z.testbit d k), (Z.testbit 0xff k).
    - destruct (poll_THR_facts i addr d s s' Hi Hok Hw E) as (Hok' & Hq & Hs).
      split; [done|]. rewrite Hq, Hs, Hu, Ha. apply app_eq_nil in Hu as [-> _]. by rewrite app_nil_r. }
  destruct (IH Hok2) as [Hok3 E3]. split; [done|]. rewrite E3, app_assoc, E. by rewrite <- !app_assoc.
Qed.
End Order.
