(* ===== verification/LpcTimer.v ===== *)
(** * The timers of the LPC2300

    A timer counts machine cycles through its prescaler and compares the
    count with four match registers, each of which may stop the timer, reset
    the count or raise the interrupt of the timer.  The machine is modelled
    for the builds where a cycle is one tick (all but Windows). *)

From S2P Require Import Prelude Words Bits ArmState LpcState LpcVic.

Definition timer_powered (i pconp : Z) : bool :=
  negb (((i =? 0) && negb (truth (pconp &&& BITMSK 1))) ||
        ((i =? 1) && negb (truth (pconp &&& BITMSK 2))) ||
        ((i =? 2) && negb (truth (pconp &&& BITMSK 22))) ||
        ((i =? 3) && negb (truth (pconp &&& BITMSK 23)))).

Section Timer.
Context {host : Type}.
Implicit Type s : machine host.

(** ** One cycle *)

(** The comparison with match register [n], [ntc] being the new count. *)
Definition timer_match (i ntc n : Z) s : option (machine host) :=
  if ntc =? rd (t_mr (tmr s i)) n then
    let v := t_mcr (tmr s i) >>> (3 * n) in
    let s := if truth (v &&& 4) then upd_timer i (fun t => t <| t_tcr ::= fun x => x &&~ 1 |>) s else s in
    let s := if truth (v &&& 2) then upd_timer i (fun t => t <| t_tc := 0 |>) s else s in
    if truth (v &&& 1) && truth (IntEnable (vic (io s)) &&& IRQTIMER i) then
      let s := upd_timer i (fun t => t <| t_ir ::= fun x => x ||| BITMSK n |>) s in
      lpc2300_update_int (upd_vic (fun c => c <| INTSOURCE ::= fun x => x ||| IRQTIMER i |>) s)
    else Some s
  else Some s.

(** The body of the timer loop of [lpc2300_io_do_cycle], with [t = 1]. *)
Definition timer_cycle (i : Z) s : option (machine host) :=
  if negb (timer_powered i (pconp (io s))) then Some s
  else if truth (t_tcr (tmr s i) &&& 2) then
    Some (upd_timer i (fun t => t <| t_pc := 0 |> <| t_pr := 0 |>) s)
  else if truth (t_tcr (tmr s i) &&& 1) then
    let s := if negb (truth (t_ctcr (tmr s i) &&& 3))
             then upd_timer i (fun t => t <| t_pc ::= fun x => add32 x 1 |>) s else s in
    if negb (truth (RawIntr (vic (io s)) &&& IRQTIMER i)) &&
       (add32 (t_pr (tmr s i)) 1 <=? t_pc (tmr s i)) then
      let s := upd_timer i (fun t => t <| t_tc ::= fun x => add32 x 1 |> <| t_pc := 0 |>) s in
      let ntc := t_tc (tmr s i) in
      for_range_opt 0 4 (timer_match i ntc) s
    else Some s
  else Some s.

(** ** Registers *)

Definition lpc2300_timer_read (addr i : Z) s : Z :=
  let a := addr &&& 0xfe in let t := tmr s i in
  if a =? 0x00 then t_ir t
  else if a =? 0x04 then t_tcr t
  else if a =? 0x08 then t_tc t
  else if a =? 0x0c then t_pr t
  else if a =? 0x10 then t_pc t
  else if a =? 0x14 then t_mcr t
  else if a =? 0x18 then rd (t_mr t) 0
  else if a =? 0x1c then rd (t_mr t) 1
  else if a =? 0x20 then rd (t_mr t) 2
  else if a =? 0x24 then rd (t_mr t) 3
  else if a =? 0x70 then t_ctcr t
  else 0.

Definition lpc2300_timer_write (addr data i : Z) s : option (machine host) :=
  let a := addr &&& 0xfe in
  if a =? 0x00 then
    let s := if truth (data &&& t_ir (tmr s i) &&& 0x3f) then
               upd_timer i (fun t => t <| t_ir := 0 |>)
                 (upd_vic (fun v => v <| INTSOURCE ::= fun x => x &&~ IRQTIMER i |>) s)
             else s in
    if truth (IntEnable (vic (io s)) &&& IRQTIMER i) then lpc2300_update_int s else Some s
  else if a =? 0x04 then
    let s := upd_timer i (fun t => t <| t_tcr := data |>) s in
    Some (if truth (data &&& 2) then upd_timer i (fun t => t <| t_tc := 0 |> <| t_pc := 0 |>) s else s)
  else if a =? 0x08 then Some (upd_timer i (fun t => t <| t_tc := data |>) s)
  else if a =? 0x0c then Some (upd_timer i (fun t => t <| t_pr := data |>) s)
  else if a =? 0x10 then Some (upd_timer i (fun t => t <| t_pc := data |>) s)
  else if a =? 0x14 then Some (upd_timer i (fun t => t <| t_mcr := data |>) s)
  else if a =? 0x18 then Some (upd_timer i (fun t => t <| t_mr ::= fun m => wr m 0 data |>) s)
  else if a =? 0x1c then Some (upd_timer i (fun t => t <| t_mr ::= fun m => wr m 1 data |>) s)
  else if a =? 0x20 then Some (upd_timer i (fun t => t <| t_mr ::= fun m => wr m 2 data |>) s)
  else if a =? 0x24 then Some (upd_timer i (fun t => t <| t_mr ::= fun m => wr m 3 data |>) s)
  else if a =? 0x70 then Some (upd_timer i (fun t => t <| t_ctcr := data |>) s)
  else Some s.
End Timer.

(** ** Periodic counting *)

Section Period.
Context {host : Type}.
Implicit Type s : machine host.

(** Timer [i] counts with prescaler [p] and restarts when the count reaches
    match register 0, holding [m]; its request line is idle. *)
Record counting (i p m : Z) s : Prop := {
  cn_timers : length (timer (io s)) = 4%nat;
  cn_power : timer_powered i (pconp (io s)) = true;
  cn_run : truth (t_tcr (tmr s i) &&& 2) = false /\ truth (t_tcr (tmr s i) &&& 1) = true;
  cn_mode : truth (t_ctcr (tmr s i) &&& 3) = false;
  cn_idle : truth (RawIntr (vic (io s)) &&& IRQTIMER i) = false;
  cn_mcr : t_mcr (tmr s i) = 2;
  cn_mr0 : rd (t_mr (tmr s i)) 0 = m;
  cn_pr : t_pr (tmr s i) = p
}.

(** An update of the two counters of the timer. *)
Definition set_count (i pc tc : Z) s : machine host :=
  upd_timer i (fun t => t <| t_pc := pc |> <| t_tc := tc |>) s.

Lemma pconp_upd_timer i f s : pconp (io (upd_timer i f s)) = pconp (io s).
Proof. unfold upd_timer, upd_io. cbv zeta. by upds. Qed.
Lemma timers_upd_timer i f s : length (timer (io (upd_timer i f s))) = length (timer (io s)).
Proof. unfold upd_timer, upd_io. cbv zeta. upds. apply length_wr. Qed.

Lemma upd_timer_twice i f g s :
  0 <= i < 4 -> length (timer (io s)) = 4%nat ->
  upd_timer i g (upd_timer i f s) = upd_timer i (fun t => g (f t)) s.
Proof.
  intros Hi Hl. unfold upd_timer at 1. rewrite tmr_upd_timer_eq by done.
  unfold upd_timer, upd_io, wr. cbv zeta. destruct s as [c d n h], d.
  unfold upd; cbn. by rewrite list_insert_insert_eq.
Qed.

Lemma upd_timer_ext i f g s : f (tmr s i) = g (tmr s i) -> upd_timer i f s = upd_timer i g s.
Proof. intros E. unfold upd_timer. by rewrite E. Qed.

Lemma counting_upd i p m pc tc s :
  0 <= i < 4 -> counting i p m s -> counting i p m (set_count i pc tc s).
Proof.
  intros Hi [Hl Hp Hr Hm Hid Hc H0 Hpr]. unfold set_count. constructor;
    rewrite ?timers_upd_timer, ?pconp_upd_timer, ?tmr_upd_timer_eq, ?vic_upd_timer by done; by upds.
Qed.

(** Only match register 0 acts, by restarting the count. *)
Lemma match_restart i p m ntc s :
  0 <= i < 4 -> counting i p m s ->
  for_range_opt 0 4 (timer_match i ntc) s =
  Some (if ntc =? m then upd_timer i (fun t => t <| t_tc := 0 |>) s else s).
Proof.
  intros Hi H. pose proof (cn_mcr _ _ _ _ H) as Hc.
  assert (Hskip : forall n s', t_mcr (tmr s' i) = 2 -> n = 1 \/ n = 2 \/ n = 3 -> timer_match i ntc n s' = Some s').
  { intros n s' Hs' Hn. unfold timer_match. destruct (ntc =? _); [|done].
    rewrite Hs'. by destruct Hn as [-> | [-> | ->]]. }
  assert (H0 : timer_match i ntc 0 s =
    Some (if ntc =? m then upd_timer i (fun t => t <| t_tc := 0 |>) s else s)).
  { unfold timer_match. rewrite (cn_mr0 _ _ _ _ H). destruct (ntc =? m); [|done]. by rewrite Hc. }
  unfold for_range_opt. change (seqZ 0 (4 - 0)) with [0; 1; 2; 3]. cbn [fold_left mbind option_bind].
  rewrite H0. set (s1 := if ntc =? m then _ else _). assert (Hs1 : t_mcr (tmr s1 i) = 2).
  { unfold s1. destruct (ntc =? m); [|done]. rewrite tmr_upd_timer_eq by (done || apply H). by upds. }
  clearbody s1. by do 3 (cbn [mbind option_bind]; rewrite Hskip by auto).
Qed.

Lemma upd_timer_id i s : 0 <= i < 4 -> length (timer (io s)) = 4%nat -> upd_timer i (fun t => t) s = s.
Proof.
  intros Hi Hl. unfold upd_timer, upd_io, wr, tmr. cbv zeta. destruct s as [c d n h], d as [? ? ? l].
  unfold upd; cbn in *. rewrite list_insert_id; [done|].
  destruct (lookup_lt_is_Some_2 l (Z.to_nat i)) as [x Hx]; [lia|].
  by rewrite (nth_lookup_Some _ _ _ _ Hx).
Qed.

(** The arithmetic of a prescaled count. *)
Lemma tick_arith n p m : 0 <= n -> 0 <= p -> 0 < m ->
  (n mod (p + 1) < p -> (n + 1) mod (p + 1) = n mod (p + 1) + 1 /\
     ((n + 1) / (p + 1)) mod m = (n / (p + 1)) mod m) /\
  (n mod (p + 1) = p -> (n + 1) mod (p + 1) = 0 /\
     ((n + 1) / (p + 1)) mod m =
     if (n / (p + 1)) mod m + 1 =? m then 0 else (n / (p + 1)) mod m + 1).
Proof.
  intros Hn Hp Hm. pose proof (Z.div_mod n (p + 1)) as E.
  pose proof (Z.mod_pos_bound n (p + 1)) as Hr. set (q := n / (p + 1)) in *. set (r := n mod (p + 1)) in *.
  split; intros Hlt.
  - assert (n + 1 = q * (p + 1) + (r + 1)) as -> by lia.
    rewrite Z.div_add_l, Z.add_comm, Z_mod_plus_full, Z.mod_small, Z.div_small by lia.
    by rewrite Z.add_0_r.
  - assert (n + 1 = (q + 1) * (p + 1)) as -> by lia. rewrite Z.div_mul, Z_mod_mult by lia. split; [done|].
    pose proof (Z.mod_pos_bound q m Hm). rewrite <- Zplus_mod_idemp_l.
    destruct (Z.eqb_spec (q mod m + 1) m) as [->|]; [apply Z_mod_same_full|apply Z.mod_small; lia].
Qed.

(** One cycle of a counting timer. *)
Lemma timer_cycle_counting i p m s :
  0 <= i < 4 -> counting i p m s ->
  0 <= p < 4294967295 -> 0 <= t_pc (tmr s i) <= p -> 0 < m < 4294967296 -> 0 <= t_tc (tmr s i) < m ->
  timer_cycle i s = Some (
    if t_pc (tmr s i) <? p then set_count i (t_pc (tmr s i) + 1) (t_tc (tmr s i)) s
    else set_count i 0 (if t_tc (tmr s i) + 1 =? m then 0 else t_tc (tmr s i) + 1) s).
Proof.
  intros Hi H Hp Hpc Hm Htc. pose proof H as [Hl Hpw [Hr2 Hr1] Hmode Hid Hc H0 Hpr].
  unfold timer_cycle. rewrite Hpw, Hr2, Hr1, Hmode. cbn [negb]. cbv zeta.
  rewrite !tmr_upd_timer_eq, vic_upd_timer, Hid by done. upds. rewrite Hpr. cbn [negb andb].
  assert (Hadd : add32 p 1 = p + 1 /\ add32 (t_pc (tmr s i)) 1 = t_pc (tmr s i) + 1 /\
          add32 (t_tc (tmr s i)) 1 = t_tc (tmr s i) + 1).
  { unfold add32. rewrite !u32_id by (unfold word; lia). done. }
  destruct Hadd as (-> & Hpc1 & Htc1). rewrite Hpc1.
  rewrite upd_timer_twice, tmr_upd_timer_eq by done. upds. rewrite Htc1.
  set (pc := t_pc (tmr s i)) in *. set (tc := t_tc (tmr s i)) in *.
  destruct (Z.ltb_spec pc p), (Z.leb_spec (p + 1) (pc + 1)); try lia.
  - f_equal. apply upd_timer_ext. unfold pc, tc in *. clear -Hpc1. destruct (tmr s i). unfold upd; cbn in *. by rewrite Hpc1.
  - set (s1 := upd_timer i _ s). assert (Hs1 : s1 = set_count i 0 (tc + 1) s).
    { apply upd_timer_ext. unfold pc, tc in *. clear -Htc1. destruct (tmr s i). unfold upd; cbn in *. by rewrite Htc1. }
    rewrite Hs1, (match_restart i p m) by (try apply counting_upd; done).
    destruct (Z.eqb_spec (tc + 1) m); [|done]. unfold set_count. rewrite upd_timer_twice by done. done.
Qed.

(** C22: A timer that restarts on match register 0 counts periodically: started
    at zero with prescaler [p] and match value [m], after [n] cycles its
    prescale counter is [n mod (p + 1)] and its count
    [(n / (p + 1)) mod m], and nothing else of the machine has changed. *)
Theorem timer_counts_periodically i p m s (n : nat) :
  0 <= i < 4 -> counting i p m s -> 0 <= p < 4294967295 -> 0 < m < 4294967296 ->
  t_pc (tmr s i) = 0 -> t_tc (tmr s i) = 0 ->
  Nat.iter n (fun o => o ≫= timer_cycle i) (Some s) =
  Some (set_count i (Z.of_nat n mod (p + 1)) ((Z.of_nat n / (p + 1)) mod m) s).
Proof.
  intros Hi H Hp Hm Hpc Htc. induction n as [|n IH].
  - simpl. rewrite Zmod_0_l, Zdiv_0_l, Zmod_0_l. f_equal. unfold set_count.
    rewrite <- (upd_timer_id i s) at 1 by (done || apply H). apply upd_timer_ext.
    clear -Hpc Htc. destruct (tmr s i). unfold upd; cbn in *. by subst.
  - rewrite Nat.iter_succ, IH. cbn [mbind option_bind].
    set (pc := Z.of_nat n mod (p + 1)). set (tc := (Z.of_nat n / (p + 1)) mod m).
    assert (Hpcr : 0 <= pc < p + 1) by (apply Z.mod_pos_bound; lia).
    assert (Htcr : 0 <= tc < m) by (apply Z.mod_pos_bound; lia).
    pose proof (counting_upd i p m pc tc s Hi H) as Hc.
    assert (Ht : tmr (set_count i pc tc s) i = (tmr s i) <| t_pc := pc |> <| t_tc := tc |>)
      by (unfold set_count; by rewrite tmr_upd_timer_eq by (done || apply H)).
    rewrite (timer_cycle_counting i p m) by (done || (rewrite Ht; upds; lia)).
    rewrite Ht. upds. unfold set_count. rewrite !upd_timer_twice by (done || apply H).
    pose proof (tick_arith (Z.of_nat n) p m ltac:(lia) ltac:(lia) ltac:(lia)) as [Hlt Hge].
    fold pc tc in Hlt, Hge. rewrite Nat2Z.inj_succ, <- Z.add_1_r.
    destruct (Z.ltb_spec pc p).
    + destruct Hlt as [-> ->]; [done|]. f_equal.
    + destruct Hge as [-> ->]; [lia|]. f_equal.
Qed.
End Period.
