(* ===== verification/LpcIo.v ===== *)
(** * skyeye_mach_lpc2300.c: the register file and the machine

    Reset, one cycle, and the reads and writes of the memory-mapped registers,
    with the theorems on the whole peripheral block. *)

From S2P Require Import Prelude Words Bits ArmState ArmInit UartDev Machine LpcState LpcVic LpcUart LpcTimer.

Section Machine.
Context {host : Type} `{!UartDriver host}.
Implicit Type s : machine host.

(** ** Reset *)

Definition timer_reset (t : lpc2300_timer_t) : lpc2300_timer_t :=
  t <| t_pr := 0 |> <| t_ir := 0 |>
    <| t_mr ::= fun m => wr (wr (wr (wr m 0 0) 1 0) 2 0) 3 0 |>
    <| t_mcr := 0 |> <| t_tc := 0 |> <| t_pc := 0 |> <| t_tcr := 0 |> <| t_ctcr := 0 |>.

Definition vic_reset (v : lpc2300_vic_t) : lpc2300_vic_t :=
  v <| IRQStatus := 0 |> <| FIQStatus := 0 |> <| RawIntr := 0 |> <| IntSelect := 0 |>
    <| IntEnable := 0 |> <| SoftInt := 0 |> <| Protection := 0 |> <| Vect_Addr := 0 |>
    <| SWPrioMask := 0xffff |> <| HWPrioMask := 0xffff |>
    <| VectAddr ::= for_range 0 32 (fun i l => wr l i 0) |>
    <| VectPrio ::= for_range 0 32 (fun i l => wr l i 15) |>
    <| IRQNumber ::= for_range 0 16 (fun i l => wr l i 0) |>
    <| INTSOURCE := 0 |>.

Definition uart_reset (u : lpc2300_uart_t) : lpc2300_uart_t :=
  u <| fcr := 0 |> <| lcr := 0 |> <| scr := 0 |> <| ier := 0 |> <| dll := 1 |> <| dlm := 0 |>
    <| lsr := 0x60 |> <| iir := 1 |> <| t_fifotop := 0 |> <| t_fifolen := 0 |>.

(** Pin selection and modes, memory configuration, clocks, power and GPIO. *)
Definition regs_reset (d : lpc2300_io_t) : lpc2300_io_t :=
  d <| pinsel ::= for_range 0 10 (fun i l => wr l i 0) |>
    <| pinsel ::= fun l => wr l 10 0 |>
    <| pinmode ::= for_range 0 10 (fun i l => wr l i 0) |>
    <| bcfg ::= fun b => wr (wr (wr (wr b 0 0x0000fbef) 1 0x2000fbef) 2 0x1000fbef) 3 0x0000fbef |>
    <| pclksel0 := 0 |> <| pclksel1 := 0 |> <| vibdiv := 0 |> <| pconp := 0x850ffe |>
    <| FIO ::= for_range 0 160 (fun i l => wr l i 0) |>.

Definition pll_reset (d : lpc2300_io_t) : lpc2300_io_t :=
  d <| pll ::= fun p => p <| pll_stat ::= fun x => x ||| BITMSK 10 |> |>.

Definition lpc2300_io_reset s : machine host :=
  let s := for_range 0 4 (fun i s => upd_timer i timer_reset s) s in
  let s := upd_io pll_reset s in
  let s := upd_vic vic_reset s in
  let s := for_range 0 4 (fun i s => upd_uart i uart_reset s) s in
  let s := upd_io regs_reset s in
  s <| core ::= fun c => c <| NirqSig := HIGH |> <| NfiqSig := HIGH |> |>.

(** ** One cycle *)

Definition lpc2300_io_do_cycle s : option (machine host) :=
  s ← for_range_opt 0 4 timer_cycle s;
  s ← for_range_opt 0 4 uart_cycle s;
  Some (if uartcnt s =? 0 then s <| uartcnt := UART_INT_CYCLE |> else s <| uartcnt ::= fun n => n - 1 |>).

(** ** GPIO *)

(** The unsigned tests [addr-base <= len && addr-base >= 0]. *)
Definition in_gpio (addr : Z) : bool :=
  (sub32 addr 0x3fffc000 <? 0xa0) || (sub32 addr 0xe0028000 <? 0x20).

(** The legacy addresses of ports 0 and 1 as offsets of the fast registers. *)
Definition gpio_ofs (addr : Z) : Z :=
  if 0xe002801c <=? addr then addr - 0xe002801c + 0x3c
  else if 0xe0028018 <=? addr then addr - 0xe0028018 + 0x20
  else if 0xe0028010 <=? addr then addr - 0xe0028010 + 0x34
  else if 0xe002800c <=? addr then addr - 0xe002800c + 0x1c
  else if 0xe0028008 <=? addr then addr - 0xe0028008 + 0x00
  else if 0xe0028000 <=? addr then addr - 0xe0028000 + 0x14
  else addr - 0x3fffc000.

(** [io.FIO] after the write of [data] at offset [ofs] (the LED messages on
    the error stream left out). *)
Definition gpio_write (ofs data : Z) (fio : list Z) : list Z :=
  let r := ofs &&& 0x1f in
  if (0x14 <=? r) && (r <? 0x18) then
    wr fio ofs ((data &&~ rd fio (ofs - 4)) ||| (rd fio ofs &&& rd fio (ofs - 4)))
  else if (0x1c <=? r) && (r <? 0x20) then
    wr fio ofs ((not32 data ||| rd fio (ofs - 4)) &&& rd fio ofs)
  else wr fio ofs data.

(** ** Reads *)

(** The cases of the switch of [lpc2300_io_read_word] that only read. *)
Definition io_read_reg (addr : Z) (d : lpc2300_io_t) : option Z :=
  if addr =? 0xe01fc0c4 then Some (pconp d)
  else if addr =? 0xfffff000 then Some (IRQStatus (vic d))
  else if addr =? 0xfffff004 then Some (FIQStatus (vic d))
  else if addr =? 0xfffff008 then Some (RawIntr (vic d))
  else if addr =? 0xfffff00c then Some (IntSelect (vic d))
  else if addr =? 0xfffff010 then Some (IntEnable (vic d))
  else if addr =? 0xfffff024 then Some (SWPrioMask (vic d))
  else if addr =? 0xffffff00 then Some (Vect_Addr (vic d))
  else if addr =? 0xe01fc080 then Some (pll_con (pll d))
  else if addr =? 0xe01fc084 then Some (pll_cfg (pll d))
  else if addr =? 0xe01fc088 then Some (pll_stat (pll d) ||| (0x7 <<< 24))
  (* no [break]: the PLL feed register reads as BCFG0 *)
  else if addr =? 0xe01fc08c then Some (rd (bcfg d) 0)
  else if addr =? 0xffe00000 then Some (rd (bcfg d) 0)
  else if addr =? 0xffe00004 then Some (rd (bcfg d) 1)
  else if addr =? 0xffe00008 then Some (rd (bcfg d) 2)
  else if addr =? 0xffe0000c then Some (rd (bcfg d) 3)
  else if addr =? 0xe0024080 then Some (preint d)
  else if addr =? 0xe0024084 then Some (prefrac d)
  else if addr =? 0xe0024008 then Some (ccr d)
  else if addr =? 0xe0024020 then Some (sec d)
  else if addr =? 0xe0024024 then Some (rtc_min d)
  else if addr =? 0xe0024028 then Some (hour d)
  else if addr =? 0xe002402c then Some (dom d)
  else if addr =? 0xe0024030 then Some (dow d)
  else if addr =? 0xe0024034 then Some (doy d)
  else if addr =? 0xe0024038 then Some (month d)
  else if addr =? 0xe002403c then Some (year d)
  else if addr =? 0xe01fc000 then Some (mamcr d)
  else if addr =? 0xe01fc004 then Some (mamtim d)
  else if addr =? 0xe01fc1a0 then Some (syscon d)
  else if addr =? 0xe01fc1a8 then Some (pclksel0 d)
  else if addr =? 0xe01fc1ac then Some (pclksel1 d)
  else None.

(** The [default] case: devices and register arrays, all ones elsewhere. *)
Definition io_read_default (addr : Z) s : option (Z * machine host) :=
  if (0xe000c000 <=? addr) && (addr <=? 0xe000c030) then lpc2300_uart_read addr 0 s
  else if (0xe0010000 <=? addr) && (addr <=? 0xe0010030) then lpc2300_uart_read addr 1 s
  else if (0xe0078000 <=? addr) && (addr <=? 0xe0078030) then lpc2300_uart_read addr 2 s
  else if (0xe007c000 <=? addr) && (addr <=? 0xe007c030) then lpc2300_uart_read addr 3 s
  else if (0xe0004000 <=? addr) && (addr <=? 0xe0004070) then Some (lpc2300_timer_read addr 0 s, s)
  else if (0xe0008000 <=? addr) && (addr <=? 0xe0008070) then Some (lpc2300_timer_read addr 1 s, s)
  else if (0xe0070000 <=? addr) && (addr <=? 0xe0070070) then Some (lpc2300_timer_read addr 2 s, s)
  else if (0xe0074000 <=? addr) && (addr <=? 0xe0074070) then Some (lpc2300_timer_read addr 3 s, s)
  else if sub32 addr 0xfffff100 <=? 0x7c then Some (rd (VectAddr (vic (io s))) (sub32 addr 0xfffff100 / 4), s)
  else if sub32 addr 0xfffff200 <=? 0x7c then Some (rd (VectPrio (vic (io s))) (sub32 addr 0xfffff200 / 4), s)
  else if in_gpio addr then Some (rd (FIO (io s)) (gpio_ofs addr), s)
  else if sub32 addr 0xe002c000 <=? 0x28 then Some (rd (pinsel (io s)) (sub32 addr 0xe002c000 / 4), s)
  else if sub32 addr 0xe002c040 <=? 0x24 then Some (rd (pinmode (io s)) (sub32 addr 0xe002c040 / 4), s)
  else Some (0xffffffff, s).

Definition lpc2300_io_read_word (addr : Z) s : option (Z * machine host) :=
  if addr =? 0xfffff014 then
    let data := IntEnClr (vic (io s)) in
    s ← lpc2300_update_int s; Some (data, s)
  else match io_read_reg addr (io s) with
  | Some data => Some (data, s)
  | None => io_read_default addr s
  end.

Definition lpc2300_io_read_byte (addr : Z) s := lpc2300_io_read_word addr s.
Definition lpc2300_io_read_halfword (addr : Z) s := lpc2300_io_read_word addr s.

(** ** Writes *)

(** The registers of the interrupt controller and PCONP; [k] is the rest of
    the switch. *)
Definition io_write_vic (addr data : Z) s (k : option (machine host)) : option (machine host) :=
  if addr =? 0xe01fc0c4 then Some (upd_io (fun d => d <| pconp := data |>) s)
  else if addr =? 0xfffff000 then Some s
  else if addr =? 0xfffff004 then Some s
  else if addr =? 0xfffff008 then Some s
  else if addr =? 0xfffff00c then Some (upd_vic (fun v => v <| IntSelect := data |>) s)
  else if addr =? 0xfffff010 then
    lpc2300_update_int (upd_vic (fun v => v <| IntEnable ::= fun x => x ||| data |>
                                            <| IntEnClr ::= fun x => x &&~ data |>) s)
  else if addr =? 0xfffff014 then
    Some (upd_vic (fun v => v <| IntEnClr := data |> <| IntEnable ::= fun x => x &&~ data |>) s)
  else if addr =? 0xfffff018 then
    lpc2300_update_int (upd_vic (fun v => v <| SoftInt ::= fun x => x ||| data |>
                                            <| SoftIntClear ::= fun x => x &&~ data |>) s)
  else if addr =? 0xfffff01c then
    lpc2300_update_int (upd_vic (fun v => v <| SoftIntClear := data |>
                                            <| SoftInt ::= fun x => x &&~ data |>) s)
  else if addr =? 0xfffff020 then Some (upd_vic (fun v => v <| Protection := data |>) s)
  else if addr =? 0xffffff00 then vic_write_VAR s
  else if addr =? 0xfffff024 then Some (upd_vic (fun v => v <| SWPrioMask := data |>) s)
  else k.

(** The registers that are only stored. *)
Definition io_write_reg (addr data : Z) (d : lpc2300_io_t) : option lpc2300_io_t :=
  if addr =? 0xe01fc080 then Some (d <| pll ::= fun p => p <| pll_con := data |> |>)
  else if addr =? 0xe01fc084 then
    Some (d <| pll ::= fun p => p <| pll_cfg := data |>
                                  <| pll_stat := (data &&& 0x00ffffff) ||| 0x07000000 |> |>)
  else if addr =? 0xe01fc088 then Some d
  else if addr =? 0xe01fc08c then Some (d <| pll ::= fun p => p <| pll_feed := data |> |>)
  else if addr =? 0xe01fc040 then Some (d <| mmcr := data |>)
  else if addr =? 0xffe00000 then Some (d <| bcfg ::= fun b => wr b 0 data |>)
  else if addr =? 0xffe00004 then Some (d <| bcfg ::= fun b => wr b 1 data |>)
  else if addr =? 0xffe00008 then Some (d <| bcfg ::= fun b => wr b 2 data |>)
  else if addr =? 0xffe0000c then Some (d <| bcfg ::= fun b => wr b 3 data |>)
  else if addr =? 0xe0024008 then Some (d <| ccr := data |>)
  else if addr =? 0xe0024080 then Some (d <| preint := data |>)
  else if addr =? 0xe0024084 then Some (d <| prefrac := data |>)
  else if addr =? 0xe0024020 then Some (d <| sec := data |>)
  else if addr =? 0xe0024024 then Some (d <| rtc_min := data |>)
  else if addr =? 0xe0024028 then Some (d <| hour := data |>)
  else if addr =? 0xe002402c then Some (d <| dom := data |>)
  else if addr =? 0xe0024030 then Some (d <| dow := data |>)
  else if addr =? 0xe0024034 then Some (d <| doy := data |>)
  else if addr =? 0xe0024038 then Some (d <| month := data |>)
  else if addr =? 0xe002403c then Some (d <| year := data |>)
  else if addr =? 0xe01fc000 then Some (d <| mamcr := data |>)
  else if addr =? 0xe01fc004 then Some (d <| mamtim := data |>)
  else if addr =? 0xe01fc1a0 then Some (d <| syscon := data ||| shl32 (data &&& 0x20) 1 |>)
  else if addr =? 0xe01fc1a8 then Some (d <| pclksel0 := data |>)
  else if addr =? 0xe01fc1ac then Some (d <| pclksel1 := data |>)
  else None.

(** The [default] case. *)
Definition io_write_default (addr data : Z) s : option (machine host) :=
  if (0xe000c000 <=? addr) && (addr <=? 0xe000c030) then lpc2300_uart_write addr data 0 s
  else if (0xe0010000 <=? addr) && (addr <=? 0xe0010030) then lpc2300_uart_write addr data 1 s
  else if (0xe0078000 <=? addr) && (addr <=? 0xe0078030) then lpc2300_uart_write addr data 2 s
  else if (0xe007c000 <=? addr) && (addr <=? 0xe007c030) then lpc2300_uart_write addr data 3 s
  else if (0xe0004000 <=? addr) && (addr <=? 0xe0004070) then lpc2300_timer_write addr data 0 s
  else if (0xe0008000 <=? addr) && (addr <=? 0xe0008070) then lpc2300_timer_write addr data 1 s
  else if (0xe0070000 <=? addr) && (addr <=? 0xe0070070) then lpc2300_timer_write addr data 2 s
  else if (0xe0074000 <=? addr) && (addr <=? 0xe0074070) then lpc2300_timer_write addr data 3 s
  else if sub32 addr 0xfffff100 <=? 0x7c then
    Some (upd_vic (fun v => v <| VectAddr ::= fun l => wr l (sub32 addr 0xfffff100 / 4) data |>) s)
  else if sub32 addr 0xfffff200 <=? 0x7c then
    Some (upd_vic (fun v => v <| VectPrio ::= fun l => wr l (sub32 addr 0xfffff200 / 4) data |>) s)
  else if in_gpio addr then
    Some (upd_io (fun d => d <| FIO ::= gpio_write (gpio_ofs addr) data |>) s)
  else if sub32 addr 0xe002c000 <=? 0x28 then
    Some (upd_io (fun d => d <| pinsel ::= fun l => wr l (sub32 addr 0xe002c000 / 4) data |>) s)
  else if sub32 addr 0xe002c040 <=? 0x24 then
    Some (upd_io (fun d => d <| pinmode ::= fun l => wr l (sub32 addr 0xe002c040 / 4) data |>) s)
  else Some s.

Definition lpc2300_io_write_word (addr data : Z) s : option (machine host) :=
  io_write_vic addr data s
    match io_write_reg addr data (io s) with
    | Some d => Some (upd_io (fun _ => d) s)
    | None => io_write_default addr data s
    end.

Definition lpc2300_io_write_byte (addr data : Z) s := lpc2300_io_write_word addr data s.
Definition lpc2300_io_write_halfword (addr data : Z) s := lpc2300_io_write_word addr data s.
End Machine.

(** ** [lpc2300_mach_init]

    Selects the processor and installs the functions above as the operations
    of the machine. *)

Definition lpc2300_machine {host} `{!UartDriver host} : machine_config (machine host) :=
  {| mach_io_do_cycle := lpc2300_io_do_cycle;
     mach_io_reset := lpc2300_io_reset;
     mach_io_read_byte := lpc2300_io_read_byte;
     mach_io_write_byte := lpc2300_io_write_byte;
     mach_io_read_halfword := lpc2300_io_read_halfword;
     mach_io_write_halfword := lpc2300_io_write_halfword;
     mach_io_read_word := lpc2300_io_read_word;
     mach_io_write_word := lpc2300_io_write_word;
     mach_update_int := lpc2300_update_int |}.

Definition lpc2300_mach_init {host} `{!UartDriver host} (s : machine host) :
    machine host * machine_config (machine host) :=
  (s <| core ::= fun c => (ARMul_SelectProcessor ARM_v4_Prop c) <| lateabtSig := HIGH |> |>,
   lpc2300_machine).
