(* ===== verification/LpcSafe.v ===== *)
(** * The LPC2300 peripherals stay well formed

    The invariant of the whole peripheral block and its preservation by every
    operation, whatever words the guest writes; and, when the interrupt
    priorities it writes are not negative as an [int], that every operation
    returns.  [None] is a shift by a negative count in the search for the next
    interrupt.  [1 << 31] is the word with the sign bit set, as the compilers
    that build the simulator make it. *)

From S2P Require Import Prelude Words Bits ArmState UartDev LpcState LpcVic LpcUart LpcTimer LpcIo.

(** ** The invariant *)

Record timer_wf (t : lpc2300_timer_t) : Prop := {
  tw_mr : length (t_mr t) = 4%nat /\ Forall word (t_mr t);
  tw_words : Forall word [t_ir t; t_tcr t; t_tc t; t_pr t; t_pc t; t_mcr t; t_ctcr t]
}.

Record regs_wf (d : lpc2300_io_t) : Prop := {
  rw_pinsel : length (pinsel d) = 11%nat /\ Forall word (pinsel d);
  rw_pinmode : length (pinmode d) = 10%nat /\ Forall word (pinmode d);
  rw_FIO : length (FIO d) = 160%nat /\ Forall word (FIO d);
  rw_bcfg : length (bcfg d) = 4%nat /\ Forall word (bcfg d);
  rw_pll : Forall word [pll_con (pll d); pll_cfg (pll d); pll_stat (pll d); pll_feed (pll d)];
  rw_words : Forall word [syscon d; pconp d; mmcr d; vibdiv d; pclksel0 d; pclksel1 d; sec d;
    rtc_min d; hour d; dom d; dow d; doy d; month d; year d; preint d; prefrac d; ccr d;
    mamcr d; mamtim d]
}.

(** With [strict] the priorities are as they have to be. *)
Record machine_ok {host} (strict : bool) (s : machine host) : Prop := {
  mw_vic : vic_ok strict (vic (io s));
  mw_timer : length (timer (io s)) = 4%nat /\ Forall timer_wf (timer (io s));
  mw_uart : length (uart (io s)) = 4%nat /\ Forall uart_wf (uart (io s));
  mw_regs : regs_wf (io s);
  mw_uartcnt : 0 <= uartcnt s <= UART_INT_CYCLE
}.
Arguments mw_vic {host strict} s _. Arguments mw_timer {host strict} s _. Arguments mw_uart {host strict} s _.
Arguments mw_regs {host strict} s _. Arguments mw_uartcnt {host strict} s _.
Definition machine_wf {host} : machine host -> Prop := machine_ok true.

(** Splits a list of words into its elements. *)
Ltac split_words W :=
  repeat (apply Forall_cons_1 in W; let a := fresh "Hw" in destruct W as [a W]); clear W.
Ltac all_words := solve [repeat (apply Forall_cons_2; [auto 7 with words|]); apply Forall_nil_2].
Ltac timer_wf_step H :=
  let W := fresh in pose proof (tw_words _ H) as W; split_words W; constructor; upds;
  [first [apply (tw_mr _ H) | rewrite ?length_wr; split; [apply (tw_mr _ H)|repeat apply Forall_wr; try apply (tw_mr _ H); auto with words]]
  |all_words].
Ltac regs_wf_step H :=
  let W := fresh in pose proof (rw_words _ H) as W; split_words W;
  let W' := fresh in pose proof (rw_pll _ H) as W'; split_words W';
  constructor; upds;
  first [ assumption | apply H | all_words
        | rewrite ?length_wr; split; [apply H|repeat apply Forall_wr; try apply H; auto with words] ].

Section Preserve.
Context {host : Type} `{!UartDriver host} {strict : bool}.
Implicit Type s : machine host.

Lemma tmr_wf i s : machine_ok strict s -> 0 <= i < 4 -> timer_wf (tmr s i).
Proof.
  intros [_ [Hl HF] _ _ _] Hi. unfold tmr. destruct (lookup_lt_is_Some_2 (timer (io s)) (Z.to_nat i)) as [x Hx]; [lia|].
  rewrite (nth_lookup_Some _ _ _ _ Hx). rewrite Forall_lookup in HF. by eapply HF.
Qed.

Lemma uar_wf i s : machine_ok strict s -> 0 <= i < 4 -> uart_wf (uar s i).
Proof.
  intros [_ _ [Hl HF] _ _] Hi. unfold uar. destruct (lookup_lt_is_Some_2 (uart (io s)) (Z.to_nat i)) as [x Hx]; [lia|].
  rewrite (nth_lookup_Some _ _ _ _ Hx). rewrite Forall_lookup in HF. by eapply HF.
Qed.

Lemma wf_upd_regs f s :
  (forall d, vic (f d) = vic d /\ timer (f d) = timer d /\ uart (f d) = uart d) ->
  machine_ok strict s -> regs_wf (f (io s)) -> machine_ok strict (upd_io f s).
Proof.
  intros Hf [Hv Ht Hu Hr Hc] H. destruct (Hf (io s)) as (Ev & Et & Eu). unfold upd_io.
  constructor; upds; rewrite ?Ev, ?Et, ?Eu; done.
Qed.

Lemma regs_wf_ext d d' :
  regs_wf d -> d' <| vic := vic d |> <| timer := timer d |> <| uart := uart d |> = d -> regs_wf d'.
Proof.
  intros H E. rewrite <- E in H. destruct H as [H1 H2 H3 H4 H5 H6]. revert H1 H2 H3 H4 H5 H6. upds.
  by constructor.
Qed.

Lemma wf_upd_vic f s : machine_ok strict s -> vic_ok strict (f (vic (io s))) -> machine_ok strict (upd_vic f s).
Proof.
  intros [Hv Ht Hu Hr Hc] H. unfold upd_vic, upd_io. constructor; upds; try done.
  apply (regs_wf_ext (io s)); [done|]. by destruct (io s).
Qed.

Lemma wf_upd_timer i f s :
  machine_ok strict s -> timer_wf (f (tmr s i)) -> machine_ok strict (upd_timer i f s).
Proof.
  intros [Hv [Hl Ht] Hu Hr Hc] H. unfold upd_timer, upd_io. cbv zeta. constructor; upds; try done.
  - split; [by rewrite length_wr|]. by apply Forall_wr.
  - apply (regs_wf_ext (io s)); [done|]. by destruct (io s).
Qed.

Lemma wf_upd_uart i f s :
  machine_ok strict s -> uart_wf (f (uar s i)) -> machine_ok strict (upd_uart i f s).
Proof.
  intros [Hv Ht [Hl Hu] Hr Hc] H. unfold upd_uart, upd_io. cbv zeta. constructor; upds; try done.
  - split; [by rewrite length_wr|]. by apply Forall_wr.
  - apply (regs_wf_ext (io s)); [done|]. by destruct (io s).
Qed.

Lemma wf_upd_dev h s : machine_ok strict s -> machine_ok strict (s <| dev := h |>).
Proof. intros [Hv Ht Hu Hr Hc]. constructor; upds; done. Qed.

Lemma wf_update_int s : machine_ok strict s -> outcome strict (machine_ok strict) (lpc2300_update_int s).
Proof.
  intros [Hv Ht Hu Hr Hc]. pose proof (update_int_ok strict s Hv) as Hv'.
  destruct (lpc2300_update_int s) as [s'|] eqn:E; [|exact Hv']. cbn [outcome] in *.
  destruct (update_int_inv s s' E) as [_ (Hio & Hn & _)]. constructor; rewrite ?Hn; try done.
  - rewrite Hio. by upds.
  - rewrite Hio. by upds.
  - apply (regs_wf_ext (io s)); [done|]. rewrite Hio. by destruct (io s).
Qed.

(** *** The operations one by one

    [safe f] says that an operation is defined on well-formed machines and
    keeps them so. *)

Definition safe (f : machine host -> option (machine host)) : Prop :=
  forall s, machine_ok strict s -> outcome strict (machine_ok strict) (f s).

Lemma safe_pure (f : machine host -> machine host) :
  (forall s, machine_ok strict s -> machine_ok strict (f s)) -> safe (fun s => Some (f s)).
Proof. intros H s Hs. exact (H s Hs). Qed.

Lemma safe_update_int : safe lpc2300_update_int.
Proof. intros s. apply wf_update_int. Qed.

Lemma word_IRQTIMER i : 0 <= i < 4 -> word (IRQTIMER i).
Proof. intros. unfold IRQTIMER. apply word_BITMSK. destruct (Z.ltb_spec i 2); lia. Qed.
Lemma word_IRQUART i : 0 <= i < 4 -> word (IRQUART i).
Proof. intros. unfold IRQUART. apply word_BITMSK. destruct (Z.ltb_spec i 2); lia. Qed.

Lemma wf_set_source m s : word m -> machine_ok strict s ->
  machine_ok strict (upd_vic (fun v => v <| INTSOURCE ::= fun x => x ||| m |>) s).
Proof. intros Hm H. apply wf_upd_vic; [done|]. pose proof (mw_vic _ H) as Hv. vic_wf_step Hv. Qed.

Lemma wf_clear_source m s : machine_ok strict s -> machine_ok strict (clear_source m s).
Proof. intros H. apply wf_upd_vic; [done|]. pose proof (mw_vic _ H) as Hv. vic_wf_step Hv. Qed.

(** **** Timers *)

Lemma safe_timer_match i ntc n : 0 <= i < 4 -> 0 <= n < 4 -> safe (timer_match i ntc n).
Proof.
  intros Hi Hn s H. unfold timer_match. destruct (ntc =? _); [|exact H].
  pose proof (word_BITMSK n ltac:(lia)) as Hb. pose proof (word_IRQTIMER i Hi) as Ht.
  set (v := _ >>> (3 * n)). clearbody v.
  assert (H1 : machine_ok strict (if truth (v &&& 4) then upd_timer i (fun t => t <| t_tcr ::= fun x => x &&~ 1 |>) s else s)).
  { destruct (truth _); [|done]. apply wf_upd_timer; [done|]. pose proof (tmr_wf i s H Hi) as Hw. timer_wf_step Hw. }
  set (s1 := if truth (v &&& 4) then _ else s) in *. clearbody s1.
  assert (H2 : machine_ok strict (if truth (v &&& 2) then upd_timer i (fun t => t <| t_tc := 0 |>) s1 else s1)).
  { destruct (truth _); [|done]. apply wf_upd_timer; [done|]. pose proof (tmr_wf i s1 H1 Hi) as Hw. timer_wf_step Hw. }
  set (s2 := if truth (v &&& 2) then _ else s1) in *. clearbody s2.
  destruct (_ && _); [|exact H2]. apply wf_update_int, wf_set_source; [done|].
  apply wf_upd_timer; [done|]. pose proof (tmr_wf i s2 H2 Hi) as Hw. timer_wf_step Hw.
Qed.

Lemma safe_timer_cycle i : 0 <= i < 4 -> safe (timer_cycle i).
Proof.
  intros Hi s H. unfold timer_cycle. pose proof (tmr_wf i s H Hi) as Hw.
  destruct (negb (timer_powered _ _)); [exact H|].
  destruct (truth (t_tcr (tmr s i) &&& 2)).
  { cbn [outcome]. apply wf_upd_timer; [done|]. timer_wf_step Hw. }
  destruct (truth (t_tcr (tmr s i) &&& 1)); [|exact H].
  assert (H1 : machine_ok strict (if negb (truth (t_ctcr (tmr s i) &&& 3))
    then upd_timer i (fun t => t <| t_pc ::= fun x => add32 x 1 |>) s else s)).
  { destruct (negb _); [|done]. apply wf_upd_timer; [done|]. timer_wf_step Hw. }
  set (s1 := if negb (truth (t_ctcr _ &&& 3)) then _ else s) in *. clearbody s1.
  destruct (_ && _); [|exact H1].
  apply outcome_loop; [|intros; by apply safe_timer_match].
  apply wf_upd_timer; [done|]. pose proof (tmr_wf i s1 H1 Hi) as Hw1. timer_wf_step Hw1.
Qed.

Lemma safe_timer_write addr data i : word data -> 0 <= i < 4 -> safe (lpc2300_timer_write addr data i).
Proof.
  intros Hd Hi s H. pose proof (tmr_wf i s H Hi) as Hw. unfold lpc2300_timer_write.
  destruct (_ =? 0x00).
  { assert (H1 : machine_ok strict (if truth (data &&& t_ir (tmr s i) &&& 0x3f) then
      upd_timer i (fun t => t <| t_ir := 0 |>) (clear_source (IRQTIMER i) s) else s)).
    { destruct (truth _); [|done]. pose proof (wf_clear_source (IRQTIMER i) s H) as H1.
      apply wf_upd_timer; [done|]. pose proof (tmr_wf i _ H1 Hi) as Hw1. timer_wf_step Hw1. }
    unfold clear_source in H1. set (s1 := if truth _ then _ else s) in *. clearbody s1.
    destruct (truth _); [by apply wf_update_int|exact H1]. }
  destruct (_ =? 0x04).
  { assert (H1 : machine_ok strict (upd_timer i (fun t => t <| t_tcr := data |>) s)).
    { apply wf_upd_timer; [done|]. timer_wf_step Hw. }
    cbn [outcome]. destruct (truth _); [|done]. apply wf_upd_timer; [done|].
    pose proof (tmr_wf i _ H1 Hi) as Hw1. timer_wf_step Hw1. }
  repeat (case_match; [cbn [outcome]; apply wf_upd_timer; [done|]; timer_wf_step Hw|]).
  exact H.
Qed.

(** **** UARTs *)

Lemma wf_iir i m v s : 0 <= i < 4 -> word v -> machine_ok strict s ->
  machine_ok strict (upd_uart i (fun u => u <| iir ::= fun x => x &&~ m ||| v |>) s).
Proof. intros Hi Hv H. apply wf_upd_uart; [done|]. pose proof (uar_wf i s H Hi) as Hw. uart_wf_step Hw. Qed.

Lemma safe_uart_end_int i c : 0 <= i < 4 -> safe (uart_end_int i c).
Proof.
  intros Hi s H. unfold uart_end_int. destruct (_ && _); [|exact H].
  apply wf_update_int, wf_iir; [done|by compute|done].
Qed.

Lemma wf_uart_receive i c s : 0 <= i < 4 -> byte c -> machine_ok strict s -> machine_ok strict (uart_receive i c s).
Proof.
  unfold byte. intros Hi Hc H. apply wf_upd_uart; [done|]. pose proof (uar_wf i s H Hi) as Hw. uart_wf_step Hw.
Qed.

Lemma wf_uart_raise i id s : 0 <= i < 4 -> word id -> machine_ok strict s -> machine_ok strict (uart_raise i id s).
Proof. intros. apply wf_set_source; [by apply word_IRQUART|]. by apply wf_iir. Qed.

Lemma wf_uart_transmit i s : 0 <= i < 4 -> machine_ok strict s -> machine_ok strict (lpc2300_uart_transmit i s).2.
Proof.
  intros Hi H. unfold lpc2300_uart_transmit. cbv zeta.
  assert (H1 : machine_ok strict (upd_uart i transmit_load s)).
  { apply wf_upd_uart; [done|]. apply (transmit_load_facts _ (uar_wf i s H Hi)). }
  set (s1 := upd_uart i transmit_load s) in *. clearbody s1. pose proof (uar_wf i s1 H1 Hi) as Hw.
  pose proof (uart_wf_deq _ Hw) as Hw'. destruct (0 <? _); [|done].
  destruct (skyeye_uart_write _ _ _) as [n h]. pose proof (wf_upd_dev h s1 H1) as H2.
  set (u' := (TxFIFO_deq (uar s1 i)).2) in *. clearbody u'.
  destruct (0 <? n); [|done]. destruct (_ && _); cbn [snd]; apply wf_upd_uart; try done.
  uart_wf_step Hw'.
Qed.

(** A read returns a word. *)
Definition safe_read (f : machine host -> option (Z * machine host)) : Prop :=
  forall s, machine_ok strict s -> outcome strict (fun p => word p.1 /\ machine_ok strict p.2) (f s).

Lemma safe_read_after c (g : machine host -> machine host) i (data : machine host -> Z) :
  0 <= i < 4 -> (forall s, machine_ok strict s -> machine_ok strict (g s)) -> (forall s, machine_ok strict s -> word (data s)) ->
  forall s, machine_ok strict s ->
    outcome strict (fun p => word p.1 /\ machine_ok strict p.2) (s' ← uart_end_int i c (g s); Some (data s', s')).
Proof.
  intros Hi Hg Hd s H. eapply outcome_bind; [exact (safe_uart_end_int i c Hi (g s) (Hg s H))|].
  intros s' H'. split; [by apply Hd|exact H'].
Qed.

Lemma uar_words i s : 0 <= i < 4 -> machine_ok strict s ->
  word (rbr (uar s i)) /\ word (ier (uar s i)) /\ word (iir (uar s i)) /\ word (lcr (uar s i)) /\
  word (lsr (uar s i)) /\ word (msr (uar s i)) /\ word (scr (uar s i)) /\ word (dll (uar s i)) /\
  word (dlm (uar s i)).
Proof. intros Hi H. pose proof (uar_wf i s H Hi) as Hw. uart_words Hw. auto 10. Qed.

Lemma safe_uart_read addr i : 0 <= i < 4 -> safe_read (lpc2300_uart_read addr i).
Proof.
  intros Hi s H. pose proof (uar_words i s Hi H) as (H1 & H2 & H3 & H4 & H5 & H6 & H7 & H8 & H9).
  assert (Hpure : forall d, word d -> outcome strict (fun p => word p.1 /\ machine_ok strict p.2) (Some (d, s))) by done.
  unfold lpc2300_uart_read. cbv zeta. destruct (_ =? 0).
  { destruct (truth _); [by apply Hpure|].
    assert (Hs1 : machine_ok strict (upd_uart i (fun u => u <| lsr ::= fun x => x &&~ 1 |>) s)).
    { apply wf_upd_uart; [done|]. pose proof (uar_wf i s H Hi) as Hw. uart_wf_step Hw. }
    apply (safe_read_after _ (clear_source (IRQUART i)) i); [done|apply wf_clear_source| |done].
    intros s' Hs'. by apply uar_words. }
  destruct (_ =? 1); [apply Hpure; by destruct (truth _)|].
  destruct (_ =? 2).
  { apply (safe_read_after _ (clear_source (IRQUART i)) i (fun _ => _)); [done|apply wf_clear_source| |done].
    by intros s' Hs'. }
  destruct (_ =? 3); [by apply Hpure|].
  destruct (_ =? 5).
  { set (s1 := if _ && _ then _ else s). assert (Hs1 : machine_ok strict s1).
    { unfold s1. destruct (_ && _); [|done]. pose proof (skyeye_uart_read_byte i (dev s)) as Hb.
      destruct (skyeye_uart_read i (dev s)) as [[n buf] h]. pose proof (wf_upd_dev h s H).
      destruct (0 <? n); [by apply wf_uart_receive|done]. }
    clearbody s1. apply (safe_read_after _ (clear_source (IRQUART i)) i); [done|apply wf_clear_source| |done].
    intros s' Hs'. by apply uar_words. }
  destruct (_ =? 6).
  { apply (safe_read_after _ (clear_source (IRQUART i)) i (fun _ => _)); [done|apply wf_clear_source| |done].
    by intros s' Hs'. }
  destruct (_ =? 7); apply Hpure; [done|by compute].
Qed.

Lemma safe_uart_write addr data i : word data -> 0 <= i < 4 -> safe (lpc2300_uart_write addr data i).
Proof.
  intros Hd Hi s H. pose proof (uar_wf i s H Hi) as Hw. unfold lpc2300_uart_write. cbv zeta.
  destruct (_ =? 0).
  { destruct (truth _).
    { cbn [outcome]. apply wf_upd_uart; [done|]. uart_wf_step Hw. }
    pose proof (word_land_r data 0xff ltac:(by compute)) as Hc.
    assert (H1 : machine_ok strict (upd_uart i (fun u => u <| thr := data &&& 0xff |>) s)).
    { apply wf_upd_uart; [done|]. uart_wf_step Hw. }
    set (s1 := upd_uart i _ s) in *. clearbody s1. destruct (negb _).
    - destruct (skyeye_uart_write _ _ _) as [n h]. cbn [outcome].
      pose proof (wf_upd_dev h s1 H1) as H2. apply wf_upd_uart; [done|].
      pose proof (uar_wf i _ H2 Hi) as Hw2. uart_wf_step Hw2.
    - apply safe_uart_end_int; [done|]. pose proof (wf_clear_source (IRQUART i) s1 H1) as H2.
      apply wf_upd_uart; [done|]. pose proof (uar_wf i _ H2 Hi) as Hw2. uart_wf_step Hw2. }
  destruct (_ =? 1); [destruct (truth _)|];
    repeat (case_match; [|]); cbn [outcome];
    try done; apply wf_upd_uart; try done; uart_wf_step Hw.
Qed.

Lemma safe_uart_cycle i : 0 <= i < 4 -> safe (uart_cycle i).
Proof.
  intros Hi s H. unfold uart_cycle. destruct (negb (uart_powered _ _)); [exact H|].
  destruct (_ && truth (iir _ &&& 1)); [|exact H]. destruct (_ && truth (ier _ &&& 1)).
  - pose proof (skyeye_uart_read_byte i (dev s)) as Hb.
    destruct (skyeye_uart_read i (dev s)) as [[n buf] h]. pose proof (wf_upd_dev h s H).
    apply wf_update_int. destruct (0 <? n); [|done].
    apply wf_uart_raise; [done|by compute|by apply wf_uart_receive].
  - destruct (_ =? _); [|exact H]. pose proof (wf_uart_transmit i s Hi H) as H1.
    destruct (lpc2300_uart_transmit i s) as [res s1]. cbn [snd] in H1.
    destruct (_ && _); [|exact H1]. apply wf_update_int. apply wf_uart_raise; [done|by compute|done].
Qed.

(** **** The register file *)

Lemma wf_set_io d s :
  machine_ok strict s -> vic d = vic (io s) -> timer d = timer (io s) -> uart d = uart (io s) -> regs_wf d ->
  machine_ok strict (upd_io (fun _ => d) s).
Proof.
  intros [Hv Ht Hu Hr Hc] Ev Et Eu H. unfold upd_io. constructor; upds; rewrite ?Ev, ?Et, ?Eu; done.
Qed.

Lemma io_write_reg_facts addr data d d' :
  io_write_reg addr data d = Some d' -> word data -> regs_wf d ->
  vic d' = vic d /\ timer d' = timer d /\ uart d' = uart d /\ regs_wf d'.
Proof.
  unfold io_write_reg. intros E Hd H.
  repeat (case_match; [injection E as <-; upds; do 3 (split; [done|]); solve [done | regs_wf_step H]|]).
  done.
Qed.

Lemma io_read_reg_word addr d v :
  io_read_reg addr d = Some v -> vic_ok strict (vic d) -> regs_wf d -> word v.
Proof.
  unfold io_read_reg. intros E Hv H. vic_words Hv.
  let W := fresh in pose proof (rw_words _ H) as W; split_words W.
  let W := fresh in pose proof (rw_pll _ H) as W; split_words W.
  pose proof (fun i => word_rd (bcfg d) i (proj2 (rw_bcfg _ H))) as Hb.
  repeat (case_match; [injection E as <-; solve [auto | apply word_lor; [done|by compute]]|]). done.
Qed.

Lemma timer_read_word addr i s : 0 <= i < 4 -> machine_ok strict s -> word (lpc2300_timer_read addr i s).
Proof.
  intros Hi H. pose proof (tmr_wf i s H Hi) as Hw.
  let W := fresh in pose proof (tw_words _ Hw) as W; split_words W.
  pose proof (fun k => word_rd (t_mr (tmr s i)) k (proj2 (tw_mr _ Hw))) as Hm.
  unfold lpc2300_timer_read. repeat (case_match; [solve [auto]|]). by compute.
Qed.

Lemma word_prios v i : vic_ok strict v -> word (rd (VectPrio v) i).
Proof.
  intros [_ [_ HF] _ _]. apply word_rd. revert HF. apply Forall_impl. unfold word. intros x Hx. destruct strict; simpl in Hx; lia.
Qed.

Lemma safe_read_default addr : safe_read (io_read_default addr).
Proof.
  intros s H. unfold io_read_default.
  assert (Hpure : forall d, word d -> outcome strict (fun p => word p.1 /\ machine_ok strict p.2) (Some (d, s))) by done.
  pose proof (mw_vic _ H) as Hv. pose proof (mw_regs _ H) as Hr.
  repeat (case_match; [first [apply safe_uart_read; [lia|done]
    | apply Hpure; apply timer_read_word; [lia|done]
    | apply Hpure; by apply word_prios
    | apply Hpure; apply word_rd; first [apply Hv | apply Hr]]|]).
  apply Hpure. by compute.
Qed.

Lemma safe_read_word addr : safe_read (lpc2300_io_read_word addr).
Proof.
  intros s H. unfold lpc2300_io_read_word. destruct (_ =? _).
  - eapply outcome_bind; [exact (wf_update_int s H)|]. intros s' H'. split; [|exact H'].
    pose proof (mw_vic _ H) as Hv. by vic_words Hv.
  - destruct (io_read_reg addr (io s)) as [d|] eqn:E; [|by apply safe_read_default].
    split; [|exact H].
    by apply (io_read_reg_word addr (io s)); [|apply H..].
Qed.

(** A write of a word; with [strict], if it is an interrupt priority, one that
    is not negative as an [int]. *)
Definition write_ok (addr data : Z) : Prop :=
  word data /\ (strict = true -> sub32 addr 0xfffff200 <= 0x7c -> data < 2147483648).

Lemma wf_write_VAR : safe vic_write_VAR.
Proof.
  intros s H. unfold vic_write_VAR. pose proof (mw_vic _ H) as Hv.
  destruct (truth _).
  { cbn [outcome]. apply wf_upd_vic; [done|]. vic_wf_step Hv. }
  pose proof (first_in_service_spec (HWPrioMask (vic (io s)))) as (Hf & _).
  set (p := first_in_service _) in *. destruct (Z.ltb_spec p 16); [|exact H]. cbv zeta.
  set (n := rd (IRQNumber _) p). clearbody n.
  set (s1 := upd_vic _ s). assert (Hs1 : machine_ok strict s1).
  { apply wf_upd_vic; [done|]. apply vic_ok_end; [done|lia]. }
  clearbody s1.
  apply wf_update_int. destruct (n =? 6); [|destruct (n =? 7); [|done]]; apply wf_iir; done || lia || by compute.
Qed.

Lemma safe_write_vic addr data s k :
  word data -> machine_ok strict s -> outcome strict (machine_ok strict) k ->
  outcome strict (machine_ok strict) (io_write_vic addr data s k).
Proof.
  intros Hd H Hk. unfold io_write_vic. pose proof (mw_vic _ H) as Hv. pose proof (mw_regs _ H) as Hr.
  repeat (case_match; [lazymatch goal with
    | |- outcome _ _ (lpc2300_update_int _) => apply wf_update_int; apply wf_upd_vic; [done|]; vic_wf_step Hv
    | |- outcome _ _ (vic_write_VAR _) => by apply wf_write_VAR
    | |- outcome _ _ (Some (upd_vic _ _)) => cbn [outcome]; apply wf_upd_vic; [done|]; vic_wf_step Hv
    | |- outcome _ _ (Some (upd_io _ _)) => cbn [outcome]; apply wf_upd_regs; [by intros; upds|done|regs_wf_step Hr]
    | _ => exact H
    end|]).
  exact Hk.
Qed.

Lemma word_gpio_write ofs data fio :
  word data -> length fio = 160%nat /\ Forall word fio ->
  length (gpio_write ofs data fio) = 160%nat /\ Forall word (gpio_write ofs data fio).
Proof.
  intros Hd [Hl HF]. unfold gpio_write. pose proof (fun k => word_rd fio k HF) as Hw.
  repeat case_match; rewrite length_wr; (split; [done|]); apply Forall_wr; auto 8 with words.
Qed.

Lemma safe_write_default addr data :
  write_ok addr data -> safe (io_write_default addr data).
Proof.
  intros [Hd Hp] s H. unfold io_write_default. pose proof (mw_vic _ H) as Hv. pose proof (mw_regs _ H) as Hr.
  do 4 (case_match; [apply safe_uart_write; done || lia|]).
  do 4 (case_match; [apply safe_timer_write; done || lia|]).
  case_match; [cbn [outcome]; apply wf_upd_vic; [done|]; vic_wf_step Hv|].
  destruct (Z.leb_spec (sub32 addr 0xfffff200) 0x7c) as [Hl|].
  { cbn [outcome]. apply wf_upd_vic; [done|]. vic_wf_step Hv.
    unfold word in Hd. unfold prio_bound. destruct strict; [pose proof (Hp eq_refl Hl)|]; lia. }
  case_match; [cbn [outcome]; apply wf_upd_regs; [by intros; upds|done|]|].
  { pose proof (word_gpio_write (gpio_ofs addr) data _ Hd (rw_FIO _ Hr)). regs_wf_step Hr. }
  do 2 (case_match; [cbn [outcome]; apply wf_upd_regs; [by intros; upds|done|regs_wf_step Hr]|]).
  exact H.
Qed.

Lemma safe_write_word addr data : write_ok addr data -> safe (lpc2300_io_write_word addr data).
Proof.
  intros Hok s H. unfold lpc2300_io_write_word. apply safe_write_vic; [apply Hok|done|].
  destruct (io_write_reg addr data (io s)) as [d|] eqn:E; [|by apply safe_write_default].
  apply io_write_reg_facts in E as (Ev & Et & Eu & Hr); [|apply Hok|apply H].
  cbn [outcome]. by apply wf_set_io.
Qed.

Lemma safe_do_cycle : safe lpc2300_io_do_cycle.
Proof.
  intros s H. unfold lpc2300_io_do_cycle.
  eapply outcome_bind; [apply (outcome_loop strict (machine_ok strict)); [exact H|]; intros; by apply safe_timer_cycle|].
  intros s1 H1. eapply outcome_bind; [apply (outcome_loop strict (machine_ok strict)); [exact H1|]; intros; by apply safe_uart_cycle|].
  intros s2 [Hv Ht Hu Hr Hc]. cbn [outcome].
  destruct (Z.eqb_spec (uartcnt s2) 0); constructor; upds; try done; unfold UART_INT_CYCLE in *; lia.
Qed.

(** **** Reset *)

Lemma wf_fill (P : Z -> Prop) n v (l : list Z) :
  P v -> Forall P l -> Forall P (for_range 0 n (fun i l => wr l i v) l).
Proof. intros Hv Hl. apply (for_range_inv (Forall P)); [done|]. intros i x _ Hx. by apply Forall_wr. Qed.

Lemma length_fill n v (l : list Z) : length (for_range 0 n (fun i l => wr l i v) l) = length l.
Proof.
  apply (for_range_inv (fun l' => length l' = length l)); [done|]. intros i x _ Hx. by rewrite length_wr.
Qed.

Lemma vic_ok_reset v : vic_ok strict v -> vic_ok strict (vic_reset v).
Proof.
  intros H. unfold vic_reset. vic_words H. constructor; upds.
  - rewrite length_fill. split; [apply H|]. apply wf_fill; [by compute|apply H].
  - rewrite length_fill. split; [apply H|]. apply wf_fill; [unfold prio_bound; destruct strict; lia|apply H].
  - rewrite length_fill. split; [apply H|]. apply wf_fill; [lia|apply H].
  - all_words.
Qed.

Lemma timer_wf_reset t : timer_wf t -> timer_wf (timer_reset t).
Proof. intros H. unfold timer_reset. timer_wf_step H. Qed.

Lemma uart_wf_reset u : uart_wf u -> uart_wf (uart_reset u).
Proof. intros H. unfold uart_reset. uart_wf_step H; lia. Qed.

(** The parts of [lpc2300_io_reset] that go over the timers and UARTs. *)
Lemma wf_reset_timers s : machine_ok strict s -> machine_ok strict (for_range 0 4 (fun i s => upd_timer i timer_reset s) s).
Proof.
  intros H. apply (for_range_inv (machine_ok strict)); [done|]. intros i s' Hi Hs'.
  apply wf_upd_timer; [done|]. by apply timer_wf_reset, tmr_wf.
Qed.

Lemma wf_reset_uarts s : machine_ok strict s -> machine_ok strict (for_range 0 4 (fun i s => upd_uart i uart_reset s) s).
Proof.
  intros H. apply (for_range_inv (machine_ok strict)); [done|]. intros i s' Hi Hs'.
  apply wf_upd_uart; [done|]. by apply uart_wf_reset, uar_wf.
Qed.

Lemma wf_upd_core f s : machine_ok strict s -> machine_ok strict (s <| core ::= f |>).
Proof. intros [Hv Ht Hu Hr Hc]. constructor; upds; done. Qed.

Lemma wf_pll_reset s : machine_ok strict s -> machine_ok strict (upd_io pll_reset s).
Proof.
  intros H. unfold pll_reset. apply wf_upd_regs; [by intros; upds|done|]. pose proof (mw_regs _ H) as Hr.
  pose proof (word_BITMSK 10 ltac:(lia)). regs_wf_step Hr.
Qed.

Lemma wf_regs_reset s : machine_ok strict s -> machine_ok strict (upd_io regs_reset s).
Proof.
  intros H. unfold regs_reset. apply wf_upd_regs; [by intros; upds|done|]. pose proof (mw_regs _ H) as Hr.
  let W := fresh in pose proof (rw_words _ Hr) as W; split_words W.
  constructor; upds; rewrite ?length_wr, ?length_fill.
  - destruct (rw_pinsel _ Hr). split; [done|].
    apply Forall_wr; [by apply wf_fill; [by compute|]|by compute].
  - destruct (rw_pinmode _ Hr). split; [done|]. by apply wf_fill; [by compute|].
  - destruct (rw_FIO _ Hr). split; [done|]. by apply wf_fill; [by compute|].
  - destruct (rw_bcfg _ Hr). split; [done|]. by repeat (apply Forall_wr; [|by compute]).
  - apply (rw_pll _ Hr).
  - all_words.
Qed.

Lemma wf_io_reset s : machine_ok strict s -> machine_ok strict (lpc2300_io_reset s).
Proof.
  intros H. unfold lpc2300_io_reset. cbv zeta. apply wf_upd_core.
  pose proof (wf_reset_timers s H) as H1. set (s1 := for_range 0 4 _ s) in *. clearbody s1.
  pose proof (wf_pll_reset _ H1) as H2. set (s2 := upd_io pll_reset s1) in *. clearbody s2.
  assert (H3 : machine_ok strict (upd_vic vic_reset s2)).
  { apply wf_upd_vic; [done|]. apply vic_ok_reset, H2. }
  pose proof (wf_reset_uarts _ H3) as H4. set (s4 := for_range 0 4 _ _) in *. clearbody s4.
  by apply wf_regs_reset.
Qed.
End Preserve.

(** The machine before its first reset: all memory zero. *)
Lemma wf_zero_io {host} strict c n (h : host) : 0 <= n <= UART_INT_CYCLE -> machine_ok strict (mkMachine c zero_io n h).
Proof.
  intros Hn.
  assert (Hz : forall (P : Z -> Prop) k, P 0 -> length (replicate k 0) = k /\ Forall P (replicate k 0)).
  { intros P k HP. split; [apply length_replicate|by apply Forall_replicate]. }
  assert (H0 : word 0) by by compute.
  assert (Hw : forall k, Forall word (replicate k 0)) by (intros k; apply Hz; done).
  constructor; cbn [io timer uart vic uartcnt zero_io].
  - constructor; cbn; [apply (Hz _ 32%nat)|apply (Hz _ 32%nat)|apply (Hz _ 16%nat)|apply (Hw 13%nat)]; first [done|lia|destruct strict; simpl; lia].
  - split; [done|]. apply Forall_replicate.
    constructor; cbn; [by apply (Hz _ 4%nat)|apply (Hw 7%nat)].
  - split; [done|]. apply Forall_replicate.
    constructor; cbn; [apply (Hz _ 16%nat); unfold byte; lia|lia..|apply (Hw 11%nat)].
  - constructor; cbn; [by apply (Hz _ 11%nat)|by apply (Hz _ 10%nat)|by apply (Hz _ 160%nat)|by apply (Hz _ 4%nat)
      |apply (Hw 4%nat)|apply (Hw 19%nat)].
  - done.
Qed.

(** ** Sequences of operations *)

(** What the rest of the simulator does to the machine. *)
Inductive io_op :=
  | op_reset | op_cycle | op_update_int
  | op_read (addr : Z) | op_write (addr data : Z).

Section Run.
Context {host : Type} `{!UartDriver host}.
Implicit Type s : machine host.

(** The words the guest writes; with [strict], no interrupt priority of 2^31
    or more. *)
Definition op_ok (strict : bool) (o : io_op) : Prop :=
  match o with op_write addr data => write_ok (strict := strict) addr data | _ => True end.

Definition exec (o : io_op) s : option (machine host) :=
  match o with
  | op_reset => Some (lpc2300_io_reset s)
  | op_cycle => lpc2300_io_do_cycle s
  | op_update_int => lpc2300_update_int s
  | op_read addr => snd <$> lpc2300_io_read_word addr s
  | op_write addr data => lpc2300_io_write_word addr data s
  end.

(** The operations one after the other. *)
Fixpoint run (os : list io_op) s : option (machine host) :=
  match os with
  | [] => Some s
  | o :: os => exec o s ≫= run os
  end.

Lemma safe_exec strict o : op_ok strict o -> safe (strict := strict) (exec o).
Proof.
  intros Hok s H. destruct o as [| | |addr|addr data]; cbn [exec].
  - by apply wf_io_reset.
  - by apply safe_do_cycle.
  - by apply wf_update_int.
  - pose proof (safe_read_word addr s H) as Hr. destruct (lpc2300_io_read_word addr s) as [[d s']|]; [apply Hr|exact Hr].
  - by apply safe_write_word.
Qed.

Lemma safe_run strict os : Forall (op_ok strict) os -> safe (strict := strict) (run os).
Proof.
  induction 1 as [|o os Ho HF IH]; intros s H; [exact H|]. cbn [run].
  eapply outcome_bind; [by apply (safe_exec strict)|]. exact IH.
Qed.

(** C18: Any sequence of resets, cycles, interrupt updates and register accesses.
    Whatever words the guest writes, if the operations return, every register
    holds a word and every ring position, length and interrupt number is in
    its range.  They do return as long as the guest writes no interrupt
    priority of 2^31 or more, which is negative as an [int]: no shift is by a
    negative count and no index out of range ([1 << 31] counts as the word 2^31).  (With
    such a priority
    [update_int] can shift by a negative count; see
    [negative_priority_undefined].) *)
Theorem machine_stays_well_formed os s :
  (machine_ok false s -> Forall (op_ok false) os -> forall s', run os s = Some s' -> machine_ok false s') /\
  (machine_ok true s -> Forall (op_ok true) os -> exists s', run os s = Some s' /\ machine_ok true s').
Proof.
  split.
  - intros H HF s' E. pose proof (safe_run false os HF s H) as Hr. by rewrite E in Hr.
  - intros H HF. exact (outcome_total _ _ (safe_run true os HF s H)).
Qed.
End Run.

(** The guest enables and raises interrupt 4 at priority 3 and runs on; then
    at priority 2^31, where the operations do not all return. *)
Definition raise_at (priority : Z) : list io_op :=
  [op_reset; op_write 0xfffff210 priority; op_write 0xfffff010 0x10; op_write 0xfffff018 0x10; op_cycle; op_read 0xffffff00].
Definition machine_before_reset : machine (list Z * list Z * (list Z * list Z)) :=
  mkMachine zero_state zero_io UART_INT_CYCLE (([65], []), ([], [])).

Lemma negative_priority_undefined : run (raise_at 0x80000000) machine_before_reset = None.
Proof. by vm_compute. Qed.

Lemma machine_stays_well_formed_witness :
  (exists s', run (raise_at 3) machine_before_reset = Some s' /\ machine_ok true s') /\
  (forall s', run [op_reset; op_write 0xfffff210 0x80000000] machine_before_reset = Some s' -> machine_ok false s').
Proof.
  assert (forall strict, machine_ok strict machine_before_reset) as Hm.
  { intros strict. apply wf_zero_io. unfold UART_INT_CYCLE. lia. }
  split.
  - apply (machine_stays_well_formed (raise_at 3) machine_before_reset); [apply Hm|].
    repeat constructor; intros; lia.
  - apply (machine_stays_well_formed [op_reset; op_write 0xfffff210 0x80000000] machine_before_reset); [apply Hm|].
    repeat constructor; intros; done || lia.
Defined.
