(* ===== verification/LpcRegs.v ===== *)
(** * The registers of the LPC2300 as the guest sees them

    Reading back what was written, the masked access to the GPIO ports, and
    the state after reset. *)

From S2P Require Import Prelude Words Bits ArmState UartDev LpcState LpcVic LpcUart LpcTimer LpcIo LpcSafe.

(** ** Reading back *)

(** The registers that are plain storage: PCONP, IntSelect, the software
    priority mask, PLL control and configuration, the real-time clock, the
    memory accelerator and the peripheral clock selection; the external memory
    configuration, vector addresses, vector priorities, pin selection and pin
    modes; and the registers of the four timers from TC to MR3 with CTCR. *)
Definition plain_regs : list Z :=
  [0xe01fc0c4; 0xfffff00c; 0xfffff024; 0xe01fc080; 0xe01fc084;
   0xe0024008; 0xe0024080; 0xe0024084; 0xe0024020; 0xe0024024; 0xe0024028; 0xe002402c;
   0xe0024030; 0xe0024034; 0xe0024038; 0xe002403c; 0xe01fc000; 0xe01fc004; 0xe01fc1a8; 0xe01fc1ac].

Definition timer_base (i : Z) : Z :=
  if i =? 0 then 0xe0004000 else if i =? 1 then 0xe0008000 else if i =? 2 then 0xe0070000 else 0xe0074000.

Inductive stored_reg : Z -> Prop :=
  | stored_plain addr : addr ∈ plain_regs -> stored_reg addr
  | stored_bcfg k : 0 <= k < 4 -> stored_reg (0xffe00000 + 4 * k)
  | stored_VectAddr k : 0 <= k < 32 -> stored_reg (0xfffff100 + 4 * k)
  | stored_VectPrio k : 0 <= k < 32 -> stored_reg (0xfffff200 + 4 * k)
  | stored_pinsel k : 0 <= k < 11 -> stored_reg (0xe002c000 + 4 * k)
  | stored_pinmode k : 0 <= k < 10 -> stored_reg (0xe002c040 + 4 * k)
  | stored_timer i o : 0 <= i < 4 ->
      o ∈ [0x08; 0x0c; 0x10; 0x14; 0x18; 0x1c; 0x20; 0x24; 0x70] -> stored_reg (timer_base i + o).

Section Regs.
Context {host : Type} `{!UartDriver host}.
Implicit Type s : machine host.

Definition reads_back (addr data : Z) s : Prop :=
  exists s', lpc2300_io_write_word addr data s = Some s' /\
             lpc2300_io_read_word addr s' = Some (data, s').

(** Reading an array register after writing it. *)
Lemma array_reads_back addr data s s' (a : list Z) k n :
  lpc2300_io_write_word addr data s = Some s' ->
  lpc2300_io_read_word addr s' = Some (rd (wr a k data) k, s') ->
  length a = n -> 0 <= k < Z.of_nat n -> reads_back addr data s.
Proof. intros Hw Hr Hl Hk. exists s'. split; [done|]. rewrite Hr, rd_wr_eq by lia. done. Qed.

Lemma seq_cases (P : Z -> Prop) n : Forall P (seqZ 0 n) -> forall k, 0 <= k < n -> P k.
Proof. intros H k Hk. rewrite Forall_seqZ in H. apply H. lia. Qed.

Lemma plain_reads_back data s : forall addr, addr ∈ plain_regs -> reads_back addr data s.
Proof.
  apply list.Forall_forall. repeat (apply Forall_cons_2; [eexists; split; reflexivity|]). apply Forall_nil_2.
Qed.

(** The goals of an array: one for each index, by evaluation. *)
Ltac each_index a n :=
  apply seq_cases;
  match goal with |- Forall ?P ?l => let l' := eval vm_compute in l in change (Forall P l') end;
  repeat (apply Forall_cons_2;
    [cbv beta; lazymatch goal with |- reads_back ?addr ?data ?s =>
       let k := lazymatch addr with _ + 4 * ?k => k end in
       eapply (array_reads_back addr data s _ a k n); [reflexivity|reflexivity|assumption|lia] end|]);
  apply Forall_nil_2.

Lemma bcfg_reads_back data s :
  length (bcfg (io s)) = 4%nat -> forall k, 0 <= k < 4 -> reads_back (0xffe00000 + 4 * k) data s.
Proof. intros Hl. each_index (bcfg (io s)) 4%nat. Qed.
Lemma VectAddr_reads_back data s :
  length (VectAddr (vic (io s))) = 32%nat -> forall k, 0 <= k < 32 -> reads_back (0xfffff100 + 4 * k) data s.
Proof. intros Hl. each_index (VectAddr (vic (io s))) 32%nat. Qed.
Lemma VectPrio_reads_back data s :
  length (VectPrio (vic (io s))) = 32%nat -> forall k, 0 <= k < 32 -> reads_back (0xfffff200 + 4 * k) data s.
Proof. intros Hl. each_index (VectPrio (vic (io s))) 32%nat. Qed.
Lemma pinsel_reads_back data s :
  length (pinsel (io s)) = 11%nat -> forall k, 0 <= k < 11 -> reads_back (0xe002c000 + 4 * k) data s.
Proof. intros Hl. each_index (pinsel (io s)) 11%nat. Qed.
Lemma pinmode_reads_back data s :
  length (pinmode (io s)) = 10%nat -> forall k, 0 <= k < 10 -> reads_back (0xe002c040 + 4 * k) data s.
Proof. intros Hl. each_index (pinmode (io s)) 10%nat. Qed.

(** The register file passes a timer access on to the timer. *)
Definition timer_stored : list Z := [0x08; 0x0c; 0x10; 0x14; 0x18; 0x1c; 0x20; 0x24; 0x70].

Lemma timer_dispatch data s : forall i, 0 <= i < 4 -> forall o, o ∈ timer_stored ->
  lpc2300_io_write_word (timer_base i + o) data s = lpc2300_timer_write o data i s /\
  lpc2300_io_read_word (timer_base i + o) s = Some (lpc2300_timer_read o i s, s).
Proof.
  match goal with |- forall i, 0 <= i < 4 -> @?P i => apply (seq_cases P 4) end.
  match goal with |- Forall ?P ?l => let l' := eval vm_compute in l in change (Forall P l') end.
  repeat (apply Forall_cons_2; [apply list.Forall_forall; repeat (apply Forall_cons_2; [split; reflexivity|]); apply Forall_nil_2|]).
  apply Forall_nil_2.
Qed.

Lemma timer_write_read data i s : 0 <= i < 4 -> machine_wf s -> forall o, o ∈ timer_stored ->
  exists s', lpc2300_timer_write o data i s = Some s' /\ lpc2300_timer_read o i s' = data.
Proof.
  intros Hi H. destruct (mw_timer _ H) as [Hl _]. pose proof (tw_mr _ (tmr_wf i s H Hi)) as [Hm _].
  apply list.Forall_forall. unfold timer_stored, lpc2300_timer_read.
  repeat (apply Forall_cons_2;
    [eexists; split; [reflexivity|]; rewrite tmr_upd_timer_eq by done; cbn -[upd]; upds;
     first [done|apply rd_wr_eq; lia]|]).
  apply Forall_nil_2.
Qed.

(** C23: Every plain register of the peripheral block reads back the word last
    written to it: PCONP, the interrupt selection and masks, the vector
    addresses and priorities, the PLL, memory controller and accelerator, clock
    and pin configuration, the real-time clock, and the counters, prescalers
    and match registers of the timers. *)
Theorem register_reads_back addr data s :
  machine_wf s -> stored_reg addr ->
  exists s', lpc2300_io_write_word addr data s = Some s' /\
             lpc2300_io_read_word addr s' = Some (data, s').
Proof.
  intros H Ha. pose proof (mw_vic _ H) as Hv. pose proof (mw_regs _ H) as Hr.
  destruct Ha as [addr Ha|k Hk|k Hk|k Hk|k Hk|k Hk|i o Hi Ho].
  - by apply plain_reads_back.
  - apply bcfg_reads_back; [apply (rw_bcfg _ Hr)|done].
  - apply VectAddr_reads_back; [apply (vw_VectAddr _ Hv)|done].
  - apply VectPrio_reads_back; [apply (vw_VectPrio _ Hv)|done].
  - apply pinsel_reads_back; [apply (rw_pinsel _ Hr)|done].
  - apply pinmode_reads_back; [apply (rw_pinmode _ Hr)|done].
  - destruct (timer_write_read data i s Hi H o Ho) as (s' & Hw & Hrd). exists s'.
    rewrite (proj1 (timer_dispatch data s i Hi o Ho)), (proj2 (timer_dispatch data s' i Hi o Ho)).
    by rewrite Hw, Hrd.
Qed.
End Regs.

(** Match register 1 of timer 2. *)
Lemma register_reads_back_witness :
  let s := mkMachine zero_state zero_io UART_INT_CYCLE (([65], []), ([], [])) in
  exists s', lpc2300_io_write_word 0xe007001c 1234 s = Some s' /\
             lpc2300_io_read_word 0xe007001c s' = Some (1234, s').
Proof.
  cbv zeta. set (s := mkMachine _ _ _ _).
  destruct (register_reads_back 0xe007001c 1234 s) as (s' & Hw & Hr).
  - apply wf_zero_io. unfold UART_INT_CYCLE. lia.
  - apply (stored_timer 2 0x1c); [lia|]. do 5 apply list_elem_of_further. apply list_elem_of_here.
  - by exists s'.
Defined.

(** ** Index ranges *)

(** Every array index the register file computes from an address is in
    range, for all 2^32 addresses: the vector addresses and priorities, the
    pin selection and pin mode registers, and the GPIO block at its fast and
    its legacy addresses, with the mask four bytes below a masked register. *)
Theorem register_indices_in_range addr :
  word addr ->
  (sub32 addr 0xfffff100 <= 0x7c -> 0 <= sub32 addr 0xfffff100 / 4 < 32) /\
  (sub32 addr 0xfffff200 <= 0x7c -> 0 <= sub32 addr 0xfffff200 / 4 < 32) /\
  (sub32 addr 0xe002c000 <= 0x28 -> 0 <= sub32 addr 0xe002c000 / 4 < 11) /\
  (sub32 addr 0xe002c040 <= 0x24 -> 0 <= sub32 addr 0xe002c040 / 4 < 10) /\
  (in_gpio addr = true -> 0 <= gpio_ofs addr < 160 /\
     (0x14 <= gpio_ofs addr &&& 0x1f -> 0 <= gpio_ofs addr - 4)).
Proof.
  intros Ha. assert (Hs : forall b, 0 <= sub32 addr b) by (intros b; apply (word_sub32 addr b)).
  assert (Hdiv : forall x n, 0 <= x <= 4 * n -> 0 <= x / 4 < n + 1).
  { intros x n Hx. Z.div_mod_to_equations. lia. }
  split; [|split; [|split; [|split]]].
  - intros H. apply (Hdiv _ 31). split; [apply Hs|lia].
  - intros H. apply (Hdiv _ 31). split; [apply Hs|lia].
  - intros H. apply (Hdiv _ 10). split; [apply Hs|lia].
  - intros H. apply (Hdiv _ 9). split; [apply Hs|lia].
  - intros H. assert (Hofs : 0 <= gpio_ofs addr < 160).
    { revert H. unfold in_gpio, gpio_ofs, sub32, u32. unfold word in Ha.
      rewrite orb_true_iff, !Z.ltb_lt. cases_Z; Z.div_mod_to_equations; lia. }
    split; [done|]. intros Hm. pose proof (land_le_l (gpio_ofs addr) 0x1f). lia.
Qed.

Lemma register_indices_in_range_witness :
  word 0xe002801c /\ in_gpio 0xe002801c = true /\ gpio_ofs 0xe002801c = 0x3c /\ 0 <= gpio_ofs 0xe002801c < 160.
Proof.
  destruct (register_indices_in_range 0xe002801c) as (_ & _ & _ & _ & H); [by compute|].
  split; [by compute|]. split; [reflexivity|]. split; [reflexivity|]. by apply H.
Defined.

(** ** GPIO *)

(** Bit [k] of the register at offset [ofs] after [data] is written, from
    its old value and the word four bytes below. *)
Definition gpio_bit (ofs below old data k : Z) : bool :=
  if ofs =? 0x14 then if Z.testbit below k then Z.testbit old k else Z.testbit data k
  else if ofs =? 0x1c then Z.testbit old k && (Z.testbit below k || negb (Z.testbit data k))
  else Z.testbit data k.

Definition gpio_regs : list Z := [0x00; 0x10; 0x14; 0x18; 0x1c].

Lemma gpio_write_bits ofs data fio k :
  length fio = 160%nat -> 0 <= ofs < 160 -> (ofs &&& 0x1f) ∈ gpio_regs -> word data -> 0 <= k < 32 ->
  Z.testbit (rd (gpio_write ofs data fio) ofs) k =
  gpio_bit (ofs &&& 0x1f) (rd fio (ofs - 4)) (rd fio ofs) data k.
Proof.
  intros Hl Ho Hr Hd Hk. unfold gpio_write, gpio_bit. revert Hr. generalize (ofs &&& 0x1f) as r.
  apply list.Forall_forall. unfold gpio_regs.
  repeat (apply Forall_cons_2; [cbn -[Z.testbit rd wr not32 Z.land Z.lor Z.ldiff Z.sub]; rewrite rd_wr_eq by lia; autorewrite with tbits|]);
    try apply Forall_nil_2; try done.
  - by destruct (Z.testbit data k), (Z.testbit (rd fio (ofs - 4)) k), (Z.testbit (rd fio ofs) k).
  - destruct (Z.leb_spec 0 k), (Z.ltb_spec k 32); try lia.
    by destruct (Z.testbit data k), (Z.testbit (rd fio (ofs - 4)) k), (Z.testbit (rd fio ofs) k).
Qed.

Lemma gpio_write_others ofs data fio j :
  0 <= ofs -> 0 <= j -> j <> ofs -> rd (gpio_write ofs data fio) j = rd fio j.
Proof. intros. unfold gpio_write. repeat case_match; apply rd_wr_ne; done || lia. Qed.

Section Gpio.
Context {host : Type} `{!UartDriver host}.
Implicit Type s : machine host.

Lemma gpio_dispatch data s : forall p, 0 <= p < 5 -> forall o, o ∈ gpio_regs ->
  lpc2300_io_write_word (0x3fffc000 + 0x20 * p + o) data s =
    Some (upd_io (fun d => d <| FIO ::= gpio_write (0x20 * p + o) data |>) s) /\
  lpc2300_io_read_word (0x3fffc000 + 0x20 * p + o) s = Some (rd (FIO (io s)) (0x20 * p + o), s) /\
  (0x20 * p + o) &&& 0x1f = o.
Proof.
  match goal with |- forall i, 0 <= i < 5 -> @?P i => apply (seq_cases P 5) end.
  match goal with |- Forall ?P ?l => let l' := eval vm_compute in l in change (Forall P l') end.
  repeat (apply Forall_cons_2; [apply list.Forall_forall; repeat (apply Forall_cons_2; [split; [reflexivity|split; reflexivity]|]); apply Forall_nil_2|]).
  apply Forall_nil_2.
Qed.

(** C24: What a write to a register of GPIO port [p] does, bit by bit: FIOPIN
    takes the bits of the data that FIOMASK does not mask and keeps the
    others; FIOCLR keeps its own set bits where the data is clear or FIOSET is
    set; FIODIR, FIOMASK and FIOSET take the data.  The register reads back
    as written and no other register of any port changes, in particular
    neither FIOSET nor FIOCLR changes FIOPIN. *)
Theorem gpio_register_write p o data s :
  0 <= p < 5 -> o ∈ gpio_regs -> word data -> machine_wf s ->
  let addr := 0x3fffc000 + 0x20 * p + o in let ofs := 0x20 * p + o in
  exists s', lpc2300_io_write_word addr data s = Some s' /\
  lpc2300_io_read_word addr s' = Some (rd (FIO (io s')) ofs, s') /\
  (forall k, 0 <= k < 32 -> Z.testbit (rd (FIO (io s')) ofs) k =
     gpio_bit o (rd (FIO (io s)) (ofs - 4)) (rd (FIO (io s)) ofs) data k) /\
  (forall j, 0 <= j -> j <> ofs -> rd (FIO (io s')) j = rd (FIO (io s)) j).
Proof.
  intros Hp Ho Hd H addr ofs. destruct (gpio_dispatch data s p Hp o Ho) as (Hw & _ & Hm).
  destruct (rw_FIO _ (mw_regs _ H)) as [Hl _].
  assert (Hr : 0 <= o < 32).
  { revert Ho. clear. revert o. apply list.Forall_forall. unfold gpio_regs. repeat constructor; lia. }
  eexists. split; [exact Hw|]. split; [by apply (gpio_dispatch data _ p Hp o Ho)|].
  unfold upd_io. upds. split.
  - intros k Hk. rewrite gpio_write_bits; subst ofs; [by rewrite Hm|done|lia|by rewrite Hm|done|done].
  - intros j Hj Hne. apply gpio_write_others; [lia|done|done].
Qed.
End Gpio.

(** FIOPIN of port 1 with nothing masked. *)
Lemma gpio_register_write_witness :
  let s := mkMachine zero_state zero_io UART_INT_CYCLE (([65], []), ([], [])) in
  exists s', lpc2300_io_write_word 0x3fffc034 0x40000 s = Some s' /\
    Z.testbit (rd (FIO (io s')) 0x34) 18 = true.
Proof.
  cbv zeta. set (s := mkMachine _ _ _ _).
  destruct (gpio_register_write 1 0x14 0x40000 s) as (s' & Hw & _ & Hb & _).
  - lia.
  - do 2 apply list_elem_of_further. apply list_elem_of_here.
  - by compute.
  - apply wf_zero_io. unfold UART_INT_CYCLE. lia.
  - exists s'. split; [exact Hw|]. etrans; [apply (Hb 18); lia|reflexivity].
Defined.
