(* ===== verification/LpcReset.v ===== *)
(** * Reset and idleness of the LPC2300

    What [lpc2300_io_reset] leaves behind, and that a machine that was just
    reset does nothing by itself. *)

From S2P Require Import Prelude Words Bits ArmState UartDev LpcState LpcVic LpcUart LpcTimer LpcIo LpcSafe.

(** The polling counter. *)
Lemma count_down n : 0 <= n ->
  (if 128 - n mod 129 =? 0 then UART_INT_CYCLE else 128 - n mod 129 - 1) = 128 - (n + 1) mod 129.
Proof.
  intros Hn. pose proof (Z.mod_pos_bound n 129 ltac:(lia)). rewrite <- Zplus_mod_idemp_l.
  destruct (Z.eqb_spec (128 - n mod 129) 0) as [E|E].
  - replace (n mod 129) with 128 by lia. done.
  - rewrite (Z.mod_small (n mod 129 + 1)) by lia. lia.
Qed.

Section Reset.
Context {host : Type} `{!UartDriver host}.
Implicit Type s : machine host.

(** A loop that updates each timer, or each UART. *)
Lemma all_timers (f : lpc2300_timer_t -> lpc2300_timer_t) s :
  length (timer (io s)) = 4%nat ->
  let s' := for_range 0 4 (fun i s => upd_timer i f s) s in
  (forall i, 0 <= i < 4 -> tmr s' i = f (tmr s i)) /\ vic (io s') = vic (io s).
Proof.
  intros Hl s'. destruct (for_range_ind (fun k s1 => length (timer (io s1)) = 4%nat /\
    vic (io s1) = vic (io s) /\ forall i, 0 <= i < 4 -> tmr s1 i = if i <? k then f (tmr s i) else tmr s i)
    0 4 (fun i s => upd_timer i f s) s) as (_ & Hv & Ht).
  - lia.
  - do 2 (split; [done|]). intros i Hi. by destruct (Z.ltb_spec i 0); [lia|].
  - intros i s1 Hi (Hl1 & Hv1 & Ht1). rewrite timers_upd_timer, vic_upd_timer. do 2 (split; [done|]).
    intros j Hj. destruct (Z.eq_dec j i) as [->|].
    + rewrite tmr_upd_timer_eq, Ht1 by (done || lia). cases_Z; done || lia.
    + rewrite tmr_upd_timer_ne, Ht1 by lia. cases_Z; done || lia.
  - split; [|done]. intros i Hi. rewrite Ht by done. by destruct (Z.ltb_spec i 4); [|lia].
Qed.

Lemma all_uarts (f : lpc2300_uart_t -> lpc2300_uart_t) s :
  length (uart (io s)) = 4%nat ->
  let s' := for_range 0 4 (fun i s => upd_uart i f s) s in
  (forall i, 0 <= i < 4 -> uar s' i = f (uar s i)) /\ vic (io s') = vic (io s) /\
  timer (io s') = timer (io s).
Proof.
  intros Hl s'. destruct (for_range_ind (fun k s1 => length (uart (io s1)) = 4%nat /\
    (vic (io s1) = vic (io s) /\ timer (io s1) = timer (io s)) /\
    forall i, 0 <= i < 4 -> uar s1 i = if i <? k then f (uar s i) else uar s i)
    0 4 (fun i s => upd_uart i f s) s) as (_ & [Hv Ht] & Hu).
  - lia.
  - do 2 (split; [done|]). intros i Hi. by destruct (Z.ltb_spec i 0); [lia|].
  - intros i s1 Hi (Hl1 & [Hv1 Ht1] & Hu1). rewrite uart_len_upd_uart, vic_upd_uart. split; [done|].
    split; [split; [done|]; unfold upd_uart, upd_io; cbv zeta; by upds|].
    intros j Hj. destruct (Z.eq_dec j i) as [->|].
    + rewrite uar_upd_uart_eq, Hu1 by (done || lia). cases_Z; done || lia.
    + rewrite uar_upd_uart_ne, Hu1 by lia. cases_Z; done || lia.
  - split; [|done]. intros i Hi. rewrite Hu by done. by destruct (Z.ltb_spec i 4); [|lia].
Qed.

(** Nothing happens to a stopped timer, nor to a UART whose interrupt is off. *)
Lemma timer_cycle_stopped i s : t_tcr (tmr s i) = 0 -> timer_cycle i s = Some s.
Proof. intros E. unfold timer_cycle. rewrite E. by destruct (negb _). Qed.

Lemma uart_cycle_off i s : IntEnable (vic (io s)) = 0 -> uart_cycle i s = Some s.
Proof. intros E. unfold uart_cycle. rewrite E. by destruct (negb _). Qed.

Lemma for_range_opt_id {A} lo hi body (a : A) :
  (forall i, lo <= i < hi -> body i a = Some a) -> for_range_opt lo hi body a = Some a.
Proof.
  intros H. destruct (for_range_opt_inv (fun x => x = a) lo hi body a) as (b & -> & ->); [done| |done].
  intros i x Hi ->. exists a. by rewrite H.
Qed.

(** Timers stopped, interrupts off. *)
Definition idle s : Prop :=
  (forall i, 0 <= i < 4 -> t_tcr (tmr s i) = 0) /\ IntEnable (vic (io s)) = 0.

Lemma idle_cycle s : idle s ->
  lpc2300_io_do_cycle s =
  Some (s <| uartcnt := if uartcnt s =? 0 then UART_INT_CYCLE else uartcnt s - 1 |>).
Proof.
  intros [Ht Hv]. unfold lpc2300_io_do_cycle. rewrite for_range_opt_id.
  - cbn [mbind option_bind]. rewrite for_range_opt_id; [|intros; by apply uart_cycle_off].
    cbn [mbind option_bind]. by destruct (uartcnt s =? 0).
  - intros i Hi. by apply timer_cycle_stopped, Ht.
Qed.

Lemma rd_fill n v l i : 0 <= i < n -> n <= Z.of_nat (length l) ->
  rd (for_range 0 n (fun i l => wr l i v) l) i = v.
Proof.
  intros Hi Hl. destruct (for_range_ind (fun k l' => length l' = length l /\
    forall j, 0 <= j < k -> rd l' j = v) 0 n (fun i l => wr l i v) l) as [_ H].
  - lia.
  - split; [done|lia].
  - intros k x Hk [Hx Hr]. rewrite length_wr. split; [done|]. intros j Hj.
    destruct (Z.eq_dec k j) as [->|]; [apply rd_wr_eq; lia|rewrite rd_wr_ne by lia; apply Hr; lia].
  - apply H. done.
Qed.

(** The stages of the reset. *)
Lemma pll_vic_reset_facts s :
  let s' := upd_vic vic_reset (upd_io pll_reset s) in
  uart (io s') = uart (io s) /\ timer (io s') = timer (io s) /\
  vic (io s') = vic_reset (vic (io s)) /\ FIO (io s') = FIO (io s).
Proof. unfold upd_vic, upd_io, pll_reset. cbv zeta. by upds. Qed.

Lemma regs_reset_facts s :
  let s' := (upd_io regs_reset s) <| core ::= fun c => c <| NirqSig := HIGH |> <| NfiqSig := HIGH |> |> in
  uart (io s') = uart (io s) /\ timer (io s') = timer (io s) /\ vic (io s') = vic (io s) /\
  pconp (io s') = 0x850ffe /\ NirqSig (core s') = HIGH /\ NfiqSig (core s') = HIGH /\
  FIO (io s') = for_range 0 160 (fun i l => wr l i 0) (FIO (io s)).
Proof. unfold upd_io, regs_reset. cbv zeta. by upds. Qed.

Lemma uarts_reset_FIO s :
  FIO (io (for_range 0 4 (fun i s => upd_uart i uart_reset s) s)) = FIO (io s).
Proof.
  apply (for_range_inv (fun s' => FIO (io s') = FIO (io s))); [done|]. intros k s' _ <-.
  unfold upd_uart, upd_io. cbv zeta. by upds.
Qed.

Lemma timers_reset_uar s i :
  uar (for_range 0 4 (fun i s => upd_timer i timer_reset s) s) i = uar s i.
Proof.
  apply (for_range_inv (fun s' => uar s' i = uar s i)); [done|]. intros k s' _ <-. apply uar_upd_timer.
Qed.

Lemma io_reset_facts s : machine_wf s ->
  let s' := lpc2300_io_reset s in
  (forall i, 0 <= i < 4 -> tmr s' i = timer_reset (tmr s i) /\ uar s' i = uart_reset (uar s i)) /\
  vic (io s') = vic_reset (vic (io s)) /\ pconp (io s') = 0x850ffe /\
  NirqSig (core s') = HIGH /\ NfiqSig (core s') = HIGH /\
  (forall j, 0 <= j < 160 -> rd (FIO (io s')) j = 0).
Proof.
  intros H s'. unfold lpc2300_io_reset in s'. cbv zeta in s'.
  pose proof (wf_reset_timers s H) as H1. pose proof (timers_reset_uar s) as Hu1.
  destruct (all_timers timer_reset s (proj1 (mw_timer _ H))) as [Ht Hv].
  set (s1 := for_range 0 4 (fun i s => upd_timer i timer_reset s) s) in *. clearbody s1.
  destruct (pll_vic_reset_facts s1) as (Eu2 & Et2 & Ev2 & Ef2).
  set (s2 := upd_vic vic_reset (upd_io pll_reset s1)) in *. clearbody s2.
  destruct (all_uarts uart_reset s2) as (Hu3 & Hv3 & Ht3); [rewrite Eu2; apply (mw_uart _ H1)|].
  pose proof (uarts_reset_FIO s2) as Ef3.
  set (s3 := for_range 0 4 (fun i s => upd_uart i uart_reset s) s2) in *. clearbody s3.
  destruct (regs_reset_facts s3) as (Eu & Et & Ev & Ep & Ei & Ef & EF). fold s' in Eu, Et, Ev, Ep, Ei, Ef, EF.
  clearbody s'. split; [|split; [|do 3 (split; [done|])]].
  - intros i Hi. split.
    + rewrite <- (Ht i Hi). unfold tmr. by rewrite Et, Ht3, Et2.
    + rewrite <- (Hu1 i). transitivity (uar s3 i); [unfold uar; by rewrite Eu|].
      rewrite (Hu3 i Hi). unfold uar. by rewrite Eu2.
  - by rewrite Ev, Hv3, Ev2, Hv.
  - intros j Hj. rewrite EF. apply rd_fill; [done|]. rewrite Ef3, Ef2.
    destruct (rw_FIO _ (mw_regs _ H1)) as [-> _]. lia.
Qed.

(** Nothing is pending: no interrupt in service or eligible and both pins high,
    the timers stopped at zero, the transmitters empty and ready, the GPIO
    registers zero. *)
Definition quiet (s : machine host) : Prop :=
  serving (vic (io s)) = [] /\ (forall k, ~ eligible (vic (io s)) k) /\
  NirqSig (core s) = HIGH /\ NfiqSig (core s) = HIGH /\
  (forall i, 0 <= i < 4 -> t_tc (tmr s i) = 0 /\ t_tcr (tmr s i) = 0 /\
     queue (uar s i) = [] /\ lsr (uar s i) = 0x60) /\
  (forall j, 0 <= j < 160 -> rd (FIO (io s)) j = 0).

(** C25: Reset quiesces the machine: no interrupt is in service or eligible and
    both interrupt pins are high, the four timers are stopped at zero, the
    transmit queues are empty with the transmitter ready, the GPIO registers
    are zero; and from then on cycles change nothing but the polling counter,
    which runs from 128 down to 0 and starts again. *)
Theorem reset_quiesces s (n : nat) :
  machine_wf s ->
  let s' := lpc2300_io_reset s in
  machine_wf s' /\ quiet s' /\
  (uartcnt s' = UART_INT_CYCLE ->
   Nat.iter n (fun o => o ≫= lpc2300_io_do_cycle) (Some s') =
   Some (s' <| uartcnt := 128 - Z.of_nat n mod 129 |>)).
Proof.
  intros H s'. destruct (io_reset_facts s H) as (Htu & Hv & _ & Hi & Hf & HF). fold s' in Htu, Hv, Hi, Hf, HF.
  split; [by apply wf_io_reset|]. split.
  { unfold quiet. rewrite Hv. split; [unfold serving, vic_reset; by upds|].
    split; [intros k (_ & Hk & _); revert Hk; unfold vic_reset; upds; by rewrite !Z.land_0_r, Z.ldiff_0_l, Z.bits_0|].
    do 2 (split; [done|]). split; [|done].
    intros i Hi'. destruct (Htu i Hi') as [-> ->]. unfold timer_reset, uart_reset, queue. by upds. }
  intros Hc.
  assert (Hidle : forall c, idle (s' <| uartcnt := c |>)).
  { intros c. split.
    - intros i Hi'. unfold tmr. upds. change (t_tcr (tmr s' i) = 0). destruct (Htu i Hi') as [-> _].
      unfold timer_reset. by upds.
    - upds. rewrite Hv. unfold vic_reset. by upds. }
  clearbody s'. induction n as [|n IH].
  - simpl. f_equal. clear -Hc. destruct s'. unfold upd. cbn in *. by subst.
  - rewrite Nat.iter_succ, IH. cbn [mbind option_bind]. rewrite idle_cycle by done. upds. f_equal.
    pose proof (Z.mod_pos_bound (Z.of_nat n) 129). rewrite Nat2Z.inj_succ, <- Z.add_1_r.
    pose proof (count_down (Z.of_nat n) ltac:(lia)) as E. destruct s'. unfold upd. cbn in *. f_equal. exact E.
Qed.
End Reset.
