(* ===== verification/LpcWitness.v ===== *)
(** * Concrete runs of the LPC2300 peripherals

    The theorems on the peripherals at concrete machines where their
    hypotheses hold. *)

From S2P Require Import Prelude Words Bits ArmState UartDev LpcState LpcVic LpcUart LpcTimer LpcIo LpcSafe LpcReset.

(** Discharges a well-formedness condition of a concrete record. *)
Ltac by_evaluation := lazymatch goal with |- ?P => apply (bool_decide_eq_true_1 P); vm_compute; reflexivity end.

Definition host0 : lines := (([65], []), ([], [])).
Definition machine0 : machine lines := mkMachine zero_state zero_io UART_INT_CYCLE host0.

(** ** The interrupt controller

    Lines 4 (priority 3) and 6 (priority 2) are enabled and active. *)
Definition vic46 : lpc2300_vic_t :=
  zero_vic <| SWPrioMask := 0xffff |> <| HWPrioMask := 0xffff |>
           <| VectPrio := wr (wr (replicate 32 15) 4 3) 6 2 |>
           <| VectAddr := wr (wr (replicate 32 0) 4 0x400) 6 0x600 |>
           <| IntEnable := 0x50 |> <| INTSOURCE := 0x50 |>.
Definition machine46 : machine lines := upd_vic (fun _ => vic46) machine0.

Lemma vic46_wf : vic_wf vic46.
Proof. constructor; by_evaluation. Qed.

Lemma update_int_arbitrates_witness :
  exists s', lpc2300_update_int machine46 = Some s' /\ serving (vic (io s')) = [(2, 6)] /\
    NirqSig (core s') = LOW.
Proof.
  destruct (update_int_arbitrates machine46 vic46_wf) as (s' & E & _ & _ & _ & _ & _ & _ & _ & Hc).
  exists s'. split; [exact E|].
  assert (Some s' = lpc2300_update_int machine46) as Es by by rewrite E.
  assert (Ev : vic (io s') = vic (io (default machine46 (lpc2300_update_int machine46)))) by by rewrite <- Es.
  assert (Ec : core s' = core (default machine46 (lpc2300_update_int machine46))) by by rewrite <- Es.
  clear Hc. rewrite Ev, Ec. split; vm_compute; reflexivity.
Defined.

(** The service of line 6 is ended: line 4 takes its place. *)
Definition machine6 : machine lines := default machine46 (lpc2300_update_int machine46).

Lemma write_VAR_pops_witness :
  serving (vic (io machine6)) = [(2, 6)] /\
  exists s', vic_write_VAR machine6 = Some s' /\ vic_wf (vic (io s')) /\
    (serving (vic (io s')) = [] \/ exists e, serving (vic (io s')) = [e]).
Proof.
  assert (Hwf : vic_wf (vic (io machine6))) by (constructor; by_evaluation).
  split; [vm_compute; reflexivity|].
  destruct (write_VAR_pops machine6 2 6 [] Hwf) as (s' & E & H & _ & _ & Hc & _).
  - vm_compute. reflexivity.
  - vm_compute. reflexivity.
  - exists s'. split; [exact E|]. split; [exact H|].
    destruct Hc as [Hc|(m & _ & Hc & _)]; [by left|right; by eexists].
Defined.

(** ** The transmit queue *)
Lemma TxFIFO_is_bounded_queue_witness :
  uart_wf zero_uart /\ (TxFIFO_enq zero_uart 65).1 = -1 /\ queue (TxFIFO_enq zero_uart 65).2 = [65].
Proof.
  assert (H : uart_wf zero_uart).
  { constructor; by_evaluation. }
  destruct (TxFIFO_is_bounded_queue zero_uart 65 H) as [He _]; [unfold byte; lia|].
  split; [exact H|]. destruct (TxFIFO_enq zero_uart 65) as [r u']. destruct He as [_ He].
  exact He.
Defined.

(** The guest writes 65 to THR of UART 0 with the transmit interrupt on, and it
    is sent; then it turns the interrupt off and polls 66. *)
Definition machine_tx : machine lines :=
  upd_uart 0 (fun u => u <| ier := 2 |> <| lsr := 0x60 |> <| iir := 1 |>) machine0.

Lemma uart_ok_tx : uart_ok 0 machine_tx.
Proof.
  split; [reflexivity|]. constructor; by_evaluation.
Qed.

Lemma uart_bytes_in_order_witness :
  let s1 := default machine_tx (lpc2300_uart_write 0xe000c000 65 0 machine_tx) in
  let s2 := (lpc2300_uart_transmit 0 s1).2 in
  sent 0 (dev s2) ++ unsent (uar s2 0) = [65] /\
  exists s3, lpc2300_uart_write 0xe000c000 66 0 (upd_uart 0 (fun u => u <| ier := 0 |>) s1) = Some s3 /\
    sent 0 (dev s3) = [66].
Proof.
  intros s1 s2. split.
  - assert (H : tx_steps 0 machine_tx [65] s2).
    { apply (tx_trans 0 machine_tx [65] s1 [] s2).
      - apply (tx_write 0 machine_tx 0xe000c000 65); [repeat split; vm_compute; reflexivity|vm_compute; reflexivity..].
      - apply (tx_trans 0 s1 [] s2 [] s2); [apply tx_transmit|apply tx_refl]. }
    destruct (uart_bytes_in_order 0 machine_tx ltac:(lia) uart_ok_tx) as [Ho _]. destruct (Ho [65] s2 H) as [_ E]. exact E.
  - set (s := upd_uart 0 (fun u => u <| ier := 0 |>) s1).
    assert (uart_ok 0 s) as Hok by (split; [reflexivity|]; constructor; by_evaluation).
    destruct (uart_bytes_in_order 0 s ltac:(lia) Hok) as [_ Hp].
    destruct (lpc2300_uart_write 0xe000c000 66 0 s) as [s3|] eqn:E; [|vm_compute in E; discriminate E].
    exists s3. split; [reflexivity|].
    destruct (Hp 0xe000c000 66 s3) as (_ & _ & Hs); [repeat split; vm_compute; reflexivity|exact E|]. exact Hs.
Defined.

(** ** A timer *)
Definition machine_timer : machine lines :=
  upd_timer 1 (fun t => t <| t_tcr := 1 |> <| t_mcr := 2 |> <| t_pr := 2 |> <| t_mr := [10; 0; 0; 0] |>)
    (upd_io (fun d => d <| pconp := 4 |>) machine0).

Lemma timer_counts_periodically_witness :
  Nat.iter 35 (fun o => o ≫= timer_cycle 1) (Some machine_timer) = Some (set_count 1 2 1 machine_timer).
Proof.
  refine (timer_counts_periodically 1 2 10 machine_timer 35 _ _ _ _ _ _); try lia; try reflexivity.
  constructor; reflexivity || (split; reflexivity).
Defined.

(** ** Reset *)
Lemma reset_quiesces_witness :
  machine_wf machine0 /\
  Nat.iter 130 (fun o => o ≫= lpc2300_io_do_cycle) (Some (lpc2300_io_reset machine0)) =
  Some ((lpc2300_io_reset machine0) <| uartcnt := 127 |>).
Proof.
  assert (H : machine_wf machine0) by (apply wf_zero_io; unfold UART_INT_CYCLE; lia).
  split; [exact H|]. destruct (reset_quiesces machine0 130 H) as (_ & _ & Hn).
  apply Hn. vm_compute. reflexivity.
Defined.
