(* ===== verification/LpcBoard.v ===== *)
(** * The LPC2300 as a board

    The machine of the LPC files behind the interface [Board] of Machine.v: its
    core, no further devices, and the operations [lpc2300_mach_init] installs. *)

From S2P Require Import Prelude Words ArmState UartDev Machine LpcState LpcIo.

#[export] Instance lpc2300_board {host} `{!UartDriver host} : Board (machine host).
Proof.
  refine {| bcore := core; set_bcore := fun c s => s <| core := c |>;
            devices := []; mach := lpc2300_machine |}.
  - done.
  - by intros [].
  - done.
Defined.
