(* ===== verification/ArmSys.v ===== *)
(** * The state of the whole system

    The parts of [ARMul_State] that armmem.c, the MMU and the cache work on,
    next to a machine [M] that holds the core: the memory banks and their
    contents, the registers of coprocessor 15 that are not in the core's
    record, and the translation buffer and cache of the ARM7100 MMU. *)

From S2P Require Import Prelude Words ArmState Machine.

(** ** Memory banks (armdefs.h, armmem.h)

    A bank holds six function pointers.  The configuration installs one of
    the [real_], [io_] and [warn_] functions of armmem.c and armio.c in each,
    or leaves it null.  (The [flash_] functions, which look for a device at the address, are not modelled.) *)
Inductive mem_fun := mem_real | mem_io | mem_warn.
#[export] Instance mem_fun_eq_dec : EqDecision mem_fun.
Proof. solve_decision. Defined.

Record mem_bank_t := mkBank {
  bk_addr : Z; bk_len : Z;
  bk_read : width -> option mem_fun;
  bk_write : width -> option mem_fun
}.

(** The banks in use end at the first one of length 0.  [rom] holds the
    words of each bank, [mbp] the static of [bank_ptr], a bank index. *)
Record mem_state_t := mkMem { mem_banks : list mem_bank_t; rom : list (list Z); mbp : option nat }.
#[export] Instance eta_mem : Eta mem_state_t := fun b => mkMem (mem_banks b) (rom b) (mbp b).

(** ** The translation buffer (tlb.h) *)
Inductive tlb_mapping_t :=
  TLB_INVALID | TLB_SMALLPAGE | TLB_LARGEPAGE | TLB_SECTION | TLB_ESMALLPAGE | TLB_TINYPAGE.
#[export] Instance tlb_mapping_eq_dec : EqDecision tlb_mapping_t.
Proof. solve_decision. Defined.

Definition tlb_masks (m : tlb_mapping_t) : Z :=
  match m with
  | TLB_INVALID => 0x00000000
  | TLB_SMALLPAGE => 0xFFFFF000
  | TLB_LARGEPAGE => 0xFFFF0000
  | TLB_SECTION => 0xFFF00000
  | TLB_ESMALLPAGE => 0xFFFFF000
  | TLB_TINYPAGE => 0xFFFFFC00
  end.

Record tlb_entry_t := mkEntry {
  te_virt_addr : Z; te_phys_addr : Z; te_perms : Z; te_domain : Z; te_mapping : tlb_mapping_t
}.
#[export] Instance eta_entry : Eta tlb_entry_t := fun e =>
  mkEntry (te_virt_addr e) (te_phys_addr e) (te_perms e) (te_domain e) (te_mapping e).
#[export] Instance entry_eq_dec : EqDecision tlb_entry_t.
Proof. solve_decision. Defined.

(** [num] is the number of entries, [cycle] the next one to replace. *)
Record tlb_t := mkTlb { tlb_num : Z; tlb_cycle : Z; entrys : list tlb_entry_t }.
#[export] Instance eta_tlb : Eta tlb_t := fun t => mkTlb (tlb_num t) (tlb_cycle t) (entrys t).

(** ** The cache (cache.h) *)
Record cache_line_t := mkLine { tag : Z; line_pa : Z; line_data : list Z }.
#[export] Instance eta_line : Eta cache_line_t := fun l => mkLine (tag l) (line_pa l) (line_data l).

Record cache_set_t := mkSet { lines_of : list cache_line_t; set_cycle : Z }.
#[export] Instance eta_set : Eta cache_set_t := fun c => mkSet (lines_of c) (set_cycle c).

Inductive cache_mode := CACHE_WRITE_BACK | CACHE_WRITE_THROUGH.
#[export] Instance cache_mode_eq_dec : EqDecision cache_mode.
Proof. solve_decision. Defined.

(** Bytes in a line, lines in a set, number of sets. *)
Record cache_t := mkCache {
  c_width : Z; c_way : Z; c_set : Z; c_w_mode : cache_mode; sets : list cache_set_t
}.
#[export] Instance eta_cache : Eta cache_t := fun c =>
  mkCache (c_width c) (c_way c) (c_set c) (c_w_mode c) (sets c).

(** ** Events and the validation coprocessor (armsupp.c, armcopro.c)

    The events that can be scheduled: a request on one of the two interrupt
    pins.  [EventPtr] holds the events of each of the 1024 cycles of the list. *)
Inductive event_fn := DoAFIQ | DoAIRQ.
#[export] Instance event_fn_eq_dec : EqDecision event_fn.
Proof. solve_decision. Defined.

Record event_state := mkEvents { EventSet : Z; Now : Z; EventPtr : list (list event_fn) }.
#[export] Instance eta_events : Eta event_state := fun e => mkEvents (EventSet e) (Now e) (EventPtr e).

(** The statics of the validation coprocessor: its registers, the words
    counters of [ValLDC] and [ValSTC], and the ends of the busy waits. *)
Record val_state := mkVal {
  ValReg : list Z; ldc_words : Z; stc_words : Z; val_finish : Z; int_finish : Z
}.
#[export] Instance eta_val : Eta val_state := fun v =>
  mkVal (ValReg v) (ldc_words v) (stc_words v) (val_finish v) (int_finish v).

(** ** The system

    [cpu_val], [armv4] (whether the architecture name is "armv4") and
    [instcache] (whether [skyeye_cachetype] is [INSTCACHE]) come from the
    processor's configuration; [prescale] is the static of armio.c. *)
Record system (M : Type) := mkSystem {
  board : M; ram : mem_state_t;
  translation_table_base : Z; domain_access_control : Z; process_id : Z;
  cpu_val : Z; armv4 : bool; instcache : bool;
  a71_tlb : tlb_t; a71_cache : cache_t; prescale : Z;
  events : event_state; val : val_state
}.
Arguments mkSystem {M} _ _ _ _ _ _ _ _ _ _ _ _ _.
Arguments board {M} _.
Arguments ram {M} _.
Arguments translation_table_base {M} _.
Arguments domain_access_control {M} _.
Arguments process_id {M} _.
Arguments cpu_val {M} _.
Arguments armv4 {M} _.
Arguments instcache {M} _.
Arguments a71_tlb {M} _.
Arguments a71_cache {M} _.
Arguments prescale {M} _.
Arguments events {M} _.
Arguments val {M} _.

#[export] Instance eta_system M : Eta (system M) := fun s => mkSystem
  (board s) (ram s) (translation_table_base s) (domain_access_control s) (process_id s)
  (cpu_val s) (armv4 s) (instcache s) (a71_tlb s) (a71_cache s) (prescale s)
  (events s) (val s).

Section Core.
Context {M : Type} `{!Board M}.
Implicit Type s : system M.

(** The core, and a change to it. *)
Definition cpu s : ARMul_State := bcore (board s).
Definition upd_cpu (f : ARMul_State -> ARMul_State) s : system M :=
  s <| board ::= fun m => set_bcore (f (bcore m)) m |>.

Lemma cpu_upd_cpu f s : cpu (upd_cpu f s) = f (cpu s).
Proof. apply bcore_set. Qed.
Lemma upd_cpu_twice f g s : upd_cpu f (upd_cpu g s) = upd_cpu (fun c => f (g c)) s.
Proof. unfold upd_cpu, upd. simpl. by rewrite set_bcore_twice, bcore_set. Qed.
Lemma upd_cpu_ext f g s : f (cpu s) = g (cpu s) -> upd_cpu f s = upd_cpu g s.
Proof. unfold upd_cpu, upd, cpu. simpl. by intros ->. Qed.
End Core.
