(* ===== verification/ArmMem.v ===== *)
(** * armmem.c: the memory map

    [bank_ptr] finds the bank of an address, the [mem_] functions dispatch an
    access to the functions of its bank, the [real_] functions access the
    contents of RAM and ROM, big- or little-endian.  [None] is undefined
    behaviour (an access outside an array) or the end of the simulation
    ([skyeye_exit]).  The profiling counters ([cov_prof]) and the dirty marks of
    the binary translator ([tb_setdirty], compiled out without [DBCT]) are left
    out, as are messages. *)

From S2P Require Import Prelude Words ArmState Machine ArmSys.

(** ** Finding the bank *)

Definition in_bank (b : mem_bank_t) (addr : Z) : bool :=
  (bk_addr b <=? addr) && (sub32 addr (bk_addr b) <? bk_len b).

(** The loop over the banks from index [i]: where it stops, and whether it
    found the address there. *)
Fixpoint bank_scan (addr : Z) (bs : list mem_bank_t) (i : nat) : option (nat * bool) :=
  match bs with
  | [] => None
  | b :: bs =>
      if bk_len b =? 0 then Some (i, false)
      else if in_bank b addr then Some (i, true) else bank_scan addr bs (S i)
  end.

Definition bank_ptr (addr : Z) (r : mem_state_t) : option (option nat * mem_state_t) :=
  if match mbp r ≫= fun i => mem_banks r !! i with Some b => in_bank b addr | None => false end
  then Some (mbp r, r)
  else '(i, found) ← bank_scan addr (mem_banks r) 0;
       Some (if found : bool then Some i else None, r <| mbp := Some i |>).

(** ** The contents of the banks *)

(** [state->mem.rom[i][(addr - mbp->addr) >> 2]]. *)
Definition rom_index (b : mem_bank_t) (addr : Z) : nat := Z.to_nat (sub32 addr (bk_addr b) >>> 2).
Definition rom_word (r : mem_state_t) (i : nat) (addr : Z) : option Z :=
  b ← mem_banks r !! i; ws ← rom r !! i; ws !! rom_index b addr.
Definition set_rom_word (i : nat) (addr v : Z) (r : mem_state_t) : mem_state_t :=
  match mem_banks r !! i with
  | Some b => r <| rom ::= alter (fun ws => <[rom_index b addr := v]> ws) i |>
  | None => r
  end.

(** The bit offset of a byte or halfword in its word. *)
Definition byte_offset (bigend addr : Z) : Z := ((bigend * 3) ^^^ (addr &&& 3)) <<< 3.
Definition half_offset (bigend addr : Z) : Z := ((bigend * 2) ^^^ (addr &&& 2)) <<< 3.

(** What an access of some width reads from the word it finds, and the word
    a write leaves. *)
Definition lane_get (bigend : Z) (w : width) (addr data : Z) : Z :=
  match w with
  | Byte => (data >>> byte_offset bigend addr) &&& 0xff
  | Half => (data >>> half_offset bigend addr) &&& 0xffff
  | Word => data
  end.
Definition lane_set (bigend : Z) (w : width) (addr data old : Z) : Z :=
  match w with
  | Byte => let offset := byte_offset bigend addr in
      (old &&~ (0xff <<< offset)) ||| ((data &&& 0xff) <<< offset)
  | Half => let offset := half_offset bigend addr in
      (old &&~ (0xffff <<< offset)) ||| ((data &&& 0xffff) <<< offset)
  | Word => data
  end.

Definition real_read (bigend : Z) (w : width) (i : nat) (addr : Z) (r : mem_state_t) : option Z :=
  lane_get bigend w addr <$> rom_word r i addr.
Definition real_write (bigend : Z) (w : width) (i : nat) (addr data : Z) (r : mem_state_t) :
    option mem_state_t :=
  old ← rom_word r i addr; Some (set_rom_word i addr (lane_set bigend w addr data old) r).

(** ** Accesses *)

Section Memory.
Context {M : Type} `{!Board M}.
Implicit Type s : system M.

Definition bank_of_addr (addr : Z) s : option (option (nat * mem_bank_t) * system M) :=
  '(o, r) ← bank_ptr addr (ram s);
  Some (i ← o; b ← mem_banks r !! i; Some (i, b), s <| ram := r |>).

(** The remapping of the exception vectors. *)
Definition remap s (addr : Z) : Z :=
  if truth (vector_remap_flag (cpu s)) && (addr <=? vector_remap_size (cpu s))
  then add32 addr (vector_remap_addr (cpu s)) else addr.

Definition call_read (f : mem_fun) (w : width) (i : nat) (addr : Z) s : option (Z * system M) :=
  match f with
  | mem_real => v ← real_read (bigendSig (cpu s)) w i addr (ram s); Some (v, s)
  | mem_io => '(v, m) ← io_read w addr (board s); Some (v, s <| board := m |>)
  | mem_warn => Some (0xffffffff, s)
  end.
Definition call_write (f : mem_fun) (w : width) (i : nat) (addr data : Z) s : option (system M) :=
  match f with
  | mem_real => r ← real_write (bigendSig (cpu s)) w i addr data (ram s); Some (s <| ram := r |>)
  | mem_io => m ← io_write w addr data (board s); Some (s <| board := m |>)
  | mem_warn => Some s
  end.

(** [mem_read_byte], [mem_read_halfword] and [mem_read_word]. *)
Definition mem_read (w : width) (addr : Z) s : option (Z * system M) :=
  let addr := remap s addr in
  '(o, s) ← bank_of_addr addr s;
  match '(i, b) ← o; f ← bk_read b w; Some (f, i) with
  | Some (f, i) => call_read f w i addr s
  | None => Some (0, s)
  end.

(** [mem_write_byte], [mem_write_halfword] and [mem_write_word]. *)
Definition mem_write (w : width) (addr data : Z) s : option (system M) :=
  '(o, s) ← bank_of_addr addr s;
  match '(i, b) ← o; f ← bk_write b w; Some (f, i) with
  | Some (f, i) => call_write f w i addr data s
  | None => if decide (w = Byte) then None else Some s
  end.
End Memory.

(** ** Configuration of the banks

    [arm_parse_mem]: the functions of a bank for "map=M" and "map=I", and
    the read-only banks of "type=R". *)
Definition map_M (addr len : Z) : mem_bank_t :=
  {| bk_addr := addr; bk_len := len;
     bk_read := fun _ => Some mem_real; bk_write := fun _ => Some mem_real |}.
Definition map_I (addr len : Z) : mem_bank_t :=
  {| bk_addr := addr; bk_len := len;
     bk_read := fun _ => Some mem_io; bk_write := fun _ => Some mem_io |}.
Definition type_R (b : mem_bank_t) : mem_bank_t :=
  {| bk_addr := bk_addr b; bk_len := bk_len b;
     bk_read := bk_read b; bk_write := fun _ => Some mem_warn |}.
