(* ===== verification/MemSpec.v ===== *)
(** * The memory map implements a flat byte memory

    [bank_ptr] remembers the bank of its previous call: for banks that do not
    overlap its result does not depend on it.  The RAM banks then behave like
    one array of bytes, read and written at every width in the endianness
    of the core. *)

From S2P Require Import Prelude Words Bits ArmState Machine ArmSys ArmMem.

(** ** Well-formed memory maps *)

Record bank_shape (b : mem_bank_t) : Prop := {
  bank_addr_word : 0 <= bk_addr b;
  bank_len_pos : 0 < bk_len b;
  bank_end : bk_addr b + bk_len b <= 4294967296;
  bank_addr_aligned : bk_addr b mod 4 = 0;
  bank_len_aligned : bk_len b mod 4 = 0
}.

(** The bank at index [i] holds the address. *)
Definition at_bank (bs : list mem_bank_t) (addr : Z) (i : nat) (b : mem_bank_t) : Prop :=
  bs !! i = Some b /\ in_bank b addr = true.

Record banks_wf (bs : list mem_bank_t) : Prop := {
  banks_split : exists used free, bs = used ++ free /\ Forall bank_shape used /\
    free <> [] /\ Forall (fun b => bk_len b = 0) free;
  banks_disjoint addr i j b c : word addr -> at_bank bs addr i b -> at_bank bs addr j c -> i = j
}.

Definition uses_rom (b : mem_bank_t) : Prop :=
  exists w, bk_read b w = Some mem_real \/ bk_write b w = Some mem_real.

Record mem_wf (r : mem_state_t) : Prop := {
  wf_banks : banks_wf (mem_banks r);
  wf_rom i b : mem_banks r !! i = Some b -> uses_rom b ->
    exists ws, rom r !! i = Some ws /\ Z.of_nat (length ws) = bk_len b / 4 /\ Forall word ws
}.

Lemma in_bank_range b addr : 0 <= bk_addr b -> word addr ->
  in_bank b addr = true <-> bk_addr b <= addr < bk_addr b + bk_len b.
Proof.
  intros Hb [? ?]. unfold in_bank, sub32. rewrite andb_true_iff, Z.leb_le, Z.ltb_lt.
  split; intros [H1 H2]; split; try lia; [rewrite u32_id in H2|rewrite u32_id]; unfold word; lia.
Qed.

Lemma in_bank_free b addr : bk_len b = 0 -> in_bank b addr = false.
Proof.
  intros E. unfold in_bank. rewrite E. pose proof (word_sub32 addr (bk_addr b)) as [? ?].
  destruct (Z.ltb_spec (sub32 addr (bk_addr b)) 0); [lia|]. apply andb_false_r.
Qed.

Lemma at_bank_ok bs addr i b : banks_wf bs -> at_bank bs addr i b -> bank_shape b.
Proof.
  intros [(used & free & -> & Hu & _ & Hf) _] [Hi Hin]. apply lookup_app_Some in Hi as [Hi|[_ Hi]].
  - by rewrite Forall_lookup in Hu; eapply Hu.
  - rewrite Forall_lookup in Hf. rewrite in_bank_free in Hin by by eapply Hf. done.
Qed.

(** ** [bank_ptr] *)

Lemma bank_scan_spec addr used free k :
  Forall bank_shape used -> free <> [] -> Forall (fun b => bk_len b = 0) free ->
  (exists i b, at_bank (used ++ free) addr i b /\ bank_scan addr (used ++ free) k = Some ((k + i)%nat, true)) \/
  ((forall i b, ~ at_bank (used ++ free) addr i b) /\
   exists j, bank_scan addr (used ++ free) k = Some (j, false)).
Proof.
  intros Hu Hne Hf. revert k. induction Hu as [|b used Hb Hu IH]; intros k; simpl.
  - right. split.
    + intros i b [Hi Hin]. rewrite Forall_lookup in Hf. by rewrite in_bank_free in Hin by by eapply Hf.
    + destruct free as [|f free]; [done|]. apply list.Forall_cons in Hf as [Hf _]. simpl.
      rewrite Hf. by exists k.
  - destruct (Z.eqb_spec (bk_len b) 0); [destruct Hb; lia|].
    destruct (in_bank b addr) eqn:Hin.
    + left. exists 0%nat, b. by rewrite Nat.add_0_r.
    + destruct (IH (S k)) as [(i & c & [Hi Hc] & ->)|[Hno Hj]].
      * left. exists (S i), c. by rewrite Nat.add_succ_r.
      * right. split; [|done]. intros [|i] c [Hi Hc]; simpl in Hi; [|by apply (Hno i c)].
        injection Hi as <-. congruence.
Qed.

Lemma bank_scan_found bs addr i b : banks_wf bs -> word addr -> at_bank bs addr i b ->
  bank_scan addr bs 0 = Some (i, true).
Proof.
  intros Hwf Ha Hi. destruct (banks_split _ Hwf) as (used & free & E & Hu & Hne & Hf).
  destruct (bank_scan_spec addr used free 0 Hu Hne Hf) as [(j & c & Hj & Es)|[Hno _]];
    rewrite <- E in *; [|by destruct (Hno i b)].
  by rewrite Es, (banks_disjoint _ Hwf addr i j b c Ha Hi Hj).
Qed.

Lemma bank_scan_missing bs addr : banks_wf bs -> (forall i b, ~ at_bank bs addr i b) ->
  exists j, bank_scan addr bs 0 = Some (j, false).
Proof.
  intros Hwf Hno. destruct (banks_split _ Hwf) as (used & free & E & Hu & Hne & Hf).
  destruct (bank_scan_spec addr used free 0 Hu Hne Hf) as [(j & c & Hj & Es)|[_ Hj]];
    rewrite <- E in *; [by destruct (Hno j c)|done].
Qed.

Definition cached_hit (r : mem_state_t) (addr : Z) : Prop :=
  exists j c, mbp r = Some j /\ at_bank (mem_banks r) addr j c.

Lemma bank_ptr_cases r addr :
  (cached_hit r addr /\ bank_ptr addr r = Some (mbp r, r)) \/
  bank_ptr addr r = '(i, found) ← bank_scan addr (mem_banks r) 0;
                    Some (if found : bool then Some i else None, r <| mbp := Some i |>).
Proof.
  unfold bank_ptr, cached_hit. destruct (mbp r) as [j|] eqn:Ej; simpl; [|by right].
  destruct (mem_banks r !! j) as [c|] eqn:Ec; [|by right].
  destruct (in_bank c addr) eqn:Ein; [left|by right]. split; [|done]. by exists j, c.
Qed.

Lemma bank_ptr_found r addr i b :
  banks_wf (mem_banks r) -> word addr -> at_bank (mem_banks r) addr i b ->
  exists k, bank_ptr addr r = Some (Some i, r <| mbp := k |>).
Proof.
  intros Hwf Ha Hi. destruct (bank_ptr_cases r addr) as [[(j & c & Ej & Hj) ->]| ->].
  - exists (Some j). rewrite (banks_disjoint _ Hwf addr i j b c Ha Hi Hj).
    destruct r; simpl in *; by subst.
  - rewrite (bank_scan_found _ addr i b Hwf Ha Hi). by eexists.
Qed.

Lemma bank_ptr_missing r addr :
  banks_wf (mem_banks r) -> (forall i b, ~ at_bank (mem_banks r) addr i b) ->
  exists k, bank_ptr addr r = Some (None, r <| mbp := k |>).
Proof.
  intros Hwf Hno. destruct (bank_ptr_cases r addr) as [[(j & c & _ & Hj) _]| ->].
  - by destruct (Hno j c).
  - destruct (bank_scan_missing _ addr Hwf Hno) as [j ->]. by eexists.
Qed.

Lemma at_bank_dec bs addr : (exists i b, at_bank bs addr i b) \/ (forall i b, ~ at_bank bs addr i b).
Proof.
  destruct (list_find (fun b => in_bank b addr = true) bs) as [[i b]|] eqn:E.
  - left. apply list_find_Some in E as (? & ? & _). exists i, b. by split.
  - right. apply list_find_None in E. rewrite Forall_lookup in E. intros i b [Hi Hin].
    by apply (E i b Hi).
Qed.

(** The bank that [bank_ptr] finds is the one that holds the address, and
    does not depend on the bank it remembers from its previous calls, when
    the configured banks do not overlap; only the remembered bank changes. *)
Theorem bank_ptr_history_independent r m addr :
  banks_wf (mem_banks r) -> word addr ->
  exists o k k', bank_ptr addr r = Some (o, r <| mbp := k |>) /\
    bank_ptr addr (r <| mbp := m |>) = Some (o, r <| mbp := k' |>) /\
    (forall i, o = Some i <-> exists b, at_bank (mem_banks r) addr i b).
Proof.
  intros Hwf Ha. set (r' := r <| mbp := m |>).
  destruct (at_bank_dec (mem_banks r) addr) as [(i & b & Hi)|Hno].
  - destruct (bank_ptr_found r addr i b Hwf Ha Hi) as [k E].
    destruct (bank_ptr_found r' addr i b Hwf Ha Hi) as [k' E'].
    exists (Some i), k, k'. split; [done|]. split; [exact E'|]. intros j. split.
    + intros [= <-]. by exists b.
    + intros [c Hj]. by rewrite (banks_disjoint _ Hwf addr i j b c Ha Hi Hj).
  - destruct (bank_ptr_missing r addr Hwf Hno) as [k E].
    destruct (bank_ptr_missing r' addr Hwf Hno) as [k' E'].
    exists None, k, k'. split; [done|]. split; [exact E'|]. intros j. split; [done|].
    intros [c Hj]. by destruct (Hno j c).
Qed.

(** ** A flat byte memory

    The bytes of an access of [size w] bytes at [a] lie at the [size w]
    addresses from [align w a]; the [k]-th least significant one is first or
    last among them as the memory is little- or big-endian. *)

Definition size (w : width) : Z := match w with Byte => 1 | Half => 2 | Word => 4 end.
Definition align (w : width) (a : Z) : Z := a - a mod size w.
Definition lane_no (e : Z) (w : width) (k : Z) : Z := if e =? 0 then k else size w - 1 - k.

Definition flat_read (e : Z) (w : width) (m : Z -> Z) (a : Z) : Z :=
  foldr (fun k v => m (align w a + lane_no e w k) ||| (v <<< 8)) 0 (seqZ 0 (size w)).
Definition flat_write (e : Z) (w : width) (a v : Z) (m : Z -> Z) : Z -> Z := fun x =>
  if (align w a <=? x) && (x <? align w a + size w)
  then (v >>> (8 * lane_no e w (x - align w a))) &&& 0xff else m x.

Lemma flat_read_range e w m a : (forall a, 0 <= m a < 256) -> 0 <= flat_read e w m a < 2 ^ (8 * size w).
Proof.
  intros Hm. unfold flat_read.
  assert (H : forall n j, 0 <= foldr (fun k v => m (align w a + lane_no e w k) ||| (v <<< 8)) 0 (seqZ j (Z.of_nat n)) < 2 ^ (8 * Z.of_nat n)).
  { induction n as [|n IH]; intros j; [by rewrite seqZ_nil by lia|].
    rewrite seqZ_cons by lia. cbn [foldr]. replace (Z.pred (Z.of_nat (S n))) with (Z.of_nat n) by lia.
    specialize (IH (Z.succ j)). set (v := foldr _ _ _) in *. pose proof (Hm (align w a + lane_no e w j)).
    rewrite Z.lor_comm, <- add_lor_shift, Z.shiftl_mul_pow2 by (change (2 ^ 8) with 256; lia).
    replace (8 * Z.of_nat (S n)) with (8 * Z.of_nat n + 8) by lia. rewrite Z.pow_add_r by lia.
    change (2 ^ 8) with 256. lia. }
  specialize (H (Z.to_nat (size w)) 0). by replace (Z.of_nat (Z.to_nat (size w))) with (size w) in H by by destruct w.
Qed.

Lemma flat_read_word e m : (forall a, 0 <= m a < 256) -> forall a, word (flat_read e Word m a).
Proof. intros Hm a. exact (flat_read_range e Word m a Hm). Qed.

(** *** Lanes of a word

    [pos e a] is the position of the byte at [a] in its word. *)

Definition pos (e a : Z) : Z := if e =? 0 then a mod 4 else 3 - a mod 4.
Definition lane (x p : Z) : Z := (x >>> (8 * p)) &&& 0xff.
Definition splice (n off v x : Z) : Z :=
  (x &&~ (Z.ones n <<< off)) ||| ((v &&& Z.ones n) <<< off).

Lemma pos_range e a : 0 <= pos e a < 4.
Proof. unfold pos. destruct (e =? 0); dlia. Qed.

Lemma land_3 a : a &&& 3 = a mod 4.
Proof. by apply (Z.land_ones a 2). Qed.

Lemma land_2 a : a &&& 2 = 2 * ((a mod 4) / 2).
Proof.
  rewrite <- land_3.
  assert (0 <= a &&& 3 < 4) by (rewrite land_3; dlia).
  replace (a &&& 2) with ((a &&& 3) &&& 2) by (by rewrite <- Z.land_assoc).
  assert (a &&& 3 = 0 \/ a &&& 3 = 1 \/ a &&& 3 = 2 \/ a &&& 3 = 3) as [->|[->|[->| ->]]] by lia; done.
Qed.

Lemma mod4_cases a : a mod 4 = 0 \/ a mod 4 = 1 \/ a mod 4 = 2 \/ a mod 4 = 3.
Proof. dlia. Qed.

Lemma byte_offset_pos e a : bit e -> byte_offset e a = 8 * pos e a.
Proof.
  unfold byte_offset, pos. rewrite land_3.
  intros [->| ->]; by destruct (mod4_cases a) as [->|[->|[->| ->]]].
Qed.

Lemma half_offset_pos e a : bit e -> half_offset e a = 16 * (pos e a / 2).
Proof.
  unfold half_offset, pos. rewrite land_2.
  intros [->| ->]; by destruct (mod4_cases a) as [->|[->|[->| ->]]].
Qed.

(** The first bit of an access in its word. *)
Definition first_bit (e : Z) (w : width) (a : Z) : Z := 8 * size w * (pos e a / size w).

Lemma lane_get_alt e w a x : bit e -> word x ->
  lane_get e w a x = (x >>> first_bit e w a) &&& Z.ones (8 * size w).
Proof.
  intros He Hx. pose proof (pos_range e a). unfold lane_get, first_bit.
  destruct w; cbn [size].
  - by rewrite byte_offset_pos, Z.mul_1_r, Z.div_1_r.
  - by rewrite half_offset_pos.
  - rewrite Z.div_small, Z.mul_0_r, Z.shiftr_0_r by done.
    rewrite Z.land_ones by lia. symmetry. by apply Z.mod_small.
Qed.

Lemma lane_set_alt e w a v x : bit e -> word v -> word x ->
  lane_set e w a v x = splice (8 * size w) (first_bit e w a) v x.
Proof.
  intros He Hv Hx. pose proof (pos_range e a). unfold lane_set, first_bit, splice.
  destruct w; cbn [size].
  - by rewrite byte_offset_pos, Z.mul_1_r, Z.div_1_r.
  - by rewrite half_offset_pos.
  - rewrite Z.div_small, Z.mul_0_r, !Z.shiftl_0_r by done.
    apply Z.bits_inj'. intros i Hi. rewrite Z.lor_spec, Z.ldiff_spec, Z.land_spec.
    rewrite (testbit_ones (Z.ones (8 * 4)) 32) by (done || lia).
    destruct (Z.ltb_spec i 32), (Z.leb_spec 0 i); simpl; try lia.
    + by rewrite !andb_true_r, andb_false_r.
    + by rewrite andb_false_r, orb_false_r, andb_true_r, !word_testbit.
Qed.

Lemma byte_offset_range e a : bit e -> 0 <= byte_offset e a <= 24.
Proof. intros He. rewrite byte_offset_pos by done. pose proof (pos_range e a). lia. Qed.
Lemma half_offset_range e a : bit e -> 0 <= half_offset e a <= 16.
Proof. intros He. rewrite half_offset_pos by done. pose proof (pos_range e a). dlia. Qed.
Lemma word_lane_get e w a x : word x -> word (lane_get e w a x).
Proof. intros Hx. destruct w; cbn [lane_get]; [by apply word_land_r..|done]. Qed.
Lemma word_shl_small x n k : 0 <= x < 2 ^ n -> 0 <= n -> 0 <= k -> n + k <= 32 -> word (x <<< k).
Proof.
  intros Hx Hn Hk Hnk. rewrite Z.shiftl_mul_pow2 by done. apply (word_pow2 _ (n + k)); [lia|]. rewrite Z.pow_add_r by lia.
  pose proof (Z.pow_pos_nonneg 2 k ltac:(lia) Hk). nia.
Qed.
Lemma word_lane_set e w a v x : bit e -> word v -> word x -> word (lane_set e w a v x).
Proof.
  intros He Hv Hx. destruct w; cbn [lane_set]; cbv zeta; [| |done]; (apply word_lor; [by apply word_ldiff|]).
  - pose proof (byte_offset_range e a He). pose proof (land_le_r v 0xff ltac:(lia)). apply (word_shl_small _ 8); lia.
  - pose proof (half_offset_range e a He). pose proof (land_le_r v 0xffff ltac:(lia)). apply (word_shl_small _ 16); lia.
Qed.

Lemma testbit_splice n off v x i : 0 <= n -> 0 <= off -> 0 <= i ->
  Z.testbit (splice n off v x) i =
    if (off <=? i) && (i <? off + n) then Z.testbit v (i - off) else Z.testbit x i.
Proof.
  intros. unfold splice.
  rewrite Z.lor_spec, Z.ldiff_spec, !testbit_shiftl, Z.land_spec, !(testbit_ones (Z.ones n) n) by done.
  destruct (Z.leb_spec 0 i), (Z.leb_spec off i); simpl; try lia.
  - destruct (Z.leb_spec 0 (i - off)), (Z.ltb_spec (i - off) n), (Z.ltb_spec i (off + n)); try lia; simpl.
    + by rewrite andb_false_r, andb_true_r.
    + by rewrite andb_true_r, andb_false_r, orb_false_r.
  - destruct (Z.leb_spec 0 (i - off)); [lia|]. simpl. by rewrite andb_false_r, andb_true_r, orb_false_r.
Qed.

Lemma testbit_lane x p i : 0 <= p -> 0 <= i ->
  Z.testbit (lane x p) i = (i <? 8) && Z.testbit x (i + 8 * p).
Proof.
  intros. unfold lane. rewrite Z.land_spec, testbit_shiftr, (testbit_ones 0xff 8) by done.
  destruct (Z.leb_spec 0 i); [|lia]. by rewrite andb_comm.
Qed.

Lemma lane_splice n off v x p q : 0 <= n -> 0 <= off -> 0 <= p -> 0 <= q ->
  off = 8 * q ->
  lane (splice (8 * n) off v x) p =
    if (q <=? p) && (p <? q + n) then lane v (p - q) else lane x p.
Proof.
  intros Hn Ho Hp Hq ->. apply Z.bits_inj'. intros i Hi.
  rewrite testbit_lane, testbit_splice by lia.
  destruct (Z.ltb_spec i 8); simpl.
  2:{ destruct ((q <=? p) && (p <? q + n)) eqn:E.
      - rewrite testbit_lane by (apply andb_true_iff in E as [E%Z.leb_le _]; lia).
        by destruct (Z.ltb_spec i 8); [lia|].
      - rewrite testbit_lane by lia. by destruct (Z.ltb_spec i 8); [lia|]. }
  replace ((8 * q <=? i + 8 * p) && (i + 8 * p <? 8 * q + 8 * n)) with ((q <=? p) && (p <? q + n)) by lia.
  destruct ((q <=? p) && (p <? q + n)) eqn:E.
  - apply andb_true_iff in E as [E%Z.leb_le _]. rewrite testbit_lane by lia.
    destruct (Z.ltb_spec i 8); [simpl; f_equal; lia|lia].
  - rewrite testbit_lane by lia. by destruct (Z.ltb_spec i 8); [|lia].
Qed.

(** *** Accesses to a word as accesses to its bytes *)

Definition same_word (a b : Z) : Prop := a / 4 = b / 4.
#[export] Instance same_word_dec a b : Decision (same_word a b).
Proof. unfold same_word. apply _. Defined.

Lemma lane_get_Byte e a x : bit e -> word x -> lane_get e Byte a x = lane x (pos e a).
Proof. intros. rewrite lane_get_alt by done. unfold first_bit, lane. by rewrite Z.div_1_r. Qed.

Lemma pos_lane_no e w a k : 0 <= k < size w ->
  pos e (align w a + lane_no e w k) = size w * (pos e a / size w) + k /\
  same_word (align w a + lane_no e w k) a.
Proof.
  unfold pos, align, lane_no, same_word. intros Hk.
  destruct (e =? 0), w; cbn [size] in *; split; dlia.
Qed.

Lemma lanes_join x p j n : 0 <= p + j ->
  foldr (fun k v => lane x (p + k) ||| (v <<< 8)) 0 (seqZ j (Z.of_nat n)) =
  (x >>> (8 * (p + j))) &&& Z.ones (8 * Z.of_nat n).
Proof.
  revert j. induction n as [|n IH]; intros j Hj.
  - simpl. by rewrite Z.land_0_r.
  - rewrite seqZ_cons by lia. cbn [foldr]. replace (Z.pred (Z.of_nat (S n))) with (Z.of_nat n) by lia.
    rewrite IH by lia. apply Z.bits_inj'. intros i Hi.
    rewrite Z.lor_spec, testbit_shiftl, !Z.land_spec, !testbit_shiftr, testbit_lane by lia.
    rewrite (testbit_ones (Z.ones (8 * Z.of_nat n)) (8 * Z.of_nat n)),
      (testbit_ones (Z.ones (8 * Z.of_nat (S n))) (8 * Z.of_nat (S n))) by lia.
    destruct (Z.leb_spec 0 i), (Z.ltb_spec i 8), (Z.leb_spec 0 (i - 8)); simpl; try lia.
    + rewrite orb_false_r. destruct (Z.ltb_spec i (8 * Z.of_nat (S n))); [|lia].
      by rewrite andb_true_r.
    + replace (i - 8 + 8 * (p + Z.succ j)) with (i + 8 * (p + j)) by lia. apply (f_equal (andb _)).
      destruct (Z.ltb_spec (i - 8) (8 * Z.of_nat n)), (Z.ltb_spec i (8 * Z.of_nat (S n))); lia.
Qed.

Lemma foldr_lanes (f g : Z -> Z) l : (forall k, k ∈ l -> f k = g k) ->
  foldr (fun k v => f k ||| (v <<< 8)) 0 l = foldr (fun k v => g k ||| (v <<< 8)) 0 l.
Proof.
  induction l as [|k l IH]; intros H; [done|]. simpl.
  rewrite (H k), IH; [done| |by apply list_elem_of_here].
  intros j Hj. by apply H, list_elem_of_further.
Qed.

Lemma lane_get_flat e w a x m : bit e -> word x ->
  (forall y, same_word y a -> m y = lane_get e Byte y x) ->
  lane_get e w a x = flat_read e w m a.
Proof.
  intros He Hx Hm. pose proof (pos_range e a) as Hp. rewrite lane_get_alt by done. unfold flat_read.
  rewrite (foldr_lanes _ (fun k => lane x (size w * (pos e a / size w) + k))).
  2:{ intros k Hk%elem_of_seqZ. destruct (pos_lane_no e w a k) as [E Hw]; [lia|].
      by rewrite Hm, lane_get_Byte, E by done. }
  pose proof (lanes_join x (size w * (pos e a / size w)) 0 (Z.to_nat (size w))) as E.
  replace (Z.of_nat (Z.to_nat (size w))) with (size w) in E by (by destruct w).
  rewrite E by (destruct w; cbn [size]; dlia). unfold first_bit. f_equal. f_equal. lia.
Qed.

Lemma lane_set_flat e w a v x y : bit e -> word v -> word x -> same_word y a ->
  lane (lane_set e w a v x) (pos e y) = flat_write e w a v (fun y => lane x (pos e y)) y.
Proof.
  intros He Hv Hx Hy. pose proof (pos_range e a) as Hp. pose proof (pos_range e y) as Hq.
  rewrite lane_set_alt by done.
  rewrite (lane_splice _ _ _ _ _ (size w * (pos e a / size w)));
    [|unfold first_bit; destruct w; cbn [size]; dlia..].
  assert (E : ((size w * (pos e a / size w) <=? pos e y) &&
      (pos e y <? size w * (pos e a / size w) + size w)) =
    (align w a <=? y) && (y <? align w a + size w)).
  { unfold same_word, pos, align in *. destruct (e =? 0), w; cbn [size] in *; dlia. }
  unfold flat_write. rewrite E.
  destruct ((align w a <=? y) && (y <? align w a + size w)); [|done].
  unfold lane. do 3 f_equal.
  unfold same_word, lane_no, pos, align in *. destruct (e =? 0), w; cbn [size] in *; dlia.
Qed.

(** ** The contents of the banks *)

Lemma find_at_bank bs addr i b : banks_wf bs -> word addr -> at_bank bs addr i b ->
  list_find (fun b => in_bank b addr = true) bs = Some (i, b).
Proof.
  intros Hwf Ha [Hi Hin].
  destruct (list_find_elem_of (fun b => in_bank b addr = true) bs b) as [[j c] E];
    [by eapply list_elem_of_lookup_2|done|].
  rewrite E. apply list_find_Some in E as (Hj & Hc & _).
  assert (i = j) as -> by by eapply (banks_disjoint _ Hwf addr i j b c). congruence.
Qed.

Lemma rom_index_eq b addr : bank_shape b -> in_bank b addr = true -> word addr ->
  rom_index b addr = Z.to_nat ((addr - bk_addr b) / 4) /\ 0 <= (addr - bk_addr b) / 4 < bk_len b / 4.
Proof.
  intros Hb Hin Ha. apply in_bank_range in Hin; [|apply Hb|done].
  destruct Hb as [H1 H2 H3 H4 H5], Ha as [Ha1 Ha2]. unfold rom_index, sub32.
  rewrite u32_id by (unfold word; lia). rewrite Z.shiftr_div_pow2 by done. change (2 ^ 2) with 4.
  split; [done|]. dlia.
Qed.

Lemma rom_word_defined r addr i b :
  mem_wf r -> word addr -> at_bank (mem_banks r) addr i b -> uses_rom b ->
  exists x, rom_word r i addr = Some x /\ word x.
Proof.
  intros Hwf Ha Hi Hu. pose proof (at_bank_ok _ _ _ _ (wf_banks _ Hwf) Hi) as Hb.
  destruct Hi as [Hi Hin]. destruct (wf_rom _ Hwf i b Hi Hu) as (ws & Ew & Hlen & HF).
  unfold rom_word. rewrite Hi. cbn [mbind option_bind]. rewrite Ew. cbn [mbind option_bind].
  destruct (rom_index_eq b addr Hb Hin Ha) as [-> Hr].
  destruct (lookup_lt_is_Some_2 ws (Z.to_nat ((addr - bk_addr b) / 4))) as [x Hx]; [lia|].
  exists x. split; [done|]. rewrite Forall_lookup in HF. by eapply HF.
Qed.

Lemma rom_word_set r addr i b v addr' i' b' :
  mem_wf r -> word addr -> word addr' ->
  at_bank (mem_banks r) addr i b -> at_bank (mem_banks r) addr' i' b' -> uses_rom b ->
  rom_word (set_rom_word i addr v r) i' addr' =
    if decide (same_word addr' addr) then Some v else rom_word r i' addr'.
Proof.
  intros Hwf Ha Ha' Hi Hi' Hu. pose proof (at_bank_ok _ _ _ _ (wf_banks _ Hwf) Hi) as Hb.
  pose proof (at_bank_ok _ _ _ _ (wf_banks _ Hwf) Hi') as Hb'.
  destruct (rom_word_defined r addr i b Hwf Ha Hi Hu) as (x & Ex & _).
  unfold rom_word, set_rom_word in *. pose proof Hi as [Hl Hin]. pose proof Hi' as [Hl' Hin'].
  rewrite Hl in *. cbn [mbind option_bind] in *.
  change (mem_banks (r <| rom ::= alter (fun ws => <[rom_index b addr := v]> ws) i |>)) with (mem_banks r).
  change (rom (r <| rom ::= alter (fun ws => <[rom_index b addr := v]> ws) i |>))
    with (alter (fun ws => <[rom_index b addr := v]> ws) i (rom r)).
  rewrite Hl'. cbn [mbind option_bind].
  destruct (rom r !! i) as [ws|] eqn:Ew; [|done]. cbn [mbind option_bind] in Ex.
  destruct (rom_index_eq b addr Hb Hin Ha) as [E1 R1].
  destruct (rom_index_eq b' addr' Hb' Hin' Ha') as [E2 R2].
  apply in_bank_range in Hin; [|apply Hb|done]. apply in_bank_range in Hin'; [|apply Hb'|done].
  pose proof (bank_addr_aligned _ Hb). pose proof (bank_addr_aligned _ Hb').
  pose proof (bank_len_aligned _ Hb). pose proof (bank_len_aligned _ Hb').
  destruct (decide (i = i')) as [<-|Hne].
  - assert (b' = b) as -> by congruence. rewrite list_lookup_alter_eq, Ew. cbn [fmap option_fmap option_map mbind option_bind].
    destruct (decide (same_word addr' addr)) as [Hs|Hs].
    + replace (rom_index b addr') with (rom_index b addr) by (rewrite E1, E2; unfold same_word in Hs; f_equal; dlia).
      apply list_lookup_insert_eq. by eapply lookup_lt_Some.
    + rewrite list_lookup_insert_ne; [done|]. rewrite E1, E2. unfold same_word in Hs.
      intros E%Z2Nat.inj; [|lia..]. apply Hs. dlia.
  - rewrite list_lookup_alter_ne by done. destruct (decide (same_word addr' addr)) as [Hs|Hs]; [|done].
    destruct Hne. eapply (banks_disjoint _ (wf_banks _ Hwf) addr i i' b b' Ha Hi).
    split; [done|]. apply in_bank_range; [apply Hb'|done|]. unfold same_word in Hs. dlia.
Qed.

(** ** The refinement *)

(** The bank is read from, or written to, its contents; writes to a
    read-only bank are dropped. *)
Definition reads_rom (b : mem_bank_t) : Prop := forall w, bk_read b w = Some mem_real.
Definition writes_rom (b : mem_bank_t) : Prop := forall w, bk_write b w = Some mem_real.
Definition drops_writes (b : mem_bank_t) : Prop := forall w, bk_write b w = Some mem_warn.

Definition readable (bs : list mem_bank_t) (a : Z) : Prop :=
  exists i b, at_bank bs a i b /\ reads_rom b.
Definition is_ram (bs : list mem_bank_t) (a : Z) : bool :=
  match list_find (fun b => in_bank b a = true) bs with
  | Some (_, b) => bool_decide (bk_write b Word = Some mem_real)
  | None => false
  end.

(** The byte at an address, and the memory the banks implement. *)
Definition byte_at (e : Z) (r : mem_state_t) (a : Z) : option Z :=
  '(i, _) ← list_find (fun b => in_bank b a = true) (mem_banks r); lane_get e Byte a <$> rom_word r i a.
Definition implements (e : Z) (r : mem_state_t) (m : Z -> Z) : Prop :=
  mem_wf r /\ forall a, word a -> readable (mem_banks r) a -> byte_at e r a = Some (m a).

(** Sequences of accesses. *)
Inductive access := acc_read (w : width) (a : Z) | acc_write (w : width) (a v : Z).

Fixpoint flat_run (e : Z) (bs : list mem_bank_t) (l : list access) (m : Z -> Z) : list Z * (Z -> Z) :=
  match l with
  | [] => ([], m)
  | acc_read w a :: l => let '(vs, m') := flat_run e bs l m in (flat_read e w m a :: vs, m')
  | acc_write w a v :: l => flat_run e bs l (if is_ram bs a then flat_write e w a v m else m)
  end.

Lemma byte_at_eq e r a i b : mem_wf r -> word a -> at_bank (mem_banks r) a i b ->
  byte_at e r a = lane_get e Byte a <$> rom_word r i a.
Proof. intros Hwf Ha Hi. unfold byte_at. by rewrite (find_at_bank _ a i b (wf_banks _ Hwf) Ha Hi). Qed.

Lemma at_bank_same_word bs a i b a' :
  bank_shape b -> word a -> word a' -> at_bank bs a i b -> same_word a' a -> at_bank bs a' i b.
Proof.
  intros [H1 H2 H3 H4 H5] Ha Ha' [Hi Hin] Hs. split; [done|].
  apply in_bank_range in Hin; [|done..]. apply in_bank_range; [done..|]. unfold same_word in Hs. dlia.
Qed.

Lemma same_word_word a a' : word a -> same_word a' a -> word a'.
Proof. unfold word, same_word. intros. dlia. Qed.

(** The word an address lies in, and the bytes of the flat memory in it. *)
Lemma implements_word e r m a i b :
  bit e -> implements e r m -> word a -> at_bank (mem_banks r) a i b -> reads_rom b ->
  exists x, rom_word r i a = Some x /\ word x /\ forall y, same_word y a -> m y = lane_get e Byte y x.
Proof.
  intros He [Hwf Hm] Ha Hi Hb.
  assert (Hu : uses_rom b) by (exists Word; left; apply Hb).
  destruct (rom_word_defined r a i b Hwf Ha Hi Hu) as (x & Ex & Hx). exists x. do 2 (split; [done|]).
  intros y Hy. pose proof (same_word_word a y Ha Hy) as Hyw.
  pose proof (at_bank_same_word _ a i b y (at_bank_ok _ _ _ _ (wf_banks _ Hwf) Hi) Ha Hyw Hi Hy) as Hiy.
  specialize (Hm y Hyw ltac:(by exists i, b)). rewrite (byte_at_eq e r y i b Hwf Hyw Hiy) in Hm.
  assert (E : rom_word r i y = rom_word r i a).
  { unfold rom_word. destruct (mem_banks r !! i) as [c|] eqn:Ec; [|done].
    assert (c = b) as -> by (destruct Hi; congruence). cbn [mbind option_bind].
    destruct (rom r !! i) as [ws|]; [|done]. cbn [mbind option_bind].
    pose proof (at_bank_ok _ _ _ _ (wf_banks _ Hwf) Hi) as Hok.
    destruct (rom_index_eq b a Hok (proj2 Hi) Ha) as [-> _].
    destruct (rom_index_eq b y Hok (proj2 Hiy) Hyw) as [-> _].
    pose proof (bank_addr_aligned _ Hok). unfold same_word in Hy. do 2 f_equal. dlia. }
  rewrite E, Ex in Hm. by injection Hm as <-.
Qed.

Lemma mem_wf_set r addr i b v : mem_wf r -> at_bank (mem_banks r) addr i b -> word v ->
  mem_wf (set_rom_word i addr v r).
Proof.
  intros Hwf Hi Hv. unfold set_rom_word. rewrite (proj1 Hi). split; [apply Hwf|].
  intros j c Hj Hu. destruct (wf_rom _ Hwf j c Hj Hu) as (ws & Ew & Hl & HF).
  change (rom _) with (alter (fun ws => <[rom_index b addr := v]> ws) i (rom r)).
  destruct (decide (i = j)) as [<-|].
  - rewrite list_lookup_alter_eq, Ew. simpl. eexists. split; [done|].
    rewrite length_insert. split; [done|]. by apply Forall_insert.
  - rewrite list_lookup_alter_ne by done. by exists ws.
Qed.

Lemma mem_banks_set i addr v r : mem_banks (set_rom_word i addr v r) = mem_banks r.
Proof. unfold set_rom_word. by destruct (mem_banks r !! i). Qed.

(** A write to a word of RAM. *)
Lemma implements_write e r m w a v i b :
  bit e -> implements e r m -> word a -> word v -> at_bank (mem_banks r) a i b ->
  reads_rom b -> writes_rom b ->
  exists r', real_write e w i a v r = Some r' /\ mem_banks r' = mem_banks r /\
    implements e r' (flat_write e w a v m).
Proof.
  intros He Him Ha Hv Hi Hr Hw. pose proof Him as [Hwf Hm].
  destruct (implements_word e r m a i b He Him Ha Hi Hr) as (x & Ex & Hx & Hy).
  assert (Hu : uses_rom b) by (exists Word; left; apply Hr).
  unfold real_write. rewrite Ex. cbn [mbind option_bind]. eexists. split; [done|].
  set (x' := lane_set e w a v x). split; [apply mem_banks_set|].
  assert (Hx' : word x').
  { subst x'. rewrite lane_set_alt by done. apply word_bits.
    - unfold splice. apply Z.lor_nonneg. split; [apply Z.ldiff_nonneg; left; destruct Hx; done|].
      apply Z.shiftl_nonneg, Z.land_nonneg. left. apply Hv.
    - intros j Hj. pose proof (pos_range e a). unfold first_bit.
      rewrite testbit_splice by (destruct w; cbn [size]; dlia).
      rewrite (word_testbit x) by done. destruct (_ && _) eqn:E; [|done].
      exfalso. apply andb_true_iff in E as [_ E%Z.ltb_lt]. destruct w; cbn [size] in *; dlia. }
  split; [by eapply mem_wf_set|]. intros y Hyw (j & c & Hj & Hc). rewrite mem_banks_set in Hj.
  rewrite (byte_at_eq e _ y j c (mem_wf_set r a i b x' Hwf Hi Hx') Hyw) by by rewrite mem_banks_set.
  rewrite (rom_word_set r a i b x' y j c Hwf Ha Hyw Hi Hj Hu).
  destruct (decide (same_word y a)) as [Hs|Hs].
  - cbn [fmap option_fmap option_map]. rewrite lane_get_Byte by done. subst x'.
    rewrite lane_set_flat by done. unfold flat_write. destruct (_ && _); [done|].
    by rewrite (Hy y Hs), lane_get_Byte.
  - rewrite <- (byte_at_eq e r y j c Hwf Hyw Hj), (Hm y Hyw ltac:(by exists j, c)).
    unfold flat_write. destruct (_ && _) eqn:E; [|done]. exfalso. apply Hs.
    unfold same_word, align in *. destruct w; cbn [size] in *; dlia.
Qed.

Lemma implements_mbp e r m k : implements e r m -> implements e (r <| mbp := k |>) m.
Proof. intros [[H1 H2] H]. split; [by split|exact H]. Qed.

Section System.
Context {M : Type} `{!Board M}.
Implicit Type s : system M.

Lemma bank_of_addr_found a s i b : mem_wf (ram s) -> word a -> at_bank (mem_banks (ram s)) a i b ->
  exists k, bank_of_addr a s = Some (Some (i, b), s <| ram ::= fun r => r <| mbp := k |> |>).
Proof.
  intros Hwf Ha Hi. destruct (bank_ptr_found (ram s) a i b (wf_banks _ Hwf) Ha Hi) as [k E].
  exists k. unfold bank_of_addr. rewrite E. cbn [mbind option_bind].
  change (mem_banks ((ram s) <| mbp := k |>)) with (mem_banks (ram s)). by rewrite (proj1 Hi).
Qed.

(** Only the contents of the banks and the bank [bank_ptr] remembers differ. *)
Definition same_but_ram s s' : Prop :=
  s' = s <| ram := ram s' |> /\ mem_banks (ram s') = mem_banks (ram s).

Lemma same_but_ram_refl s : same_but_ram s s.
Proof. split; [by destruct s|done]. Qed.
Lemma same_but_ram_trans s1 s2 s3 : same_but_ram s1 s2 -> same_but_ram s2 s3 -> same_but_ram s1 s3.
Proof. intros [E1 H1] [E2 H2]. split; [rewrite E2, E1; done|congruence]. Qed.
Lemma same_but_ram_cpu s s' : same_but_ram s s' -> cpu s' = cpu s.
Proof. by intros [-> _]. Qed.

(** One read, and one write, of memory that is not I/O. *)
Lemma mem_read_flat e m w a s :
  bigendSig (cpu s) = e -> bit e -> implements e (ram s) m ->
  remap s a = a -> word a -> readable (mem_banks (ram s)) a ->
  exists s', mem_read w a s = Some (flat_read e w m a, s') /\
    same_but_ram s s' /\ implements e (ram s') m.
Proof.
  intros He Hbit Him Hrm Ha (i & b & Hi & Hb). unfold mem_read. rewrite Hrm.
  destruct (bank_of_addr_found a s i b (proj1 Him) Ha Hi) as [k ->]. cbn [mbind option_bind].
  rewrite (Hb w). cbn [mbind option_bind call_read].
  set (s' := s <| ram ::= fun r => r <| mbp := k |> |>).
  assert (Him' : implements e (ram s') m) by by apply implements_mbp.
  destruct (implements_word e (ram s') m a i b Hbit Him' Ha Hi Hb) as (x & Ex & Hx & Hy).
  unfold real_read. rewrite Ex. cbn [fmap option_fmap option_map mbind option_bind].
  exists s'. split; [|done]. change (cpu s') with (cpu s). rewrite He.
  by rewrite (lane_get_flat e w a x m Hbit Hx Hy).
Qed.

Lemma mem_write_flat e m w a v s i b :
  bigendSig (cpu s) = e -> bit e -> implements e (ram s) m ->
  word a -> word v -> at_bank (mem_banks (ram s)) a i b -> reads_rom b ->
  writes_rom b \/ drops_writes b ->
  exists s', mem_write w a v s = Some s' /\ same_but_ram s s' /\
    implements e (ram s') (if is_ram (mem_banks (ram s)) a then flat_write e w a v m else m).
Proof.
  intros He Hbit Him Ha Hv Hi Hr Hk. unfold mem_write.
  destruct (bank_of_addr_found a s i b (proj1 Him) Ha Hi) as [k ->]. cbn [mbind option_bind].
  unfold is_ram. rewrite (find_at_bank _ a i b (wf_banks _ (proj1 Him)) Ha Hi).
  set (s' := s <| ram ::= fun r => r <| mbp := k |> |>).
  assert (Him' : implements e (ram s') m) by by apply implements_mbp.
  destruct Hk as [Hw|Hd].
  - rewrite !Hw. cbn [mbind option_bind call_write].
    destruct (implements_write e (ram s') m w a v i b Hbit Him' Ha Hv Hi Hr Hw) as (r' & E & Eb & Him2).
    change (cpu s') with (cpu s). rewrite He, E. cbn [mbind option_bind].
    eexists. split; [done|]. split; [by split|]. by rewrite bool_decide_eq_true_2.
  - rewrite !Hd. cbn [mbind option_bind call_write]. exists s'. split; [done|].
    split; [done|]. by rewrite bool_decide_eq_false_2.
Qed.

Definition acc_ok s (x : access) : Prop :=
  match x with
  | acc_read w a => word a /\ remap s a = a /\ readable (mem_banks (ram s)) a
  | acc_write w a v => word a /\ word v /\ exists i b, at_bank (mem_banks (ram s)) a i b /\
      reads_rom b /\ (writes_rom b \/ drops_writes b)
  end.

(** The accesses one after the other: the values read, and the state. *)
Fixpoint run_accesses (l : list access) s : option (list Z * system M) :=
  match l with
  | [] => Some ([], s)
  | acc_read w a :: l =>
      '(v, s) ← mem_read w a s; '(vs, s) ← run_accesses l s; Some (v :: vs, s)
  | acc_write w a v :: l => s ← mem_write w a v s; run_accesses l s
  end.

Lemma acc_ok_same s s' x : same_but_ram s s' -> acc_ok s x -> acc_ok s' x.
Proof.
  intros [E Eb]. unfold acc_ok, remap. rewrite Eb.
  replace (cpu s') with (cpu s) by (by rewrite E). done.
Qed.

Lemma accs_ok_same s s' l : same_but_ram s s' -> Forall (acc_ok s) l -> Forall (acc_ok s') l.
Proof. intros H Hl. eapply list.Forall_impl; [exact Hl|]. intros x. by apply acc_ok_same. Qed.

(** C5: Every sequence of byte, halfword and word accesses to RAM and ROM
    reads what a flat array of bytes in the endianness of the core would give,
    and leaves the contents that array holds in the end: an access of any
    width acts on the aligned bytes around its address, writes to read-only
    banks are dropped, and the cached bank and the rest of the system play no
    part. *)
Theorem memory_is_flat l e s m :
  bigendSig (cpu s) = e -> bit e -> implements e (ram s) m -> Forall (acc_ok s) l ->
  exists s', run_accesses l s = Some ((flat_run e (mem_banks (ram s)) l m).1, s') /\
    same_but_ram s s' /\ implements e (ram s') (flat_run e (mem_banks (ram s)) l m).2.
Proof.
  intros He Hbit. revert s m He. induction l as [|x l IH]; intros s m He Him Hok.
  - exists s. split; [done|]. split; [apply same_but_ram_refl|done].
  - apply list.Forall_cons in Hok as [Hx Hl]. destruct x as [w a|w a v]; cbn [run_accesses flat_run].
    + destruct Hx as (Ha & Hrm & Hrd).
      destruct (mem_read_flat e m w a s He Hbit Him Hrm Ha Hrd) as (s1 & -> & Hs & Him1).
      cbn [mbind option_bind].
      destruct (IH s1 m) as (s2 & E & Hs2 & Him2); [by rewrite (same_but_ram_cpu s s1)|done|..].
      { by apply (accs_ok_same s). }
      rewrite (proj2 Hs) in E, Him2. rewrite E. cbn [mbind option_bind].
      destruct (flat_run e (mem_banks (ram s)) l m) as [vs m']. exists s2. split; [done|].
      split; [|done]. by apply (same_but_ram_trans s s1 s2).
    + destruct Hx as (Ha & Hv & i & b & Hi & Hr & Hk).
      destruct (mem_write_flat e m w a v s i b He Hbit Him Ha Hv Hi Hr Hk) as (s1 & -> & Hs & Him1).
      cbn [mbind option_bind].
      destruct (IH s1 _ ltac:(by rewrite (same_but_ram_cpu s s1)) Him1) as (s2 & E & Hs2 & Him2).
      { by apply (accs_ok_same s). }
      rewrite (proj2 Hs) in E, Him2. exists s2. split; [done|].
      split; [|done]. by apply (same_but_ram_trans s s1 s2).
Qed.
End System.
