(* ===== verification/Tlb.v ===== *)
(** * mmu/tlb.c: translation and permissions

    The table walk, the translation buffer in front of it, and the access
    check.  The functions that allocate take the contents of the fresh memory
    as an argument; [mmu_tlb_exit] only frees.  [None] is undefined behaviour
    in an access to memory, or a failed assertion. *)

From S2P Require Import Prelude Words ArmState Machine ArmSys ArmMem.

(** The fault codes of armmmu.h. *)
Inductive fault_t :=
  | NO_FAULT | ALIGNMENT_FAULT | SECTION_TRANSLATION_FAULT | PAGE_TRANSLATION_FAULT
  | SECTION_DOMAIN_FAULT | PAGE_DOMAIN_FAULT | SECTION_PERMISSION_FAULT | SUBPAGE_PERMISSION_FAULT.
#[export] Instance fault_eq_dec : EqDecision fault_t.
Proof. solve_decision. Defined.
Definition fault_code (f : fault_t) : Z :=
  match f with
  | NO_FAULT => 0x0 | ALIGNMENT_FAULT => 0x1 | SECTION_TRANSLATION_FAULT => 0x5
  | PAGE_TRANSLATION_FAULT => 0x7 | SECTION_DOMAIN_FAULT => 0x9 | PAGE_DOMAIN_FAULT => 0xB
  | SECTION_PERMISSION_FAULT => 0xD | SUBPAGE_PERMISSION_FAULT => 0xF
  end.

(** Bits of the control register. *)
Definition CONTROL_MMU := 1.
Definition CONTROL_ALIGN_FAULT := 2.
Definition CONTROL_CACHE := 4.
Definition CONTROL_SYSTEM := 256.
Definition CONTROL_ROM := 512.

(** ** The buffer *)

Definition tlb_hit (va : Z) (e : tlb_entry_t) : bool :=
  if decide (te_mapping e = TLB_INVALID) then false
  else let mask := tlb_masks (te_mapping e) in (va &&& mask) =? (te_virt_addr e &&& mask).

Definition mmu_tlb_search (t : tlb_t) (va : Z) : option (nat * tlb_entry_t) :=
  list_find (fun e => tlb_hit va e = true) (take (Z.to_nat (tlb_num t)) (entrys t)).

Definition mmu_tlb_init (num : Z) (fresh : Z -> tlb_entry_t) : tlb_t :=
  mkTlb num 0 (map (fun i => (fresh i) <| te_mapping := TLB_INVALID |>) (seqZ 0 num)).

Definition mmu_tlb_invalidate_all (t : tlb_t) : tlb_t :=
  let t := for_range 0 (tlb_num t)
    (fun i t => t <| entrys ::= alter (fun e => e <| te_mapping := TLB_INVALID |>) (Z.to_nat i) |>) t in
  t <| tlb_cycle := 0 |>.

Definition mmu_tlb_invalidate_entry (t : tlb_t) (addr : Z) : tlb_t :=
  match mmu_tlb_search t addr with
  | Some (i, e) => t <| entrys ::= <[i := e <| te_mapping := TLB_INVALID |>]> |>
  | None => t
  end.

(** Placing an entry: where [cycle] points, round robin. *)
Definition tlb_place (e : tlb_entry_t) (t : tlb_t) : tlb_t :=
  t <| entrys ::= fun l => wr l (tlb_cycle t) e |>
    <| tlb_cycle := Z.rem (tlb_cycle t + 1) (tlb_num t) |>.

(** ** Permissions *)

Section Mmu.
Context {M : Type} `{!Board M}.
Implicit Type s : system M.

Definition check_perms s (ap : Z) (read : bool) : bool :=
  let sb := truth (mmu_control (cpu s) &&& CONTROL_SYSTEM) in
  let r := truth (mmu_control (cpu s) &&& CONTROL_ROM) in
  let mode := Mode (cpu s) in
  let user := (mode =? USER32MODE) || (mode =? USER26MODE) || (mode =? SYSTEM32MODE) in
  if ap =? 0 then read && ((sb && negb user) || r)
  else if ap =? 1 then negb user
  else if ap =? 2 then read || negb user
  else ap =? 3.

Definition set_last_domain (d : Z) s : system M := upd_cpu (fun c => c <| mmu_last_domain := d |>) s.

(** The subpage of an address in its page. *)
Definition subpage (m : tlb_mapping_t) (va : Z) : option Z :=
  match m with
  | TLB_ESMALLPAGE | TLB_TINYPAGE => Some 0
  | TLB_SMALLPAGE => Some ((va >>> 10) &&& 3)
  | TLB_LARGEPAGE => Some ((va >>> 14) &&& 3)
  | TLB_SECTION => Some 3
  | TLB_INVALID => None
  end.

Definition check_access (va : Z) (e : tlb_entry_t) (read : bool) s : option (fault_t * system M) :=
  let s := set_last_domain (te_domain e) s in
  let access := (domain_access_control s >>> (te_domain e * 2)) &&& 3 in
  if (access =? 0) || (access =? 2) then Some (SECTION_DOMAIN_FAULT, s)
  else if access =? 1 then
    sp ← subpage (te_mapping e) va;
    let ap := (te_perms e >>> (sp * 2 + 4)) &&& 3 in
    if negb (check_perms s ap read) then
      Some (if decide (te_mapping e = TLB_SECTION) then SECTION_PERMISSION_FAULT
            else SUBPAGE_PERMISSION_FAULT, s)
    else Some (NO_FAULT, s)
  else Some (NO_FAULT, s).

(** ** The table walk

    The entry a walk finds, before its addresses are masked, or a fault. *)
Definition l1_addr (ttb va : Z) : Z := ((ttb &&& 0xFFFFC000) ||| (va >>> 18)) &&~ 3.
Definition fine_addr (l1desc va : Z) : Z :=
  ((l1desc &&& 0xFFFFF000) ||| ((va &&& 0x000FFC00) >>> 8)) &&~ 3.
Definition coarse_addr (l1desc va : Z) : Z :=
  ((l1desc &&& 0xFFFFFC00) ||| ((va &&& 0x000FF000) >>> 10)) &&~ 3.

Definition page_entry (va l1desc l2desc : Z) (m : tlb_mapping_t) : tlb_entry_t :=
  mkEntry va l2desc (l2desc &&& 0x00000FFC) ((l1desc >>> 5) &&& 0x0000000F) m.

Definition walk_fine (va l1desc : Z) s : option ((fault_t + tlb_entry_t) * system M) :=
  '(l2desc, s) ← mem_read Word (fine_addr l1desc va) s;
  let entry := page_entry va l1desc l2desc in
  Some (if l2desc &&& 3 =? 0 then
          (inl PAGE_TRANSLATION_FAULT, set_last_domain (te_domain (entry TLB_INVALID)) s)
        else if l2desc &&& 3 =? 3 then (inr (entry TLB_TINYPAGE), s)
        else if l2desc &&& 3 =? 1 then (inr (entry TLB_LARGEPAGE), s)
        else (inr (entry TLB_SMALLPAGE), s)).

Definition walk_coarse (va l1desc : Z) s : option ((fault_t + tlb_entry_t) * system M) :=
  '(l2desc, s) ← mem_read Word (coarse_addr l1desc va) s;
  let entry := page_entry va l1desc l2desc in
  let fault := (inl PAGE_TRANSLATION_FAULT, set_last_domain (te_domain (entry TLB_INVALID)) s) in
  Some (if l2desc &&& 3 =? 0 then fault
        else if l2desc &&& 3 =? 3 then
          if truth (is_XScale (cpu s)) then (inr (entry TLB_ESMALLPAGE), s) else fault
        else if l2desc &&& 3 =? 1 then (inr (entry TLB_LARGEPAGE), s)
        else (inr (entry TLB_SMALLPAGE), s)).

Definition walk_section (va l1desc : Z) : tlb_entry_t :=
  mkEntry va l1desc (l1desc &&& 0x00000C0C) ((l1desc >>> 5) &&& 0x0000000F) TLB_SECTION.

Definition walk (va : Z) s : option ((fault_t + tlb_entry_t) * system M) :=
  '(l1desc, s) ← mem_read Word (l1_addr (translation_table_base s) va) s;
  if l1desc &&& 3 =? 0 then Some (inl PAGE_TRANSLATION_FAULT, s)
  else if l1desc &&& 3 =? 3 then walk_fine va l1desc s
  else if l1desc &&& 3 =? 1 then walk_coarse va l1desc s
  else Some (inr (walk_section va l1desc), s).

Definition mask_entry (e : tlb_entry_t) : tlb_entry_t :=
  e <| te_virt_addr ::= fun v => v &&& tlb_masks (te_mapping e) |>
    <| te_phys_addr ::= fun p => p &&& tlb_masks (te_mapping e) |>.

(** [translate] with the buffer [t]: the entry found, or a fault. *)
Definition translate (va : Z) (t : tlb_t) s : option ((fault_t + tlb_entry_t) * tlb_t * system M) :=
  match mmu_tlb_search t va with
  | Some (_, e) => Some (inr e, t, set_last_domain (te_domain e) s)
  | None =>
      '(r, s) ← walk va s;
      match r with
      | inl f => Some (inl f, t, s)
      | inr e => let e := mask_entry e in Some (inr e, tlb_place e t, set_last_domain (te_domain e) s)
      end
  end.

(** The physical address (as the callers compute it). *)
Definition tlb_va_to_pa (e : tlb_entry_t) (va : Z) : Z :=
  let mask := tlb_masks (te_mapping e) in (te_phys_addr e &&& mask) ||| (va &&~ mask).
End Mmu.
