(* ===== verification/TlbSpec.v ===== *)
(** * The translation buffer is transparent

    A reference walk of the translation tables in the arithmetic of the
    architecture manual, on the flat memory of MemSpec.v; [translate] with any
    coherent buffer computes it, and keeps the buffer coherent. *)

From S2P Require Import Prelude Words Bits ArmState Machine ArmSys ArmMem MemSpec Tlb.

(** ** Pages *)

Definition page_size (m : tlb_mapping_t) : Z :=
  match m with
  | TLB_INVALID => 4294967296
  | TLB_SECTION => 1048576 | TLB_LARGEPAGE => 65536
  | TLB_SMALLPAGE | TLB_ESMALLPAGE => 4096 | TLB_TINYPAGE => 1024
  end.
Definition page_base (m : tlb_mapping_t) (x : Z) : Z := x / page_size m * page_size m.

Lemma shift_down_up x k : 0 <= k -> x / 2 ^ k * 2 ^ k = (x >>> k) <<< k.
Proof. intros. by rewrite Z.shiftr_div_pow2, Z.shiftl_mul_pow2. Qed.

Lemma mask_clear x k mask :
  word x -> 0 <= k <= 32 -> mask = Z.ones 32 &&~ Z.ones k -> x &&& mask = (x >>> k) <<< k.
Proof.
  intros Hx Hk ->. rewrite <- Z.ldiff_ones_r by lia. apply Z.bits_inj'. intros i Hi.
  rewrite Z.land_spec, !Z.ldiff_spec, (testbit_ones (Z.ones 32) 32) by done.
  destruct (Z.ltb_spec i 32).
  - destruct (Z.leb_spec 0 i); [|lia]. done.
  - by rewrite word_testbit.
Qed.

Lemma tlb_mask_page m x : word x -> m <> TLB_INVALID -> x &&& tlb_masks m = page_base m x.
Proof.
  intros Hx Hm. unfold page_base. destruct m; try done; cbn [tlb_masks page_size].
  - change 4096 with (2 ^ 12). rewrite shift_down_up by done. by apply mask_clear.
  - change 65536 with (2 ^ 16). rewrite shift_down_up by done. by apply mask_clear.
  - change 1048576 with (2 ^ 20). rewrite shift_down_up by done. by apply mask_clear.
  - change 4096 with (2 ^ 12). rewrite shift_down_up by done. by apply mask_clear.
  - change 1024 with (2 ^ 10). rewrite shift_down_up by done. by apply mask_clear.
Qed.

Lemma page_base_idemp m x : page_base m (page_base m x) = page_base m x.
Proof. unfold page_base. rewrite Z.div_mul; [done|by destruct m]. Qed.

Lemma page_base_word m x : word x -> word (page_base m x).
Proof. unfold word, page_base. intros. destruct m; cbn [page_size]; dlia. Qed.

(** ** The reference walk *)

(** The address of a first-level descriptor, and of the second-level ones in
    a coarse and a fine table. *)
Definition ref_l1 (ttb va : Z) : Z := ttb / 16384 * 16384 + 4 * (va / 1048576).
Definition ref_coarse (l1desc va : Z) : Z := l1desc / 1024 * 1024 + 4 * ((va / 4096) mod 256).
Definition ref_fine (l1desc va : Z) : Z := l1desc / 4096 * 4096 + 4 * ((va / 1024) mod 1024).

Definition domain_of (l1desc : Z) : Z := (l1desc / 32) mod 16.
Definition ref_entry (va base perms l1desc : Z) (m : tlb_mapping_t) : tlb_entry_t :=
  mkEntry (page_base m va) (page_base m base) perms (domain_of l1desc) m.

(** The mapping a second-level descriptor describes. *)
Definition ref_page (fine xscale : bool) (l2desc : Z) : option tlb_mapping_t :=
  if l2desc mod 4 =? 1 then Some TLB_LARGEPAGE
  else if l2desc mod 4 =? 2 then Some TLB_SMALLPAGE
  else if l2desc mod 4 =? 3 then
    if fine then Some TLB_TINYPAGE else if xscale then Some TLB_ESMALLPAGE else None
  else None.

(** A fault with the domain it is recorded with, or the entry. *)
Definition ref_walk (rd : Z -> Z) (xscale : bool) (ttb va : Z) : (fault_t * option Z) + tlb_entry_t :=
  let l1desc := rd (ref_l1 ttb va) in
  let page (fine : bool) l2desc :=
    match ref_page fine xscale l2desc with
    | Some m => inr (ref_entry va l2desc (l2desc &&& 0xFFC) l1desc m)
    | None => inl (PAGE_TRANSLATION_FAULT, Some (domain_of l1desc))
    end in
  if l1desc mod 4 =? 1 then page false (rd (ref_coarse l1desc va))
  else if l1desc mod 4 =? 2 then inr (ref_entry va l1desc (l1desc &&& 0xC0C) l1desc TLB_SECTION)
  else if l1desc mod 4 =? 3 then page true (rd (ref_fine l1desc va))
  else inl (PAGE_TRANSLATION_FAULT, None).

(** ** The addresses of the code *)

Lemma l1_addr_ref ttb va : word ttb -> word va -> l1_addr ttb va = ref_l1 ttb va.
Proof.
  intros Ht Hv. unfold ref_l1, l1_addr. change 16384 with (2 ^ 14). change 1048576 with (2 ^ 20).
  rewrite shift_down_up, mul4, add_lor_shift, <- Z.shiftr_div_pow2 by
    (try done; rewrite <- ?mul4; unfold word in *; change (2 ^ 14) with (4 * 4096); dlia).
  assert (Ht' : fits 32 ttb) by done. assert (Hv' : fits 32 va) by done. clear Ht Hv.
  fields. same_bits.
Qed.

Lemma field_at x a n : 0 <= a -> 0 <= n -> (x / 2 ^ a) mod 2 ^ n = (x >>> a) &&& Z.ones n.
Proof. intros. by rewrite Z.shiftr_div_pow2, Z.land_ones. Qed.

Lemma coarse_addr_ref d va : word d -> word va -> coarse_addr d va = ref_coarse d va.
Proof.
  intros Ht Hv. unfold ref_coarse, coarse_addr.
  change 1024 with (2 ^ 10). change 4096 with (2 ^ 12). change 256 with (2 ^ 8).
  rewrite shift_down_up, mul4, add_lor_shift, field_at by
    (try done; rewrite <- ?mul4; change (2 ^ 10) with (4 * 2 ^ 8); change (2 ^ 8) with 256; dlia).
  change (Z.ones 8) with 255.
  assert (Ht' : fits 32 d) by done. assert (Hv' : fits 32 va) by done. clear Ht Hv.
  fields. same_bits.
Qed.

Lemma fine_addr_ref d va : word d -> word va -> fine_addr d va = ref_fine d va.
Proof.
  intros Ht Hv. unfold ref_fine, fine_addr.
  change 1024 with (2 ^ 10). change 4096 with (2 ^ 12).
  rewrite shift_down_up, mul4, add_lor_shift, field_at by
    (try done; rewrite <- ?mul4; change (2 ^ 12) with (4 * 2 ^ 10); change (2 ^ 10) with 1024; dlia).
  change (Z.ones 10) with 1023.
  assert (Ht' : fits 32 d) by done. assert (Hv' : fits 32 va) by done. clear Ht Hv.
  fields. same_bits.
Qed.

Lemma domain_of_ref d : (d >>> 5) &&& 0xF = domain_of d.
Proof. unfold domain_of. change 16 with (2 ^ 4). change 32 with (2 ^ 5). by rewrite field_at. Qed.

Lemma land_3_mod x : x &&& 3 = x mod 4.
Proof. apply land_3. Qed.

Lemma mask_ref_entry va base perms l1desc m : word va -> word base -> m <> TLB_INVALID ->
  mask_entry (mkEntry va base perms ((l1desc >>> 5) &&& 0xF) m) = ref_entry va base perms l1desc m.
Proof.
  intros Hv Hb Hm. unfold mask_entry, ref_entry, upd. simpl.
  by rewrite domain_of_ref, !tlb_mask_page.
Qed.

(** ** Coherent buffers *)

Definition tlb_wf (t : tlb_t) : Prop :=
  0 < tlb_num t /\ Z.of_nat (length (entrys t)) = tlb_num t /\ 0 <= tlb_cycle t < tlb_num t.

(** Each valid entry is what the walk finds for every address of its page. *)
Definition coherent (w : Z -> (fault_t * option Z) + tlb_entry_t) (t : tlb_t) : Prop :=
  forall e va, e ∈ entrys t -> te_mapping e <> TLB_INVALID -> word va ->
    page_base (te_mapping e) va = te_virt_addr e -> w va = inr e.

(** The tables describe each page once: what the walk finds for an address it
    finds for the whole page (the architecture asks for 16 copies of the
    descriptor of a large page). *)
Definition pages_consistent (w : Z -> (fault_t * option Z) + tlb_entry_t) : Prop :=
  forall va va' e, word va -> word va' -> w va = inr e ->
    page_base (te_mapping e) va' = te_virt_addr e -> w va' = inr e.

Definition entry_wf (e : tlb_entry_t) : Prop :=
  te_mapping e <> TLB_INVALID -> word (te_virt_addr e) /\ page_base (te_mapping e) (te_virt_addr e) = te_virt_addr e.

Lemma tlb_hit_page va e : word va -> entry_wf e ->
  tlb_hit va e = true <-> te_mapping e <> TLB_INVALID /\ page_base (te_mapping e) va = te_virt_addr e.
Proof.
  intros Hv He. unfold tlb_hit. destruct (decide (te_mapping e = TLB_INVALID)) as [E|E].
  - rewrite E. split; [done|]. by intros [? _].
  - destruct (He E) as [Hw Hp]. rewrite !tlb_mask_page, Hp, Z.eqb_eq by done. tauto.
Qed.

Lemma ref_walk_entry rd xs ttb va e : word va -> ref_walk rd xs ttb va = inr e ->
  entry_wf e /\ te_mapping e <> TLB_INVALID /\ te_virt_addr e = page_base (te_mapping e) va.
Proof.
  intros Hv H.
  assert (Hg : forall base perms d m, e = ref_entry va base perms d m -> m <> TLB_INVALID ->
    entry_wf e /\ te_mapping e <> TLB_INVALID /\ te_virt_addr e = page_base (te_mapping e) va).
  { intros base perms d m -> Hm. split; [|by split]. intros _. split; [by apply page_base_word|].
    apply page_base_idemp. }
  unfold ref_walk, ref_page in H.
  repeat case_match; try discriminate H; injection H as <-; eapply Hg; try reflexivity; congruence.
Qed.

Definition hits (t : tlb_t) (va : Z) (i : nat) (e : tlb_entry_t) : Prop :=
  entrys t !! i = Some e /\ te_mapping e <> TLB_INVALID /\ page_base (te_mapping e) va = te_virt_addr e.

Record tlb_ok (w : Z -> (fault_t * option Z) + tlb_entry_t) (t : tlb_t) : Prop := {
  ok_wf : tlb_wf t;
  ok_entries : Forall entry_wf (entrys t);
  ok_coherent : coherent w t;
  ok_unique va i j e f : word va -> hits t va i e -> hits t va j f -> i = j
}.

Lemma hits_coherent w t va i e : tlb_ok w t -> word va -> hits t va i e -> w va = inr e.
Proof.
  intros H Hv (Hi & Hm & Hp). apply (ok_coherent w t H); [by eapply list_elem_of_lookup_2|done..].
Qed.

Lemma search_hits w t va : tlb_ok w t -> word va ->
  match mmu_tlb_search t va with
  | Some (i, e) => hits t va i e
  | None => forall i e, ~ hits t va i e
  end.
Proof.
  intros [(_ & Hl & _) Hf _ _] Hv. unfold mmu_tlb_search. rewrite take_ge by lia.
  rewrite list.Forall_forall in Hf. destruct (list_find _ _) as [[i e]|] eqn:H.
  - apply list_find_Some in H as (Hi & Hh & _). split; [done|].
    apply tlb_hit_page; [done| |done]. by eapply Hf, list_elem_of_lookup_2.
  - apply list_find_None in H. rewrite list.Forall_forall in H. intros i e (Hi & Hh).
    apply list_elem_of_lookup_2 in Hi. apply (H e Hi). by apply tlb_hit_page; [|apply Hf|].
Qed.

(** Placing the entry of an address that missed. *)
Lemma tlb_ok_place w t va e : tlb_ok w t -> pages_consistent w -> word va -> w va = inr e ->
  entry_wf e -> te_mapping e <> TLB_INVALID -> te_virt_addr e = page_base (te_mapping e) va ->
  (forall i f, ~ hits t va i f) -> tlb_ok w (tlb_place e t).
Proof.
  intros H Hc Hv He Hwf Hm Hp Hmiss. pose proof (ok_wf w t H) as (H1 & H2 & H3).
  assert (Hl : forall i f, entrys (tlb_place e t) !! i = Some f ->
    (f = e /\ i = Z.to_nat (tlb_cycle t)) \/ entrys t !! i = Some f).
  { intros i f Hi. unfold tlb_place in Hi. upds_in Hi. unfold wr in Hi.
    apply list_lookup_insert_Some in Hi as [(<- & <- & _)|[_ Hi]]; [by left|by right]. }
  assert (Hno : forall va' i f, word va' -> hits t va' i f -> page_base (te_mapping e) va' <> te_virt_addr e).
  { intros va' i f Hv' Hi Hpe. pose proof (hits_coherent w t va' i f H Hv' Hi) as E.
    rewrite (Hc va va' e Hv Hv' He Hpe) in E. injection E as <-. by apply (Hmiss i e), (conj (proj1 Hi)). }
  split.
  - unfold tlb_wf, tlb_place. upds. rewrite length_wr. split; [done|]. split; [done|].
    rewrite Z.rem_mod_nonneg by lia. apply Z.mod_pos_bound. lia.
  - unfold tlb_place. upds. by apply Forall_wr; [apply H|].
  - intros f va' [i Hi]%list_elem_of_lookup_1 Hmf Hv' Hpf. destruct (Hl i f Hi) as [[-> _]|Hi'].
    + by apply (Hc va va' e Hv Hv' He).
    + by apply (hits_coherent w t va' i f H Hv').
  - intros va' i j f g Hv' (Hi & Hmf & Hpf) (Hj & Hmg & Hpg).
    destruct (Hl i f Hi) as [[-> ->]|Hi'], (Hl j g Hj) as [[-> ->]|Hj']; try done.
    + by destruct (Hno va' j g Hv').
    + by destruct (Hno va' i f Hv').
    + by apply (ok_unique w t H va' i j f g Hv').
Qed.

(** ** Invalidation *)

Lemma invalidate_all_entries t : tlb_wf t ->
  tlb_wf (mmu_tlb_invalidate_all t) /\
  forall e, e ∈ entrys (mmu_tlb_invalidate_all t) -> te_mapping e = TLB_INVALID.
Proof.
  intros (H1 & H2 & H3). unfold mmu_tlb_invalidate_all.
  assert (H : tlb_num (for_range 0 (tlb_num t) (fun i t => t <| entrys ::= alter (fun e => e <| te_mapping := TLB_INVALID |>) (Z.to_nat i) |>) t) = tlb_num t /\
    length (entrys (for_range 0 (tlb_num t) (fun i t => t <| entrys ::= alter (fun e => e <| te_mapping := TLB_INVALID |>) (Z.to_nat i) |>) t)) = length (entrys t) /\
    forall j e, Z.of_nat j < tlb_num t ->
      entrys (for_range 0 (tlb_num t) (fun i t => t <| entrys ::= alter (fun e => e <| te_mapping := TLB_INVALID |>) (Z.to_nat i) |>) t) !! j = Some e ->
      te_mapping e = TLB_INVALID).
  { apply (for_range_ind (fun i t' => tlb_num t' = tlb_num t /\ length (entrys t') = length (entrys t) /\
      forall j e, Z.of_nat j < i -> entrys t' !! j = Some e -> te_mapping e = TLB_INVALID)).
    - lia.
    - split; [done|]. split; [done|]. lia.
    - intros i t' Hi (E1 & E2 & IH). upds. split; [done|]. split; [by rewrite length_alter|].
      intros j e Hj He. destruct (decide (j = Z.to_nat i)) as [->|Hne].
      + rewrite list_lookup_alter_eq in He. apply fmap_Some in He as (f & _ & ->). done.
      + rewrite list_lookup_alter_ne in He by done. apply (IH j e); [lia|done]. }
  destruct H as (E1 & E2 & H). unfold tlb_wf. upds. rewrite E1, E2.
  split; [split; [done|]; split; [done|lia]|]. intros e [j Hj]%list_elem_of_lookup_1.
  apply (H j e); [|done]. apply lookup_lt_Some in Hj. lia.
Qed.

Lemma tlb_ok_invalid w t : tlb_wf t -> (forall e, e ∈ entrys t -> te_mapping e = TLB_INVALID) -> tlb_ok w t.
Proof.
  intros Hwf H. split; [done|..].
  - apply list.Forall_forall. intros e He Hm. by rewrite H in Hm.
  - intros e va He Hm. by rewrite H in Hm.
  - intros va i j e f _ (Hi & Hm & _). apply list_elem_of_lookup_2 in Hi. by rewrite H in Hm.
Qed.

Lemma tlb_ok_ext w w' t : (forall va, word va -> w' va = w va) -> tlb_ok w t -> tlb_ok w' t.
Proof.
  intros E [H1 H2 H3 H4]. split; try done. intros e va He Hm Hv Hp. rewrite E by done. by apply H3.
Qed.
Lemma pages_consistent_ext w w' : (forall va, word va -> w' va = w va) -> pages_consistent w -> pages_consistent w'.
Proof. intros E H va va' e Hv Hv'. rewrite !E by done. by apply H. Qed.

Lemma tlb_init_ok w num fresh : 0 < num -> tlb_ok w (mmu_tlb_init num fresh).
Proof.
  intros Hn. apply tlb_ok_invalid.
  - split; [done|]. cbn [mmu_tlb_init tlb_num entrys tlb_cycle]. rewrite length_map, length_seqZ. lia.
  - intros e (i & -> & _)%list_elem_of_fmap. done.
Qed.
(** The tables changed only where the buffer would look for [va]. *)
Definition changed_at (va : Z) (w w' : Z -> (fault_t * option Z) + tlb_entry_t) : Prop :=
  forall x, word x -> w' x = w x \/
    exists e, w va = inr e /\ page_base (te_mapping e) x = te_virt_addr e.

Lemma hits_invalidate w t va i e va' j f : tlb_ok w t -> word va' -> hits t va i e ->
  hits (t <| entrys ::= <[i := e <| te_mapping := TLB_INVALID |>]> |>) va' j f -> hits t va' j f /\ j <> i.
Proof.
  intros H Hv Hi (Hj & Hm & Hp). upds_in Hj.
  apply list_lookup_insert_Some in Hj as [(_ & <- & _)|[Hne Hj]]; [done|]. by split.
Qed.

(** C26: Invalidation keeps the buffer coherent with tables that change: after
    [mmu_tlb_invalidate_all] it is coherent with any tables, after
    [mmu_tlb_invalidate_entry] of an address with any tables that differ from
    the old ones in the page of that address only. *)
Theorem invalidation_keeps_coherent rd rd' xs ttb ttb' t va :
  let w := ref_walk rd xs ttb in let w' := ref_walk rd' xs ttb' in
  tlb_ok w t -> pages_consistent w -> word va -> changed_at va w w' ->
  tlb_ok w' (mmu_tlb_invalidate_all t) /\ tlb_ok w' (mmu_tlb_invalidate_entry t va).
Proof.
  intros w w' H Hc Hv Hch. split.
  { destruct (invalidate_all_entries t (ok_wf w t H)). by apply tlb_ok_invalid. }
  assert (Hold : forall x i e, word x -> hits t x i e -> (forall f, ~ hits t va i f) -> w' x = inr e).
  { intros x i e Hx Hi Hno. pose proof (hits_coherent w t x i e H Hx Hi) as E.
    destruct (Hch x Hx) as [-> |(f & Hf & Hpf)]; [done|]. exfalso.
    destruct (ref_walk_entry _ _ _ va f Hv Hf) as (_ & _ & Hp).
    pose proof (Hc va x f Hv Hx Hf Hpf) as E'. rewrite E in E'. injection E' as <-.
    apply (Hno e). by destruct Hi as (Hi & Hm & _). }
  unfold mmu_tlb_invalidate_entry. pose proof (search_hits w t va H Hv) as Hs.
  destruct (mmu_tlb_search t va) as [[i e]|].
  - split.
    + destruct (ok_wf w t H) as (H1 & H2 & H3). unfold tlb_wf. upds. by rewrite length_insert.
    + upds. apply Forall_insert; [apply H|]. by intros Hm.
    + intros f x [j Hj]%list_elem_of_lookup_1 Hm Hx Hp.
      destruct (hits_invalidate w t va i e x j f H Hx Hs (conj Hj (conj Hm Hp))) as [Hf Hne].
      apply (Hold x j f Hx Hf). intros g Hg. by apply Hne, (ok_unique w t H va j i g e).
    + intros x j k f g Hx Hf Hg.
      destruct (hits_invalidate w t va i e x j f H Hx Hs Hf) as [Hf' _].
      destruct (hits_invalidate w t va i e x k g H Hx Hs Hg) as [Hg' _].
      by apply (ok_unique w t H x j k f g).
  - split; [apply H|apply H| |apply H]. intros f x [j Hj]%list_elem_of_lookup_1 Hm Hx Hp.
    by apply (Hold x j f Hx (conj Hj (conj Hm Hp))).
Qed.

(** ** The walk on the flat memory *)

Section Walk.
Context {M : Type} `{!Board M}.
Implicit Type s : system M.

Lemma set_last_domain_ram d s : ram (set_last_domain d s) = ram s.
Proof. done. Qed.
Lemma set_last_domain_same s : set_last_domain (mmu_last_domain (cpu s)) s = s.
Proof.
  unfold set_last_domain, upd_cpu, cpu. destruct s as [b]. unfold upd. simpl. f_equal.
  transitivity (set_bcore (bcore b) b); [|apply set_bcore_same].
  f_equal. generalize (bcore b). by intros [].
Qed.

(** A word of a translation table. *)
Definition table_ok s (a : Z) : Prop := word a /\ remap s a = a /\ readable (mem_banks (ram s)) a.

(** The tables the walk of [va] visits lie in memory that is not I/O. *)
Definition tables_ok s (m : Z -> Z) (va : Z) : Prop :=
  let e := bigendSig (cpu s) in
  let l1 := ref_l1 (translation_table_base s) va in
  let l1desc := flat_read e Word m l1 in
  table_ok s l1 /\ word l1desc /\
  (l1desc mod 4 = 1 -> table_ok s (ref_coarse l1desc va) /\ word (flat_read e Word m (ref_coarse l1desc va))) /\
  (l1desc mod 4 = 3 -> table_ok s (ref_fine l1desc va) /\ word (flat_read e Word m (ref_fine l1desc va))).

Definition sys_walk s (m : Z -> Z) : Z -> (fault_t * option Z) + tlb_entry_t :=
  ref_walk (flat_read (bigendSig (cpu s)) Word m) (truth (is_XScale (cpu s))) (translation_table_base s).

(** The domain a translation leaves as the last one. *)
Definition walk_domain s (r : (fault_t * option Z) + tlb_entry_t) : Z :=
  match r with
  | inl (_, Some d) => d
  | inl (_, None) => mmu_last_domain (cpu s)
  | inr e => te_domain e
  end.
Definition walk_result (r : (fault_t * option Z) + tlb_entry_t) : fault_t + tlb_entry_t :=
  match r with inl (f, _) => inl f | inr e => inr e end.

(** Reading a descriptor. *)
Lemma read_descriptor s m a :
  bit (bigendSig (cpu s)) -> implements (bigendSig (cpu s)) (ram s) m -> table_ok s a ->
  exists s', mem_read Word a s = Some (flat_read (bigendSig (cpu s)) Word m a, s') /\
    same_but_ram s s' /\ implements (bigendSig (cpu s)) (ram s') m.
Proof. intros He Him (Ha & Hr & Hrd). by apply mem_read_flat. Qed.

Definition raw_matches (va : Z) (r : (fault_t * option Z) + tlb_entry_t) (s s' : system M)
    (q : fault_t + tlb_entry_t) : Prop :=
  match r with
  | inl (f, Some d) => q = inl f /\ exists s1, same_but_ram s s1 /\ s' = set_last_domain d s1
  | inl (f, None) => q = inl f /\ same_but_ram s s'
  | inr e => exists e0, q = inr e0 /\ mask_entry e0 = e /\ same_but_ram s s'
  end.

Lemma implements_last_domain e s m d : implements e (ram s) m -> implements e (ram (set_last_domain d s)) m.
Proof. done. Qed.

Lemma walk_page (fine : bool) va l1desc l2addr s m :
  bit (bigendSig (cpu s)) -> implements (bigendSig (cpu s)) (ram s) m -> word va ->
  table_ok s l2addr -> l2addr = (if fine then fine_addr else coarse_addr) l1desc va ->
  word (flat_read (bigendSig (cpu s)) Word m l2addr) ->
  exists q s', (if fine then walk_fine else walk_coarse) va l1desc s = Some (q, s') /\
    implements (bigendSig (cpu s)) (ram s') m /\
    raw_matches va
      (let l2desc := flat_read (bigendSig (cpu s)) Word m l2addr in
       match ref_page fine (truth (is_XScale (cpu s))) l2desc with
       | Some k => inr (ref_entry va l2desc (l2desc &&& 0xFFC) l1desc k)
       | None => inl (PAGE_TRANSLATION_FAULT, Some (domain_of l1desc))
       end) s s' q.
Proof.
  intros He Him Hv Ht -> Hw.
  destruct (read_descriptor s m _ He Him Ht) as (s1 & E & Hs & Him1).
  set (l2desc := flat_read _ _ _ _) in *. clearbody l2desc.
  assert (Hent : forall k, k <> TLB_INVALID ->
    mask_entry (page_entry va l1desc l2desc k) = ref_entry va l2desc (l2desc &&& 0xFFC) l1desc k)
    by (intros; by apply mask_ref_entry).
  unfold ref_page. rewrite <- (domain_of_ref l1desc), <- !land_3_mod.
  assert (Hk : l2desc &&& 3 = 0 \/ l2desc &&& 3 = 1 \/ l2desc &&& 3 = 2 \/ l2desc &&& 3 = 3)
    by (rewrite land_3_mod; dlia).
  assert (Hx : is_XScale (cpu s1) = is_XScale (cpu s)) by by rewrite (same_but_ram_cpu s s1).
  destruct fine; [unfold walk_fine|unfold walk_coarse]; rewrite E; cbn [mbind option_bind]; rewrite ?Hx;
    destruct Hk as [->|[->|[->| ->]]]; cbn [Z.eqb Pos.eqb]; try destruct (truth (is_XScale (cpu s)));
    (eexists _, _; split; [reflexivity|]; split; [assumption|]; cbn [raw_matches];
     first [eexists; split; [reflexivity|]; split; [by apply Hent|done]
           |split; [done|]; by exists s1]).
Qed.

Lemma raw_matches_trans va r s s1 s2 q : same_but_ram s s1 -> raw_matches va r s1 s2 q -> raw_matches va r s s2 q.
Proof.
  intros Hs. unfold raw_matches. destruct r as [[f [d|]]|e].
  - intros [-> (s3 & H3 & ->)]. split; [done|]. exists s3. split; [|done]. by apply (same_but_ram_trans s s1).
  - intros [-> H]. split; [done|]. by apply (same_but_ram_trans s s1).
  - intros (e0 & -> & <- & H). exists e0. do 2 (split; [done|]). by apply (same_but_ram_trans s s1).
Qed.

Lemma table_ok_same s s1 a : same_but_ram s s1 -> table_ok s a -> table_ok s1 a.
Proof.
  intros Hs (Ha & Hr & Hrd). split; [done|]. unfold remap in *.
  rewrite (same_but_ram_cpu s s1 Hs). destruct Hs as [_ ->]. done.
Qed.

Lemma walk_ref va s m :
  bit (bigendSig (cpu s)) -> implements (bigendSig (cpu s)) (ram s) m ->
  word va -> word (translation_table_base s) -> tables_ok s m va ->
  exists q s', walk va s = Some (q, s') /\ implements (bigendSig (cpu s)) (ram s') m /\
    raw_matches va (sys_walk s m va) s s' q.
Proof.
  intros He Him Hv Hb (Ht & Hd & Hc & Hf). unfold walk. rewrite l1_addr_ref by done.
  destruct (read_descriptor s m _ He Him Ht) as (s1 & E & Hs & Him1). rewrite E. cbn [mbind option_bind].
  unfold sys_walk, ref_walk. set (e := bigendSig (cpu s)) in *.
  set (l1desc := flat_read _ _ _ _) in *. clearbody l1desc. rewrite land_3_mod.
  assert (Hcpu : cpu s1 = cpu s) by by rewrite (same_but_ram_cpu s s1).
  assert (Hk : l1desc mod 4 = 0 \/ l1desc mod 4 = 1 \/ l1desc mod 4 = 2 \/ l1desc mod 4 = 3) by dlia.
  assert (Hpage : forall fine : bool, table_ok s ((if fine then ref_fine else ref_coarse) l1desc va) ->
    word (flat_read e Word m ((if fine then ref_fine else ref_coarse) l1desc va)) ->
    exists q s', (if fine then walk_fine else walk_coarse) va l1desc s1 = Some (q, s') /\
      implements e (ram s') m /\
      raw_matches va
       (match ref_page fine (truth (is_XScale (cpu s)))
            (flat_read e Word m ((if fine then ref_fine else ref_coarse) l1desc va)) with
        | Some k => inr (ref_entry va (flat_read e Word m ((if fine then ref_fine else ref_coarse) l1desc va))
             (flat_read e Word m ((if fine then ref_fine else ref_coarse) l1desc va) &&& 0xFFC) l1desc k)
        | None => inl (PAGE_TRANSLATION_FAULT, Some (domain_of l1desc)) end) s s' q).
  { intros fine H1 H2.
    destruct (walk_page fine va l1desc ((if fine then ref_fine else ref_coarse) l1desc va) s1 m)
      as (q & s2 & E2 & Him2 & Hm2); rewrite ?Hcpu; try done; [by eapply table_ok_same| |].
    { destruct fine; [by rewrite fine_addr_ref|by rewrite coarse_addr_ref]. }
    rewrite Hcpu in Hm2, Him2. exists q, s2. split; [done|]. split; [done|].
    by apply (raw_matches_trans va _ s s1). }
  destruct Hk as [Hk|[Hk|[Hk|Hk]]]; rewrite Hk; cbn [Z.eqb Pos.eqb].
  - eexists _, _. split; [done|]. split; [done|]. by split.
  - destruct (Hc Hk). by apply (Hpage false).
  - eexists _, _. split; [done|]. split; [done|]. eexists. split; [reflexivity|]. split; [|done].
    by apply mask_ref_entry.
  - destruct (Hf Hk). by apply (Hpage true).
Qed.

Lemma translate_walk va t s m :
  bit (bigendSig (cpu s)) -> implements (bigendSig (cpu s)) (ram s) m ->
  word va -> word (translation_table_base s) -> tables_ok s m va ->
  pages_consistent (sys_walk s m) -> tlb_ok (sys_walk s m) t ->
  exists t' s', translate va t s = Some (walk_result (sys_walk s m va), t', s') /\
    tlb_ok (sys_walk s m) t' /\ implements (bigendSig (cpu s)) (ram s') m /\
    exists s1, same_but_ram s s1 /\ s' = set_last_domain (walk_domain s (sys_walk s m va)) s1.
Proof.
  intros He Him Hv Hb Ht Hc Hok. unfold translate. pose proof (search_hits _ t va Hok Hv) as Hs.
  destruct (mmu_tlb_search t va) as [[i e]|].
  - rewrite (hits_coherent _ t va i e Hok Hv Hs). eexists _, _. split; [done|].
    do 2 (split; [done|]). exists s. split; [apply same_but_ram_refl|done].
  - destruct (walk_ref va s m He Him Hv Hb Ht) as (q & s1 & -> & Him1 & Hm). cbn [mbind option_bind].
    unfold raw_matches in Hm. destruct (sys_walk s m va) as [[f [d|]]|e] eqn:Ew.
    + destruct Hm as (-> & s2 & Hs2 & ->). eexists _, _. split; [done|]. do 2 (split; [done|]). by exists s2.
    + destruct Hm as (-> & Hs1). eexists _, _. split; [done|]. do 2 (split; [done|]). exists s1.
      split; [done|]. cbn [walk_domain]. rewrite <- (same_but_ram_cpu s s1 Hs1).
      symmetry. apply set_last_domain_same.
    + destruct Hm as (e0 & -> & Hme & Hs1). rewrite Hme. eexists _, _. split; [done|].
      destruct (ref_walk_entry _ _ _ va e Hv Ew) as (H1 & H2 & H3).
      split; [by apply (tlb_ok_place _ t va e)|]. split; [done|]. by exists s1.
Qed.

(** C4: Behind any coherent buffer, [translate] is the walk of the translation
    tables of the architecture: whether the buffer holds the entry or the
    tables are read, the entry or the fault is the one of the reference walk,
    with its domain recorded; the buffer stays coherent and memory is unchanged. *)
Theorem translate_is_walk va t s m :
  bit (bigendSig (cpu s)) -> implements (bigendSig (cpu s)) (ram s) m ->
  word va -> word (translation_table_base s) -> tables_ok s m va ->
  pages_consistent (sys_walk s m) -> tlb_ok (sys_walk s m) t ->
  exists t' s', translate va t s = Some (walk_result (sys_walk s m va), t', s') /\
    tlb_ok (sys_walk s m) t' /\ implements (bigendSig (cpu s)) (ram s') m /\
    exists s1, same_but_ram s s1 /\ s' = set_last_domain (walk_domain s (sys_walk s m va)) s1.
Proof. exact (translate_walk va t s m). Qed.
End Walk.
