(* ===== verification/Cache.v ===== *)
(** * mmu/cache.c: the cache

    A set-associative cache indexed by virtual address.  A pointer to a line is
    its set and its way.  The functions that allocate take the contents of
    the fresh memory as an argument; [mmu_cache_exit] only frees.  [None] is
    undefined behaviour, here or in an access to memory. *)

From S2P Require Import Prelude Words ArmState Machine ArmSys ArmMem.

Definition TAG_VALID_FLAG := 1.
Definition TAG_FIRST_HALF_DIRTY := 2.
Definition TAG_LAST_HALF_DIRTY := 4.

(** [va_cache_set] and [va_cache_align]; [index_cache_set] is the former. *)
Definition va_cache_set (va : Z) (c : cache_t) : Z := (va / c_width c) &&& (c_set c - 1).
Definition va_cache_align (va : Z) (c : cache_t) : Z := va &&~ (c_width c - 1).

Definition cache_line (c : cache_t) (p : Z * Z) : option cache_line_t :=
  set ← sets c !! Z.to_nat p.1; lines_of set !! Z.to_nat p.2.
Definition upd_line (p : Z * Z) (f : cache_line_t -> cache_line_t) (c : cache_t) : cache_t :=
  c <| sets ::= alter (fun set => set <| lines_of ::= alter f (Z.to_nat p.2) |>) (Z.to_nat p.1) |>.

(** ** Initialisation *)
Definition mmu_cache_init (width way set : Z) (w_mode : cache_mode) (fresh : Z -> Z -> cache_line_t) : cache_t :=
  mkCache width way set w_mode
    (map (fun i => mkSet (map (fun j => (fresh i j) <| tag := 0 |>) (seqZ 0 way)) 0) (seqZ 0 set)).

(** ** Searching *)
Definition line_hit (c : cache_t) (va : Z) (l : cache_line_t) : bool :=
  truth (tag l &&& TAG_VALID_FLAG) && (va_cache_align va c =? va_cache_align (tag l) c).

Definition mmu_cache_search (c : cache_t) (va : Z) : option (option (Z * Z)) :=
  let set := va_cache_set va c in
  cs ← sets c !! Z.to_nat set;
  Some ((fun '(i, _) => (set, Z.of_nat i)) <$>
          list_find (fun l => line_hit c va l = true) (take (Z.to_nat (c_way c)) (lines_of cs))).

(** The loop [while ((way >>= 1) >= 1) i++] of [mmu_cache_search_by_index]
    (32 steps exhaust an [int]). *)
Fixpoint log_way (fuel : nat) (way i : Z) : Z :=
  match fuel with
  | O => i
  | S fuel => if 1 <=? way >>> 1 then log_way fuel (way >>> 1) (i + 1) else i
  end.
Definition mmu_cache_search_by_index (c : cache_t) (index : Z) : Z * Z :=
  (va_cache_set index c, index >>> (32 - log_way 32 (c_way c) 0)).

Section Cache.
Context {M : Type} `{!Board M}.
Implicit Type s : system M.

(** ** Writing back

    The number of words written, and the offset of the first one in the
    line, as the dirty flags tell. *)
Definition dirty_words (c : cache_t) (l : cache_line_t) : option (Z * Z) :=
  let nw := c_width c >>> 2 in
  let dirty := tag l &&& (TAG_FIRST_HALF_DIRTY ||| TAG_LAST_HALF_DIRTY) in
  if dirty =? 0 then None
  else if dirty =? TAG_FIRST_HALF_DIRTY then Some (Z.quot nw 2, 0)
  else if dirty =? TAG_LAST_HALF_DIRTY then Some (Z.quot nw 2, Z.quot nw 2)
  else Some (nw, 0).

Definition mmu_cache_write_back (p : Z * Z) (c : cache_t) s : option (cache_t * system M) :=
  l ← cache_line c p;
  if tag l &&& 1 =? 0 then Some (c, s)
  else match dirty_words c l with
       | None => Some (c, s)
       | Some (nw, first) =>
           let pa := add32 (line_pa l) (first <<< 2) in
           s ← for_range_opt 0 nw (fun i s =>
                 d ← line_data l !! Z.to_nat (first + i);
                 mem_write Word (add32 pa (4 * i)) d s) s;
           Some (upd_line p (fun l => l <| tag ::= fun t =>
                   t &&~ (TAG_FIRST_HALF_DIRTY ||| TAG_LAST_HALF_DIRTY) |>) c, s)
       end.

(** ** Allocation *)

(** Reading a line from memory (for a write-back cache). *)
Definition fill_line (pa : Z) (p : Z * Z) (c : cache_t) s : option (cache_t * system M) :=
  for_range_opt 0 (c_width c >>> 2) (fun i '(c, s) =>
    '(d, s) ← mem_read Word (add32 pa (4 * i)) s;
    l ← cache_line c p; _ ← line_data l !! Z.to_nat i;
    Some (upd_line p (fun l => l <| line_data ::= fun a => wr a i d |>) c, s)) (c, s).

Definition mmu_cache_alloc (va pa : Z) (c : cache_t) s : option ((Z * Z) * cache_t * system M) :=
  let va := va_cache_align va c in
  let pa := va_cache_align pa c in
  let i := va_cache_set va c in
  set ← sets c !! Z.to_nat i;
  let p := (i, set_cycle set) in
  l ← cache_line c p;
  let cycle := set_cycle set + 1 in
  let cycle := if cycle =? c_way c then 0 else cycle in
  let c := c <| sets ::= alter (fun set => set <| set_cycle := cycle |>) (Z.to_nat i) |> in
  '(c, s) ←
    (if decide (c_w_mode c = CACHE_WRITE_BACK) then
       '(c, s) ← (if truth (tag l &&& TAG_VALID_FLAG) then mmu_cache_write_back p c s else Some (c, s));
       fill_line pa p c s
     else Some (c, s));
  Some (p, upd_line p (fun l => l <| tag := va ||| TAG_VALID_FLAG |> <| line_pa := pa |>) c, s).

(** ** Cleaning and invalidating *)

Definition invalidate_line (p : Z * Z) (c : cache_t) s : option (cache_t * system M) :=
  '(c, s) ← mmu_cache_write_back p c s; Some (upd_line p (fun l => l <| tag := 0 |>) c, s).

Definition mmu_cache_clean (va : Z) (c : cache_t) s : option (cache_t * system M) :=
  o ← mmu_cache_search c va;
  match o with Some p => mmu_cache_write_back p c s | None => Some (c, s) end.
Definition mmu_cache_clean_by_index (index : Z) (c : cache_t) s : option (cache_t * system M) :=
  mmu_cache_write_back (mmu_cache_search_by_index c index) c s.
Definition mmu_cache_invalidate (va : Z) (c : cache_t) s : option (cache_t * system M) :=
  o ← mmu_cache_search c va;
  match o with Some p => invalidate_line p c s | None => Some (c, s) end.
Definition mmu_cache_invalidate_by_index (index : Z) (c : cache_t) s : option (cache_t * system M) :=
  invalidate_line (mmu_cache_search_by_index c index) c s.

Definition mmu_cache_invalidate_all (c : cache_t) s : option (cache_t * system M) :=
  for_range_opt 0 (c_set c) (fun i cs =>
    for_range_opt 0 (c_way c) (fun j '(c, s) => invalidate_line (i, j) c s) cs) (c, s).

Definition mmu_cache_soft_flush (pa : Z) (c : cache_t) s : option (cache_t * system M) :=
  let pa := pa / c_width c in
  let way := pa &&& (c_way c - 1) in
  let set := (pa / c_way c) &&& (c_set c - 1) in
  invalidate_line (set, way) c s.
End Cache.
