(* ===== verification/Arm7100.v ===== *)
(** * mmu/arm7100_mmu.c: the memory system of the ARM7 processors

    Reads and writes through the translation buffer and the write-through
    cache, and the registers of coprocessor 15.  A read gives a value or a
    fault; a write a fault code.  The binary translator's [a71_mmu_v2p_dbct]
    is included, messages are not. *)

From S2P Require Import Prelude Words ArmState Machine ArmSys ArmMem Tlb Cache.

(** [MMU_ID] ... in [mmu_regnum_t]. *)
Definition MMU_ID := 0.
Definition MMU_CONTROL := 1.
Definition MMU_TRANSLATION_TABLE_BASE := 2.
Definition MMU_DOMAIN_ACCESS_CONTROL := 3.
Definition MMU_FAULT_STATUS := 5.
Definition MMU_FAULT_ADDRESS := 6.
Definition MMU_V4_CACHE_OPS := 7.
Definition MMU_V4_TLB_OPS := 8.
Definition MMU_V3_FLUSH_TLB := 5.
Definition MMU_V3_FLUSH_TLB_ENTRY := 6.
Definition MMU_V3_FLUSH_CACHE := 7.

Section Arm7100.
Context {M : Type} `{!Board M}.
Implicit Type s : system M.

Definition control_on s (flag : Z) : bool := truth (mmu_control (cpu s) &&& flag).

(** ** Initialisation *)
Definition a71_mmu_init (fresh_line : Z -> Z -> cache_line_t) (fresh_entry : Z -> tlb_entry_t) s : system M :=
  (upd_cpu (fun c => c <| mmu_control := 0x70 |> <| mmu_fault_status := 0 |>
                       <| mmu_fault_address := 0 |>) s)
    <| translation_table_base := 0xDEADC0DE |> <| domain_access_control := 0xDEADC0DE |>
    <| a71_cache := mmu_cache_init 16 4 128 CACHE_WRITE_THROUGH fresh_line |>
    <| a71_tlb := mmu_tlb_init 64 fresh_entry |>.

(** ** Accesses *)

Definition misaligned (w : width) (va : Z) s : bool :=
  (truth (va &&& 3) && bool_decide (w = Word) && control_on s CONTROL_ALIGN_FAULT) ||
  (truth (va &&& 1) && bool_decide (w = Half) && control_on s CONTROL_ALIGN_FAULT).

(** [cache->data[(virt_addr >> 2) & 3]]. *)
Definition line_word (va : Z) (l : cache_line_t) : option Z := line_data l !! Z.to_nat ((va >>> 2) &&& 3).

(** The line that holds an address, when the cache is on. *)
Definition a71_lookup (va : Z) s : option (option (Z * Z)) :=
  if control_on s CONTROL_CACHE then mmu_cache_search (a71_cache s) va else Some None.

(** Translation and access check: the entry, or a fault. *)
Definition a71_translate (va : Z) (read : bool) s : option ((fault_t + tlb_entry_t) * system M) :=
  '(r, t, s) ← translate va (a71_tlb s) s;
  let s := s <| a71_tlb := t |> in
  match r with
  | inl f => Some (inl f, s)
  | inr e =>
      '(f, s) ← check_access va e read s;
      Some (if decide (f = NO_FAULT) then inr e else inl f, s)
  end.

(** Filling the line of an address from the four words at [phys_addr]. *)
Definition a71_fill (va phys_addr : Z) s : option (Z * Z * system M) :=
  '(p, c, s) ← mmu_cache_alloc va 0 (a71_cache s) s;
  let fetch := phys_addr &&& 0xFFFFFFF0 in
  '(c, s) ← for_range_opt 0 4 (fun i '(c, s) =>
    '(d, s) ← mem_read Word (add32 fetch (4 * i)) s;
    l ← cache_line c p; _ ← line_data l !! Z.to_nat i;
    Some (upd_line p (fun l => l <| line_data ::= fun a => wr a i d |>) c, s)) (c, s);
  let c := upd_line p (fun l => l <| tag := va_cache_align va c ||| TAG_VALID_FLAG |>) c in
  Some (p, s <| a71_cache := c |>).

(** A read from a line of the cache. *)
Definition read_line (w : width) (va : Z) (p : Z * Z) s : option Z :=
  l ← cache_line (a71_cache s) p; x ← line_word va l; Some (lane_get (bigendSig (cpu s)) w va x).

Definition a71_mmu_read (w : width) (va : Z) s : option ((fault_t + Z) * system M) :=
  if negb (control_on s CONTROL_MMU) then
    '(v, s) ← mem_read w va s; Some (inr v, s)
  else if misaligned w va s then Some (inl ALIGNMENT_FAULT, s)
  else
    o ← a71_lookup va s;
    match o with
    | Some p => v ← read_line w va p s; Some (inr v, s)
    | None =>
        '(r, s) ← a71_translate va true s;
        match r with
        | inl f => Some (inl f, s)
        | inr e =>
            let phys_addr := tlb_va_to_pa e va in
            if truth (te_perms e &&& 0x08) && control_on s CONTROL_CACHE then
              '(p, s) ← a71_fill va phys_addr s;
              v ← read_line w va p s; Some (inr v, s)
            else '(v, s) ← mem_read w phys_addr s; Some (inr v, s)
        end
    end.

(** The update of a line of the cache by a write. *)
Definition write_line (w : width) (va data : Z) (p : Z * Z) s : option (system M) :=
  l ← cache_line (a71_cache s) p; x ← line_word va l;
  let v := lane_set (bigendSig (cpu s)) w va data x in
  Some (s <| a71_cache ::= upd_line p (fun l => l <| line_data ::= fun a => wr a ((va >>> 2) &&& 3) v |>) |>).

Definition a71_mmu_write (w : width) (va data : Z) s : option (fault_t * system M) :=
  if negb (control_on s CONTROL_MMU) then s ← mem_write w va data s; Some (NO_FAULT, s)
  else if misaligned w va s then Some (ALIGNMENT_FAULT, s)
  else
    o ← a71_lookup va s;
    s ← match o with Some p => write_line w va data p s | None => Some s end;
    '(r, s) ← a71_translate va false s;
    match r with
    | inl f => Some (f, s)
    | inr e => s ← mem_write w (tlb_va_to_pa e va) data s; Some (NO_FAULT, s)
    end.

(** [a71_mmu_v2p_dbct]: the physical address, if the access is allowed. *)
Definition a71_mmu_v2p_dbct (va : Z) s : option (option Z * system M) :=
  if truth (va &&& 3) && control_on s CONTROL_ALIGN_FAULT then Some (None, s)
  else if negb (control_on s CONTROL_MMU) then Some (Some va, s)
  else '(r, s) ← a71_translate va true s;
       Some (match r with inl _ => None | inr e => Some (tlb_va_to_pa e va) end, s).

(** ** Coprocessor 15 *)

Definition creg (instr : Z) : Z := BITS instr 16 19 &&& 15.

Definition a71_mmu_mrc (instr : Z) s : Z :=
  let c := creg instr in
  if c =? MMU_ID then cpu_val s
  else if c =? MMU_CONTROL then mmu_control (cpu s)
  else if c =? MMU_TRANSLATION_TABLE_BASE then translation_table_base s
  else if c =? MMU_DOMAIN_ACCESS_CONTROL then domain_access_control s
  else if c =? MMU_FAULT_STATUS then mmu_fault_status (cpu s)
  else if c =? MMU_FAULT_ADDRESS then mmu_fault_address (cpu s)
  else 0.

Definition flush_cache s : option (system M) :=
  '(c, s) ← mmu_cache_invalidate_all (a71_cache s) s; Some (s <| a71_cache := c |>).

(** The registers that are written alike in both architectures. *)
Definition mcr_common (c value : Z) s : option (system M) :=
  if c =? MMU_CONTROL then
    Some (upd_cpu (fun k => k <| mmu_control := (value ||| 0x70) &&& 0xFFFF |>) s)
  else if c =? MMU_TRANSLATION_TABLE_BASE then
    Some (s <| translation_table_base := value &&& 0xFFFFC000 |>)
  else if c =? MMU_DOMAIN_ACCESS_CONTROL then Some (s <| domain_access_control := value |>)
  else None.

Definition mcr_v4 (instr c value : Z) s : option (system M) :=
  if c =? MMU_FAULT_STATUS then Some (upd_cpu (fun k => k <| mmu_fault_status := value &&& 0xFF |>) s)
  else if c =? MMU_FAULT_ADDRESS then Some (upd_cpu (fun k => k <| mmu_fault_address := value |>) s)
  else if c =? MMU_V4_CACHE_OPS then
    if BITS instr 5 7 &&& 7 =? 0 then flush_cache s else Some s
  else if c =? MMU_V4_TLB_OPS then
    if BITS instr 5 7 &&& 7 =? 0 then Some (s <| a71_tlb ::= mmu_tlb_invalidate_all |>)
    else if BITS instr 5 7 &&& 7 =? 1 then
      Some (s <| a71_tlb ::= fun t => mmu_tlb_invalidate_entry t value |>)
    else Some s
  else Some s.

Definition mcr_v3 (c value : Z) s : option (system M) :=
  if c =? MMU_V3_FLUSH_TLB then Some (s <| a71_tlb ::= mmu_tlb_invalidate_all |>)
  else if c =? MMU_V3_FLUSH_TLB_ENTRY then
    Some (s <| a71_tlb ::= fun t => mmu_tlb_invalidate_entry t value |>)
  else if c =? MMU_V3_FLUSH_CACHE then flush_cache s
  else Some s.

Definition a71_mmu_mcr (instr value : Z) s : option (system M) :=
  let c := creg instr in
  match mcr_common c value s with
  | Some s => Some s
  | None => if armv4 s then mcr_v4 instr c value s else mcr_v3 c value s
  end.
End Arm7100.
