(* ===== verification/MmuSpec.v ===== *)
(** * The MMU implements virtual memory

    With the MMU on and the cache off, a virtual access is aligned, translated
    and checked, and then acts on the flat physical memory; a fault leaves
    memory unchanged.  [virtual] says how in terms of the reference walk;
    [architecture] is the access of the architecture manual, from which the
    simulator differs in three named points. *)

From S2P Require Import Prelude Words Bits ArmState Machine ArmSys ArmMem MemSpec Tlb TlbSpec Cache Arm7100.

(** ** Access permissions *)

(** The AP field that governs an address: the entry has one for each quarter of
    a small or large page, one for a section (the highest field) and one for
    the other pages. *)
Definition ref_ap (e : tlb_entry_t) (va : Z) : Z :=
  let k := match te_mapping e with
           | TLB_SECTION => 3
           | TLB_SMALLPAGE => va mod 4096 / 1024
           | TLB_LARGEPAGE => va mod 65536 / 16384
           | _ => 0
           end in
  (te_perms e / 4 ^ (2 + k)) mod 4.

(** Whether an AP field allows an access, with the S and R bits of the
    control register. *)
Definition ap_allows (privileged read S R : bool) (ap : Z) : bool :=
  if ap =? 0 then read && (R || (S && privileged))
  else if ap =? 1 then privileged
  else if ap =? 2 then privileged || read
  else true.

(** The simulator counts system mode as a user mode. *)
Definition privileged (mode : Z) : bool :=
  bool_decide (mode <> USER32MODE /\ mode <> USER26MODE /\ mode <> SYSTEM32MODE).

(** The fault of an access through an entry, if any: a domain is no access
    (0, 2), client (1) or manager (3). *)
Definition ref_check (control dacr mode : Z) (e : tlb_entry_t) (va : Z) (read : bool) : option fault_t :=
  let access := (dacr / 4 ^ te_domain e) mod 4 in
  if (access =? 0) || (access =? 2) then Some SECTION_DOMAIN_FAULT
  else if access =? 3 then None
  else if ap_allows (privileged mode) read (Z.testbit control 8) (Z.testbit control 9) (ref_ap e va)
  then None
  else Some (if decide (te_mapping e = TLB_SECTION) then SECTION_PERMISSION_FAULT else SUBPAGE_PERMISSION_FAULT).

Section Mmu.
Context {M : Type} `{!Board M}.
Implicit Type s : system M.

Lemma perm_field x k : 0 <= k -> (x >>> (k * 2)) &&& 3 = (x / 4 ^ k) mod 4.
Proof.
  intros Hk. rewrite land_3_mod, Z.shiftr_div_pow2 by lia. do 2 f_equal.
  rewrite (Z.mul_comm k), Z.pow_mul_r by lia. done.
Qed.

Lemma check_perms_ref s ap read : 0 <= ap < 4 ->
  check_perms s ap read = ap_allows (privileged (Mode (cpu s))) read
    (Z.testbit (mmu_control (cpu s)) 8) (Z.testbit (mmu_control (cpu s)) 9) ap.
Proof.
  intros Ha. unfold check_perms. rewrite !(truth_land_pow2 _ 8), !(truth_land_pow2 _ 9) by done.
  assert (Hu : privileged (Mode (cpu s)) =
    negb ((Mode (cpu s) =? USER32MODE) || (Mode (cpu s) =? USER26MODE) || (Mode (cpu s) =? SYSTEM32MODE))).
  { unfold privileged. case_bool_decide as H; [destruct H as (? & ? & ?)|];
    destruct (Z.eqb_spec (Mode (cpu s)) USER32MODE), (Z.eqb_spec (Mode (cpu s)) USER26MODE),
      (Z.eqb_spec (Mode (cpu s)) SYSTEM32MODE); try done; exfalso; tauto. }
  rewrite Hu. unfold ap_allows.
  destruct (_ || _ || _), (Z.testbit _ 8), (Z.testbit _ 9), read;
    assert (ap = 0 \/ ap = 1 \/ ap = 2 \/ ap = 3) as [->|[->|[->| ->]]] by lia; reflexivity.
Qed.

Lemma subpage_ref e va : te_mapping e <> TLB_INVALID ->
  exists sp, subpage (te_mapping e) va = Some sp /\ (te_perms e >>> (sp * 2 + 4)) &&& 3 = ref_ap e va.
Proof.
  intros Hm. assert (Hk : forall k, 0 <= k -> (te_perms e >>> (k * 2 + 4)) &&& 3 = (te_perms e / 4 ^ (2 + k)) mod 4).
  { intros k Hk. rewrite <- perm_field by lia. do 2 f_equal. lia. }
  unfold ref_ap, subpage. destruct (te_mapping e); try done; eexists; (split; [reflexivity|]); try by apply Hk.
  - rewrite Hk by (rewrite land_3_mod; dlia). rewrite land_3_mod, Z.shiftr_div_pow2 by done.
    change (2 ^ 10) with 1024. do 4 f_equal. dlia.
  - rewrite Hk by (rewrite land_3_mod; dlia). rewrite land_3_mod, Z.shiftr_div_pow2 by done.
    change (2 ^ 14) with 16384. do 4 f_equal. dlia.
Qed.

Lemma check_access_ref va e read s :
  te_mapping e <> TLB_INVALID -> 0 <= te_domain e ->
  check_access va e read s =
    Some (default NO_FAULT (ref_check (mmu_control (cpu s)) (domain_access_control s) (Mode (cpu s)) e va read),
          set_last_domain (te_domain e) s).
Proof.
  intros Hm Hd. unfold check_access, ref_check.
  change (domain_access_control (set_last_domain (te_domain e) s)) with (domain_access_control s).
  rewrite perm_field by done.
  destruct (mod4_cases (domain_access_control s / 4 ^ te_domain e)) as [->|[->|[->| ->]]];
    cbn [Z.eqb Pos.eqb orb default]; try done.
  destruct (subpage_ref e va Hm) as (sp & -> & Eap). cbn [mbind option_bind]. rewrite Eap.
  rewrite check_perms_ref by (unfold ref_ap; dlia).
  unfold set_last_domain at 1 2 3. rewrite !cpu_upd_cpu. upds. by destruct (ap_allows _ _ _ _ _).
Qed.

(** ** Translation *)

Definition ref_pa (e : tlb_entry_t) (va : Z) : Z := te_phys_addr e + va mod page_size (te_mapping e).

Lemma mask_offset m k va : word va -> 0 <= k <= 32 -> tlb_masks m = Z.ones 32 &&~ Z.ones k ->
  va &&~ tlb_masks m = va mod 2 ^ k.
Proof.
  intros Hv Hk ->. rewrite <- Z.land_ones by lia. apply Z.bits_inj'. intros i Hi.
  rewrite Z.land_spec, !Z.ldiff_spec, (testbit_ones (Z.ones 32) 32), (testbit_ones (Z.ones k) k) by lia.
  destruct (Z.lt_ge_cases i 32); [|by rewrite word_testbit].
  destruct (Z.leb_spec 0 i), (Z.ltb_spec i 32), (Z.ltb_spec i k), (Z.testbit va i); try lia; done.
Qed.

Lemma page_shift m : m <> TLB_INVALID ->
  exists k, 0 <= k <= 32 /\ page_size m = 2 ^ k /\ tlb_masks m = Z.ones 32 &&~ Z.ones k.
Proof.
  intros Hm. destruct m; try done; cbn [page_size tlb_masks];
    [exists 12|exists 16|exists 20|exists 12|exists 10]; (split; [lia|done]).
Qed.

(** The physical address of the code, for an entry of the reference walk. *)
Lemma tlb_va_to_pa_ref e va : te_mapping e <> TLB_INVALID -> word va -> word (te_phys_addr e) ->
  page_base (te_mapping e) (te_phys_addr e) = te_phys_addr e ->
  tlb_va_to_pa e va = ref_pa e va.
Proof.
  intros Hm Hv Hb Hp. unfold tlb_va_to_pa, ref_pa. rewrite tlb_mask_page, Hp by done.
  destruct (page_shift _ Hm) as (k & Hk & Es & Em). rewrite (mask_offset _ k) by done.
  rewrite <- Hp at 1 2. unfold page_base. rewrite Es, shift_down_up by lia.
  symmetry. apply add_lor_shift; [lia|]. apply Z.mod_pos_bound. lia.
Qed.

Lemma ref_walk_phys rd xs ttb va e : (forall a, word (rd a)) -> ref_walk rd xs ttb va = inr e ->
  word (te_phys_addr e) /\ page_base (te_mapping e) (te_phys_addr e) = te_phys_addr e /\ 0 <= te_domain e.
Proof.
  intros Hr H.
  assert (Hg : forall a perms d m, e = ref_entry va (rd a) perms d m ->
    word (te_phys_addr e) /\ page_base (te_mapping e) (te_phys_addr e) = te_phys_addr e /\ 0 <= te_domain e).
  { intros a perms d m ->. split; [by apply page_base_word|]. split; [apply page_base_idemp|].
    cbn [ref_entry te_domain]. unfold domain_of. dlia. }
  unfold ref_walk, ref_page in H.
  repeat case_match; try discriminate H; injection H as <-; by eapply Hg.
Qed.

(** ** Virtual memory *)

(** The state of the MMU over the physical memory [m]. *)
Record vm_ok s (m : Z -> Z) : Prop := {
  vm_endian : bit (bigendSig (cpu s));
  vm_mem : implements (bigendSig (cpu s)) (ram s) m;
  vm_bytes a : 0 <= m a < 256;
  vm_ttb : word (translation_table_base s);
  vm_tables va : word va -> tables_ok s m va;
  vm_consistent : pages_consistent (sys_walk s m);
  vm_tlb : tlb_ok (sys_walk s m) (a71_tlb s)
}.

(** What an access may change besides memory: the last domain, the buffer and
    the bank [bank_ptr] remembers. *)
Definition vm_step s s' : Prop := exists d t r,
  s' = (set_last_domain d s) <| a71_tlb := t |> <| ram := r |> /\ mem_banks r = mem_banks (ram s).

Lemma vm_step_sys_walk s s' m : vm_step s s' -> sys_walk s' m = sys_walk s m.
Proof.
  intros (d & t & r & -> & _). unfold sys_walk, set_last_domain, cpu, upd_cpu. upds.
  rewrite bcore_set. by upds.
Qed.

Lemma vm_step_cpu s s' : vm_step s s' ->
  mmu_control (cpu s') = mmu_control (cpu s) /\ domain_access_control s' = domain_access_control s /\
  Mode (cpu s') = Mode (cpu s).
Proof.
  intros (d & t & r & -> & _). unfold set_last_domain, cpu, upd_cpu. upds. rewrite bcore_set. by upds.
Qed.

Lemma vm_step_domain s s' d : vm_step s s' -> vm_step s (set_last_domain d s').
Proof.
  intros (d' & t & r & -> & Hb). exists d, t, r. split; [|done]. unfold set_last_domain, upd_cpu, upd. simpl.
  by rewrite set_bcore_twice, bcore_set.
Qed.

(** The alignment check of a word or a halfword. *)
Definition ref_misaligned s (w : width) (va : Z) : bool :=
  Z.testbit (mmu_control (cpu s)) 1 && negb (va mod size w =? 0).

Lemma misaligned_ref w va s : misaligned w va s = ref_misaligned s w va.
Proof.
  unfold misaligned, ref_misaligned, control_on. rewrite (truth_land_pow2 _ 1) by done.
  rewrite land_3_mod. replace (va &&& 1) with (va mod 2) by (symmetry; by apply (Z.land_ones va 1)). unfold truth.
  destruct w; cbn [size]; simpl; rewrite ?andb_true_r, ?andb_false_r, ?orb_false_r; simpl.
  - by rewrite Z.mod_1_r, andb_false_r.
  - apply andb_comm.
  - apply andb_comm.
Qed.

(** The physical address of a virtual access, or its fault. *)
Definition virtual s (m : Z -> Z) (w : width) (read : bool) (va : Z) : fault_t + Z :=
  if ref_misaligned s w va then inl ALIGNMENT_FAULT
  else match sys_walk s m va with
       | inl (f, _) => inl f
       | inr e =>
           match ref_check (mmu_control (cpu s)) (domain_access_control s) (Mode (cpu s)) e va read with
           | Some f => inl f
           | None => inr (ref_pa e va)
           end
       end.

Lemma ref_check_fault c d mode e va read f : ref_check c d mode e va read = Some f -> f <> NO_FAULT.
Proof. unfold ref_check. by repeat case_match; intros [= <-]. Qed.

Lemma a71_translate_ref va read s m : vm_ok s m -> word va ->
  exists s', a71_translate va read s = Some (
      match sys_walk s m va with
      | inl (f, _) => inl f
      | inr e =>
          match ref_check (mmu_control (cpu s)) (domain_access_control s) (Mode (cpu s)) e va read with
          | Some f => inl f
          | None => inr e
          end
      end, s') /\ vm_step s s' /\ tlb_ok (sys_walk s m) (a71_tlb s') /\
    implements (bigendSig (cpu s)) (ram s') m.
Proof.
  intros H Hv. unfold a71_translate.
  destruct (translate_walk va (a71_tlb s) s m) as (t' & s' & E & Ht & Him & s1 & Hs1 & Es');
    try apply H; try done.
  rewrite E. cbn [mbind option_bind].
  assert (Hstep : vm_step s (s' <| a71_tlb := t' |>)).
  { exists (walk_domain s (sys_walk s m va)), t', (ram s'). destruct Hs1 as [Es1 Eb]. subst s'.
    split; [|done]. by rewrite Es1 at 1. }
  destruct (sys_walk s m va) as [[f o]|e] eqn:Ew; cbn [walk_result].
  - eexists. split; [done|]. by split.
  - destruct (ref_walk_entry _ _ _ va e Hv Ew) as (_ & Hm & _).
    destruct (ref_walk_phys _ _ _ va e (flat_read_word _ m (vm_bytes s m H)) Ew) as (_ & _ & Hd).
    rewrite check_access_ref by done. cbn [mbind option_bind].
    destruct (vm_step_cpu _ _ Hstep) as (-> & -> & ->).
    assert (Hstep2 : vm_step s (set_last_domain (te_domain e) (s' <| a71_tlb := t' |>))) by by apply vm_step_domain.
    destruct (ref_check _ _ _ e va read) as [f|] eqn:Ec; cbn [default id].
    + pose proof (ref_check_fault _ _ _ _ _ _ _ Ec). destruct (decide (f = NO_FAULT)); [done|].
      eexists. split; [done|]. by split.
    + destruct (decide (NO_FAULT = NO_FAULT)); [|done]. eexists. split; [done|]. by split.
Qed.

Lemma vm_step_remap s s' a : vm_step s s' -> remap s' a = remap s a.
Proof.
  intros (d & t & r & -> & _). unfold remap, set_last_domain, cpu, upd_cpu. upds. rewrite bcore_set. by upds.
Qed.
Lemma vm_step_banks s s' : vm_step s s' -> mem_banks (ram s') = mem_banks (ram s).
Proof. by intros (d & t & r & -> & Hb). Qed.
Lemma vm_step_bigend s s' : vm_step s s' -> bigendSig (cpu s') = bigendSig (cpu s).
Proof.
  intros (d & t & r & -> & _). unfold set_last_domain, cpu, upd_cpu. upds. rewrite bcore_set. by upds.
Qed.

(** Where a physical access may go: memory that is not I/O. *)
Definition readable_pa s (pa : Z) : Prop := word pa /\ remap s pa = pa /\ readable (mem_banks (ram s)) pa.
Definition writable_pa s (pa : Z) : Prop := word pa /\ exists i b, at_bank (mem_banks (ram s)) pa i b /\
  reads_rom b /\ (writes_rom b \/ drops_writes b).

Lemma vm_step_ram s s' s'' : vm_step s s' -> same_but_ram s' s'' -> vm_step s s''.
Proof.
  intros (d & t & r & -> & Hb) [E Eb]. exists d, t, (ram s''). split; [by rewrite E|]. by rewrite Eb.
Qed.

Lemma va_to_pa_walk s m va en : vm_ok s m -> word va -> sys_walk s m va = inr en ->
  tlb_va_to_pa en va = ref_pa en va.
Proof.
  intros H Hv Ew. destruct (ref_walk_entry _ _ _ va en Hv Ew) as (_ & Hm & _).
  destruct (ref_walk_phys _ _ _ va en (flat_read_word _ m (vm_bytes s m H)) Ew) as (Hp & Hb & _).
  by apply tlb_va_to_pa_ref.
Qed.

Lemma vm_step_refl s : vm_step s s.
Proof.
  exists (mmu_last_domain (cpu s)), (a71_tlb s), (ram s). split; [|done].
  rewrite set_last_domain_same. by destruct s.
Qed.

(** The two accesses once they are aligned. *)
Lemma virtual_read w va s m : vm_ok s m -> word va ->
  Z.testbit (mmu_control (cpu s)) 0 = true -> Z.testbit (mmu_control (cpu s)) 2 = false ->
  (forall pa, virtual s m w true va = inr pa -> readable_pa s pa) ->
  exists s', a71_mmu_read w va s = Some (
      match virtual s m w true va with
      | inl f => inl f | inr pa => inr (flat_read (bigendSig (cpu s)) w m pa)
      end, s') /\
    vm_step s s' /\ tlb_ok (sys_walk s m) (a71_tlb s') /\ implements (bigendSig (cpu s)) (ram s') m.
Proof.
  intros H Hv Hon Hoff Hr. set (e := bigendSig (cpu s)).
  unfold a71_mmu_read, a71_lookup, control_on.
  rewrite (truth_land_pow2 _ 0), (truth_land_pow2 _ 2), Hon, Hoff, misaligned_ref by done.
  cbn [negb mbind option_bind]. unfold virtual in *. destruct (ref_misaligned s w va).
  { exists s. split; [done|]. split; [apply vm_step_refl|]. split; apply H. }
  destruct (a71_translate_ref va true s m H Hv) as (s' & -> & Hst & Ht & Him). cbn [mbind option_bind].
  destruct (sys_walk s m va) as [[f o]|en] eqn:Ew; [by exists s'|].
  destruct (ref_check _ _ _ en va true) as [f|]; [by exists s'|].
  destruct (vm_step_cpu _ _ Hst) as (-> & _ & _).
  rewrite (truth_land_pow2 _ 2), Hoff, andb_false_r, (va_to_pa_walk s m va en H Hv Ew) by done.
  destruct (Hr _ eq_refl) as (Hpa & Hrm & Hrd).
  destruct (mem_read_flat e m w (ref_pa en va) s') as (s2 & -> & Hs2 & Him2);
    [by apply vm_step_bigend|apply H|done|by rewrite (vm_step_remap s)|done|by rewrite (vm_step_banks s)|].
  exists s2. split; [done|]. split; [by apply (vm_step_ram s s')|]. split; [|done]. by destruct Hs2 as [-> _].
Qed.

Lemma virtual_write w va v s m : vm_ok s m -> word va -> word v ->
  Z.testbit (mmu_control (cpu s)) 0 = true -> Z.testbit (mmu_control (cpu s)) 2 = false ->
  (forall pa, virtual s m w false va = inr pa -> writable_pa s pa) ->
  exists s', a71_mmu_write w va v s = Some (
      match virtual s m w false va with inl f => f | inr _ => NO_FAULT end, s') /\
    vm_step s s' /\ tlb_ok (sys_walk s m) (a71_tlb s') /\
    implements (bigendSig (cpu s)) (ram s') (match virtual s m w false va with
      | inl _ => m
      | inr pa => if is_ram (mem_banks (ram s)) pa then flat_write (bigendSig (cpu s)) w pa v m else m
      end).
Proof.
  intros H Hv Hd Hon Hoff Hw. set (e := bigendSig (cpu s)).
  unfold a71_mmu_write, a71_lookup, control_on.
  rewrite (truth_land_pow2 _ 0), (truth_land_pow2 _ 2), Hon, Hoff, misaligned_ref by done.
  cbn [negb mbind option_bind]. unfold virtual in *. destruct (ref_misaligned s w va).
  { exists s. split; [done|]. split; [apply vm_step_refl|]. split; apply H. }
  destruct (a71_translate_ref va false s m H Hv) as (s' & -> & Hst & Ht & Him). cbn [mbind option_bind].
  destruct (sys_walk s m va) as [[f o]|en] eqn:Ew; [by exists s'|].
  destruct (ref_check _ _ _ en va false) as [f|]; [by exists s'|].
  rewrite (va_to_pa_walk s m va en H Hv Ew). destruct (Hw _ eq_refl) as (Hpa & i & b & Hi & Hb & Hk).
  destruct (mem_write_flat e m w (ref_pa en va) v s' i b) as (s2 & -> & Hs2 & Him2);
    [by apply vm_step_bigend|apply H|done..|by rewrite (vm_step_banks s)|done|done|].
  exists s2. split; [done|]. split; [by apply (vm_step_ram s s')|].
  split; [by destruct Hs2 as [-> _]|]. by rewrite (vm_step_banks s s') in Him2.
Qed.

(** ** The architecture

    Virtual memory as the architecture manual describes it (VMSAv5, with the
    extended small pages of an XScale): an invalid first-level descriptor is a
    section translation fault, the domain fault names the level of the
    mapping, and only the user modes are unprivileged. *)
Definition architecture (rd : Z -> Z) (xscale : bool) (ttb control dacr : Z) (user : bool)
    (w : width) (read : bool) (va : Z) : fault_t + Z :=
  let mapped (e : tlb_entry_t) :=
    let section := bool_decide (te_mapping e = TLB_SECTION) in
    let access := (dacr / 4 ^ te_domain e) mod 4 in
    if (access =? 0) || (access =? 2) then inl (if section then SECTION_DOMAIN_FAULT else PAGE_DOMAIN_FAULT)
    else if (access =? 3) || ap_allows (negb user) read (Z.testbit control 8) (Z.testbit control 9) (ref_ap e va)
    then inr (ref_pa e va)
    else inl (if section then SECTION_PERMISSION_FAULT else SUBPAGE_PERMISSION_FAULT) in
  let l1desc := rd (ref_l1 ttb va) in
  let page (fine : bool) l2desc :=
    match ref_page fine xscale l2desc with
    | Some m => mapped (ref_entry va l2desc (l2desc &&& 0xFFC) l1desc m)
    | None => inl PAGE_TRANSLATION_FAULT
    end in
  if Z.testbit control 1 && negb (va mod size w =? 0) then inl ALIGNMENT_FAULT
  else if l1desc mod 4 =? 1 then page false (rd (ref_coarse l1desc va))
  else if l1desc mod 4 =? 2 then mapped (ref_entry va l1desc (l1desc &&& 0xC0C) l1desc TLB_SECTION)
  else if l1desc mod 4 =? 3 then page true (rd (ref_fine l1desc va))
  else inl SECTION_TRANSLATION_FAULT.

(** Where the simulator differs: it reports each translation fault as that of
    a page and each domain fault as that of a section, and it checks the
    accesses of system mode as those of a user mode. *)
Definition reported (f : fault_t) : fault_t :=
  match f with
  | SECTION_TRANSLATION_FAULT => PAGE_TRANSLATION_FAULT
  | PAGE_DOMAIN_FAULT => SECTION_DOMAIN_FAULT
  | f => f
  end.
Definition checked_as_user (mode : Z) : bool :=
  (mode =? USER32MODE) || (mode =? USER26MODE) || (mode =? SYSTEM32MODE).

(** The architecture's answer for the tables in [m], as the simulator puts it. *)
Definition arch_access s (m : Z -> Z) (w : width) (read : bool) (va : Z) : fault_t + Z :=
  match architecture (flat_read (bigendSig (cpu s)) Word m) (truth (is_XScale (cpu s))) (translation_table_base s)
      (mmu_control (cpu s)) (domain_access_control s) (checked_as_user (Mode (cpu s))) w read va with
  | inl f => inl (reported f)
  | inr pa => inr pa
  end.

Lemma privileged_checked mode : privileged mode = negb (checked_as_user mode).
Proof.
  unfold privileged, checked_as_user. case_bool_decide as H; [destruct H as (? & ? & ?)|];
    destruct (Z.eqb_spec mode USER32MODE), (Z.eqb_spec mode USER26MODE),
      (Z.eqb_spec mode SYSTEM32MODE); try done; exfalso; tauto.
Qed.

(** The check of the access, once an entry is found. *)
Lemma check_architecture control dacr mode e va read :
  match ref_check control dacr mode e va read with Some f => inl f | None => inr (ref_pa e va) end =
  match (let section := bool_decide (te_mapping e = TLB_SECTION) in
         let access := (dacr / 4 ^ te_domain e) mod 4 in
         if (access =? 0) || (access =? 2) then inl (if section then SECTION_DOMAIN_FAULT else PAGE_DOMAIN_FAULT)
         else if (access =? 3) || ap_allows (negb (checked_as_user mode)) read (Z.testbit control 8) (Z.testbit control 9) (ref_ap e va)
         then inr (ref_pa e va)
         else inl (if section then SECTION_PERMISSION_FAULT else SUBPAGE_PERMISSION_FAULT)) with
  | inl f => inl (reported f)
  | inr pa => inr pa
  end.
Proof.
  unfold ref_check. cbv zeta. rewrite privileged_checked. destruct (_ || (_ =? 2)).
  { by destruct (bool_decide _). }
  destruct (_ =? 3); [done|]. cbn [orb]. destruct (ap_allows _ _ _ _ _); [done|].
  case_bool_decide; by destruct (decide _).
Qed.

Lemma virtual_architecture s m w read va : virtual s m w read va = arch_access s m w read va.
Proof.
  unfold virtual, arch_access, architecture, ref_misaligned, sys_walk, ref_walk. cbv zeta.
  destruct (_ && negb (va mod _ =? 0)); [done|]. set (d := flat_read _ _ _ (ref_l1 _ _)).
  destruct (d mod 4 =? 1).
  { destruct (ref_page _ _ _); [|done]. apply check_architecture. }
  destruct (d mod 4 =? 2); [apply check_architecture|]. destruct (d mod 4 =? 3); [|done].
  destruct (ref_page _ _ _); [|done]. apply check_architecture.
Qed.

(** C3: With the MMU on and the cache off, a read or a write of any width
    behaves as the virtual memory of the architecture, up to the three
    deviations that [reported] and [checked_as_user] name: alignment, the
    descriptors of the tables, the domain and the permissions decide between a
    fault and a physical address; a read gives the bytes of physical memory
    there, a write changes these bytes, and a fault leaves memory unchanged.
    The deviations: an invalid first-level descriptor is reported as a
    page translation fault, a domain fault always as that of a section, and
    system mode is checked as a user mode.  The translation buffer is
    invisible and stays coherent. *)
Theorem virtual_memory w va v s m :
  vm_ok s m -> word va -> word v ->
  Z.testbit (mmu_control (cpu s)) 0 = true -> Z.testbit (mmu_control (cpu s)) 2 = false ->
  (forall pa, arch_access s m w true va = inr pa -> readable_pa s pa) ->
  (forall pa, arch_access s m w false va = inr pa -> writable_pa s pa) ->
  let e := bigendSig (cpu s) in
  (exists s', a71_mmu_read w va s = Some (
       match arch_access s m w true va with inl f => inl f | inr pa => inr (flat_read e w m pa) end, s') /\
     vm_step s s' /\ tlb_ok (sys_walk s m) (a71_tlb s') /\ implements e (ram s') m) /\
  (exists s', a71_mmu_write w va v s = Some (
       match arch_access s m w false va with inl f => f | inr _ => NO_FAULT end, s') /\
     vm_step s s' /\ tlb_ok (sys_walk s m) (a71_tlb s') /\
     implements e (ram s') (match arch_access s m w false va with
       | inl _ => m
       | inr pa => if is_ram (mem_banks (ram s)) pa then flat_write e w pa v m else m
       end)).
Proof.
  rewrite <- !virtual_architecture. intros H Hv Hd Hon Hoff Hr Hw e. split; [by apply virtual_read|by apply virtual_write].
Qed.
End Mmu.
