(* ===== verification/ArmVirt.v ===== *)
(** * armvirt.c: the core's accesses to memory

    Loads, stores and instruction fetches through the operations of the
    configured MMU (armmmu.c), with the cycle counters and the reporting of
    faults as aborts.  ([GetWord], [PutWord] and the other static functions
    only forward to the MMU; the code is compiled without [ABORTS],
    [VALIDATE] and [HOURGLASS].) *)

From S2P Require Import Prelude Words ArmState ArmSupp ArmShift Machine ArmSys ArmMem Tlb Cache Arm7100.

(** ** The operations of an MMU

    [mmu_ops_t]: the accesses by width, the instruction fetch and the
    register transfers. *)
Class MmuOps (M : Type) := {
  mmu_read : width -> Z -> system M -> option ((fault_t + Z) * system M);
  mmu_write : width -> Z -> Z -> system M -> option (fault_t * system M);
  mmu_load_instr : Z -> system M -> option ((fault_t + Z) * system M);
  mmu_mcr : Z -> Z -> system M -> option (system M);
  mmu_mrc : Z -> system M -> Z
}.

(** [arm7100_mmu_ops], which [mmu_init] installs for the ARM7TDMI of the
    LPC2300, the ARM710 and the ARM720T. *)
#[export] Instance arm7100_mmu_ops {M} `{!Board M} : MmuOps M := {|
  mmu_read := a71_mmu_read;
  mmu_write := a71_mmu_write;
  mmu_load_instr := a71_mmu_read Word;
  mmu_mcr := a71_mmu_mcr;
  mmu_mrc := a71_mmu_mrc
|}.

Definition mmu_init_arm7100 (cpu_val cpu_mask : Z) : bool :=
  let id := cpu_val &&& cpu_mask in
  (id =? 0x41807200) || (id =? 0x41007700) || (id =? 0x41007100).

(** ** Aborts (armdefs.h) *)
Definition ARMul_PREFETCHABORT (address : Z) (c : ARMul_State) : ARMul_State :=
  if AbortAddr c =? 1
  then c <| AbortAddr := address &&~ (if truth (TFlag c) then 1 else 3) |> else c.
Definition ARMul_DATAABORT (c : ARMul_State) : ARMul_State :=
  c <| abortSig := HIGH |> <| Aborted := ARMul_DataAbortV |>.
Definition ARMul_CLEARABORT (c : ARMul_State) : ARMul_State := c <| abortSig := LOW |>.

(** The fault registers of the MMU, and the abort, for a fault of a data access. *)
Definition data_fault (f : fault_t) (address : Z) (c : ARMul_State) : ARMul_State :=
  ARMul_DATAABORT
    (c <| mmu_fault_status := (fault_code f ||| (mmu_last_domain c <<< 4)) &&& 0xFF |>
       <| mmu_fault_address := address |>).

Definition count_S (c : ARMul_State) : ARMul_State := c <| NumScycles ::= fun n => add32 n 1 |>.
Definition count_N (c : ARMul_State) : ARMul_State := c <| NumNcycles ::= fun n => add32 n 1 |>.

Section Virt.
Context {M : Type} `{!Board M} `{!MmuOps M}.
Implicit Type s : system M.

(** ** Instruction fetch *)
Definition fetch (address : Z) s : option ((fault_t + Z) * system M) :=
  if instcache s then mmu_load_instr address s else mmu_read Word address s.

Definition ARMul_ReLoadInstr (address isize : Z) s : option (Z * system M) :=
  let abort s := Some (ARMul_ABORTWORD (cpu (upd_cpu (ARMul_PREFETCHABORT address) s)),
                       upd_cpu (ARMul_PREFETCHABORT address) s) in
  if (isize =? 2) && truth (address &&& 2) then
    '(lo, s) ← fetch address s;
    match lo with
    | inl _ => abort s
    | inr lo =>
        '(hi, s) ← fetch (add32 address 4) s;
        match hi with
        | inl _ => abort s
        | inr hi =>
            let s := upd_cpu ARMul_CLEARABORT s in
            Some (if bigendSig (cpu s) =? HIGH then shl32 lo 16 ||| (hi >>> 16)
                  else shl32 (hi &&& 0xFFFF) 16 ||| (lo >>> 16), s)
        end
    end
  else
    '(data, s) ← fetch address s;
    match data with
    | inl _ => abort s
    | inr data => Some (data, upd_cpu ARMul_CLEARABORT s)
    end.

Definition ARMul_LoadInstrS (address isize : Z) s := ARMul_ReLoadInstr address isize (upd_cpu count_S s).
Definition ARMul_LoadInstrN (address isize : Z) s := ARMul_ReLoadInstr address isize (upd_cpu count_N s).

(** ** Loads

    [ARMul_ReadWord], [ARMul_ReadByte] and the body of [ARMul_LoadHalfWord],
    which differ in the width only. *)
Definition read_data (w : width) (address : Z) s : option (Z * system M) :=
  '(r, s) ← mmu_read w address s;
  match r with
  | inl f => let s := upd_cpu (data_fault f address) s in Some (ARMul_ABORTWORD (cpu s), s)
  | inr data => Some (data, upd_cpu ARMul_CLEARABORT s)
  end.
Definition ARMul_ReadWord (address : Z) s := read_data Word address s.
Definition ARMul_LoadWordS (address : Z) s := ARMul_ReadWord address (upd_cpu count_S s).
Definition ARMul_LoadWordN (address : Z) s := ARMul_ReadWord address (upd_cpu count_N s).
Definition ARMul_LoadHalfWord (address : Z) s := read_data Half address (upd_cpu count_N s).
Definition ARMul_ReadByte (address : Z) s := read_data Byte address s.
Definition ARMul_LoadByte (address : Z) s := ARMul_ReadByte address (upd_cpu count_N s).

(** The debugger's read: the fault flag and what it leaves in [*presult]. *)
Definition ARMul_ICE_ReadByte (address presult : Z) s : option (Z * Z * system M) :=
  '(r, s) ← mmu_read Byte address s;
  Some (match r with
        | inl _ => (1, 0xffffffff)
        | inr data => (0, (presult &&~ 0xff) ||| (data &&& 0xff))
        end, s).

(** ** Stores *)
Definition write_data (w : width) (address data : Z) s : option (system M) :=
  '(f, s) ← mmu_write w address data s;
  Some (if decide (f = NO_FAULT) then upd_cpu ARMul_CLEARABORT s else upd_cpu (data_fault f address) s).
Definition ARMul_WriteWord (address data : Z) s := write_data Word address data s.
Definition ARMul_StoreWordS (address data : Z) s := ARMul_WriteWord address data (upd_cpu count_S s).
Definition ARMul_StoreWordN (address data : Z) s := ARMul_WriteWord address data (upd_cpu count_N s).
Definition ARMul_StoreHalfWord (address data : Z) s := write_data Half address data (upd_cpu count_N s).
Definition ARMul_WriteByte (address data : Z) s := write_data Byte address data s.
Definition ARMul_StoreByte (address data : Z) s := ARMul_WriteByte address data (upd_cpu count_N s).
Definition ARMul_ICE_WriteByte (address data : Z) s : option (Z * system M) :=
  '(f, s) ← mmu_write Byte address data s; Some (if decide (f = NO_FAULT) then 0 else 1, s).

(** ** Swaps *)
Definition ARMul_SwapWord (address data : Z) s : option (Z * system M) :=
  '(temp, s) ← ARMul_ReadWord address (upd_cpu count_N s);
  '(_, s) ← mmu_write Word address data (upd_cpu count_N s);
  Some (temp, s).
Definition ARMul_SwapByte (address data : Z) s : option (Z * system M) :=
  '(temp, s) ← ARMul_LoadByte address s;
  s ← ARMul_StoreByte address data s;
  Some (temp, s).
End Virt.

Definition ARMul_Ccycles (number : Z) (c : ARMul_State) : ARMul_State :=
  c <| NumCcycles ::= fun n => add32 n number |> <| abortSig := LOW |>.
