(* ===== verification/ArmLdSt.v ===== *)
(** * Loads and stores of the core (armemu.c, MODE32)

    [LoadWord], [StoreWord] and their byte and halfword variants, the double
    transfers, and the block transfers.  The functions that return a flag
    ("write back the base") return it as an integer, as the C does.  Logging
    is left out.  [None] is undefined behaviour in the access, or a register
    list without registers, for which the C indexes past the register file. *)

From S2P Require Import Prelude Words ArmState ArmSupp ArmInit ArmShift Machine ArmSys ArmVirt.

Section LoadStore.
Context {M : Type} `{!Board M} `{!MmuOps M}.
Implicit Type s : system M.

Definition aborted s : bool := truth (Aborted (cpu s)).
Definition TAKEABORT s : system M := upd_cpu (ARMul_Abort ARMul_DataAbortV) s.

(** ** Single loads *)

(** The end of a load: the result of an aborted load, or the register write
    by [finish] and the internal cycle. *)
Definition end_load (instr : Z) (finish : ARMul_State -> ARMul_State) s : Z * system M :=
  (c_bool (negb (DESTReg instr =? LHSReg instr)), upd_cpu (fun c => ARMul_Icycles 1 (finish c)) s).
Definition abort_access s : Z * system M := let s := TAKEABORT s in (lateabtSig (cpu s), s).

Definition LoadWord (instr address : Z) s : option (Z * system M) :=
  '(dest, s) ← ARMul_LoadWordN address (upd_cpu BUSUSEDINCPCS s);
  if aborted s then Some (abort_access s)
  else
    dest ← (if truth (address &&& 3) then ARMul_Align address dest else Some dest);
    Some (end_load instr (WRITEDESTB instr dest) s).

Definition LoadHalfWord (instr address : Z) (signextend : bool) s : option (Z * system M) :=
  '(dest, s) ← ARMul_LoadHalfWord address (upd_cpu BUSUSEDINCPCS s);
  if aborted s then Some (abort_access s)
  else
    let dest := if signextend && truth (dest &&& 0x8000)
                then sub32 (dest &&& 0xffff) 0x10000 else dest in
    Some (end_load instr (WRITEDEST instr dest) s).

Definition LoadByte (instr address : Z) (signextend : bool) s : option (Z * system M) :=
  '(dest, s) ← ARMul_LoadByte address (upd_cpu BUSUSEDINCPCS s);
  if aborted s then Some (abort_access s)
  else
    let dest := if signextend && truth (dest &&& 0x80)
                then sub32 (dest &&& 0xff) 0x100 else dest in
    Some (end_load instr (WRITEDEST instr dest) s).

(** ** Single stores *)
Definition end_store s : Z * system M := if aborted s then abort_access s else (1, s).
Definition DEST (instr : Z) s : Z := reg (cpu s) (DESTReg instr).

Definition StoreWord (instr address : Z) s : option (Z * system M) :=
  let s := upd_cpu BUSUSEDINCPCN s in
  s ← ARMul_StoreWordN address (DEST instr s) s; Some (end_store s).
Definition StoreHalfWord (instr address : Z) s : option (Z * system M) :=
  let s := upd_cpu BUSUSEDINCPCN s in
  s ← ARMul_StoreHalfWord address (DEST instr s) s; Some (end_store s).
Definition StoreByte (instr address : Z) s : option (Z * system M) :=
  let s := upd_cpu BUSUSEDINCPCN s in
  s ← ARMul_StoreByte address (DEST instr s) s; Some (end_store s).

(** ** Double transfers *)

(** The offset, the address and the sum of base and offset. *)
Definition double_offset (instr : Z) (c : ARMul_State) : Z :=
  if truth (BIT instr 22) then shl32 (BITS instr 8 11) 4 ||| BITS instr 0 3 else reg c (RHSReg instr).
Definition double_sum (instr : Z) (c : ARMul_State) : Z :=
  let base := reg c (LHSReg instr) in
  if truth (BIT instr 23) then add32 base (double_offset instr c) else sub32 base (double_offset instr c).
Definition double_addr (instr : Z) (c : ARMul_State) : Z :=
  if truth (BIT instr 24) then double_sum instr c else reg c (LHSReg instr).
Definition double_wb (instr sum addr : Z) (c : ARMul_State) : ARMul_State :=
  let addr := if truth (BIT instr 24) then addr else sum in
  if negb (truth (BIT instr 24)) || truth (BIT instr 21) then set_reg (LHSReg instr) addr c else c.
(** The base may not be among the registers transferred when it is written. *)
Definition double_overlap (instr : Z) : bool :=
  (negb (truth (BIT instr 24)) || truth (BIT instr 21)) &&
  ((LHSReg instr =? DESTReg instr) || (LHSReg instr =? DESTReg instr + 1)).
Definition undef (instr : Z) s : system M := upd_cpu (ARMul_UndefInstr instr) s.

Definition Handle_Load_Double (instr : Z) s : option (system M) :=
  let s := upd_cpu BUSUSEDINCPCS s in
  let dest_reg := DESTReg instr in
  if truth (BIT instr 21) && negb (truth (BIT instr 24)) then Some (undef instr s)
  else if truth (dest_reg &&& 1) || (dest_reg =? 14) then Some (undef instr s)
  else
    let sum := double_sum instr (cpu s) in
    let addr := double_addr instr (cpu s) in
    if truth (addr &&& 7) then Some (undef instr s)
    else if double_overlap instr then Some (undef instr s)
    else
      '(value1, s) ← ARMul_LoadWordN addr s;
      '(value2, s) ← ARMul_LoadWordN (add32 addr 4) s;
      if aborted s then Some (TAKEABORT s)
      else Some (upd_cpu (fun c => double_wb instr sum addr
             (set_reg (dest_reg + 1) value2 (set_reg dest_reg value1 (ARMul_Icycles 2 c)))) s).

Definition Handle_Store_Double (instr : Z) s : option (system M) :=
  let s := upd_cpu BUSUSEDINCPCS s in
  let src_reg := DESTReg instr in
  if truth (BIT instr 21) && negb (truth (BIT instr 24)) then Some (undef instr s)
  else if LHSReg instr =? 15 then Some (undef instr s)
  else if truth (src_reg &&& 1) then Some (undef instr s)
  else
    let sum := double_sum instr (cpu s) in
    let addr := double_addr instr (cpu s) in
    if truth (addr &&& 7) then Some (undef instr s)
    else if double_overlap instr then Some (undef instr s)
    else
      s ← ARMul_StoreWordN addr (reg (cpu s) src_reg) s;
      s ← ARMul_StoreWordN (add32 addr 4) (reg (cpu s) (src_reg + 1)) s;
      if aborted s then Some (TAKEABORT s) else Some (upd_cpu (double_wb instr sum addr) s).
End LoadStore.
