(* ===== verification/ArmBlock.v ===== *)
(** * Block transfers: LDM and STM (armemu.c, MODE32)

    [LoadMult], [LoadSMult], [StoreMult] and [StoreSMult]: the registers of the
    list from the lowest address up, with the exits on an abort. *)

From S2P Require Import Prelude Words ArmState ArmSupp ArmInit ArmShift Machine ArmSys ArmVirt ArmLdSt.

Section Block.
Context {M : Type} `{!Board M} `{!MmuOps M}.
Implicit Type s : system M.

(** [for (temp = 0; !BIT (temp); temp++)]; a bit beyond 31 is undefined. *)
Fixpoint first_set (fuel : nat) (instr temp : Z) : option Z :=
  match fuel with
  | O => None
  | S fuel => if truth (BIT instr temp) then Some temp else first_set fuel instr (temp + 1)
  end.

(** A register of the file; an index beyond it is undefined. *)
Definition reg_ok (i : Z) : option Z := if i <? 16 then Some i else None.

(** [XScale_set_fsr_far] returns at once on other processors; the XScale's
    coprocessor is not modelled. *)
Definition XScale_set_fsr_far s : option (system M) :=
  if truth (is_XScale (cpu s)) then None else Some s.
(** A transfer that signalled an abort without one being recorded. *)
Definition late_abort s : option (system M) :=
  s ← XScale_set_fsr_far s; Some (upd_cpu (fun c => c <| Aborted := ARMul_DataAbortV |>) s).

Definition abort_low s : bool := negb (truth (abortSig (cpu s))).

(** [if (!abortSig && !Aborted) Reg[temp] = dest; else if (!Aborted) ...]. *)
Definition put_loaded (temp dest : Z) s : option (system M) :=
  if abort_low s && negb (aborted s) then
    i ← reg_ok temp; Some (upd_cpu (set_reg i dest) s)
  else if negb (aborted s) then late_abort s else Some s.

(** The sequential transfers of the registers [temps]; they stop at an abort. *)
Fixpoint load_rest (instr address : Z) (temps : list Z) s : option (system M) :=
  match temps with
  | [] => Some s
  | temp :: temps =>
      if truth (BIT instr temp) then
        let address := add32 address 4 in
        '(dest, s) ← ARMul_LoadWordS address s;
        s ← put_loaded temp dest s;
        if aborted s then Some s else load_rest instr address temps s
      else load_rest instr address temps s
  end.

Definition late_store s : option (system M) :=
  if negb (abort_low s) && negb (aborted s) then late_abort s else Some s.

Fixpoint store_rest (instr address : Z) (temps : list Z) s : option (system M) :=
  match temps with
  | [] => Some s
  | temp :: temps =>
      if truth (BIT instr temp) then
        let address := add32 address 4 in
        s ← ARMul_StoreWordS address (reg (cpu s) temp) s;
        s ← late_store s;
        if aborted s then Some s else store_rest instr address temps s
      else store_rest instr address temps s
  end.

(** [LSBase = WBBase] under [BIT (21) && LHSReg != 15]. *)
Definition writes_base (instr : Z) : bool := truth (BIT instr 21) && negb (LHSReg instr =? 15).
Definition LSBase_set (instr WBBase : Z) s : system M := upd_cpu (set_reg (LHSReg instr) WBBase) s.
Definition early_abort s : bool := negb (abort_low s) && aborted s && (lateabtSig (cpu s) =? LOW).

(** ** LDM *)

(** The transfers. *)
Definition load_regs (instr address : Z) s : option (system M) :=
  temp ← first_set 32 instr 0;
  '(dest, s) ← ARMul_LoadWordN address s;
  s ← put_loaded temp dest s;
  if aborted s then Some s else load_rest instr address (seqZ (temp + 1) (16 - (temp + 1))) s.

Definition LoadMult (instr address WBBase : Z) s : option (system M) :=
  s ← load_regs instr address (upd_cpu BUSUSEDINCPCS s);
  let s := if negb (aborted s) && truth (BIT instr 15)
           then upd_cpu (fun c => WriteR15Branch (reg c 15 &&& PCBITS_MODE32) c) s else s in
  let s := upd_cpu (ARMul_Icycles 1) s in
  Some (if aborted s then TAKEABORT s
        else if writes_base instr then LSBase_set instr WBBase s else s).

(** With the S bit: the user bank, or the return from an exception.  The first
    transfer tests [abortSig] only. *)
Definition put_first_user (temp dest : Z) s : option (system M) :=
  if abort_low s then i ← reg_ok temp; Some (upd_cpu (set_reg i dest) s)
  else if negb (aborted s) then late_abort s else Some s.

Definition load_regs_user (instr address : Z) s : option (system M) :=
  temp ← first_set 32 instr 0;
  '(dest, s) ← ARMul_LoadWordN address s;
  s ← put_first_user temp dest s;
  if aborted s then Some s
  else load_rest instr address (seqZ (temp + 1) (16 - (temp + 1))) s.

Definition not_user (c : ARMul_State) : bool := negb (Mode c =? USER26MODE) && negb (Mode c =? USER32MODE).

Definition LoadSMult (instr address WBBase : Z) s : option (system M) :=
  let s := upd_cpu BUSUSEDINCPCS s in
  let s := if negb (truth (BIT instr 15)) && bool_decide (Bank (cpu s) <> USERBANK)
           then upd_cpu (fun c => ARMul_SwitchMode (Mode c) USER26MODE c) s else s in
  s ← load_regs_user instr address s;
  let s := if aborted s
           then TAKEABORT (if writes_base instr && negb (early_abort s) then LSBase_set instr WBBase s else s)
           else if writes_base instr then LSBase_set instr WBBase s else s in
  let s := if truth (BIT instr 15) && negb (aborted s) then
             let s := if not_user (cpu s)
                      then upd_cpu (fun c => ARMul_CPSRAltered (c <| Cpsr := ARMul_GetSPSR c (EMODE c) |>)) s
                      else s in
             upd_cpu (fun c => WriteR15 (reg c 15 &&& PCBITS_MODE32) c) s
           else s in
  let s := if negb (truth (BIT instr 15)) && not_user (cpu s)
           then upd_cpu (fun c => ARMul_SwitchMode USER26MODE (Mode c) c) s else s in
  Some (upd_cpu (ARMul_Icycles 1) s).

(** ** STM *)
Definition store_regs (instr address : Z) s : option (system M) :=
  temp ← first_set 32 instr 0;
  i ← reg_ok temp;
  s ← ARMul_StoreWordN address (reg (cpu s) i) s;
  s ← late_store s;
  if aborted s then Some s else store_rest instr address (seqZ (temp + 1) (16 - (temp + 1))) s.

(** The label [L_stm_takeabort]. *)
Definition end_stores (instr WBBase : Z) s : system M :=
  let s := if writes_base instr && negb (early_abort s) then LSBase_set instr WBBase s else s in
  if aborted s then TAKEABORT s else s.

Definition StoreMult (instr address WBBase : Z) s : option (system M) :=
  let s := if negb (truth (TFlag (cpu s))) then upd_cpu BUSUSEDINCPCN s else s in
  s ← store_regs instr address s; Some (end_stores instr WBBase s).

Definition StoreSMult (instr address WBBase : Z) s : option (system M) :=
  let s := upd_cpu BUSUSEDINCPCN s in
  let s := if bool_decide (Bank (cpu s) <> USERBANK)
           then upd_cpu (fun c => ARMul_SwitchMode (Mode c) USER26MODE c) s else s in
  s ← store_regs instr address s;
  let s := if negb (aborted s) && not_user (cpu s)
           then upd_cpu (fun c => ARMul_SwitchMode USER26MODE (Mode c) c) s else s in
  Some (end_stores instr WBBase s).
End Block.
