(* ===== verification/ArmDp.v ===== *)
(** * Data processing, multiplies and status registers (armemu.c, MODE32)

    The cases of [ARMul_Emulate32] that work on the core alone.  The register
    and the immediate form of a data processing instruction have the same
    code with another second operand, so that one definition takes the
    operand as an argument; it keeps the order in which the code evaluates
    the two operands, for a shift by a register advances the PC. *)

From S2P Require Import Prelude Words ArmState ArmSupp ArmShift ArmMul ArmInit.

(** ** The second operand *)

Definition operand := ARMul_State -> Z * ARMul_State.

Definition DPImmRHS (instr : Z) : Z := ImmedTable_entry (BITS instr 0 11).
Definition dp_imm (instr : Z) : operand := fun s => (DPImmRHS instr, s).
(** [DPSImmRHS]: the carry is bit 31 of a rotated constant. *)
Definition DPSImmRHS (instr : Z) : operand := fun s =>
  let rhs := DPImmRHS instr in
  (rhs, if 255 <? BITS instr 0 11 then ASSIGNC (rhs >>> 31) s else s).

(** ** Flags *)

Definition CLEARN (s : ARMul_State) := s <| NFlag := 0 |>.
Definition SETZ (s : ARMul_State) := s <| ZFlag := 1 |>.
Definition CLEARC (s : ARMul_State) := s <| CFlag := 0 |>.
Definition CLEARV (s : ARMul_State) := s <| VFlag := 0 |>.
Definition SETS (s : ARMul_State) := s <| SFlag := 1 |>.

(** The flags of [dest = a - b ...], and of [dest = a + b ...]. *)
Definition sub_flags_of (a b dest : Z) (s : ARMul_State) : ARMul_State :=
  if (b <=? a) || truth ((b ||| a) >>> 31)
  then ARMul_SubOverflow a b dest (ARMul_SubCarry a b dest s)
  else CLEARV (CLEARC s).
Definition add_flags_of (a b dest : Z) (s : ARMul_State) : ARMul_State :=
  let s := ASSIGNZ (dest =? 0) s in
  if truth ((a ||| b) >>> 30) then
    let s := ASSIGNN (truth (NEG dest)) s in
    ARMul_AddOverflow a b dest (ARMul_AddCarry a b dest s)
  else CLEARV (CLEARC (CLEARN s)).

(** ** Data processing *)

Definition notC (s : ARMul_State) : Z := c_bool (negb (truth (CFlag s))).

(** Without flags: the second operand first. *)
Definition dp_plain (instr : Z) (rhs : operand) (f : ARMul_State -> Z -> Z -> Z) (s : ARMul_State) : ARMul_State :=
  let '(r, s) := rhs s in WRITEDEST instr (f s (LHS instr s) r) s.
(** A logical operation with flags: the shifter leaves the carry. *)
Definition dp_logicS (instr : Z) (srhs : operand) (f : Z -> Z -> Z) (s : ARMul_State) : ARMul_State :=
  let '(r, s) := srhs s in WRITESDEST instr (f (LHS instr s) r) s.
(** An arithmetic operation with flags: the first operand first. *)
Definition dp_arithS (instr : Z) (rhs : operand) (f : ARMul_State -> Z -> Z -> Z)
    (flags : Z -> Z -> Z -> ARMul_State -> ARMul_State) (s : ARMul_State) : ARMul_State :=
  let lhs := LHS instr s in
  let '(r, s) := rhs s in
  let dest := f s lhs r in
  WRITESDEST instr dest (flags lhs r dest s).

(** TST, TEQ, CMP and CMN; with destination R15 they restore the CPSR. *)
Definition cpsr_from_spsr (s : ARMul_State) : ARMul_State :=
  ARMul_CPSRAltered (s <| Cpsr := ARMul_GetSPSR s (EMODE s) |>).
Definition dp_testL (instr : Z) (srhs : operand) (f : Z -> Z -> Z) (s : ARMul_State) : ARMul_State :=
  if DESTReg instr =? 15 then cpsr_from_spsr s
  else let '(r, s) := srhs s in ARMul_NegZero (f (LHS instr s) r) s.
Definition dp_CMP (instr : Z) (rhs : operand) (s : ARMul_State) : ARMul_State :=
  if DESTReg instr =? 15 then cpsr_from_spsr s
  else
    let lhs := LHS instr s in
    let '(r, s) := rhs s in
    let dest := sub32 lhs r in
    sub_flags_of lhs r dest (ARMul_NegZero dest s).
Definition dp_CMN (instr : Z) (rhs : operand) (s : ARMul_State) : ARMul_State :=
  if DESTReg instr =? 15 then cpsr_from_spsr s
  else
    let lhs := LHS instr s in
    let '(r, s) := rhs s in
    add_flags_of lhs r (add32 lhs r) s.

(** The operations without flags (bits 21 to 24; 8 to 11 are tests). *)
Definition dp_noS (op instr : Z) (rhs : operand) : ARMul_State -> ARMul_State :=
  match op with
  | 0 => dp_plain instr rhs (fun _ l r => l &&& r)
  | 1 => dp_plain instr rhs (fun _ l r => l ^^^ r)
  | 2 => dp_plain instr rhs (fun _ l r => sub32 l r)
  | 3 => dp_plain instr rhs (fun _ l r => sub32 r l)
  | 4 => dp_plain instr rhs (fun _ l r => add32 l r)
  | 5 => dp_plain instr rhs (fun s l r => add32 (add32 l r) (CFlag s))
  | 6 => dp_plain instr rhs (fun s l r => sub32 (sub32 l r) (notC s))
  | 7 => dp_plain instr rhs (fun s l r => sub32 (sub32 r l) (notC s))
  | 12 => dp_plain instr rhs (fun _ l r => l ||| r)
  | 13 => dp_plain instr rhs (fun _ _ r => r)
  | 14 => dp_plain instr rhs (fun _ l r => l &&& not32 r)
  | 15 => dp_plain instr rhs (fun _ _ r => not32 r)
  | _ => fun s => s
  end.

(** With flags; [rhs] leaves the flags alone, [srhs] sets the carry. *)
Definition dp_S (op instr : Z) (rhs srhs : operand) : ARMul_State -> ARMul_State :=
  let sub_rev a b := sub_flags_of b a in
  match op with
  | 0 => dp_logicS instr srhs (fun l r => l &&& r)
  | 1 => dp_logicS instr srhs (fun l r => l ^^^ r)
  | 2 => dp_arithS instr rhs (fun _ l r => sub32 l r) sub_flags_of
  | 3 => dp_arithS instr rhs (fun _ l r => sub32 r l) sub_rev
  | 4 => dp_arithS instr rhs (fun _ l r => add32 l r) add_flags_of
  | 5 => dp_arithS instr rhs (fun s l r => add32 (add32 l r) (CFlag s)) add_flags_of
  | 6 => dp_arithS instr rhs (fun s l r => sub32 (sub32 l r) (notC s)) sub_flags_of
  | 7 => dp_arithS instr rhs (fun s l r => sub32 (sub32 r l) (notC s)) sub_rev
  | 8 => dp_testL instr srhs (fun l r => l &&& r)
  | 9 => dp_testL instr srhs (fun l r => l ^^^ r)
  | 10 => dp_CMP instr rhs
  | 11 => dp_CMN instr rhs
  | 12 => dp_logicS instr srhs (fun l r => l ||| r)
  | 13 => dp_logicS instr srhs (fun _ r => r)
  | 14 => dp_logicS instr srhs (fun l r => l &&& not32 r)
  | _ => dp_logicS instr srhs (fun _ r => not32 r)
  end.

(** ** Status registers *)

(** MRS. *)
Definition MRS_CPSR (instr : Z) (s : ARMul_State) : ARMul_State :=
  set_reg (DESTReg instr) (ECC s ||| EINT s ||| EMODE s) s.
Definition MRS_SPSR (instr : Z) (s : ARMul_State) : ARMul_State :=
  set_reg (DESTReg instr) (ARMul_GetSPSR s (EMODE s)) s.
(** MSR; the register form does not set the Thumb bit. *)
Definition MSR_CPSR_reg (instr : Z) (s : ARMul_State) : ARMul_State :=
  let '(temp, s) := DPRegRHS instr s in ARMul_FixCPSR instr (temp &&~ TBIT) s.
Definition MSR_SPSR_reg (instr : Z) (s : ARMul_State) : ARMul_State :=
  let '(r, s) := DPRegRHS instr s in ARMul_FixSPSR instr r s.

(** The immediate cases 0x20 to 0x3f. *)
Definition exec_dp_imm (instr : Z) (s : ARMul_State) : ARMul_State :=
  let op := BITS instr 21 24 in
  if truth (BIT instr 20) then dp_S op instr (dp_imm instr) (DPSImmRHS instr) s
  else if op =? 9 then
    if DESTReg instr =? 15 then ARMul_FixCPSR instr (DPImmRHS instr) s else s
  else if op =? 11 then
    if DESTReg instr =? 15 then ARMul_FixSPSR instr (DPImmRHS instr) s else s
  else dp_noS op instr (dp_imm instr) s.

(** ** Multiplies *)

Definition MULDESTReg (instr : Z) : Z := BITS instr 16 19.
Definition MULLHSReg (instr : Z) : Z := BITS instr 0 3.
Definition MULRHSReg (instr : Z) : Z := BITS instr 8 11.
Definition MULACCReg (instr : Z) : Z := BITS instr 12 15.

Definition ARMul_MultTable : list Z :=
  [1; 2; 2; 3; 3; 4; 4; 5; 5; 6; 6; 7; 7; 8; 8; 9; 9;
   10; 10; 11; 11; 12; 12; 13; 13; 14; 14; 15; 15; 16; 16; 16].

(** The internal cycles, from the highest bit of the multiplier. *)
Definition mult_cycles (rhs : Z) (s : ARMul_State) : ARMul_State :=
  let temp := for_range 0 32 (fun dest temp => if truth (rhs &&& (1 <<< dest)) then dest else temp) 0 in
  ARMul_Icycles (rd ARMul_MultTable temp) s.

(** MUL and MLA, without and with flags. *)
Definition MUL (instr : Z) (s : ARMul_State) : ARMul_State :=
  let rhs := reg s (MULRHSReg instr) in
  mult_cycles rhs
    (if MULLHSReg instr =? MULDESTReg instr then set_reg (MULDESTReg instr) 0 s
     else if negb (MULDESTReg instr =? 15)
          then set_reg (MULDESTReg instr) (mul32 (reg s (MULLHSReg instr)) rhs) s else s).
Definition MULS (instr : Z) (s : ARMul_State) : ARMul_State :=
  let rhs := reg s (MULRHSReg instr) in
  mult_cycles rhs
    (if MULLHSReg instr =? MULDESTReg instr then SETZ (CLEARN (set_reg (MULDESTReg instr) 0 s))
     else if negb (MULDESTReg instr =? 15) then
       let dest := mul32 (reg s (MULLHSReg instr)) rhs in
       set_reg (MULDESTReg instr) dest (ARMul_NegZero dest s)
     else s).
Definition MLA (instr : Z) (s : ARMul_State) : ARMul_State :=
  let rhs := reg s (MULRHSReg instr) in
  mult_cycles rhs
    (if MULLHSReg instr =? MULDESTReg instr
     then set_reg (MULDESTReg instr) (reg s (MULACCReg instr)) s
     else if negb (MULDESTReg instr =? 15) then
       set_reg (MULDESTReg instr)
         (add32 (mul32 (reg s (MULLHSReg instr)) rhs) (reg s (MULACCReg instr))) s
     else s).
Definition MLAS (instr : Z) (s : ARMul_State) : ARMul_State :=
  let rhs := reg s (MULRHSReg instr) in
  mult_cycles rhs
    (if MULLHSReg instr =? MULDESTReg instr then
       let dest := reg s (MULACCReg instr) in
       set_reg (MULDESTReg instr) dest (ARMul_NegZero dest s)
     else if negb (MULDESTReg instr =? 15) then
       let dest := add32 (mul32 (reg s (MULLHSReg instr)) rhs) (reg s (MULACCReg instr)) in
       set_reg (MULDESTReg instr) dest (ARMul_NegZero dest s)
     else s).

(** The long multiplies return their cycles. *)
Definition long_mult (f : ARMul_State -> Z * ARMul_State) (s : ARMul_State) : ARMul_State :=
  let '(n, s) := f s in ARMul_Icycles n s.

(** ** The DSP instructions of version 5E *)

(** A 16-bit half of a register, sign-extended to [n] bits. *)
Definition half_of (top : bool) (x : Z) : Z := (if top then x >>> 16 else x) &&& 0xFFFF.
Definition sx16 (n x : Z) : Z := if truth (x &&& 0x8000) then (x - 65536) mod 2 ^ n else x.

Definition saturated (result : Z) : Z := if truth (POS result) then 0x80000000 else 0x7fffffff.
(** [result = a + b; if (AddOverflow (...)) { saturate; SETS; }]. *)
Definition sat_add (a b : Z) (s : ARMul_State) : Z * ARMul_State :=
  let result := add32 a b in if AddOverflow a b result then (saturated result, SETS s) else (result, s).
Definition sat_sub (a b : Z) (s : ARMul_State) : Z * ARMul_State :=
  let result := sub32 a b in if SubOverflow a b result then (saturated result, SETS s) else (result, s).

Definition SMLAxy (instr : Z) (s : ARMul_State) : ARMul_State :=
  let op1 := sx16 32 (half_of (truth (BIT instr 5)) (reg s (BITS instr 0 3))) in
  let op2 := sx16 32 (half_of (truth (BIT instr 6)) (reg s (BITS instr 8 11))) in
  let Rn := reg s (BITS instr 12 15) in
  let op1 := mul32 op1 op2 in
  let s := if AddOverflow op1 Rn (add32 op1 Rn) then SETS s else s in
  set_reg (BITS instr 16 19) (add32 op1 Rn) s.
Definition SMULxy (instr : Z) (s : ARMul_State) : ARMul_State :=
  let op1 := sx16 32 (half_of (truth (BIT instr 5)) (reg s (BITS instr 0 3))) in
  let op2 := sx16 32 (half_of (truth (BIT instr 6)) (reg s (BITS instr 8 11))) in
  set_reg (BITS instr 16 19) (mul32 op1 op2) s.
(** SMLAWy and SMULWy, in 64-bit arithmetic. *)
Definition SMLAWy (instr : Z) (s : ARMul_State) : ARMul_State :=
  let op1 := reg s (BITS instr 0 3) in
  let op2 := half_of (truth (BIT instr 6)) (reg s (BITS instr 8 11)) in
  let op1 := if truth (op1 &&& 0x80000000) then u64 (op1 - 4294967296) else op1 in
  let op2 := sx16 64 op2 in
  let result := u64 (op1 * op2) >>> 16 in
  if BIT instr 5 =? 0 then
    let Rn := reg s (BITS instr 12 15) in
    let s := if AddOverflow (u32 result) Rn (u32 (result + Rn)) then SETS s else s in
    set_reg (BITS instr 16 19) (u32 (result + Rn)) s
  else set_reg (BITS instr 16 19) (u32 result) s.
Definition SMLALxy (instr : Z) (s : ARMul_State) : ARMul_State :=
  let op1 := sx16 64 (half_of (truth (BIT instr 5)) (reg s (BITS instr 0 3))) in
  let op2 := sx16 64 (half_of (truth (BIT instr 6)) (reg s (BITS instr 8 11))) in
  let dest := (reg s (BITS instr 16 19) <<< 32) ||| reg s (BITS instr 12 15) in
  let dest := u64 (dest + u64 (op1 * op2)) in
  set_reg (BITS instr 16 19) (dest >>> 32) (set_reg (BITS instr 12 15) (u32 dest) s).

(** QADD, QSUB, QDADD and QDSUB. *)
Definition QADD (instr : Z) (s : ARMul_State) : ARMul_State :=
  let '(result, s) := sat_add (reg s (BITS instr 0 3)) (reg s (BITS instr 16 19)) s in
  set_reg (BITS instr 12 15) result s.
Definition QSUB (instr : Z) (s : ARMul_State) : ARMul_State :=
  let '(result, s) := sat_sub (reg s (BITS instr 0 3)) (reg s (BITS instr 16 19)) s in
  set_reg (BITS instr 12 15) result s.
Definition QDADD (instr : Z) (s : ARMul_State) : ARMul_State :=
  let op1 := reg s (BITS instr 0 3) in
  let op2 := reg s (BITS instr 16 19) in
  let '(op2d, s) := sat_add op2 op2 s in
  let '(result, s) := sat_add op1 op2d s in
  set_reg (BITS instr 12 15) result s.
Definition QDSUB (instr : Z) (s : ARMul_State) : ARMul_State :=
  let op1 := reg s (BITS instr 0 3) in
  let op2 := reg s (BITS instr 16 19) in
  let '(op2d, s) := sat_add op2 op2 s in
  let '(result, s) := sat_sub op1 op2d s in
  set_reg (BITS instr 12 15) result s.

(** CLZ. *)
Fixpoint clz_loop (fuel : nat) (op1 result : Z) : Z :=
  match fuel with
  | O => result
  | S fuel => if op1 &&& 0x80000000 =? 0 then clz_loop fuel (shl32 op1 1) (result + 1) else result
  end.
Definition CLZ (instr : Z) (s : ARMul_State) : ARMul_State :=
  let op1 := reg s (BITS instr 0 3) in
  set_reg (BITS instr 12 15) (if truth op1 then clz_loop 32 op1 0 else 32) s.

(** ** Branches *)

Definition POSBRANCH (instr : Z) : Z := (instr &&& 0x7fffff) <<< 2.
Definition NEGBRANCH (instr : Z) : Z := u32 ((0xff000000 ||| (instr &&& 0xffffff)) <<< 2).

Definition Branch (instr pc : Z) (s : ARMul_State) : ARMul_State :=
  let off := if truth (BIT instr 23) then NEGBRANCH instr else POSBRANCH instr in
  FLUSHPIPE (set_reg 15 (add32 (add32 pc 8) off) s).
Definition BranchLink (instr pc : Z) (s : ARMul_State) : ARMul_State :=
  Branch instr pc (set_reg 14 (add32 pc 4) s).

(** BLX, immediate and register. *)
Definition BLX1 (instr pc : Z) (s : ARMul_State) : ARMul_State :=
  let s := set_reg 14 (add32 pc 4) s in
  let off := if truth (BIT instr 23) then NEGBRANCH instr else POSBRANCH instr in
  WriteR15Branch (u32 (pc + 8 + 1 + (off + (BIT instr 24 <<< 1)))) s.
Definition BLX2 (instr pc : Z) (s : ARMul_State) : ARMul_State :=
  let temp := if truth (TFlag s) then u32 (pc + 2) ||| 1 else add32 pc 4 in
  set_reg 14 temp (WriteR15Branch (reg s (RHSReg instr)) s).

(** A breakpoint stops the emulator ([ARMul_OSHandleSWI] with
    [SWI_Breakpoint]); no SWI vector is ever installed. *)
Definition breakpoint (s : ARMul_State) : ARMul_State := s <| EndCondition := 0 |> <| Emulate := STOP |>.
Definition BKPT (s : ARMul_State) : ARMul_State := (breakpoint s) <| NextInstr := RESUME |>.
