(* ===== verification/ArmXfer.v ===== *)
(** * Transfer instructions: addressing and write-back (armemu.c, MODE32)

    The cases of [ARMul_Emulate32] that access memory: they compute an address,
    call the routines of ArmLdSt.v and ArmBlock.v and write the base
    register back when those return "true".  The operand of a store is
    evaluated after the store, as in the code. *)

From S2P Require Import Prelude Words ArmState ArmSupp ArmInit ArmShift ArmDp Machine ArmSys ArmVirt ArmLdSt ArmBlock.

Section Xfer.
Context {M : Type} `{!Board M} `{!MmuOps M}.
Implicit Type s : system M.

Definition offset_by (up : bool) (base off : Z) : Z := if up then add32 base off else sub32 base off.
(** [if (done) LSBase = temp]. *)
Definition write_back (done instr temp : Z) s : system M := if truth done then LSBase_set instr temp s else s.

(** ** Halfwords and signed bytes *)

(** The macros [SHDOWNWB] and [SHUPWB]. *)
Definition SH_post (up : bool) (instr : Z) s : option (system M) :=
  let lhs := LHS instr (cpu s) in
  '(done, s) ← StoreHalfWord instr lhs s;
  Some (write_back done instr (offset_by up lhs (GetLS7RHS instr (cpu s))) s).
(** [SHPREDOWN] and [SHPREUP]. *)
Definition SH_pre (up : bool) (instr : Z) s : option (system M) :=
  '(_, s) ← StoreHalfWord instr (offset_by up (LHS instr (cpu s)) (GetLS7RHS instr (cpu s))) s;
  Some s.
(** [SHPREDOWNWB] and [SHPREUPWB]. *)
Definition SH_preWB (up : bool) (instr : Z) s : option (system M) :=
  let temp := offset_by up (LHS instr (cpu s)) (GetLS7RHS instr (cpu s)) in
  '(done, s) ← StoreHalfWord instr temp s; Some (write_back done instr temp s).

(** The three loads that bits 5 and 6 select; [None] for SWP, which the macros
    leave to the rest of the case. *)
Definition LH_load (instr : Z) : option (Z -> system M -> option (Z * system M)) :=
  match BITS instr 5 6 with
  | 1 => Some (fun a => LoadHalfWord instr a false)
  | 2 => Some (fun a => LoadByte instr a true)
  | 3 => Some (fun a => LoadHalfWord instr a true)
  | _ => None
  end.
(** [LHPOSTDOWN] and [LHPOSTUP], with the rest of the case. *)
Definition LH_post (up : bool) (instr : Z) (rest : option (system M)) s : option (system M) :=
  let lhs := LHS instr (cpu s) in
  let temp := offset_by up lhs (GetLS7RHS instr (cpu s)) in
  match LH_load instr with
  | Some load => '(done, s) ← load lhs s; Some (write_back done instr temp s)
  | None => rest
  end.
(** [LHPREDOWN] and [LHPREUP]; [LHPREDOWNWB] and [LHPREUPWB]. *)
Definition LH_pre (up : bool) (instr : Z) (rest : option (system M)) s : option (system M) :=
  let temp := offset_by up (LHS instr (cpu s)) (GetLS7RHS instr (cpu s)) in
  match LH_load instr with
  | Some load => '(_, s) ← load temp s; Some s
  | None => rest
  end.
Definition LH_preWB (up : bool) (instr : Z) (rest : option (system M)) s : option (system M) :=
  let temp := offset_by up (LHS instr (cpu s)) (GetLS7RHS instr (cpu s)) in
  match LH_load instr with
  | Some load => '(done, s) ← load temp s; Some (write_back done instr temp s)
  | None => rest
  end.

(** ** SWP *)

Definition swap_abort s : system M :=
  if truth (abortSig (cpu s)) || aborted s then TAKEABORT s else s.
Definition SWP_word (instr : Z) s : option (system M) :=
  let temp := LHS instr (cpu s) in
  let s := upd_cpu BUSUSEDINCPCS s in
  '(dest, s) ← ARMul_SwapWord temp (reg (cpu s) (RHSReg instr)) s;
  dest ← (if truth (temp &&& 3) then ARMul_Align temp dest else Some dest);
  Some (swap_abort (upd_cpu (set_reg (DESTReg instr) dest) s)).
Definition SWP_byte (instr : Z) s : option (system M) :=
  let temp := LHS instr (cpu s) in
  let s := upd_cpu BUSUSEDINCPCS s in
  '(dest, s) ← ARMul_SwapByte temp (reg (cpu s) (RHSReg instr)) s;
  Some (swap_abort (upd_cpu (set_reg (DESTReg instr) dest) s)).

(** ** Words and bytes (cases 0x40 to 0x7f)

    Bit 20 is load, 21 write-back, 22 byte, 23 up. *)

Definition transfer (instr address : Z) s : option (Z * system M) :=
  if truth (BIT instr 20) then
    if truth (BIT instr 22) then LoadByte instr address false s else LoadWord instr address s
  else if truth (BIT instr 22) then StoreByte instr address s else StoreWord instr address s.

Definition Ntrans_of_mode (c : ARMul_State) : ARMul_State :=
  c <| NtransSig := if truth (Mode c &&& 3) then HIGH else LOW |>.

(** Post-indexed: with bit 21 the access is one of user mode. *)
Definition LS_post (instr : Z) (off : ARMul_State -> Z) s : option (system M) :=
  let up := truth (BIT instr 23) in
  let lhs := LHS instr (cpu s) in
  let temp := offset_by up lhs (off (cpu s)) in
  let s := if truth (BIT instr 21) then upd_cpu (fun c => c <| NtransSig := LOW |>) s else s in
  '(done, s) ← transfer instr lhs s;
  let s := write_back done instr
             (if truth (BIT instr 20) then temp else offset_by up lhs (off (cpu s))) s in
  Some (if truth (BIT instr 21) then upd_cpu Ntrans_of_mode s else s).

(** Pre-indexed: with bit 21 the base is written back. *)
Definition LS_pre (instr : Z) (off : ARMul_State -> Z) s : option (system M) :=
  let temp := offset_by (truth (BIT instr 23)) (LHS instr (cpu s)) (off (cpu s)) in
  '(done, s) ← transfer instr temp s;
  Some (if truth (BIT instr 21) then write_back done instr temp s else s).

Definition exec_ls (instr : Z) (off : ARMul_State -> Z) s : option (system M) :=
  if truth (BIT instr 24) then LS_pre instr off s else LS_post instr off s.

(** ** The version 6 instructions in the register forms with bit 4 *)

(** The rotation that bits 4 to 11 select. *)
Definition v6_ror (instr : Z) : option Z :=
  match BITS instr 4 11 with 0x07 => Some 0 | 0x47 => Some 8 | 0x87 => Some 16 | 0xc7 => Some 24 | _ => None end.

(** [handle_v6_insn]: [None] when it returns 0. *)
Definition handle_v6_insn (instr : Z) (c : ARMul_State) : option ARMul_State :=
  let d := BITS instr 12 15 in
  let Rm_of ror mask := (reg c (BITS instr 0 3) >>> ror) &&& mask in
  let acc := BITS instr 16 19 in
  match BITS instr 20 27 with
  | 0x6a =>
      ror ← v6_ror instr;
      let Rm := Rm_of ror 0xFF in
      let Rm := if truth (Rm &&& 0x80) then Rm ||| 0xffffff00 else Rm in
      Some (if acc =? 0xf then set_reg d Rm c else set_reg d (add32 (reg c d) Rm) c)
  | 0x6b =>
      let r := RHS instr c in
      match BITS instr 4 11 with
      | 0xf3 => Some (set_reg d (shl32 (r &&& 0xFF) 24 ||| shl32 (r &&& 0xFF00) 8
                        ||| ((r &&& 0xFF0000) >>> 8) ||| ((r &&& 0xFF000000) >>> 24)) c)
      | 0xfb => Some (set_reg d (shl32 (r &&& 0xFF) 8 ||| ((r &&& 0xFF00) >>> 8)
                        ||| shl32 (r &&& 0xFF0000) 8 ||| ((r &&& 0xFF000000) >>> 8)) c)
      | _ =>
          ror ← v6_ror instr;
          let Rm := Rm_of ror 0xFFFF in
          let Rm := if truth (Rm &&& 0x8000) then Rm ||| 0xffff0000 else Rm in
          Some (set_reg d (if acc =? 0xf then Rm else add32 (reg c acc) Rm) c)
      end
  | 0x6e =>
      ror ← v6_ror instr;
      let Rm := Rm_of ror 0xFF in
      Some (set_reg d (if acc =? 0xf then Rm else add32 (reg c acc) Rm) c)
  | 0x6f =>
      ror ← v6_ror instr;
      let Rm := Rm_of ror 0xFFFF in
      Some (set_reg d (if acc =? 0xf then (Rm >>> (8 * BITS instr 10 11)) &&& 0xFFFF
                       else add32 (reg c acc >>> (8 * BITS instr 10 11)) Rm) c)
  | _ => None
  end.

(** The register forms that try [handle_v6_insn] before they are undefined. *)
Definition v6_cases : list Z :=
  [0x61; 0x62; 0x63; 0x65; 0x66; 0x67; 0x68; 0x6a; 0x6b; 0x6c; 0x6e; 0x6f; 0x70; 0x74; 0x75; 0x78; 0x7a; 0x7b; 0x7c].

(** Cases 0x60 to 0x7f with bit 4. *)
Definition exec_ls_bit4 (instr : Z) (c : ARMul_State) : ARMul_State :=
  if BITS instr 20 27 =? 0x7f then
    if BITS instr 0 19 =? 0xfdefe then breakpoint c else ARMul_UndefInstr instr c
  else
    match (if truth (is_v6 c) && bool_decide (BITS instr 20 27 ∈ v6_cases) then handle_v6_insn instr c else None) with
    | Some c => c
    | None => ARMul_UndefInstr instr c
    end.

Definition exec_ls_reg (instr : Z) s : option (system M) :=
  if truth (BIT instr 4) then Some (upd_cpu (exec_ls_bit4 instr) s)
  else exec_ls instr (LSRegRHS instr) s.

(** ** Block transfers (cases 0x80 to 0x9f) *)

(** The entries of [ARMul_BitList] are those of ArmInit.v. *)
Definition LSMNumRegs (instr : Z) : Z := 4 * bits_set 8 (BITS instr 0 7) + 4 * bits_set 8 (BITS instr 8 15).

Definition block_address (instr : Z) (c : ARMul_State) : Z :=
  let base := reg c (LHSReg instr) in
  match truth (BIT instr 24), truth (BIT instr 23) with
  | false, false => add32 (sub32 base (LSMNumRegs instr)) 4
  | false, true => base
  | true, false => sub32 base (LSMNumRegs instr)
  | true, true => add32 base 4
  end.
Definition block_wb (instr : Z) (c : ARMul_State) : Z :=
  let base := reg c (LHSReg instr) in
  if truth (BIT instr 21) then
    if truth (BIT instr 23) then add32 base (LSMNumRegs instr) else sub32 base (LSMNumRegs instr)
  else 0.

Definition exec_block (instr : Z) s : option (system M) :=
  let a := block_address instr (cpu s) in
  let wb := block_wb instr (cpu s) in
  match truth (BIT instr 22), truth (BIT instr 20) with
  | false, false => StoreMult instr a wb s
  | false, true => LoadMult instr a wb s
  | true, false => StoreSMult instr a wb s
  | true, true => LoadSMult instr a wb s
  end.
End Xfer.
