(* ===== verification/ArmCopro.v ===== *)
(** * Coprocessors and events (armsupp.c, armcopro.c)

    The coprocessor instructions of the core against the tables of handlers
    that [ARMul_CoProAttach] fills, and the list of scheduled events.  A handler that
    is busy is called again until it is done or an interrupt is pending:
    these loops take fuel, and end with [None] when it runs out. *)

From S2P Require Import Prelude Words ArmState ArmSupp ArmInit ArmShift Machine ArmSys ArmVirt ArmLdSt ArmBlock.

(** ** Events *)

Definition EVENTLISTSIZE := 1024.

Section Events.
Context {M : Type} `{!Board M}.
Implicit Type s : system M.

Definition run_event (f : event_fn) s : system M :=
  match f with
  | DoAFIQ => upd_cpu (fun c => c <| NfiqSig := LOW |>) s
  | DoAIRQ => upd_cpu (fun c => c <| NirqSig := LOW |>) s
  end.

Definition ARMul_ScheduleEvent (delay : Z) (what : event_fn) s : system M :=
  let e := events s in
  let e := if EventSet e =? 0 then e <| Now := ARMul_Time (cpu s) |> else e in
  let when := Z.rem (add32 (Now e) delay) EVENTLISTSIZE in
  s <| events := e <| EventSet ::= fun n => add32 n 1 |>
                   <| EventPtr ::= alter (cons what) (Z.to_nat when) |> |>.

(** [EnvokeList]: the slots [from] to [to], each emptied. *)
Definition EnvokeSlot (i : Z) s : system M :=
  let fs := nth (Z.to_nat i) (EventPtr (events s)) [] in
  let s := fold_left (fun s f => run_event f s <| events ::= fun e => e <| EventSet ::= fun n => sub32 n 1 |> |>) fs s in
  s <| events ::= fun e => e <| EventPtr ::= <[Z.to_nat i := []]> |> |>.
Definition EnvokeList (from to : Z) s : system M := for_range from (to + 1) EnvokeSlot s.

Definition ARMul_EnvokeEvent s : system M :=
  let then_ := Now (events s) in
  let now := Z.rem (ARMul_Time (cpu s)) EVENTLISTSIZE in
  let s := s <| events ::= fun e => e <| Now := now |> |> in
  if then_ <? now then EnvokeList then_ now s
  else if now <? then_ then EnvokeList 0 now (EnvokeList then_ (EVENTLISTSIZE - 1) s)
  else s.
End Events.

(** ** The handlers' interface

    The reason a handler is called for, and its answers. *)
Definition ARMul_FIRST := 0.
Definition ARMul_TRANSFER := 1.
Definition ARMul_BUSY := 2.
Definition ARMul_DATA := 3.
Definition ARMul_INTERRUPT := 4.
Definition ARMul_DONE := 0.
Definition ARMul_CANT := 1.
Definition ARMul_INC := 3.

(** The tables [LDC], [STC], [MRC], [MCR] and [CDP] of the state, by
    coprocessor number: reason, instruction and data word; the answer, and
    the data word a handler with a pointer argument leaves. *)
Class CoPros (M : Type) := {
  cp_LDC : Z -> Z -> Z -> Z -> system M -> option (Z * system M);
  cp_STC : Z -> Z -> Z -> Z -> system M -> option (Z * Z * system M);
  cp_MRC : Z -> Z -> Z -> Z -> system M -> option (Z * Z * system M);
  cp_MCR : Z -> Z -> Z -> Z -> system M -> option (Z * system M);
  cp_CDP : Z -> Z -> Z -> system M -> option (Z * system M)
}.

Definition CPNum (instr : Z) : Z := BITS instr 8 11.
Definition LSCOff (instr : Z) : Z := BITS instr 0 7 <<< 2.

Section Transfers.
Context {M : Type} `{!Board M} `{!MmuOps M} `{!CoPros M}.
Implicit Type s : system M.

(** [CP_ACCESS_ALLOWED]; the access register of the XScale is not modelled. *)
Definition CP_ACCESS_ALLOWED (cp : Z) s : option bool :=
  if 14 <=? cp then Some true else if negb (truth (is_XScale (cpu s))) then Some true else None.

(** The busy wait of a coprocessor instruction: [handler] is called with a
    reason and the data word [A]; the answer, or [None] after an interrupt. *)
Fixpoint busy_wait {A : Type} (fuel : nat) (handler : Z -> A -> system M -> option (Z * A * system M))
    (cpab : Z) (data : A) (nodata : A) s : option (option (Z * A) * system M) :=
  if negb (cpab =? ARMul_BUSY) then Some (Some (cpab, data), s)
  else
    match fuel with
    | O => None
    | S fuel =>
        let s := upd_cpu (ARMul_Icycles 1) s in
        let '(pending, c) := IntPending (cpu s) in
        let s := upd_cpu (fun _ => c) s in
        if pending : bool then
          '(_, _, s) ← handler ARMul_INTERRUPT nodata s; Some (None, s)
        else
          '(cpab, data, s) ← handler ARMul_BUSY data s;
          busy_wait fuel handler cpab data nodata s
    end.

Definition no_data (f : Z -> system M -> option (Z * system M)) : Z -> unit -> system M -> option (Z * unit * system M) :=
  fun type _ s => '(cpab, s) ← f type s; Some (cpab, tt, s).
Definition give_data (f : Z -> Z -> system M -> option (Z * system M)) : Z -> Z -> system M -> option (Z * Z * system M) :=
  fun type v s => '(cpab, s) ← f type v s; Some (cpab, v, s).

Definition start {A} (fuel : nat) (handler : Z -> A -> system M -> option (Z * A * system M)) (data nodata : A) s :
    option (option (Z * A) * system M) :=
  '(cpab, data, s) ← handler ARMul_FIRST data s; busy_wait fuel handler cpab data nodata s.

(** armsupp.c is compiled without MODE32: the address and vector checks of a
    26-bit configuration, and the abort that goes with them. *)
Definition VECTORS := 0x20.
Definition LEGALADDR := 0x03ffffff.
Definition VECTORACCESS (address : Z) s : bool :=
  (address <? VECTORS) && negb (ARMul_MODE32BIT (cpu s)) && truth (prog32Sig (cpu s)).
Definition ADDREXCEPT (address : Z) s : bool := (LEGALADDR <? address) && negb (truth (data32Sig (cpu s))).
Definition INTERNALABORT (address : Z) s : system M :=
  upd_cpu (fun c => c <| Aborted := if address <? VECTORS then ARMul_DataAbortV else ARMul_AddrExceptnV |>) s.
Definition check_address (bad : bool) (address : Z) s : system M := if bad then INTERNALABORT address s else s.
Definition TAKEABORT26 s : system M :=
  if Aborted (cpu s) =? ARMul_AddrExceptnV then upd_cpu (ARMul_Abort ARMul_AddrExceptnV) s else TAKEABORT s.

(** [CPTAKEABORT]. *)
Definition CPTAKEABORT s : system M :=
  let v := if negb (aborted s) then ARMul_UndefinedInstrV
           else if Aborted (cpu s) =? ARMul_AddrExceptnV then ARMul_AddrExceptnV else ARMul_DataAbortV in
  upd_cpu (ARMul_Abort v) s.

Definition abort_seen s : bool := truth (abortSig (cpu s)) || aborted s.
(** The labels [L_ldc_takeabort] and [L_stc_takeabort]. *)
Definition end_cp_transfer (instr : Z) s : system M :=
  let s := if truth (BIT instr 21) && negb (abort_seen s && (lateabtSig (cpu s) =? LOW))
           then LSBase_set instr (Base (cpu s)) s else s in
  if abort_seen s then TAKEABORT26 s else s.

(** Words go to the coprocessor as long as it answers [ARMul_INC]. *)
Fixpoint ldc_words_loop (fuel : nat) (instr address cpab : Z) s : option (system M) :=
  if negb (cpab =? ARMul_INC) then Some s
  else
    match fuel with
    | O => None
    | S fuel =>
        let address := add32 address 4 in
        '(data, s) ← ARMul_LoadWordN address s;
        if abort_seen s then Some s
        else '(cpab, s) ← cp_LDC (CPNum instr) ARMul_DATA instr data s; ldc_words_loop fuel instr address cpab s
    end.

Definition ARMul_LDC (fuel : nat) (instr address : Z) s : option (system M) :=
  let cp := CPNum instr in
  allowed ← CP_ACCESS_ALLOWED cp s;
  if negb allowed then Some (undef instr s)
  else
    let s := check_address (ADDREXCEPT address s) address s in
    '(r, s) ← start fuel (give_data (fun type v => cp_LDC cp type instr v)) 0 0 s;
    match r with
    | None => Some s
    | Some (cpab, _) =>
        if cpab =? ARMul_CANT then Some (CPTAKEABORT s)
        else
          '(_, s) ← cp_LDC cp ARMul_TRANSFER instr 0 s;
          '(data, s) ← ARMul_LoadWordN address s;
          if abort_seen s then Some (end_cp_transfer instr s)
          else
            let s := upd_cpu BUSUSEDINCPCN s in
            '(cpab, s) ← cp_LDC cp ARMul_DATA instr data s;
            s ← ldc_words_loop fuel instr address cpab s;
            Some (end_cp_transfer instr s)
    end.

Fixpoint stc_words_loop (fuel : nat) (instr address cpab data : Z) s : option (system M) :=
  if negb (cpab =? ARMul_INC) then Some s
  else
    match fuel with
    | O => None
    | S fuel =>
        let address := add32 address 4 in
        '(cpab, data, s) ← cp_STC (CPNum instr) ARMul_DATA instr data s;
        s ← ARMul_StoreWordN address data s;
        if abort_seen s then Some s else stc_words_loop fuel instr address cpab data s
    end.

(** [data] is uninitialised until the handler stores it: [d0] is its value. *)
Definition ARMul_STC (fuel : nat) (d0 instr address : Z) s : option (system M) :=
  let cp := CPNum instr in
  allowed ← CP_ACCESS_ALLOWED cp s;
  if negb allowed then Some (undef instr s)
  else
    let s := check_address (ADDREXCEPT address s || VECTORACCESS address s) address s in
    '(r, s) ← start fuel (fun type v => cp_STC cp type instr v) d0 0 s;
    match r with
    | None => Some s
    | Some (cpab, data) =>
        if cpab =? ARMul_CANT then Some (CPTAKEABORT s)
        else
          let s := check_address (ADDREXCEPT address s || VECTORACCESS address s) address s in
          let s := upd_cpu BUSUSEDINCPCN s in
          '(cpab, data, s) ← cp_STC cp ARMul_DATA instr data s;
          s ← ARMul_StoreWordN address data s;
          s ← (if abort_seen s then Some s else stc_words_loop fuel instr address cpab data s);
          Some (end_cp_transfer instr s)
    end.

Definition ARMul_MCR (fuel : nat) (instr source : Z) s : option (system M) :=
  let cp := CPNum instr in
  allowed ← CP_ACCESS_ALLOWED cp s;
  if negb allowed then Some (undef instr s)
  else
    '(r, s) ← start fuel (give_data (fun type v => cp_MCR cp type instr v)) source 0 s;
    match r with
    | None => Some s
    | Some (cpab, _) =>
        Some (if cpab =? ARMul_CANT then upd_cpu (ARMul_Abort ARMul_UndefinedInstrV) s
              else upd_cpu (fun c => ARMul_Ccycles 1 (BUSUSEDINCPCN c)) s)
    end.

Definition ARMul_MRC (fuel : nat) (instr : Z) s : option (Z * system M) :=
  let cp := CPNum instr in
  allowed ← CP_ACCESS_ALLOWED cp s;
  if negb allowed then Some (0xffffffff, undef instr s)
  else
    '(r, s) ← start fuel (fun type v => cp_MRC cp type instr v) 0 0 s;
    match r with
    | None => Some (0, s)
    | Some (cpab, result) =>
        Some (if cpab =? ARMul_CANT then
                let s := upd_cpu (ARMul_Abort ARMul_UndefinedInstrV) s in (ECC (cpu s), s)
              else (result, upd_cpu (fun c => ARMul_Icycles 1 (ARMul_Ccycles 1 (BUSUSEDINCPCN c))) s))
    end.

Definition ARMul_CDP (fuel : nat) (instr : Z) s : option (system M) :=
  let cp := CPNum instr in
  allowed ← CP_ACCESS_ALLOWED cp s;
  if negb allowed then Some (undef instr s)
  else
    '(r, s) ← start fuel (no_data (fun type => cp_CDP cp type instr)) tt tt s;
    match r with
    | None => Some s
    | Some (cpab, _) =>
        Some (if cpab =? ARMul_CANT then upd_cpu (ARMul_Abort ARMul_UndefinedInstrV) s
              else upd_cpu BUSUSEDN s)
    end.
End Transfers.
