(* ===== verification/ArmValid.v ===== *)
(** * The coprocessors of a plain core (armcopro.c)

    What [ARMul_CoProInit] installs when the core is neither an XScale nor an
    EP9312: the MMU as coprocessor 15, the validation coprocessor as 4 and 5
    and parts of it as 1 and 2.  Its registers can be moved, loaded and
    stored; its operations wait, raise interrupts now or later, and read the
    time. *)

From S2P Require Import Prelude Words ArmState ArmSupp ArmInit Machine ArmSys ArmVirt ArmCopro.

Section Validation.
Context {M : Type} `{!Board M} `{!MmuOps M}.
Implicit Type s : system M.

Definition upd_val (f : val_state -> val_state) s : system M := s <| val ::= f |>.
Definition val_reg s (i : Z) : Z := rd (ValReg (val s)) i.
Definition set_val_reg (i v : Z) s : system M := upd_val (fun e => e <| ValReg ::= fun r => wr r i v |>) s.

(** ** Handlers *)

(** A long access ends with the fifth word after the first. *)
Definition ValLDC (type instr data : Z) s : option (Z * system M) :=
  if negb (type =? ARMul_DATA) then Some (ARMul_DONE, upd_val (fun e => e <| ldc_words := 0 |>) s)
  else
    let s := set_val_reg (BITS instr 12 15) data s in
    if truth (BIT instr 22) then
      let w := ldc_words (val s) in
      Some (if w =? 4 then ARMul_DONE else ARMul_INC, upd_val (fun e => e <| ldc_words := add32 w 1 |>) s)
    else Some (ARMul_DONE, s).

Definition ValSTC (type instr data : Z) s : option (Z * Z * system M) :=
  if negb (type =? ARMul_DATA) then Some (ARMul_DONE, data, upd_val (fun e => e <| stc_words := 0 |>) s)
  else
    let data := val_reg s (BITS instr 12 15) in
    if truth (BIT instr 22) then
      let w := stc_words (val s) in
      Some (if w =? 4 then ARMul_DONE else ARMul_INC, data, upd_val (fun e => e <| stc_words := add32 w 1 |>) s)
    else Some (ARMul_DONE, data, s).

Definition ValMRC (type instr : Z) s : option (Z * Z * system M) :=
  Some (ARMul_DONE, val_reg s (BITS instr 16 19), s).
Definition ValMCR (type instr value : Z) s : option (Z * system M) :=
  Some (ARMul_DONE, set_val_reg (BITS instr 16 19) value s).

(** The wait of the operations 0 of 4 and 5: the answer to [ARMul_FIRST], and
    to [ARMul_BUSY]. *)
Definition first_wait (howlong : Z) : Z := if howlong =? 0 then ARMul_DONE else ARMul_BUSY.
Definition busy_answer (finish : Z) s : Z := if finish <=? ARMul_Time (cpu s) then ARMul_DONE else ARMul_BUSY.

Definition ValCDP (type instr : Z) s : option (Z * system M) :=
  if negb (BITS instr 20 23 =? 0) then Some (ARMul_CANT, s)
  else if type =? ARMul_FIRST then
    let howlong := val_reg s (BITS instr 0 3) in
    Some (first_wait howlong, upd_val (fun e => e <| val_finish := add32 (ARMul_Time (cpu s)) howlong |>) s)
  else if type =? ARMul_BUSY then Some (busy_answer (val_finish (val s)) s, s)
  else Some (ARMul_CANT, s).

(** An interrupt now, or after [howlong] cycles. *)
Definition int_after (howlong vector : Z) (what : event_fn) s : system M :=
  if howlong =? 0 then upd_cpu (ARMul_Abort vector) s else ARMul_ScheduleEvent howlong what s.

Definition IntCDP (type instr : Z) s : option (Z * system M) :=
  let howlong := val_reg s (BITS instr 0 3) in
  match BITS instr 20 23 with
  | 0 =>
      if type =? ARMul_FIRST then
        Some (first_wait howlong, upd_val (fun e => e <| int_finish := add32 (ARMul_Time (cpu s)) howlong |>) s)
      else if type =? ARMul_BUSY then Some (busy_answer (int_finish (val s)) s, s)
      else Some (ARMul_DONE, s)
  | 1 => Some (ARMul_DONE, int_after howlong ARMul_FIQV DoAFIQ s)
  | 2 => Some (ARMul_DONE, int_after howlong ARMul_IRQV DoAIRQ s)
  | 3 => Some (ARMul_DONE, upd_cpu (fun c => c <| NfiqSig := HIGH |>) s)
  | 4 => Some (ARMul_DONE, upd_cpu (fun c => c <| NirqSig := HIGH |>) s)
  | 5 => Some (ARMul_DONE, set_val_reg (BITS instr 0 3) (ARMul_Time (cpu s)) s)
  | _ => Some (ARMul_CANT, s)
  end.

(** Coprocessor 15 forwards to the MMU. *)
Definition MMUMRC (type instr : Z) s : option (Z * Z * system M) := Some (ARMul_DONE, mmu_mrc instr s, s).
Definition MMUMCR (type instr value : Z) s : option (Z * system M) :=
  s ← mmu_mcr instr value s; Some (ARMul_DONE, s).

(** ** The tables

    [ARMul_CoProInit] detaches every coprocessor, which installs the handlers
    that answer [ARMul_CANT], and attaches those below. *)
Definition NoCoPro3R s : option (Z * system M) := Some (ARMul_CANT, s).
Definition NoCoPro4R s : option (Z * system M) := Some (ARMul_CANT, s).
Definition NoCoPro4W (data : Z) s : option (Z * Z * system M) := Some (ARMul_CANT, data, s).

#[export] Instance ARMul_CoProInit : CoPros M := {|
  cp_LDC cp type instr data s :=
    if (cp =? 4) || (cp =? 2) then ValLDC type instr data s else NoCoPro4R s;
  cp_STC cp type instr data s :=
    if (cp =? 4) || (cp =? 2) then ValSTC type instr data s else NoCoPro4W data s;
  cp_MRC cp type instr data s :=
    if (cp =? 4) || (cp =? 5) || (cp =? 1) then ValMRC type instr s
    else if cp =? 15 then MMUMRC type instr s else NoCoPro4W data s;
  cp_MCR cp type instr data s :=
    if (cp =? 4) || (cp =? 5) || (cp =? 1) then ValMCR type instr data s
    else if cp =? 15 then MMUMCR type instr data s else NoCoPro4R s;
  cp_CDP cp type instr s :=
    if cp =? 4 then ValCDP type instr s
    else if cp =? 5 then IntCDP type instr s else NoCoPro3R s
|}.
End Validation.
