(* ===== verification/ValidSpec.v ===== *)
(** * Busy waits end

    A coprocessor operation of the validation coprocessor keeps the core
    waiting for the number of cycles in one of its registers.  The wait ends
    for every number and every time, also when the time wraps around. *)

From S2P Require Import Prelude Words ArmState ArmSupp ArmInit ArmShift Machine ArmSys ArmVirt ArmLdSt ArmBlock ArmCopro ArmValid.

Lemma word_Time c : word (ARMul_Time c).
Proof. apply word_u32. Qed.
Lemma Time_Icycles k c : ARMul_Time (ARMul_Icycles k c) = u32 (ARMul_Time c + k).
Proof. unfold ARMul_Time, ARMul_Icycles. upds. unfold add32, u32. dlia. Qed.

Lemma Icycles_twice k l c : ARMul_Icycles k (ARMul_Icycles l c) = ARMul_Icycles (l + k) c.
Proof.
  assert (E : forall n, add32 (add32 n l) k = add32 n (l + k)).
  { intros. unfold add32. rewrite u32_add_l. f_equal. lia. }
  destruct c. cbv -[add32 Z.add]. by rewrite E.
Qed.

(** Whether an exception is pending; if none is, [IntPending] changes nothing. *)
Definition int_pending (c : ARMul_State) : bool := fst (IntPending c).
Lemma IntPending_no c : int_pending c = false -> IntPending c = (false, c).
Proof.
  unfold int_pending, IntPending. repeat case_match; cbn [fst]; intros E; discriminate E || reflexivity.
Qed.
Lemma int_pending_Icycles k c : int_pending (ARMul_Icycles k c) = int_pending c.
Proof.
  unfold int_pending, IntPending. change (NresetSig (ARMul_Icycles k c)) with (NresetSig c).
  change (NfiqSig (ARMul_Icycles k c)) with (NfiqSig c). change (NirqSig (ARMul_Icycles k c)) with (NirqSig c).
  change (FFLAG (ARMul_Icycles k c)) with (FFLAG c). change (IFLAG (ARMul_Icycles k c)) with (IFLAG c).
  repeat case_match; cbn [fst]; reflexivity.
Qed.

Section Wait.
Context {M : Type} `{!Board M} `{!MmuOps M}.
Implicit Type s : system M.

(** A handler that answers [busy_answer] with the end of wait [fin]. *)
Record waits (fin : system M -> Z) (handler : Z -> unit -> system M -> option (Z * unit * system M)) : Prop := {
  waits_busy s : handler ARMul_BUSY tt s = Some (busy_answer (fin s) s, tt, s);
  waits_interrupt s : is_Some (handler ARMul_INTERRUPT tt s);
  waits_cpu f s : fin (upd_cpu f s) = fin s
}.

(** The wait goes on for [fin - time] cycles, or for one. *)
Lemma wait_loop fin handler n s : waits fin handler -> fin s < 4294967296 ->
  (u32 (ARMul_Time (cpu s) + 1) < fin s -> fin s - u32 (ARMul_Time (cpu s) + 1) < Z.of_nat n) -> (0 < n)%nat ->
  exists r s', busy_wait n handler ARMul_BUSY tt tt s = Some (r, s') /\
    (int_pending (cpu s) = false -> r = Some (ARMul_DONE, tt) /\
       exists k, s' = upd_cpu (ARMul_Icycles k) s /\
         (ARMul_Time (cpu s) + 1 < 4294967296 ->
          k = Z.max 1 (fin s - ARMul_Time (cpu s)))).
Proof.
  intros Hw. revert s. induction n as [|n IH]; intros s Hfin Hn Hp; [lia|]. cbn [busy_wait].
  change (negb (ARMul_BUSY =? ARMul_BUSY)) with false. cbv iota.
  set (s1 := upd_cpu (ARMul_Icycles 1) s).
  assert (Hc : cpu s1 = ARMul_Icycles 1 (cpu s)) by apply cpu_upd_cpu.
  assert (Hf : fin s1 = fin s) by apply (waits_cpu _ _ Hw).
  assert (Ht : ARMul_Time (cpu s1) = u32 (ARMul_Time (cpu s) + 1)) by (by rewrite Hc, Time_Icycles).
  destruct (int_pending (cpu s)) eqn:Hi.
  - destruct (IntPending (cpu s1)) as [p c] eqn:E.
    assert (p = true) as ->.
    { change p with (fst (p, c)). rewrite <- E, Hc. fold (int_pending (ARMul_Icycles 1 (cpu s))).
      by rewrite int_pending_Icycles. }
    destruct (waits_interrupt _ _ Hw (upd_cpu (fun _ => c) s1)) as [[[a b] s2] E2]. rewrite E2. simpl.
    eexists _, _. split; [done|]. discriminate.
  - rewrite (IntPending_no (cpu s1)) by (by rewrite Hc, int_pending_Icycles).
    assert (Es : upd_cpu (fun _ => cpu s1) s1 = s1).
    { unfold s1. rewrite upd_cpu_twice. apply upd_cpu_ext. by rewrite cpu_upd_cpu. }
    rewrite Es, (waits_busy _ _ Hw). cbn [mbind option_bind]. unfold busy_answer. rewrite Hf.
    destruct (Z.leb_spec (fin s) (ARMul_Time (cpu s1))) as [Hd|Hd].
    + exists (Some (ARMul_DONE, tt)), s1. split; [by destruct n|]. intros _. split; [done|].
      exists 1. split; [done|]. intros. rewrite Ht, u32_id in Hd; [lia|].
      pose proof (word_Time (cpu s)) as Hx. unfold word in *. lia.
    + rewrite Ht in Hd. set (t1 := u32 (ARMul_Time (cpu s) + 1)) in *.
      assert (Ht1 : 0 <= t1) by apply word_u32.
      assert (Hu : u32 (t1 + 1) = t1 + 1) by (apply u32_id; unfold word; lia).
      destruct (IH s1) as (r & s' & E & H); rewrite ?Hf, ?Ht, ?Hu; [done|lia|lia|].
      exists r, s'. split; [exact E|]. intros _. destruct H as (Er & k & Ek & Hk); [by rewrite Hc, int_pending_Icycles|].
      split; [done|]. exists (1 + k). rewrite Ek. split.
      * unfold s1. rewrite upd_cpu_twice. apply upd_cpu_ext, Icycles_twice.
      * rewrite Hf, Ht in Hk. intros Hlt. assert (Et : t1 = ARMul_Time (cpu s) + 1).
        { apply u32_id. pose proof (word_Time (cpu s)) as Hx. unfold word in *. lia. }
        rewrite Hk by lia. lia.
Qed.

(** The two operations that wait. *)
Lemma waits_ValCDP instr : BITS instr 20 23 = 0 -> waits (fun s => val_finish (val s)) (no_data (fun type => ValCDP type instr)).
Proof. intros H. split; unfold no_data, ValCDP; rewrite ?H; cbn; [done|by eexists|done]. Qed.
Lemma waits_IntCDP instr : BITS instr 20 23 = 0 -> waits (fun s => int_finish (val s)) (no_data (fun type => IntCDP type instr)).
Proof. intros H. split; unfold no_data, IntCDP; rewrite ?H; cbn; [done|by eexists|done]. Qed.

Lemma wait_start fin handler n s s1 : waits fin handler -> word n ->
  handler ARMul_FIRST tt s = Some (first_wait n, tt, s1) -> cpu s1 = cpu s ->
  fin s1 = add32 (ARMul_Time (cpu s)) n ->
  exists r s', start (Z.to_nat n) handler tt tt s = Some (r, s') /\
    (int_pending (cpu s) = false -> r = Some (ARMul_DONE, tt) /\
      (ARMul_Time (cpu s) + n < 4294967296 -> ARMul_Time (cpu s') = ARMul_Time (cpu s) + n)).
Proof.
  intros Hw Hn E Hc Hf. unfold start. rewrite E. cbn [mbind option_bind].
  unfold first_wait. destruct (Z.eqb_spec n 0) as [->|H0].
  { exists (Some (ARMul_DONE, tt)), s1. split; [done|]. intros _. split; [done|]. intros _. rewrite Hc. lia. }
  pose proof (word_Time (cpu s)) as Ht. unfold word in *. set (t := ARMul_Time (cpu s)) in *.
  assert (Hfin : fin s1 < 4294967296) by (rewrite Hf; apply word_u32).
  destruct (wait_loop fin handler (Z.to_nat n) s1 Hw Hfin) as (r & s' & Es & H).
  - rewrite Hf, Hc. fold t. unfold add32, u32. intros. dlia.
  - lia.
  - exists r, s'. split; [exact Es|]. rewrite Hc in H. fold t in H. intros Hi.
    destruct (H Hi) as (Hr & k & Ek & Hk). split; [done|]. intros Hlt. rewrite Ek, cpu_upd_cpu, Time_Icycles, Hc.
    fold t. rewrite Hf in Hk. fold t in Hk. unfold add32 in Hk. rewrite u32_id in Hk by (unfold word; lia).
    rewrite Hk by lia. rewrite u32_id; unfold word; lia.
Qed.

(** ** Property *)

(** C32: The busy wait of the validation coprocessor ends: the operation 0 of
    coprocessors 4 and 5 returns after at most as many iterations as the
    number in the register it names, whatever the time; and if no interrupt is
    pending and the time does not wrap, after exactly that many cycles. *)
Theorem busy_wait_terminates instr s (n := val_reg s (BITS instr 0 3)) :
  CPNum instr = 4 \/ CPNum instr = 5 -> BITS instr 20 23 = 0 -> is_XScale (cpu s) = 0 -> word n ->
  exists s', ARMul_CDP (Z.to_nat n) instr s = Some s' /\
    (int_pending (cpu s) = false -> ARMul_Time (cpu s) + n < 4294967296 ->
     ARMul_Time (cpu s') = ARMul_Time (cpu s) + n).
Proof.
  intros Hcp Hop HX Hn. unfold ARMul_CDP, CP_ACCESS_ALLOWED. rewrite HX.
  replace (14 <=? CPNum instr) with false by lia. cbn [truth Z.eqb negb mbind option_bind].
  assert (Hs : exists r s', start (Z.to_nat n) (no_data (fun type => cp_CDP (CPNum instr) type instr)) tt tt s = Some (r, s') /\
    (int_pending (cpu s) = false -> r = Some (ARMul_DONE, tt) /\
      (ARMul_Time (cpu s) + n < 4294967296 -> ARMul_Time (cpu s') = ARMul_Time (cpu s) + n))).
  { destruct Hcp as [-> | ->].
    - eapply wait_start; [by apply waits_ValCDP|done|unfold no_data; cbn; unfold ValCDP; by rewrite Hop|done|done].
    - eapply wait_start; [by apply waits_IntCDP|done|unfold no_data; cbn; unfold IntCDP; by rewrite Hop|done|done]. }
  destruct Hs as (r & s' & -> & H). cbn [mbind option_bind]. destruct r as [[c []]|].
  - eexists. split; [done|]. intros Hi Ht. destruct (H Hi) as [[= ->] H2].
    change (ARMul_DONE =? ARMul_CANT) with false. cbv iota. rewrite cpu_upd_cpu.
    change (ARMul_Time (BUSUSEDN (cpu s')) = ARMul_Time (cpu s) + n). by apply H2.
  - eexists. split; [done|]. intros Hi. by destruct (H Hi).
Qed.
End Wait.
