(* ===== verification/ArmEmulate.v ===== *)
(** * The instruction loop of the core (armemu.c, MODE32)

    [ARMul_Emulate32]: the decoding of an instruction by its bits 20 to 27,
    the conditions, and one iteration of the loop, with the three-stage
    pipeline, the exceptions and the devices.  The functions return [None]
    for undefined behaviour, for the XScale extensions, which are not
    modelled, and when the fuel of a busy coprocessor runs out.  Logging,
    profiling, the debugger's hook ([CallDebug]) and the test for a remote
    interrupt ([debugmode]) are off. *)

From S2P Require Import Prelude Words ArmState ArmSupp ArmShift ArmMul ThumbDecode ArmInit ArmDp Machine ArmSys ArmVirt ArmLdSt ArmBlock ArmXfer ArmCopro.

(** ** Decoding *)

(** The multiplies, which share the cases 0x00 to 0x0f with bits 4 to 7 = 9. *)
Definition exec_multiply (instr : Z) : option (ARMul_State -> ARMul_State) :=
  if negb (BITS instr 4 7 =? 9) then None
  else
    match BITS instr 20 27 with
    | 0x00 => Some (MUL instr)
    | 0x01 => Some (MULS instr)
    | 0x02 => Some (MLA instr)
    | 0x03 => Some (MLAS instr)
    | 0x08 => Some (long_mult (Multiply64 instr false false))
    | 0x09 => Some (long_mult (Multiply64 instr false true))
    | 0x0a => Some (long_mult (MultiplyAdd64 instr false false))
    | 0x0b => Some (long_mult (MultiplyAdd64 instr false true))
    | 0x0c => Some (long_mult (Multiply64 instr true false))
    | 0x0d => Some (long_mult (Multiply64 instr true true))
    | 0x0e => Some (long_mult (MultiplyAdd64 instr true false))
    | 0x0f => Some (long_mult (MultiplyAdd64 instr true true))
    | _ => None
    end.

(** Bits that tell halfword and double transfers from data processing: the
    register form (bit 22 clear) has zeros in bits 8 to 11. *)
Definition is_STRH (instr : Z) : bool :=
  if truth (BIT instr 22) then BITS instr 4 7 =? 0xB else BITS instr 4 11 =? 0xB.
Definition is_LDRH (instr : Z) : bool :=
  if truth (BIT instr 22) then BITS instr 4 7 &&& 0x9 =? 0x9 else BITS instr 4 11 &&& 0xF9 =? 0x9.
(** The cases 0x02, 0x06, 0x0a and 0x0e have no double transfers. *)
Definition has_double (instr : Z) : bool := truth (BIT instr 24) || negb (truth (BIT instr 21)).

(** The instructions of version 5E in the tests without flags. *)
Definition is_dsp (instr : Z) : bool := (BIT instr 4 =? 0) && (BIT instr 7 =? 1).

Definition exec_dsp (instr : Z) (c : ARMul_State) : option (ARMul_State -> ARMul_State) :=
  if negb (truth (is_v5e c)) then None
  else
    let saturating (f : Z -> ARMul_State -> ARMul_State) := if BITS instr 4 11 =? 5 then Some (f instr) else None in
    match BITS instr 20 27 with
    | 0x10 => if is_dsp instr then Some (SMLAxy instr) else saturating QADD
    | 0x12 => if is_dsp instr && ((BIT instr 5 =? 0) || (BITS instr 12 15 =? 0)) then Some (SMLAWy instr)
              else saturating QSUB
    | 0x14 => if is_dsp instr then Some (SMLALxy instr) else saturating QDADD
    | 0x16 => if is_dsp instr && (BITS instr 12 15 =? 0) then Some (SMULxy instr) else saturating QDSUB
    | _ => None
    end.

(** The condition codes but for NV. *)
Definition condition (cond : Z) (c : ARMul_State) : bool :=
  let N := truth (NFlag c) in
  let Zf := truth (ZFlag c) in
  let C := truth (CFlag c) in
  let V := truth (VFlag c) in
  match cond with
  | 0 => Zf
  | 1 => negb Zf
  | 2 => C
  | 3 => negb C
  | 4 => N
  | 5 => negb N
  | 6 => V
  | 7 => negb V
  | 8 => C && negb Zf
  | 9 => negb C || Zf
  | 10 => (negb N && negb V) || (N && V)
  | 11 => (N && negb V) || (negb N && V)
  | 12 => (negb N && negb V && negb Zf) || (N && V && negb Zf)
  | 13 => (N && negb V) || (negb N && V) || Zf
  | _ => true
  end.

Section Decode.
Context {M : Type} `{!Board M} `{!MmuOps M} `{!CoPros M}.
Implicit Type s : system M.

Definition core (f : ARMul_State -> ARMul_State) s : option (system M) := Some (upd_cpu f s).

(** The store and the loads of halfwords, by bits 24 and 21. *)
Definition exec_STRH (instr : Z) : system M -> option (system M) :=
  let up := truth (BIT instr 23) in
  if negb (truth (BIT instr 24)) then SH_post up instr
  else if truth (BIT instr 21) then SH_preWB up instr else SH_pre up instr.
Definition exec_LDRH (instr : Z) (rest : option (system M)) : system M -> option (system M) :=
  let up := truth (BIT instr 23) in
  if negb (truth (BIT instr 24)) then LH_post up instr rest
  else if truth (BIT instr 21) then LH_preWB up instr rest else LH_pre up instr rest.
Definition exec_double (instr : Z) : option (system M -> option (system M)) :=
  if negb (has_double instr) then None
  else
    match BITS instr 4 7 with
    | 0xD => Some (Handle_Load_Double instr)
    | 0xF => Some (Handle_Store_Double instr)
    | _ => None
    end.
(** The two kinds of transfers at the head of the even cases. *)
Definition exec_extra (instr : Z) : option (system M -> option (system M)) :=
  if is_STRH instr then Some (exec_STRH instr) else exec_double instr.

(** The tests without flags: 0x10, 0x12, 0x14 and 0x16. *)
Definition exec_SWP (instr : Z) (swap : Z -> system M -> option (system M))
    (mrs : Z -> ARMul_State -> ARMul_State) s : option (system M) :=
  if BITS instr 4 11 =? 9 then swap instr s
  else if (BITS instr 0 11 =? 0) && (LHSReg instr =? 15) then core (mrs instr) s
  else Some s.
Definition exec_MSR (instr : Z) (msr : Z -> ARMul_State -> ARMul_State) s : option (system M) :=
  if DESTReg instr =? 15 then core (msr instr) s else Some s.

Definition exec_misc (instr pc : Z) s : option (system M) :=
  let v5 := truth (is_v5 (cpu s)) in
  if (BITS instr 20 27 =? 0x12) && v5 && (BITS instr 4 7 =? 3) then core (BLX2 instr pc) s
  else
    match exec_dsp instr (cpu s) with
    | Some f => core f s
    | None =>
        if (BITS instr 20 27 =? 0x16) && v5 && (BITS instr 4 11 =? 0xF1) && (BITS instr 16 19 =? 0xF)
        then core (CLZ instr) s
        else
          match exec_extra instr with
          | Some f => f s
          | None =>
              match BITS instr 20 27 with
              | 0x10 => exec_SWP instr SWP_word MRS_CPSR s
              | 0x12 =>
                  if BITS instr 4 27 =? 0x12FFF1 then core (WriteR15Branch (reg (cpu s) (RHSReg instr))) s
                  else if v5 && (BITS instr 4 7 =? 7) then core BKPT s
                  else exec_MSR instr MSR_CPSR_reg s
              | 0x14 => exec_SWP instr SWP_byte MRS_SPSR s
              | _ => exec_MSR instr MSR_SPSR_reg s
              end
          end
    end.

(** The register forms, cases 0x00 to 0x1f. *)
Definition exec_reg (instr pc : Z) s : option (system M) :=
  let op := BITS instr 21 24 in
  if truth (BIT instr 20) then
    let rest :=
      match exec_multiply instr with
      | Some f => core f s
      | None => core (dp_S op instr (DPRegRHS instr) (DPSRegRHS instr)) s
      end in
    if is_LDRH instr then exec_LDRH instr rest s else rest
  else if (8 <=? op) && (op <? 12) then exec_misc instr pc s
  else
    match exec_extra instr with
    | Some f => f s
    | None =>
        match exec_multiply instr with
        | Some f => core f s
        | None => core (dp_noS op instr (DPRegRHS instr)) s
        end
    end.

(** Coprocessor transfers, cases 0xc0 to 0xdf: bits 20, 21, 23 and 24 as for
    the other transfers.  On version 5 the cases 0xc4 and 0xc5 move two
    registers, on an XScale only. *)
Definition exec_cp_transfer (fuel : nat) (instr : Z) s : option (system M) :=
  if truth (is_v5 (cpu s)) && ((BITS instr 20 27 =? 0xc4) || (BITS instr 20 27 =? 0xc5)) then
    if truth (is_XScale (cpu s)) then None else Some (undef instr s)
  else
    let lhs := LHS instr (cpu s) in
    let moved := offset_by (truth (BIT instr 23)) lhs (LSCOff instr) in
    let address := if truth (BIT instr 24) then moved else lhs in
    let s := if truth (BIT instr 21) then upd_cpu (fun c => c <| Base := moved |>) s else s in
    if truth (BIT instr 20) then ARMul_LDC fuel instr address s
    else ARMul_STC fuel 0 instr address s.

(** Register transfers and operations, cases 0xe0 to 0xef. *)
Definition set_cc (temp : Z) (c : ARMul_State) : ARMul_State :=
  ASSIGNV (truth (temp &&& VBIT)) (ASSIGNC (c_bool (truth (temp &&& CBIT)))
    (ASSIGNZ (truth (temp &&& ZBIT)) (ASSIGNN (truth (temp &&& NBIT)) c))).
Definition exec_cp_register (fuel : nat) (instr : Z) s : option (system M) :=
  if (BITS instr 20 27 =? 0xe2) && truth (is_XScale (cpu s)) then None
  else if negb (truth (BIT instr 4)) then ARMul_CDP fuel instr s
  else if truth (BIT instr 20) then
    '(temp, s) ← ARMul_MRC fuel instr s;
    core (if DESTReg instr =? 15 then set_cc temp else set_reg (DESTReg instr) temp) s
  else
    ARMul_MCR fuel instr
      (if DESTReg instr =? 15 then add32 (reg (cpu s) 15) (isize (cpu s)) else reg (cpu s) (DESTReg instr)) s.

(** Cases 0xf0 to 0xff; the word of an aborted fetch is one of them. *)
Definition exec_SWI (instr pc : Z) (c : ARMul_State) : ARMul_State :=
  if (instr =? ARMul_ABORTWORD c) && (AbortAddr c =? pc) then ARMul_Abort ARMul_PrefetchAbortV c
  else ARMul_Abort ARMul_SWIV c.

(** ** The main switch *)
Definition mainswitch (fuel : nat) (instr pc : Z) s : option (system M) :=
  if truth (is_XScale (cpu s)) then None
  else
    match BITS instr 25 27 with
    | 0 => exec_reg instr pc s
    | 1 => core (exec_dp_imm instr) s
    | 2 => exec_ls instr (fun _ => LSImmRHS instr) s
    | 3 => exec_ls_reg instr s
    | 4 => exec_block instr s
    | 5 => core (if truth (BIT instr 24) then BranchLink instr pc else Branch instr pc) s
    | 6 => exec_cp_transfer fuel instr s
    | _ => if truth (BIT instr 24) then core (exec_SWI instr pc) s else exec_cp_register fuel instr s
    end.

(** The instructions without a condition, on version 5. *)
Definition exec_NV (fuel : nat) (instr pc : Z) s : option (system M) :=
  if negb (truth (is_v5 (cpu s))) then Some s
  else if BITS instr 25 27 =? 5 then core (BLX1 instr pc) s
  else if instr &&& 0xFC70F000 =? 0xF450F000 then Some s
  else if (instr &&& 0xfe500f00 =? 0xfc100100) || (instr &&& 0xfe500f00 =? 0xfc000100)
  then mainswitch fuel instr pc s
  else Some (undef instr s).

Definition exec_arm (fuel : nat) (instr pc : Z) s : option (system M) :=
  if TOPBITS instr 28 =? 15 then exec_NV fuel instr pc s
  else if condition (TOPBITS instr 28) (cpu s) then mainswitch fuel instr pc s
  else Some s.

(** An ARM instruction, or a Thumb instruction by its translation. *)
Definition execute (fuel : nat) (instr pc : Z) s : option (system M) :=
  if truth (TFlag (cpu s)) then
    let '(td, new, c) := ARMul_ThumbDecode pc instr (cpu s) in
    let s := upd_cpu (fun _ => c) s in
    match td with
    | t_undefined => Some (undef instr s)
    | t_branch => Some s
    | t_decoded => exec_arm fuel new pc s
    end
  else exec_arm fuel instr pc s.
End Decode.

(** ** The pipeline

    The locals of [ARMul_Emulate32]: the address of the current instruction
    and the two words fetched after it.  (The addresses kept for the debugger
    are left out.) *)
Record pipeline := mkPipe { pl_pc : Z; pl_decoded : Z; pl_loaded : Z }.
#[export] Instance eta_pipeline : Eta pipeline := fun p => mkPipe (pl_pc p) (pl_decoded p) (pl_loaded p).

(** What ends an iteration: the loop goes on, or is left. *)
Inductive next := Continue | Leave.
#[export] Instance next_eq_dec : EqDecision next.
Proof. solve_decision. Defined.

Section Loop.
Context {M : Type} `{!Board M} `{!MmuOps M} `{!CoPros M}.
Implicit Type s : system M.

(** The pipeline moves on by one instruction. *)
Definition advance (load : Z -> Z -> system M -> option (Z * system M)) (p : pipeline) s :
    option (Z * pipeline * system M) :=
  let n := isize (cpu s) in
  let pc := add32 (pl_pc p) n in
  '(loaded, s) ← load (add32 pc (n * 2)) n s;
  Some (pl_decoded p, mkPipe pc (pl_loaded p) loaded, s).

(** The pipeline is filled from R15, by [first] and [rest]. *)
Definition refill (first rest : Z -> Z -> system M -> option (Z * system M)) s :
    option (Z * pipeline * system M) :=
  let n := isize (cpu s) in
  let pc := reg (cpu s) 15 in
  let s := upd_cpu (fun c => (set_reg 15 (add32 pc (n * 2)) c) <| Aborted := 0 |> <| AbortAddr := 1 |>) s in
  '(instr, s) ← first pc n s;
  '(decoded, s) ← rest (add32 pc n) n s;
  '(loaded, s) ← rest (add32 pc (n * 2)) n s;
  Some (instr, mkPipe pc decoded loaded, upd_cpu NORMALCYCLE s).

Definition advance_r15 (c : ARMul_State) : ARMul_State := set_reg 15 (add32 (reg c 15) (isize c)) c.
Definition then_normal (r : option (Z * pipeline * system M)) : option (Z * pipeline * system M) :=
  '(instr, p, s) ← r; Some (instr, p, upd_cpu NORMALCYCLE s).

(** The switch on [NextInstr]: the instruction to execute. *)
Definition fetch_stage (p : pipeline) s : option (Z * pipeline * system M) :=
  let s := upd_cpu (fun c => c <| isize := INSN_SIZE c |>) s in
  match NextInstr (cpu s) with
  | 0 => advance ARMul_LoadInstrS p (upd_cpu advance_r15 s)
  | 1 => then_normal (advance ARMul_LoadInstrN p (upd_cpu advance_r15 s))
  | 2 => then_normal (advance ARMul_LoadInstrS p s)
  | 3 => then_normal (advance ARMul_LoadInstrN p s)
  | 8 => refill ARMul_ReLoadInstr ARMul_ReLoadInstr s
  | _ => refill ARMul_LoadInstrN ARMul_LoadInstrS s
  end.

(** ** One iteration *)

(** [donext]: the hook of the recording debugger. *)
Definition donext (pc : Z) (c : ARMul_State) : ARMul_State :=
  c <| tea_break_ok := if truth (tea_break_ok c) && (pc =? tea_break_addr c) then 0 else 1 |>.

(** [TEST_EMULATE]. *)
Definition test_emulate s : next * system M :=
  if Emulate (cpu s) =? ONCE then (Continue, upd_cpu (fun c => c <| Emulate := STOP |>) s)
  else if negb (Emulate (cpu s) =? RUN) then (Leave, s) else (Continue, s).

Definition run_events s : system M := if truth (EventSet (events s)) then ARMul_EnvokeEvent s else s.

Definition cycle s : option (system M) :=
  '(p, m) ← io_do_cycle (prescale s) (board s); Some (s <| board := m |> <| prescale := p |>).

(** From the tests for exceptions on; [IntPending] has the same tests. *)
Definition run_instruction (fuel : nat) (instr pc : Z) s : option (next * system M) :=
  let '(pending, c) := IntPending (cpu s) in
  if pending : bool then Some (Leave, upd_cpu (fun _ => c) s)
  else
    let s := if truth (tea_pc (cpu s)) then upd_cpu (fun c => c <| Cpsr := ARMul_GetCPSR c |>) s else s in
    if Emulate (cpu s) <? ONCE then Some (Leave, upd_cpu (fun c => c <| NextInstr := RESUME |>) s)
    else
      s ← cycle s;
      let s := upd_cpu (fun c => c <| NumInstrs ::= fun n => u64 (n + 1) |>) s in
      s ← execute fuel instr pc s;
      Some (test_emulate (upd_cpu (donext pc) s)).

Definition iteration (fuel : nat) (p : pipeline) s : option (next * pipeline * system M) :=
  '(instr, p, s) ← fetch_stage p s;
  '(n, s) ← run_instruction fuel instr (pl_pc p) (run_events s);
  Some (n, p, s).

(** The loop, for at most [n] iterations; it also ends when the simulator is
    stopped from outside ([stop_simulator]). *)
Fixpoint loop (n fuel : nat) (stop_simulator : bool) (p : pipeline) s : option (pipeline * system M) :=
  match n with
  | O => None
  | S n =>
      '(what, p, s) ← iteration fuel p s;
      if bool_decide (what = Leave) || stop_simulator then Some (p, s) else loop n fuel stop_simulator p s
  end.

Definition save_pipeline (p : pipeline) (c : ARMul_State) : ARMul_State :=
  c <| st_decoded := pl_decoded p |> <| st_loaded := pl_loaded p |> <| st_pc := pl_pc p |>.
Definition saved_pipeline (c : ARMul_State) : pipeline :=
  if NextInstr c <? PRIMEPIPE then mkPipe (st_pc c) (st_decoded c) (st_loaded c) else mkPipe 0 0 0.

Definition ARMul_Emulate32 (n fuel : nat) (stop_simulator : bool) s : option (Z * system M) :=
  '(p, s) ← loop n fuel stop_simulator (saved_pipeline (cpu s)) s;
  Some (pl_pc p, upd_cpu (save_pipeline p) s).

(** ** Running (arminit.c)

    In a 26-bit configuration or mode the other emulator runs, which is not
    modelled: [None]. *)
Definition emulate32 s : bool := truth (prog32Sig (cpu s)) && ARMul_MODE32BIT (cpu s).
Definition upd_emulate (e : Z) s : system M := upd_cpu (fun c => c <| Emulate := e |>) s.

Definition ARMul_DoInstr (n fuel : nat) (stop_simulator : bool) s : option (Z * system M) :=
  let s := upd_emulate ONCE s in
  if emulate32 s then ARMul_Emulate32 n fuel stop_simulator s else None.

Fixpoint DoProg_loop (k n fuel : nat) (stop_simulator : bool) (pc : Z) s : option (Z * system M) :=
  if Emulate (cpu s) =? STOP then Some (pc, s)
  else
    match k with
    | O => None
    | S k =>
        let s := upd_emulate RUN s in
        if emulate32 s then
          '(pc, s) ← ARMul_Emulate32 n fuel stop_simulator s; DoProg_loop k n fuel stop_simulator pc s
        else None
    end.
Definition ARMul_DoProg (k n fuel : nat) (stop_simulator : bool) s : option (Z * system M) :=
  DoProg_loop k n fuel stop_simulator 0 (upd_emulate RUN s).

(** The callers: R15 becomes the address the run ended at, and the pipeline is
    to be filled again from there. *)
Definition resume s : system M := upd_cpu (fun c => c <| NextInstr := RESUME |>) s.
Definition arm_step_once (k n fuel : nat) (stop_simulator : bool) s : option (system M) :=
  '(pc, s) ← ARMul_DoProg k n fuel stop_simulator (resume s);
  Some (upd_cpu (fun c => FLUSHPIPE (set_reg 15 pc c)) s).
Definition gdbserver_cont (k n fuel : nat) (stop_simulator : bool) s : option (system M) :=
  '(pc, s) ← ARMul_DoProg k n fuel stop_simulator (resume s); Some (upd_cpu (set_reg 15 pc) s).
Definition gdbserver_step (n fuel : nat) (stop_simulator : bool) s : option (system M) :=
  '(pc, s) ← ARMul_DoInstr n fuel stop_simulator (resume s); Some (upd_cpu (set_reg 15 pc) s).

(** On an ARM.  The simulator exits after a step that leaves no end condition. *)
Definition sim_resume (step : bool) (k n fuel : nat) s : option (system M) :=
  let s := upd_cpu (fun c => c <| EndCondition := 0 |>) s in
  '(pc, s) ← (if step then
                '(pc, s) ← ARMul_DoInstr n fuel false s;
                if EndCondition (cpu s) =? 0 then None else Some (pc, s)
              else ARMul_DoProg k n fuel false (resume s));
  Some (upd_cpu (fun c => FLUSHPIPE (set_reg 15 pc c)) s).
End Loop.
