(* ===== verification/DpSpec.v ===== *)
(** * Data processing against the architecture

    The sixteen data processing operations as the architecture defines them:
    logical operations, and one adder with carry in, which subtracts by adding
    the complement.  Decoding and executing a data processing instruction
    has exactly this effect.  The second part compares two registers and
    reads the outcome back through the conditions. *)

From S2P Require Import Prelude Words Bits ArmState ArmSupp ArmBanks ArmFlags ArmPsr ArmShift ArmMul ThumbDecode ArmInit ArmDp Machine ArmSys ArmVirt ArmLdSt ArmBlock ArmXfer ArmCopro ArmEmulate.

(** ** The reference *)

(** Result, carry and overflow: [cin] and [v] are the flags before, [sc] is
    the carry of the shifter. *)
Definition AddWithCarry (x y cin : Z) : Z * Z * Z :=
  (u32 (x + y + cin), c_bool (4294967296 <=? x + y + cin),
   c_bool (bool_decide (~ signed (s32 x + s32 y + cin)))).

Definition alu (op x y cin sc v : Z) : Z * Z * Z :=
  match op with
  | 0 | 8 => (x &&& y, sc, v)
  | 1 | 9 => (x ^^^ y, sc, v)
  | 2 | 10 => AddWithCarry x (not32 y) 1
  | 3 => AddWithCarry y (not32 x) 1
  | 4 | 11 => AddWithCarry x y 0
  | 5 => AddWithCarry x y cin
  | 6 => AddWithCarry x (not32 y) cin
  | 7 => AddWithCarry y (not32 x) cin
  | 12 => (x ||| y, sc, v)
  | 13 => (y, sc, v)
  | 14 => (x &&& not32 y, sc, v)
  | _ => (not32 y, sc, v)
  end.

Definition is_test (op : Z) : bool := (8 <=? op) && (op <? 12).

(** The second operand: value, carry, and the state after it. *)
Definition dp_operand (instr : Z) (s : ARMul_State) : Z * Z * ARMul_State :=
  if Z.testbit instr 25 then
    let rot := BITS instr 8 11 in
    let x := ror32 (BITS instr 0 7) (2 * rot) in
    (x, if rot =? 0 then CFlag s else c_bool (Z.testbit x 31), s)
  else shifter_operand instr s.

Definition set_nzcv (n z c v : Z) (s : ARMul_State) : ARMul_State :=
  s <| NFlag := n |> <| ZFlag := z |> <| CFlag := c |> <| VFlag := v |>.
Definition result_flags (r c v : Z) (s : ARMul_State) : ARMul_State :=
  set_nzcv (c_bool (s32 r <? 0)) (c_bool (r =? 0)) c v s.

Definition dp_ref (instr : Z) (s : ARMul_State) : ARMul_State :=
  let op := BITS instr 21 24 in
  let '(y, sc, s1) := dp_operand instr s in
  let '(r, c, v) := alu op (LHS instr s) y (CFlag s) sc (VFlag s) in
  let s2 := if Z.testbit instr 20 then result_flags r c v s1 else s1 in
  if is_test op then s2 else set_reg (DESTReg instr) r s2.

(** ** Flags *)

Lemma not32_word y : word y -> not32 y = 4294967295 - y.
Proof. apply not32_sub. Qed.

Lemma s32_not32 y : word y -> s32 (not32 y) = - s32 y - 1.
Proof. intros Hy. rewrite not32_word by done. unfold s32, word in *. cases_Z; lia. Qed.

Lemma sub_as_add x y k : word y -> u32 (x + not32 y + (1 - k)) = u32 (x - y - k).
Proof.
  intros Hy. rewrite not32_word by done. unfold u32.
  replace (x + (4294967295 - y) + (1 - k)) with (x - y - k + 1 * 4294967296) by lia.
  apply Z_mod_plus_full.
Qed.

Lemma truth_c_bool b : truth (c_bool b) = b.
Proof. by destruct b. Qed.

(** The short cut of the subtractions and the full computation agree. *)
Lemma sub_flags_spec x y k s : word x -> word y -> bit k ->
  let '(r, c, v) := AddWithCarry x (not32 y) (1 - k) in
  u32 (x - y - k) = r /\
  sub_flags_of x y r s = s <| CFlag := c |> <| VFlag := v |>.
Proof.
  intros Hx Hy Hk. unfold AddWithCarry. rewrite sub_as_add, s32_not32, not32_word by done.
  split; [done|]. unfold sub_flags_of.
  assert (Ec : (4294967296 <=? x + (4294967295 - y) + (1 - k)) = (0 <=? x - y - k)).
  { destruct (Z.leb_spec 0 (x - y - k)); lia. }
  assert (Ev : bool_decide (~ signed (s32 x + (- s32 y - 1) + (1 - k))) = bool_decide (~ signed (s32 x - s32 y - k))).
  { by replace (s32 x + (- s32 y - 1) + (1 - k)) with (s32 x - s32 y - k) by lia. }
  rewrite Ec, Ev. destruct (_ || _) eqn:E.
  - unfold ARMul_SubOverflow, ARMul_SubCarry. rewrite SubOverflow_spec by done.
    unfold ASSIGNV, ASSIGNC. f_equal. f_equal.
    pose proof (SubCarry_spec x y k Hx Hy Hk s) as H. unfold ARMul_SubCarry, ASSIGNC in H.
    upds_in H. by rewrite H.
  - apply orb_false_iff in E as [E1 E2]. unfold CLEARV, CLEARC.
    rewrite top_testbit, Z.lor_spec, truth_c_bool in E2 by auto with words.
    apply orb_false_iff in E2 as [E3 E4]. rewrite !testbit_31 in * by done.
    assert ((0 <=? x - y - k) = false) as ->.
    { destruct Hk; subst k; lia. }
    rewrite bool_decide_eq_false_2; [done|]. intros Hs. apply Hs. unfold signed.
    unfold s32, word in *. destruct Hk; subst k; revert E3 E4; cases_Z; lia.
Qed.

Lemma add_flags_spec x y k s : word x -> word y -> bit k ->
  let '(r, c, v) := AddWithCarry x y k in add_flags_of x y r s = result_flags r c v s.
Proof.
  intros Hx Hy Hk. unfold AddWithCarry, add_flags_of, result_flags, set_nzcv.
  set (r := u32 (x + y + k)). assert (Hr : word r) by (unfold r; auto with words).
  assert (Hn : truth (NEG r) = (s32 r <? 0)).
  { rewrite truth_NEG by done. unfold s32, word in *. cases_Z; done || lia. }
  destruct (truth (_ >>> 30)) eqn:E.
  - unfold ARMul_AddOverflow, ARMul_AddCarry, r. rewrite AddOverflow_spec by done. fold r.
    pose proof (AddCarry_spec x y k Hx Hy Hk s) as H. unfold ARMul_AddCarry, ASSIGNC in H. upds_in H.
    fold r in H. unfold ASSIGNV, ASSIGNC, ASSIGNZ, ASSIGNN. rewrite H, Hn. by destruct s.
  - assert (Hxy : x < 1073741824 /\ y < 1073741824).
    { assert (Ho : forall a b, word a -> word b -> (a ||| b) >>> 30 = 0 -> a < 1073741824).
      { intros a b Ha Hb H. rewrite Z.shiftr_lor in H. apply Z.lor_eq_0_iff in H as [H _].
        rewrite Z.shiftr_div_pow2 in H by lia. change (2 ^ 30) with 1073741824 in H. unfold word in Ha. dlia. }
      unfold truth in E. apply negb_false_iff, Z.eqb_eq in E.
      split; [by apply (Ho x y)|apply (Ho y x); [done..|by rewrite Z.lor_comm]]. }
    assert (Er : r = x + y + k) by (apply u32_id; unfold word, bit in *; lia). unfold word, bit in *.
    assert ((4294967296 <=? x + y + k) = false) as -> by lia.
    assert ((s32 r <? 0) = false) as -> by (unfold s32; cases_Z; done || lia).
    rewrite bool_decide_eq_false_2.
    + unfold CLEARV, CLEARC, CLEARN, ASSIGNZ. by destruct s.
    + intros Hs. apply Hs. unfold signed, s32. cases_Z; lia.
Qed.

(** ** Operations *)

Lemma NegZero_set_reg r i v s : ARMul_NegZero r (set_reg i v s) = set_reg i v (ARMul_NegZero r s).
Proof. unfold ARMul_NegZero. by repeat case_match; destruct s. Qed.

Lemma NegZero_result r c v s : word r -> ARMul_NegZero r (result_flags r c v s) = result_flags r c v s.
Proof. intros Hr. rewrite NegZero_spec by done. by destruct s. Qed.

Lemma WRITESDEST_low instr d s : DESTReg instr <> 15 ->
  WRITESDEST instr d s = set_reg (DESTReg instr) d (ARMul_NegZero d s).
Proof. intros H. unfold WRITESDEST. rewrite NegZero_set_reg. by destruct (Z.eqb_spec (DESTReg instr) 15). Qed.

(** A logical result with the carry of the shifter. *)
Lemma logic_flags r sc s : word r ->
  ARMul_NegZero r (s <| CFlag := sc |>) = result_flags r sc (VFlag s) s.
Proof. intros Hr. rewrite NegZero_spec by done. by destruct s. Qed.

Lemma sub_result x y k s : word x -> word y -> bit k ->
  let '(r, c, v) := AddWithCarry x (not32 y) (1 - k) in
  u32 (x - y - k) = r /\ ARMul_NegZero r (sub_flags_of x y r s) = result_flags r c v s.
Proof.
  intros Hx Hy Hk. pose proof (sub_flags_spec x y k s Hx Hy Hk) as H. revert H.
  unfold AddWithCarry. intros [H1 H2]. split; [done|]. rewrite H2, NegZero_spec by auto with words.
  by destruct s.
Qed.

Lemma sub_flags_NegZero x y r r' s :
  sub_flags_of x y r (ARMul_NegZero r' s) = ARMul_NegZero r' (sub_flags_of x y r s).
Proof.
  unfold sub_flags_of, ARMul_NegZero, ARMul_SubOverflow, ARMul_SubCarry, CLEARV, CLEARC, ASSIGNV, ASSIGNC.
  destruct ((y <=? x) || truth ((y ||| x) >>> 31)), (truth (NEG r')), (r' =? 0); by destruct s.
Qed.

Lemma notC_bit s : bit (CFlag s) -> notC s = 1 - CFlag s /\ bit (1 - CFlag s) /\ bit (notC s).
Proof. unfold notC, truth, bit. intros [-> | ->]; simpl; lia. Qed.

Lemma word_LHS instr s : wf s -> word (LHS instr s).
Proof. intros. unfold LHS. destruct (_ =? _); auto with words. Qed.

Lemma LHS_CFlag instr c s : LHS instr (s <| CFlag := c |>) = LHS instr s.
Proof. done. Qed.

Lemma op_cases (P : Z -> Prop) : P 0 -> P 1 -> P 2 -> P 3 -> P 4 -> P 5 -> P 6 -> P 7 -> P 8 -> P 9 ->
  P 10 -> P 11 -> P 12 -> P 13 -> P 14 -> P 15 -> forall op, 0 <= op < 16 -> P op.
Proof.
  intros. assert (op = 0 \/ op = 1 \/ op = 2 \/ op = 3 \/ op = 4 \/ op = 5 \/ op = 6 \/ op = 7 \/ op = 8 \/
    op = 9 \/ op = 10 \/ op = 11 \/ op = 12 \/ op = 13 \/ op = 14 \/ op = 15) by lia.
  by destruct_or!; subst.
Qed.

Section Operations.
Variables (instr y sc : Z) (s s1 : ARMul_State) (rhs srhs : operand).
Hypothesis Hwf : wf s.
Hypothesis Hy : word y.
Hypothesis Hrhs : rhs s = (y, s1).
Hypothesis Hsrhs : srhs s = (y, s1 <| CFlag := sc |>).
Hypothesis HL : LHS instr s1 = LHS instr s.
Hypothesis HC : CFlag s1 = CFlag s.
Hypothesis HV : VFlag s1 = VFlag s.
Hypothesis HD : DESTReg instr <> 15.

Lemma logicS_spec f r : r = f (LHS instr s) y -> word r ->
  dp_logicS instr srhs f s = set_reg (DESTReg instr) r (result_flags r sc (VFlag s) s1).
Proof.
  intros -> Hr. unfold dp_logicS. rewrite Hsrhs. cbv beta iota. rewrite LHS_CFlag.
  by rewrite HL, WRITESDEST_low, logic_flags, HV by done.
Qed.

Lemma testL_spec f r : r = f (LHS instr s) y -> word r ->
  dp_testL instr srhs f s = result_flags r sc (VFlag s) s1.
Proof.
  intros -> Hr. unfold dp_testL. rewrite Hsrhs. cbv beta iota. rewrite LHS_CFlag.
  destruct (Z.eqb_spec (DESTReg instr) 15); [done|]. by rewrite HL, logic_flags, HV by done.
Qed.

Lemma arithS_spec f flags r c v :
  f s1 (LHS instr s) y = r ->
  ARMul_NegZero r (flags (LHS instr s) y r s1) = result_flags r c v s1 ->
  dp_arithS instr rhs f flags s = set_reg (DESTReg instr) r (result_flags r c v s1).
Proof. intros E H. unfold dp_arithS. rewrite Hrhs. cbv zeta. by rewrite E, WRITESDEST_low, H. Qed.

Lemma plain_spec f r : f s1 (LHS instr s) y = r -> dp_plain instr rhs f s = set_reg (DESTReg instr) r s1.
Proof.
  intros <-. unfold dp_plain, WRITEDEST. rewrite Hrhs, HL. by destruct (Z.eqb_spec (DESTReg instr) 15).
Qed.
End Operations.

Lemma u32_sub x y k : u32 (u32 (x - y) - k) = u32 (x - y - k).
Proof. unfold u32. by rewrite Zminus_mod_idemp_l. Qed.
Lemma u32_add x y k : u32 (u32 (x + y) + k) = u32 (x + y + k).
Proof. unfold u32. by rewrite Zplus_mod_idemp_l. Qed.

Definition with_flags (op d : Z) (out : Z * Z * Z) (s1 : ARMul_State) : ARMul_State :=
  let '(r, c, v) := out in
  if is_test op then result_flags r c v s1 else set_reg d r (result_flags r c v s1).

Section Arithmetic.
Variables (instr y : Z) (s s1 : ARMul_State) (rhs : operand).
Hypothesis Hwf : wf s.
Hypothesis Hy : word y.
Hypothesis Hrhs : rhs s = (y, s1).
Hypothesis HD : DESTReg instr <> 15.

(** Subtraction, of [z] from [x] with borrow [k], and addition. *)
Lemma sub_spec op x z k f flags : is_test op = false -> word x -> word z -> bit k ->
  f s1 (LHS instr s) y = u32 (x - z - k) -> flags (LHS instr s) y = sub_flags_of x z ->
  dp_arithS instr rhs f flags s = with_flags op (DESTReg instr) (AddWithCarry x (not32 z) (1 - k)) s1.
Proof.
  intros Ho Hx Hz Hk Hf Hfl. pose proof (sub_result x z k s1 Hx Hz Hk) as H.
  destruct (AddWithCarry x (not32 z) (1 - k)) as [[r c] v]. destruct H as [E H]. unfold with_flags. rewrite Ho.
  eapply arithS_spec; [eassumption..|by rewrite Hf|by rewrite Hfl].
Qed.

Lemma add_spec op k f : is_test op = false -> bit k ->
  f s1 (LHS instr s) y = u32 (LHS instr s + y + k) ->
  dp_arithS instr rhs f add_flags_of s =
  with_flags op (DESTReg instr) (AddWithCarry (LHS instr s) y k) s1.
Proof.
  intros Ho Hk Hf. pose proof (add_flags_spec (LHS instr s) y k s1 (word_LHS _ _ Hwf) Hy Hk) as H.
  unfold AddWithCarry in *. unfold with_flags. rewrite Ho.
  apply (arithS_spec instr y s s1 rhs Hrhs HD); [exact Hf|].
  rewrite H. apply NegZero_result. auto with words.
Qed.

Lemma CMP_spec : dp_CMP instr rhs s = with_flags 10 15 (AddWithCarry (LHS instr s) (not32 y) 1) s1.
Proof.
  unfold dp_CMP. rewrite Hrhs. destruct (Z.eqb_spec (DESTReg instr) 15); [done|].
  pose proof (sub_result (LHS instr s) y 0 s1 (word_LHS _ _ Hwf) Hy (or_introl eq_refl)) as H.
  change (1 - 0) with 1 in H. destruct (AddWithCarry _ _ 1) as [[r c] v]. destruct H as [E H].
  rewrite Z.sub_0_r in E. fold (sub32 (LHS instr s) y) in E. cbv zeta. rewrite E, sub_flags_NegZero. exact H.
Qed.

Lemma CMN_spec : dp_CMN instr rhs s = with_flags 11 15 (AddWithCarry (LHS instr s) y 0) s1.
Proof.
  unfold dp_CMN. rewrite Hrhs. destruct (Z.eqb_spec (DESTReg instr) 15); [done|].
  pose proof (add_flags_spec (LHS instr s) y 0 s1 (word_LHS _ _ Hwf) Hy (or_introl eq_refl)) as H.
  unfold AddWithCarry in *. rewrite Z.add_0_r in *. exact H.
Qed.
End Arithmetic.

Lemma dp_S_spec op instr y sc s s1 rhs srhs :
  wf s -> word y -> rhs s = (y, s1) -> srhs s = (y, s1 <| CFlag := sc |>) ->
  LHS instr s1 = LHS instr s -> CFlag s1 = CFlag s -> VFlag s1 = VFlag s -> DESTReg instr <> 15 ->
  0 <= op < 16 ->
  dp_S op instr rhs srhs s =
  with_flags op (DESTReg instr) (alu op (LHS instr s) y (CFlag s) sc (VFlag s)) s1.
Proof.
  intros Hwf Hy Hr Hs HL HC HV HD Hop. pose proof (word_LHS instr s Hwf) as Hx.
  assert (HCb : bit (CFlag s)) by apply Hwf.
  pose proof (notC_bit s1 ltac:(by rewrite HC)) as (En & Hb & Hn). rewrite HC in *.
  assert (H0 : bit 0) by (by left).
  revert op Hop. apply op_cases;
    cbn [dp_S alu is_test Z.leb Z.ltb andb Z.compare Pos.compare Pos.compare_cont].
  all: lazymatch goal with
    | |- dp_logicS _ _ _ _ = _ => eapply logicS_spec; first [eassumption | reflexivity | by auto with words]
    | |- dp_testL _ _ _ _ = _ => eapply testL_spec; first [eassumption | reflexivity | by auto with words]
    | |- dp_CMP _ _ _ = _ => by apply CMP_spec
    | |- dp_CMN _ _ _ = _ => by apply CMN_spec
    | |- dp_arithS _ _ _ add_flags_of _ = _ => eapply add_spec; try first [eassumption | reflexivity]
    | |- _ = with_flags _ _ (AddWithCarry ?x ?z 1) _ =>
        change (AddWithCarry x z 1) with (AddWithCarry x z (1 - 0)); eapply sub_spec; try first [eassumption | reflexivity]
    | _ => replace (CFlag s) with (1 - notC s1) by lia; eapply sub_spec; try first [eassumption | reflexivity]
    end.
  all: cbv beta; unfold add32, sub32; rewrite ?u32_sub, ?u32_add, ?HC, ?Z.sub_0_r, ?Z.add_0_r; reflexivity.
Qed.

Lemma dp_noS_spec op instr y sc s s1 rhs :
  rhs s = (y, s1) -> LHS instr s1 = LHS instr s -> CFlag s1 = CFlag s -> bit (CFlag s) -> word y ->
  word (LHS instr s) -> DESTReg instr <> 15 -> 0 <= op < 16 -> is_test op = false ->
  dp_noS op instr rhs s =
  set_reg (DESTReg instr) (fst (fst (alu op (LHS instr s) y (CFlag s) sc (VFlag s)))) s1.
Proof.
  intros Hr HL HC HCb Hy Hx HD Hop.
  pose proof (notC_bit s1 ltac:(by rewrite HC)) as (En & Hb & Hn). rewrite HC in *.
  pattern op. apply op_cases; [..|exact Hop]; intros Ht; try discriminate Ht; cbn [dp_noS alu AddWithCarry fst];
    (apply (plain_spec instr y s s1 rhs Hr HL HD); cbv beta; unfold add32, sub32).
  all: rewrite ?u32_sub, ?u32_add, ?HC, ?Z.add_0_r; try reflexivity.
  all: rewrite not32_word by done; unfold u32.
  all: lazymatch goal with |- ?a mod _ = _ => rewrite <- (Z_mod_plus_full a 1) end; f_equal; lia.
Qed.

(** ** The second operand *)

Lemma testbit_BITS instr m n i : 0 <= m <= n -> n <= 31 -> 0 <= i <= n - m ->
  Z.testbit (BITS instr m n) i = Z.testbit instr (i + m).
Proof.
  intros. rewrite BITS_spec by lia. autorewrite with tbits. rewrite Z.testbit_ones by lia.
  replace (0 <=? i) with true by lia. replace (i <? n - m + 1) with true by lia. simpl. apply andb_true_r.
Qed.

Lemma imm_fields instr :
  BITS instr 0 11 mod 256 = BITS instr 0 7 /\ BITS instr 0 11 / 256 = BITS instr 8 11.
Proof.
  change 256 with (2 ^ 8). rewrite <- Z.shiftr_div_pow2, <- Z.land_ones by lia.
  rewrite !BITS_spec by lia. split; apply Z.bits_inj'; intros i Hi; autorewrite with tbits;
    rewrite !Z.testbit_ones by lia; replace (0 <=? i) with true by lia;
    replace (0 <=? i + 8) with true by lia; simpl.
  - change (7 - 0 + 1) with 8. destruct (Z.ltb_spec i (11 - 0 + 1)), (Z.ltb_spec i 8); simpl; lia || btauto.
  - rewrite Z.add_0_r. destruct (Z.ltb_spec (i + 8) (11 - 0 + 1)), (Z.ltb_spec i (11 - 8 + 1)); simpl; lia || btauto.
Qed.

Lemma DPImmRHS_spec instr : DPImmRHS instr = ror32 (BITS instr 0 7) (2 * BITS instr 8 11).
Proof.
  unfold DPImmRHS. destruct (imm_fields instr) as [E1 E2]. rewrite ImmedTable_ror, E1, E2; [done|].
  apply (BITS_range instr 0 11); lia.
Qed.

Lemma word_imm instr : word (ror32 (BITS instr 0 7) (2 * BITS instr 8 11)).
Proof.
  apply word_ror32.
  - apply (word_pow2 _ 8); [lia|]. apply (BITS_range instr 0 7); lia.
  - pose proof (BITS_range instr 8 11 ltac:(lia) ltac:(lia)). lia.
Qed.

Lemma dp_imm_spec instr s : Z.testbit instr 25 = true ->
  let '(y, sc, s1) := dp_operand instr s in
  dp_imm instr s = (y, s1) /\ DPSImmRHS instr s = (y, s1 <| CFlag := sc |>).
Proof.
  intros H. unfold dp_operand, dp_imm, DPSImmRHS. rewrite H, DPImmRHS_spec. split; [done|]. f_equal.
  destruct (imm_fields instr) as [E1 E2]. pose proof (BITS_range instr 0 11 ltac:(lia) ltac:(lia)).
  unfold ASSIGNC. rewrite top_testbit by apply word_imm.
  destruct (Z.eqb_spec (BITS instr 8 11) 0) as [E|E]; rewrite E in E2 || idtac.
  - replace (255 <? BITS instr 0 11) with false by (symmetry; apply Z.ltb_ge; dlia). by rewrite CFlag_same.
  - replace (255 <? BITS instr 0 11) with true by (symmetry; apply Z.ltb_lt; dlia). done.
Qed.

Lemma word_shifted ty n base : word base -> 0 <= n -> word (shifted ty n base).
Proof.
  intros Hb Hn. unfold shifted. repeat case_match; try apply word_u32; [|by apply word_ror32].
  unfold word in *. assert (0 < 2 ^ n) by (by apply Z.pow_pos_nonneg). split; [apply Z.div_pos; lia|].
  apply Z.div_lt_upper_bound; [done|]. nia.
Qed.

Lemma imm_amount_range ty k : 0 <= k -> 0 <= imm_amount ty k.
Proof. intros. unfold imm_amount. case_match; lia. Qed.

(** When R15 is not read before and after a shift by register moved it. *)
Definition lhs_stable (instr : Z) : Prop :=
  Z.testbit instr 25 = true \/ Z.testbit instr 4 = false \/ LHSReg instr <> 15.

Lemma LHS_INCPC instr n s : LHSReg instr <> 15 -> LHS instr (ARMul_Icycles n (INCPC s)) = LHS instr s.
Proof.
  intros H. unfold LHS. destruct (Z.eqb_spec (LHSReg instr) 15); [done|]. rewrite reg_Icycles. unfold INCPC.
  pose proof (BITS_range instr 16 19 ltac:(lia) ltac:(lia)). fold (LHSReg instr) in *.
  change (reg (set_reg 15 (add32 (reg s 15) (isize s)) s) (LHSReg instr) = reg s (LHSReg instr)).
  apply reg_set_reg_ne; lia.
Qed.

Lemma operand_facts instr s : wf s -> lhs_stable instr ->
  let '(y, sc, s1) := dp_operand instr s in
  word y /\ CFlag s1 = CFlag s /\ VFlag s1 = VFlag s /\ LHS instr s1 = LHS instr s.
Proof.
  unfold lhs_stable. intros Hwf Hst. unfold dp_operand. destruct (Z.testbit instr 25) eqn:H25.
  { split_and!; try done. apply word_imm. }
  unfold shifter_operand. destruct (Z.testbit instr 4) eqn:H4.
  - assert (Hwf1 : wf (ARMul_Icycles 1 (INCPC s))) by auto with wf. split_and!.
    + apply word_shifted; [auto with words|]. apply Z.mod_pos_bound. lia.
    + done.
    + done.
    + apply LHS_INCPC. destruct Hst as [?|[?|?]]; congruence.
  - destruct (_ && _).
    + split_and!; try done. pose proof (word_reg s (RHSReg instr) Hwf) as Hb.
      assert (HC : bit (CFlag s)) by apply Hwf. unfold word, bit in *. destruct HC as [-> | ->]; dlia.
    + split_and!; try done. apply word_shifted; [auto with words|]. apply imm_amount_range.
      apply (BITS_range instr 7 11); lia.
Qed.

(** ** Decoding *)

(** A data processing instruction: not one of the multiplies and transfers
    with bits 4 and 7, nor a test without flags. *)
Definition dp_instruction (instr : Z) : Prop :=
  BITS instr 26 27 = 0 /\
  (Z.testbit instr 25 = true \/ Z.testbit instr 4 && Z.testbit instr 7 = false) /\
  (is_test (BITS instr 21 24) = false \/ Z.testbit instr 20 = true).


Lemma not_extension instr : Z.testbit instr 4 && Z.testbit instr 7 = false ->
  is_LDRH instr = false /\ is_STRH instr = false /\ exec_multiply instr = None /\
  BITS instr 4 7 <> 0xD /\ BITS instr 4 7 <> 0xF.
Proof.
  intros H. assert (Hv : forall n v, 7 <= n <= 31 -> Z.testbit v 0 && Z.testbit v 3 = true -> BITS instr 4 n <> v).
  { intros n v Hn Hb <-. rewrite !testbit_BITS in Hb by lia.
    change (0 + 4) with 4 in Hb. change (3 + 4) with 7 in Hb. congruence. }
  assert (Hm : forall n k v, 7 <= n <= 31 -> Z.testbit v 0 && Z.testbit v 3 = true -> BITS instr 4 n &&& k <> v).
  { intros n k v Hn Hb <-. rewrite !Z.land_spec, !testbit_BITS in Hb by lia.
    change (0 + 4) with 4 in Hb. change (3 + 4) with 7 in Hb. destruct (Z.testbit instr 4), (Z.testbit instr 7); simpl in *; try done; by rewrite ?andb_false_r in Hb. }
  unfold is_LDRH, is_STRH, exec_multiply. split_and!.
  - case_match; apply Z.eqb_neq, Hm; done.
  - case_match; apply Z.eqb_neq, Hv; done.
  - replace (BITS instr 4 7 =? 9) with false; [done|]. symmetry. apply Z.eqb_neq, Hv; done.
  - by apply Hv.
  - by apply Hv.
Qed.

Lemma no_double {M} `{!Board M} `{!MmuOps M} instr :
  BITS instr 4 7 <> 0xD -> BITS instr 4 7 <> 0xF -> exec_double (M := M) instr = None.
Proof. intros H1 H2. unfold exec_double. case_match; [done|]. repeat case_match; done. Qed.

Lemma BITS_25 instr : BITS instr 26 27 = 0 -> BITS instr 25 27 = c_bool (Z.testbit instr 25).
Proof.
  intros H. assert (Hb : forall i, 0 <= i <= 1 -> Z.testbit instr (i + 26) = false).
  { intros i Hi. rewrite <- testbit_BITS with (m := 26) (n := 27) by lia. rewrite H. apply Z.bits_0. }
  pose proof (BITS_range instr 25 27 ltac:(lia) ltac:(lia)) as Hr. change (2 ^ (27 - 25 + 1)) with 8 in Hr.
  apply Z.bits_inj'. intros i Hi. destruct (Z.lt_ge_cases i 3) as [Hi3|Hi3].
  - rewrite testbit_BITS, testbit_c_bool by lia. assert (i = 0 \/ i = 1 \/ i = 2) as [-> | [-> | ->]] by lia.
    + by rewrite andb_true_r.
    + rewrite andb_false_r. apply (Hb 0). lia.
    + rewrite andb_false_r. apply (Hb 1). lia.
  - rewrite (testbit_high _ 3), testbit_c_bool by (done || lia).
    replace (i =? 0) with false by lia. by rewrite andb_false_r.
Qed.

Lemma dp_ref_spec instr rhs srhs c : wf c -> lhs_stable instr -> DESTReg instr <> 15 ->
  (let '(y, sc, s1) := dp_operand instr c in rhs c = (y, s1) /\ srhs c = (y, s1 <| CFlag := sc |>)) ->
  (is_test (BITS instr 21 24) = false \/ Z.testbit instr 20 = true) ->
  (if Z.testbit instr 20 then dp_S (BITS instr 21 24) instr rhs srhs c
   else dp_noS (BITS instr 21 24) instr rhs c) = dp_ref instr c.
Proof.
  intros Hwf Hst HD Hop Ht. pose proof (operand_facts instr c Hwf Hst) as Hf. unfold dp_ref.
  destruct (dp_operand instr c) as [[y sc] s1]. destruct Hop as [Hr Hs]. destruct Hf as (Hy & HC & HV & HL).
  pose proof (BITS_range instr 21 24 ltac:(lia) ltac:(lia)) as Hb. change (2 ^ (24 - 21 + 1)) with 16 in Hb.
  destruct (Z.testbit instr 20).
  - rewrite (dp_S_spec _ instr y sc c s1) by done. unfold with_flags. by destruct (alu _ _ _ _ _ _) as [[r k] v].
  - destruct Ht as [Ht|]; [|done]. rewrite Ht. assert (HCb : bit (CFlag c)) by apply Hwf.
    rewrite (dp_noS_spec _ instr y sc c s1) by (done || by apply word_LHS).
    by destruct (alu _ _ _ _ _ _) as [[r k] v].
Qed.

Lemma is_test_cases op : is_test op = false -> (op =? 9) = false /\ (op =? 11) = false.
Proof. unfold is_test. intros H. split; apply Z.eqb_neq; intros ->; discriminate H. Qed.

Lemma dp_decode {M} `{!Board M} `{!MmuOps M} `{!CoPros M} fuel instr pc (s : system M) :
  wf (cpu s) -> is_XScale (cpu s) = 0 -> dp_instruction instr -> lhs_stable instr -> DESTReg instr <> 15 ->
  mainswitch fuel instr pc s = Some (upd_cpu (dp_ref instr) s).
Proof.
  intros Hwf HX (H26 & Hext & Ht) Hst HD. unfold mainswitch. rewrite HX, BITS_25 by done. cbn [truth Z.eqb negb].
  destruct (Z.testbit instr 25) eqn:H25; cbn [c_bool].
  - unfold core. f_equal. apply upd_cpu_ext. rewrite <- (dp_ref_spec instr (dp_imm instr) (DPSImmRHS instr)) by (done || by apply dp_imm_spec).
    unfold exec_dp_imm. rewrite truth_BIT by lia. destruct (Z.testbit instr 20); [done|].
    destruct Ht as [Ht|]; [|done]. by destruct (is_test_cases _ Ht) as [-> ->].
  - destruct Hext as [|Hext]; [done|].
    destruct (not_extension instr Hext) as (E1 & E2 & E3 & E4 & E5). unfold exec_reg.
    rewrite truth_BIT, E1, E3 by lia.
    pose proof (dp_ref_spec instr (DPRegRHS instr) (DPSRegRHS instr) (cpu s) Hwf Hst HD) as Hd.
    fold (is_test (BITS instr 21 24)). destruct (Z.testbit instr 20) eqn:H20.
    + unfold core. f_equal. apply upd_cpu_ext, Hd; [|by right]. unfold dp_operand. rewrite H25.
      by apply shifter_equiv.
    + destruct Ht as [Ht|]; [|done]. rewrite Ht. unfold exec_extra. rewrite E2, no_double by done.
      unfold core. f_equal. apply upd_cpu_ext, Hd; [|by left]. unfold dp_operand. rewrite H25.
      by apply shifter_equiv.
Qed.

(** ** Conditions after a comparison *)

Definition cond_EQ := 0.
Definition cond_NE := 1.
Definition cond_CS := 2.
Definition cond_CC := 3.
Definition cond_MI := 4.
Definition cond_PL := 5.
Definition cond_VS := 6.
Definition cond_VC := 7.
Definition cond_HI := 8.
Definition cond_LS := 9.
Definition cond_GE := 10.
Definition cond_LT := 11.
Definition cond_GT := 12.
Definition cond_LE := 13.
Definition cond_AL := 14.

(** What a condition says of the two words that were compared. *)
Definition compares (cond a b : Z) : bool :=
  match cond with
  | 0 => a =? b
  | 1 => negb (a =? b)
  | 2 => b <=? a
  | 3 => a <? b
  | 4 => s32 (sub32 a b) <? 0
  | 5 => negb (s32 (sub32 a b) <? 0)
  | 6 => bool_decide (~ signed (s32 a - s32 b))
  | 7 => bool_decide (signed (s32 a - s32 b))
  | 8 => b <? a
  | 9 => a <=? b
  | 10 => s32 b <=? s32 a
  | 11 => s32 a <? s32 b
  | 12 => s32 b <? s32 a
  | 13 => s32 a <=? s32 b
  | _ => true
  end.

Lemma compare_flags a b s : word a -> word b ->
  (let '(r, c, v) := AddWithCarry a (not32 b) 1 in result_flags r c v s) =
  set_nzcv (c_bool (s32 (sub32 a b) <? 0)) (c_bool (a =? b)) (c_bool (b <=? a))
    (c_bool (bool_decide (~ signed (s32 a - s32 b)))) s.
Proof.
  intros Ha Hb. unfold AddWithCarry, result_flags.
  replace (a + not32 b + 1) with (a + not32 b + (1 - 0)) by lia. rewrite sub_as_add, Z.sub_0_r by done.
  fold (sub32 a b). rewrite s32_not32, not32_word by done. f_equal; f_equal.
  - unfold sub32, u32, word in *. destruct (Z.eqb_spec a b), (Z.eqb_spec ((a - b) mod 4294967296) 0); try done; dlia.
  - destruct (Z.leb_spec b a); unfold word in *; lia.
  - by replace (s32 a + (- s32 b - 1) + 1) with (s32 a - s32 b) by lia.
Qed.

(** N says whether the difference is negative unless it overflows. *)
Lemma sub_sign a b : word a -> word b ->
  (s32 (sub32 a b) <? 0) = xorb (bool_decide (~ signed (s32 a - s32 b))) (s32 a <? s32 b).
Proof.
  intros Ha Hb. unfold sub32. destruct (u32_borrow (a - b)) as [[? ->]|[? ->]]; [unfold word in *; lia|..];
    case_bool_decide as Hd; unfold signed, s32, word in *; revert Hd; cases_Z; simpl; intros; done || lia.
Qed.

Lemma condition_compares cond a b s : word a -> word b -> 0 <= cond <= 14 ->
  condition cond (set_nzcv (c_bool (s32 (sub32 a b) <? 0)) (c_bool (a =? b)) (c_bool (b <=? a))
    (c_bool (bool_decide (~ signed (s32 a - s32 b)))) s) = compares cond a b.
Proof.
  intros Ha Hb Hc. pose proof (sub_sign a b Ha Hb) as Hs. unfold condition, set_nzcv. upds.
  rewrite !truth_c_bool.
  assert (Hv : bool_decide (signed (s32 a - s32 b)) = negb (bool_decide (~ signed (s32 a - s32 b)))).
  { by rewrite bool_decide_not, negb_involutive. }
  assert (Heq : (s32 a = s32 b) <-> a = b).
  { split; [|by intros ->]. unfold s32, word in *. cases_Z; lia. }
  revert cond Hc.
  assert (H : forall P : Z -> Prop, P 0 -> P 1 -> P 2 -> P 3 -> P 4 -> P 5 -> P 6 -> P 7 -> P 8 -> P 9 ->
    P 10 -> P 11 -> P 12 -> P 13 -> P 14 -> forall c, 0 <= c <= 14 -> P c).
  { intros P **. apply (op_cases (fun c => c <= 14 -> P c)); try (intros; done); lia. }
  apply H; cbn [compares]; rewrite ?Hv, ?Hs; clear Hv Hs H.
  all: destruct (bool_decide (~ signed (s32 a - s32 b))), (Z.ltb_spec (s32 a) (s32 b)); cases_Z; simpl; try done; lia.
Qed.

(** ** Properties *)

(** C28: Decoding and executing a data processing instruction on a core other
    than the XScale, with an immediate, a shifted or a register-shifted
    operand, has the effect the architecture defines, if its destination is
    not R15 and it is not a shift by register whose left operand is the PC
    ([lhs_stable]; UNPREDICTABLE, and the code evaluates its operands in
    another order with S than without): the result of the logical
    operation or of the adder in the destination register (no register for
    the tests), and, with the S bit, N, Z, C and V of that result; nothing
    else of the state changes but the fetch that a shift by register makes. *)
Theorem data_processing_instruction {M} `{!Board M} `{!MmuOps M} `{!CoPros M} fuel instr pc (s : system M) :
  wf (cpu s) -> is_XScale (cpu s) = 0 -> dp_instruction instr -> lhs_stable instr -> DESTReg instr <> 15 ->
  mainswitch fuel instr pc s = Some (upd_cpu (dp_ref instr) s).
Proof. apply dp_decode. Qed.

(** C29: After CMP the conditions say how the two words that were compared
    relate: EQ to LE hold exactly when the operands are equal, different,
    ordered as unsigned or ordered as signed integers. *)
Theorem compare_then_condition {M} `{!Board M} `{!MmuOps M} `{!CoPros M} fuel instr pc (s : system M) cond :
  wf (cpu s) -> is_XScale (cpu s) = 0 -> dp_instruction instr -> lhs_stable instr -> DESTReg instr <> 15 ->
  BITS instr 21 24 = 10 -> Z.testbit instr 20 = true -> 0 <= cond <= 14 ->
  exists s', mainswitch fuel instr pc s = Some s' /\
    condition cond (cpu s') = compares cond (LHS instr (cpu s)) (fst (fst (dp_operand instr (cpu s)))).
Proof.
  intros Hwf HX Hdp Hst HD Hop HS Hc. eexists. split; [by apply dp_decode|]. rewrite cpu_upd_cpu.
  pose proof (operand_facts instr (cpu s) Hwf Hst) as Hf. unfold dp_ref.
  destruct (dp_operand instr (cpu s)) as [[y sc] s1]. destruct Hf as (Hy & _). rewrite Hop, HS.
  pose proof (compare_flags (LHS instr (cpu s)) y s1 (word_LHS _ _ Hwf) Hy) as H.
  cbn [alu is_test Z.leb Z.ltb andb Z.compare Pos.compare Pos.compare_cont fst].
  destruct (AddWithCarry _ _ 1) as [[r c] v]. rewrite H.
  by apply condition_compares; [apply word_LHS|..].
Qed.
