(* ===== verification/DspSpec.v ===== *)
(** * The version 5 arithmetic

    The saturating additions, the halfword multiplies and CLZ against the
    integers they compute with. *)

From S2P Require Import Prelude Words Bits ArmState ArmSupp ArmBanks ArmFlags ArmPsr ArmShift ArmMul ArmInit ArmDp.

(** ** Saturation *)

(** The nearest 32-bit signed integer. *)
Definition saturate (x : Z) : Z := Z.max (-2147483648) (Z.min 2147483647 x).
(** The flag Q (the simulator's S flag) is set when a result saturates. *)
Definition note_overflow (x : Z) (s : ARMul_State) : ARMul_State :=
  if bool_decide (signed x) then s else SETS s.

Lemma saturate_id x : signed x -> saturate x = x.
Proof. unfold signed, saturate. lia. Qed.

Lemma u32_s32_add a b : u32 (s32 a + s32 b) = u32 (a + b).
Proof. unfold u32, s32. cases_Z; dlia. Qed.
Lemma u32_s32_sub a b : u32 (s32 a - s32 b) = u32 (a - b).
Proof. unfold u32, s32. cases_Z; dlia. Qed.

Lemma sat_add_spec a b s : word a -> word b ->
  sat_add a b s = (u32 (saturate (s32 a + s32 b)), note_overflow (s32 a + s32 b) s).
Proof.
  intros Ha Hb. unfold sat_add, add32, note_overflow, saturated.
  pose proof (AddOverflow_spec a b 0 Ha Hb (or_introl eq_refl)) as E. rewrite !Z.add_0_r in E. rewrite E.
  clear E. rewrite bool_decide_not. case_bool_decide as Hs; cbn [negb].
  - by rewrite saturate_id, u32_s32_add by done.
  - f_equal. unfold signed in Hs. unfold saturate. rewrite truth_POS by auto with words. unfold s32, word in *.
    destruct (u32_carry (a + b)) as [[? ->]|[? ->]]; [lia|..]; revert Hs; cases_Z; intros;
      try lia; symmetry; first [rewrite Z.max_l by lia | rewrite Z.max_r, Z.min_l by lia]; reflexivity.
Qed.

Lemma sat_sub_spec a b s : word a -> word b ->
  sat_sub a b s = (u32 (saturate (s32 a - s32 b)), note_overflow (s32 a - s32 b) s).
Proof.
  intros Ha Hb. unfold sat_sub, sub32, note_overflow, saturated.
  pose proof (SubOverflow_spec a b 0 Ha Hb (or_introl eq_refl)) as E. rewrite !Z.sub_0_r in E. rewrite E.
  clear E. rewrite bool_decide_not. case_bool_decide as Hs; cbn [negb].
  - by rewrite saturate_id, u32_s32_sub by done.
  - f_equal. unfold signed in Hs. unfold saturate. rewrite truth_POS by auto with words. unfold s32, word in *.
    destruct (u32_borrow (a - b)) as [[? ->]|[? ->]]; [lia|..]; revert Hs; cases_Z; intros;
      try lia; symmetry; first [rewrite Z.max_l by lia | rewrite Z.max_r, Z.min_l by lia]; reflexivity.
Qed.

(** ** Halfword multiplies *)

(** The signed half of a register. *)
Definition s16 (top : bool) (x : Z) : Z :=
  let h := half_of top x in if h <? 32768 then h else h - 65536.

Lemma half_range top x : 0 <= half_of top x < 65536.
Proof. unfold half_of. change 0xFFFF with (Z.ones 16). rewrite Z.land_ones by lia. apply Z.mod_pos_bound. lia. Qed.

Lemma s16_range top x : -32768 <= s16 top x < 32768.
Proof. unfold s16. pose proof (half_range top x). cases_Z; lia. Qed.

Lemma sx16_spec n top x : 16 <= n -> sx16 n (half_of top x) = s16 top x mod 2 ^ n.
Proof.
  intros Hn. unfold sx16, s16. pose proof (half_range top x) as Hh. set (h := half_of top x) in *. clearbody h.
  change 0x8000 with (2 ^ 15). rewrite truth_land_pow2 by lia.
  assert (Ht : Z.testbit h 15 = negb (h <? 32768)).
  { apply eq_true_iff_eq. rewrite Z.testbit_true by lia. change (2 ^ 15) with 32768.
    rewrite negb_true_iff, Z.ltb_ge. dlia. }
  rewrite Ht. clear Ht. assert (2 ^ 16 <= 2 ^ n) by (by apply Z.pow_le_mono_r). change (2 ^ 16) with 65536 in *.
  change (2 ^ 15) with 32768. destruct (Z.ltb_spec h 32768); cbn [negb]; [|reflexivity]. symmetry. apply Z.mod_small. lia.
Qed.

Lemma sx16_32 top x : sx16 32 (half_of top x) = u32 (s16 top x).
Proof. by rewrite sx16_spec by lia. Qed.
Lemma sx16_64 top x : sx16 64 (half_of top x) = u64 (s16 top x).
Proof. by rewrite sx16_spec by lia. Qed.

Lemma mul32_u32 a b : mul32 (u32 a) (u32 b) = u32 (a * b).
Proof. unfold mul32, u32. by rewrite <- Zmult_mod. Qed.
Lemma u64_mul a b : u64 (u64 a * u64 b) = u64 (a * b).
Proof. unfold u64. by rewrite <- Zmult_mod. Qed.

Lemma s32_u32 x : signed x -> s32 (u32 x) = x.
Proof. unfold signed, s32, u32. intros. cases_Z; dlia. Qed.

Lemma s16_product a b t1 t2 : signed (s16 t1 a * s16 t2 b).
Proof.
  pose proof (s16_range t1 a). pose proof (s16_range t2 b). unfold signed.
  assert (Z.abs (s16 t1 a * s16 t2 b) <= 32768 * 32768); [|lia].
  rewrite Z.abs_mul. apply Z.mul_le_mono_nonneg; lia.
Qed.

(** The accumulation: Q is set when the signed sum overflows. *)
Lemma accumulate_spec p acc s : signed p -> word acc ->
  (if AddOverflow (u32 p) acc (add32 (u32 p) acc) then SETS s else s) = note_overflow (p + s32 acc) s /\
  add32 (u32 p) acc = u32 (p + s32 acc).
Proof.
  intros Hp Ha. unfold add32, note_overflow. split.
  - pose proof (AddOverflow_spec (u32 p) acc 0 (word_u32 _) Ha (or_introl eq_refl)) as E.
    rewrite !Z.add_0_r, s32_u32 in E by done. rewrite E. clear E. rewrite bool_decide_not. by case_bool_decide.
  - rewrite <- u32_s32_add, s32_u32 by done. done.
Qed.

Lemma u64_signed_word w : word w ->
  (if truth (w &&& 0x80000000) then u64 (w - 4294967296) else w) = u64 (s32 w).
Proof.
  intros Hw. change 0x80000000 with (2 ^ 31). rewrite truth_land_pow2, testbit_31 by (done || lia).
  unfold s32, u64, word in *. cases_Z; try lia; try done; symmetry; apply Z.mod_small; lia.
Qed.

(** The upper 32 bits of the 48-bit product. *)
Lemma shifted_product x : u32 (u64 x >>> 16) = u32 (x / 65536).
Proof. rewrite Z.shiftr_div_pow2 by lia. change (2 ^ 16) with 65536. unfold u32, u64. dlia. Qed.

Lemma wide_product w b : word w -> -32768 <= b < 32768 -> signed (s32 w * b / 65536).
Proof.
  intros Hw Hb. pose proof (s32_range w Hw). unfold signed.
  assert (Z.abs (s32 w * b) <= 2147483648 * 32768).
  { rewrite Z.abs_mul. apply Z.mul_le_mono_nonneg; lia. }
  dlia.
Qed.

(** ** CLZ *)

Lemma clz_loop_spec fuel x n : word x -> 0 < x -> 32 <= Z.log2 x + 1 + Z.of_nat fuel ->
  clz_loop fuel x n = n + 31 - Z.log2 x.
Proof.
  revert x n. induction fuel as [|fuel IH]; intros x n Hx Hp Hf; simpl.
  - assert (Z.log2 x < 32) by (apply Z.log2_lt_pow2; unfold word in Hx; lia). lia.
  - assert (Hl : Z.log2 x < 32) by (apply Z.log2_lt_pow2; unfold word in Hx; lia).
    pose proof (truth_land_pow2 x 31 ltac:(lia)) as Ht. change (2 ^ 31) with 0x80000000 in Ht.
    unfold truth in Ht. pose proof (Z.log2_spec x Hp) as [H1 H2].
    destruct (Z.eqb_spec (x &&& 0x80000000) 0) as [E|E]; cbn [negb] in Ht.
    + assert (Hx31 : x < 2147483648).
      { rewrite testbit_31 in Ht by done. unfold s32, word in *. revert Ht. cases_Z; intros; done || lia. }
      assert (Es : shl32 x 1 = 2 * x).
      { unfold shl32. rewrite Z.shiftl_mul_pow2 by lia. change (2 ^ 1) with 2.
        unfold word in Hx. rewrite u32_id; [lia|unfold word; lia]. }
      assert (El : Z.log2 (2 * x) = Z.succ (Z.log2 x)) by (by apply Z.log2_double).
      rewrite Es, IH; [lia|unfold word in *; lia|lia|lia].
    + assert (31 <= Z.log2 x); [|lia]. rewrite testbit_31 in Ht by done.
      apply Z.log2_le_pow2; [done|]. unfold s32, word in *. revert Ht. cases_Z; intros; done || lia.
Qed.

Lemma CLZ_loop x : word x -> 0 < x -> clz_loop 32 x 0 = 31 - Z.log2 x.
Proof. intros Hx Hp. rewrite clz_loop_spec; [lia|done|done|]. pose proof (Z.log2_nonneg x). lia. Qed.

(** ** Properties *)

Lemma s32_saturate x : s32 (u32 (saturate x)) = saturate x.
Proof. apply s32_u32. unfold signed, saturate. lia. Qed.

(** C30: QADD, QSUB, QDADD and QDSUB compute on signed integers: every
    addition and doubling is rounded to the nearest 32-bit signed integer,
    and Q becomes set exactly when one of them had to be; CLZ counts the zeros
    above the highest set bit. *)
Theorem saturating_arithmetic instr s : wf s ->
  let m := s32 (reg s (BITS instr 0 3)) in
  let n := s32 (reg s (BITS instr 16 19)) in
  let result x := set_reg (BITS instr 12 15) (u32 (saturate x)) in
  QADD instr s = result (m + n) (note_overflow (m + n) s) /\
  QSUB instr s = result (m - n) (note_overflow (m - n) s) /\
  QDADD instr s = result (m + saturate (n + n)) (note_overflow (m + saturate (n + n)) (note_overflow (n + n) s)) /\
  QDSUB instr s = result (m - saturate (n + n)) (note_overflow (m - saturate (n + n)) (note_overflow (n + n) s)) /\
  CLZ instr s = set_reg (BITS instr 12 15)
    (let x := reg s (BITS instr 0 3) in if x =? 0 then 32 else 31 - Z.log2 x) s.
Proof.
  intros Hwf. cbv zeta. pose proof (word_reg s (BITS instr 0 3) Hwf) as Hm.
  pose proof (word_reg s (BITS instr 16 19) Hwf) as Hn.
  unfold QADD, QSUB, QDADD, QDSUB, CLZ, truth.
  rewrite sat_add_spec, (sat_sub_spec (reg s (BITS instr 0 3)) (reg s (BITS instr 16 19))) by done.
  split_and!; try done; cbv zeta.
  - rewrite (sat_add_spec (reg s (BITS instr 16 19))) by done. rewrite sat_add_spec by auto with words.
    by rewrite s32_saturate.
  - rewrite (sat_add_spec (reg s (BITS instr 16 19))) by done. rewrite sat_sub_spec by auto with words.
    by rewrite s32_saturate.
  - destruct (Z.eqb_spec (reg s (BITS instr 0 3)) 0); [done|]. cbn [negb].
    rewrite CLZ_loop; [done|done|]. unfold word in Hm. lia.
Qed.

Lemma saturating_arithmetic_witness :
  let s := set_reg 2 0x40000000 (set_reg 1 0x40000000 zero_state) in
  QDADD 0xe1420051 s = set_reg 0 0x7fffffff (SETS (SETS s)).
Proof.
  intros s. assert (Hwf : wf s) by (do 2 (apply wf_set_reg; [|by vm_compute]); apply wf_zero_state).
  pose proof (saturating_arithmetic 0xe1420051 s Hwf) as (_ & _ & H & _).
  exact H.
Defined.

(** C31: The halfword multiplies work on the signed halves that bits 5 and 6
    select: SMULxy gives their product, SMLAxy adds it to a register and sets
    Q when the signed sum overflows, SMULWy and SMLAWy use the upper 32 bits
    of a 48-bit product, and SMLALxy adds to a 64-bit accumulator. *)
Theorem halfword_multiplies instr s : wf s ->
  let m := reg s (BITS instr 0 3) in
  let a := s16 (Z.testbit instr 5) m in
  let b := s16 (Z.testbit instr 6) (reg s (BITS instr 8 11)) in
  let n := reg s (BITS instr 12 15) in
  let d := BITS instr 16 19 in
  let wide := s32 m * b / 65536 in
  SMULxy instr s = set_reg d (u32 (a * b)) s /\
  SMLAxy instr s = set_reg d (u32 (a * b + s32 n)) (note_overflow (a * b + s32 n) s) /\
  SMLAWy instr s =
    (if Z.testbit instr 5 then set_reg d (u32 wide) s
     else set_reg d (u32 (wide + s32 n)) (note_overflow (wide + s32 n) s)) /\
  (let acc := u64 (reg s d * 4294967296 + n + a * b) in
   SMLALxy instr s = set_reg d (acc / 4294967296) (set_reg (BITS instr 12 15) (acc mod 4294967296) s)).
Proof.
  intros Hwf. cbv zeta. pose proof (word_reg s (BITS instr 0 3) Hwf) as Hm.
  pose proof (word_reg s (BITS instr 12 15) Hwf) as Hn.
  unfold SMULxy, SMLAxy, SMLAWy, SMLALxy. rewrite !truth_BIT, !sx16_32, !sx16_64 by lia.
  set (m := reg s (BITS instr 0 3)) in *. set (n := reg s (BITS instr 12 15)) in *.
  set (a := s16 (Z.testbit instr 5) m). set (b := s16 _ (reg s (BITS instr 8 11))).
  rewrite mul32_u32. split_and!.
  - done.
  - destruct (accumulate_spec (a * b) n s (s16_product _ _ _ _) Hn) as [E1 E2]. cbv zeta. by rewrite E1, E2.
  - rewrite u64_signed_word, u64_mul, BIT_testbit by (done || lia). fold b.
    pose proof (wide_product m b Hm (s16_range _ _)) as Hw.
    destruct (accumulate_spec _ n s Hw Hn) as [E1 E2]. rewrite <- shifted_product in E1, E2.
    destruct (Z.testbit instr 5); cbn [c_bool Z.eqb]; [by rewrite shifted_product|].
    assert (E3 : u32 ((u64 (s32 m * b) >>> 16) + n) = add32 (u32 (u64 (s32 m * b) >>> 16)) n)
      by (unfold add32; by rewrite u32_add_l).
    by rewrite E3, E1, E2.
  - rewrite u64_mul. assert (Hd : word (reg s (BITS instr 16 19))) by auto with words.
    rewrite <- (add_lor_shift _ n 32) by (done || lia). rewrite Z.shiftl_mul_pow2 by lia. change (2 ^ 32) with 4294967296.
    assert (E : forall x y, u64 (x + u64 y) = u64 (x + y)) by (intros; unfold u64; by rewrite Zplus_mod_idemp_r).
    rewrite E. f_equal. by rewrite Z.shiftr_div_pow2 by lia.
Qed.

Lemma halfword_multiplies_witness :
  let s := set_reg 3 100 (set_reg 2 0x8000ffff (set_reg 1 3 zero_state)) in
  SMLAxy 0xe1003281 s = set_reg 0 97 s.
Proof.
  intros s. assert (Hwf : wf s) by (do 3 (apply wf_set_reg; [|by vm_compute]); apply wf_zero_state).
  pose proof (halfword_multiplies 0xe1003281 s Hwf) as (_ & H & _).
  exact H.
Defined.
