(* ===== verification/LdStSpec.v ===== *)
(** * Loads and stores over plain memory

    The transfer instructions against an interface: a memory that reads and
    writes like a flat array of bytes and leaves the core alone.  With the MMU
    off, the memory map of MemSpec.v is such a memory. *)

From S2P Require Import Prelude Words Bits ArmState ArmSupp ArmBanks ArmFlags ArmPsr ArmInit ArmShift Machine ArmSys ArmMem MemSpec Tlb Cache Arm7100 ArmVirt ArmLdSt ArmBlock.

(** ** The interface *)

(** What memory accesses depend on in the core. *)
Definition mem_config (c : ARMul_State) :=
  (mmu_control c, bigendSig c, vector_remap_flag c, vector_remap_addr c, vector_remap_size c).

(** [sees s m]: memory holds the bytes [m]; [plain s a]: reads and writes of
    [a] go to plain memory. *)
Class FlatView (M : Type) `{!Board M} `{!MmuOps M} := {
  sees : system M -> (Z -> Z) -> Prop;
  plain : system M -> Z -> Prop;
  view_read w a s m : sees s m -> plain s a ->
    exists s', mmu_read w a s = Some (inr (flat_read (bigendSig (cpu s)) w m a), s') /\
      sees s' m /\ cpu s' = cpu s /\ (forall b, plain s b -> plain s' b);
  view_write w a v s m : sees s m -> plain s a -> word v ->
    exists s', mmu_write w a v s = Some (NO_FAULT, s') /\
      sees s' (flat_write (bigendSig (cpu s)) w a v m) /\
      cpu s' = cpu s /\ (forall b, plain s b -> plain s' b);
  view_cpu f s m : mem_config (f (cpu s)) = mem_config (cpu s) -> sees s m ->
    sees (upd_cpu f s) m /\ (forall b, plain s b -> plain (upd_cpu f s) b);
  view_bytes s m a : sees s m -> 0 <= m a < 256;
  view_endian s m : sees s m -> bit (bigendSig (cpu s))
}.

(** ** The MMU switched off *)

Section Off.
Context {M : Type} `{!Board M}.
Implicit Type s : system M.

Definition off_sees s (m : Z -> Z) : Prop :=
  Z.testbit (mmu_control (cpu s)) 0 = false /\ bit (bigendSig (cpu s)) /\
  implements (bigendSig (cpu s)) (ram s) m /\ forall a, 0 <= m a < 256.
Definition off_plain s (a : Z) : Prop :=
  word a /\ remap s a = a /\ exists i b, at_bank (mem_banks (ram s)) a i b /\ reads_rom b /\ writes_rom b.

Lemma off_plain_step s s' a : cpu s' = cpu s -> mem_banks (ram s') = mem_banks (ram s) ->
  off_plain s a -> off_plain s' a.
Proof. intros Hc Hb. unfold off_plain, remap. by rewrite Hc, Hb. Qed.

Lemma off_read w a s m : off_sees s m -> off_plain s a ->
  exists s', a71_mmu_read w a s = Some (inr (flat_read (bigendSig (cpu s)) w m a), s') /\
    off_sees s' m /\ cpu s' = cpu s /\ (forall b, off_plain s b -> off_plain s' b).
Proof.
  intros (Hoff & He & Him & Hm) (Ha & Hr & i & b & Hi & Hb & Hw). unfold a71_mmu_read, control_on.
  rewrite (truth_land_pow2 _ 0), Hoff by done. cbn [negb].
  destruct (mem_read_flat (bigendSig (cpu s)) m w a s) as (s' & -> & Hs & Him'); try done; [by exists i, b|].
  pose proof (same_but_ram_cpu _ _ Hs) as Hc. exists s'. split; [done|].
  unfold off_sees. rewrite Hc. split; [done|]. split; [done|].
  intros c. apply off_plain_step; [done|apply Hs].
Qed.

Lemma off_write w a v s m : off_sees s m -> off_plain s a -> word v ->
  exists s', a71_mmu_write w a v s = Some (NO_FAULT, s') /\
    off_sees s' (flat_write (bigendSig (cpu s)) w a v m) /\
    cpu s' = cpu s /\ (forall b, off_plain s b -> off_plain s' b).
Proof.
  intros (Hoff & He & Him & Hm) (Ha & Hr & i & b & Hi & Hb & Hw) Hv. unfold a71_mmu_write, control_on.
  rewrite (truth_land_pow2 _ 0), Hoff by done. cbn [negb].
  destruct (mem_write_flat (bigendSig (cpu s)) m w a v s i b) as (s' & -> & Hs & Him'); try done; [by left|].
  unfold is_ram in Him'. rewrite (find_at_bank _ a i b (wf_banks _ (proj1 Him)) Ha Hi), Hw in Him'.
  rewrite bool_decide_eq_true_2 in Him' by done.
  pose proof (same_but_ram_cpu _ _ Hs) as Hc. exists s'. split; [done|].
  unfold off_sees. rewrite Hc. split; [|split; [done|]; intros c; apply off_plain_step; [done|apply Hs]].
  split; [done|]. split; [done|]. split; [done|]. intros x. unfold flat_write.
  destruct (_ && _); [|done]. rewrite (Z.land_ones _ 8) by done. by apply Z.mod_pos_bound.
Qed.

Lemma off_cpu f s m : mem_config (f (cpu s)) = mem_config (cpu s) -> off_sees s m ->
  off_sees (upd_cpu f s) m /\ (forall b, off_plain s b -> off_plain (upd_cpu f s) b).
Proof.
  unfold mem_config, off_sees, off_plain, remap. rewrite cpu_upd_cpu.
  intros [= -> -> -> -> ->]. change (ram (upd_cpu f s)) with (ram s). tauto.
Qed.

#[export] Instance mmu_off_view : FlatView M := {|
  sees := off_sees; plain := off_plain;
  view_read := off_read; view_write := off_write; view_cpu := off_cpu;
  view_bytes s m a H := proj2 (proj2 (proj2 H)) a;
  view_endian s m H := proj1 (proj2 H)
|}.
End Off.

(** ** Single transfers *)

Section Transfers.
Context {M : Type} `{!Board M} `{!MmuOps M} `{!FlatView M}.
Implicit Type s : system M.

(** Cycles counted, and the abort pin released. *)
Definition counted (n k : Z) (c : ARMul_State) : ARMul_State :=
  c <| NumNcycles ::= fun x => add32 x n |> <| NumScycles ::= fun x => add32 x k |> <| abortSig := LOW |>.

Definition view (f : ARMul_State -> ARMul_State) s (m : Z -> Z) s' : Prop :=
  cpu s' = f (cpu s) /\ sees s' m /\ forall b, plain s b -> plain s' b.

Lemma view_upd f s m : mem_config (f (cpu s)) = mem_config (cpu s) -> sees s m -> view f s m (upd_cpu f s).
Proof. intros Hf Hm. destruct (view_cpu f s m Hf Hm) as [H1 H2]. split; [apply cpu_upd_cpu|done]. Qed.

Lemma view_then f g s m s1 m1 s2 : view f s m1 s1 -> view g s1 m s2 -> view (fun c => g (f c)) s m s2.
Proof.
  intros (E1 & _ & H1) (E2 & H2 & H3). split; [by rewrite E2, E1|]. split; [done|]. auto.
Qed.

(** A load and a store of the core. *)
Lemma read_data_view w a s m : sees s m -> plain s a ->
  exists s', read_data w a s = Some (flat_read (bigendSig (cpu s)) w m a, s') /\ view ARMul_CLEARABORT s m s'.
Proof.
  intros Hm Ha. unfold read_data. destruct (view_read w a s m Hm Ha) as (s1 & -> & H1 & Hc & Hp).
  cbn [mbind option_bind]. eexists. split; [done|].
  destruct (view_upd ARMul_CLEARABORT s1 m eq_refl H1) as (E & H2 & H3).
  split; [by rewrite E, Hc|]. split; [done|]. auto.
Qed.

Lemma write_data_view w a v s m : sees s m -> plain s a -> word v ->
  exists s', write_data w a v s = Some s' /\
    view ARMul_CLEARABORT s (flat_write (bigendSig (cpu s)) w a v m) s'.
Proof.
  intros Hm Ha Hv. unfold write_data. destruct (view_write w a v s m Hm Ha Hv) as (s1 & -> & H1 & Hc & Hp).
  cbn [mbind option_bind]. destruct (decide (NO_FAULT = NO_FAULT)); [|done]. eexists. split; [done|].
  destruct (view_upd ARMul_CLEARABORT s1 _ eq_refl H1) as (E & H2 & H3).
  split; [by rewrite E, Hc|]. split; [done|]. auto.
Qed.

(** The value a load puts in its register: a word rotated by the offset of
    its address, a halfword or a byte as it is or sign-extended. *)
Definition sign_extended (n x : Z) : Z := u32 (if x <? 2 ^ (n - 1) then x else x - 2 ^ n).
Definition loaded (e : Z) (w : width) (signextend : bool) (m : Z -> Z) (a : Z) : Z :=
  let x := flat_read e w m a in
  match w with
  | Word => ror32 x (8 * (a mod 4))
  | Half => if signextend then sign_extended 16 x else x
  | Byte => if signextend then sign_extended 8 x else x
  end.

Lemma Align_loaded e m a : word (flat_read e Word m a) ->
  (if truth (a &&& 3) then ARMul_Align a (flat_read e Word m a) else Some (flat_read e Word m a)) =
    Some (loaded e Word false m a).
Proof.
  intros Hw. unfold ARMul_Align, loaded. rewrite land_3. unfold truth.
  destruct (Z.eqb_spec (a mod 4) 0) as [->|Hn]; [done|]. cbn [negb].
  rewrite Z.shiftl_mul_pow2 by done. change (2 ^ 3) with 8.
  destruct (Z.eqb_spec (a mod 4 * 8) 0); [lia|]. f_equal. rewrite Z.lor_comm.
  replace (8 * (a mod 4)) with (a mod 4 * 8) by lia. apply ror32_shifts; [done|]. dlia.
Qed.

(** Sign extension as the code does it. *)
Lemma sign_extend_code n x : 0 < n < 32 -> 0 <= x < 2 ^ n ->
  (if truth (x &&& 2 ^ (n - 1)) then sub32 (x &&& (2 ^ n - 1)) (2 ^ n) else x) = sign_extended n x.
Proof.
  intros Hn Hx. rewrite truth_land_pow2 by lia. unfold sign_extended, sub32.
  replace (2 ^ n - 1) with (Z.ones n) by (rewrite Z.ones_equiv; lia).
  rewrite Z.land_ones, Z.mod_small by lia.
  assert (Hp : 2 ^ n = 2 * 2 ^ (n - 1)) by (rewrite <- Z.pow_succ_r by lia; f_equal; lia).
  assert (Hs : 0 < 2 ^ (n - 1) <= 2 ^ 30) by (split; [lia|apply Z.pow_le_mono_r; lia]).
  change (2 ^ 30) with 1073741824 in Hs.
  destruct (Z.ltb_spec x (2 ^ (n - 1))) as [Hlt|Hge].
  - rewrite (testbit_high x (n - 1)) by lia. rewrite u32_id; [done|]. unfold word. lia.
  - replace (Z.testbit x (n - 1)) with true; [done|]. symmetry. apply Z.testbit_true; [lia|].
    replace (x / 2 ^ (n - 1)) with 1; [done|]. apply Z.div_unique with (x - 2 ^ (n - 1)); lia.
Qed.

Definition mem_inv (f : ARMul_State -> ARMul_State) : Prop := forall c, mem_config (f c) = mem_config c.

Lemma mem_inv_BUSUSEDINCPCS : mem_inv BUSUSEDINCPCS.
Proof. intros c. unfold BUSUSEDINCPCS, mem_config, set_reg. destruct (truth _); by upds. Qed.
Lemma mem_inv_BUSUSEDINCPCN : mem_inv BUSUSEDINCPCN.
Proof. intros c. unfold BUSUSEDINCPCN, BUSUSEDN, mem_config, set_reg. destruct (truth _); by upds. Qed.
Lemma mem_inv_WRITEDEST instr d : mem_inv (WRITEDEST instr d).
Proof. intros c. unfold WRITEDEST, WriteR15, FLUSHPIPE, mem_config, set_reg. destruct (_ =? _); by upds. Qed.
Lemma mem_inv_WRITEDESTB instr d : mem_inv (WRITEDESTB instr d).
Proof.
  intros c. unfold WRITEDESTB, WriteR15Branch, FLUSHPIPE, mem_config, set_reg.
  repeat case_match; by upds.
Qed.
Lemma mem_inv_Icycles n : mem_inv (ARMul_Icycles n).
Proof. done. Qed.
Lemma mem_inv_comp f g : mem_inv f -> mem_inv g -> mem_inv (fun c => f (g c)).
Proof. intros Hf Hg c. by rewrite Hf, Hg. Qed.

(** The three loads, and the three stores. *)
Definition Load (w : width) (instr a : Z) (signextend : bool) : system M -> option (Z * system M) :=
  match w with
  | Word => LoadWord instr a
  | Half => LoadHalfWord instr a signextend
  | Byte => LoadByte instr a signextend
  end.
Definition Store (w : width) (instr a : Z) : system M -> option (Z * system M) :=
  match w with
  | Word => StoreWord instr a | Half => StoreHalfWord instr a | Byte => StoreByte instr a
  end.

(** What a load and a store do to the core. *)
Definition load_effect (w : width) (instr v : Z) (c : ARMul_State) : ARMul_State :=
  ARMul_Icycles 1 ((if decide (w = Word) then WRITEDESTB else WRITEDEST) instr v
    (ARMul_CLEARABORT (count_N (BUSUSEDINCPCS c)))).
Definition store_effect (c : ARMul_State) : ARMul_State :=
  ARMul_CLEARABORT (count_N (BUSUSEDINCPCN c)).

Lemma Aborted_BUSUSEDINCPCS c : Aborted (BUSUSEDINCPCS c) = Aborted c.
Proof. unfold BUSUSEDINCPCS, set_reg. destruct (truth _); by upds. Qed.
Lemma Aborted_BUSUSEDINCPCN c : Aborted (BUSUSEDINCPCN c) = Aborted c.
Proof. unfold BUSUSEDINCPCN, BUSUSEDN, set_reg. destruct (truth _); by upds. Qed.

Lemma bigend_inv f c : mem_inv f -> bigendSig (f c) = bigendSig c.
Proof. intros Hf. pose proof (Hf c) as E. unfold mem_config in E. by injection E. Qed.

(** The access of a load, and how the rest of it ends. *)
Lemma load_start w a s m : sees s m -> plain s a -> Aborted (cpu s) = 0 ->
  exists s2, read_data w a (upd_cpu count_N (upd_cpu BUSUSEDINCPCS s)) =
      Some (flat_read (bigendSig (cpu s)) w m a, s2) /\ aborted s2 = false /\
    forall f, mem_inv f -> view (fun c => ARMul_Icycles 1 (f (ARMul_CLEARABORT (count_N (BUSUSEDINCPCS c))))) s m
      (upd_cpu (fun c => ARMul_Icycles 1 (f c)) s2).
Proof.
  intros Hm Ha Hab. set (s1 := upd_cpu count_N (upd_cpu BUSUSEDINCPCS s)).
  assert (Hv1 : view (fun c => count_N (BUSUSEDINCPCS c)) s m s1).
  { unfold s1. rewrite upd_cpu_twice. by apply view_upd; [apply mem_inv_BUSUSEDINCPCS|]. }
  destruct Hv1 as (E1 & H1 & P1). destruct (read_data_view w a s1 m H1 (P1 a Ha)) as (s2 & E2 & Hv2).
  rewrite E1 in E2. change (bigendSig (count_N ?c)) with (bigendSig c) in E2.
  rewrite (bigend_inv _ _ mem_inv_BUSUSEDINCPCS) in E2.
  assert (Hv : view (fun c => ARMul_CLEARABORT (count_N (BUSUSEDINCPCS c))) s m s2)
    by (eapply (view_then _ _ s m s1 m s2); [by split|exact Hv2]).
  exists s2. split; [done|]. split.
  - unfold aborted. rewrite (proj1 Hv). unfold ARMul_CLEARABORT, count_N. upds.
    by rewrite Aborted_BUSUSEDINCPCS, Hab.
  - intros f Hf. eapply (view_then _ (fun c => ARMul_Icycles 1 (f c)) s m s2 m); [exact Hv|].
    apply view_upd; [apply Hf|apply Hv].
Qed.

Lemma single_load w instr a sx s m : sees s m -> plain s a -> Aborted (cpu s) = 0 ->
  exists s', Load w instr a sx s = Some (c_bool (negb (DESTReg instr =? LHSReg instr)), s') /\
    view (load_effect w instr (loaded (bigendSig (cpu s)) w sx m a)) s m s'.
Proof.
  intros Hm Ha Hab. destruct (load_start w a s m Hm Ha Hab) as (s2 & E2 & Ha2 & Hend).
  pose proof (fun w => flat_read_range (bigendSig (cpu s)) w m a (fun x => view_bytes s m x Hm)) as Hr.
  unfold Load, load_effect, loaded.
  destruct w; [unfold LoadByte, ARMul_LoadByte, ARMul_ReadByte|unfold LoadHalfWord, ARMul_LoadHalfWord
    |unfold LoadWord, ARMul_LoadWordN, ARMul_ReadWord]; rewrite E2; cbn [mbind option_bind]; rewrite Ha2.
  - eexists. split; [reflexivity|]. destruct sx; cbn [andb].
    + rewrite (sign_extend_code 8) by (try apply (Hr Byte); lia). apply Hend, mem_inv_WRITEDEST.
    + apply Hend, mem_inv_WRITEDEST.
  - eexists. split; [reflexivity|]. destruct sx; cbn [andb].
    + rewrite (sign_extend_code 16) by (try apply (Hr Half); lia). apply Hend, mem_inv_WRITEDEST.
    + apply Hend, mem_inv_WRITEDEST.
  - rewrite Align_loaded by apply (Hr Word). cbn [mbind option_bind].
    eexists. split; [reflexivity|]. apply Hend, mem_inv_WRITEDESTB.
Qed.

(** The value a store writes: an older core has advanced the PC already. *)
Definition stored (instr : Z) (c : ARMul_State) : Z := reg (BUSUSEDINCPCN c) (DESTReg instr).

Lemma single_store w instr a s m : sees s m -> plain s a -> Aborted (cpu s) = 0 ->
  word (stored instr (cpu s)) ->
  exists s', Store w instr a s = Some (1, s') /\
    view store_effect s (flat_write (bigendSig (cpu s)) w a (stored instr (cpu s)) m) s'.
Proof.
  intros Hm Ha Hab Hw. set (s1 := upd_cpu count_N (upd_cpu BUSUSEDINCPCN s)).
  assert (Hv1 : view (fun c => count_N (BUSUSEDINCPCN c)) s m s1).
  { unfold s1. rewrite upd_cpu_twice. by apply view_upd; [apply mem_inv_BUSUSEDINCPCN|]. }
  destruct Hv1 as (E1 & H1 & P1).
  destruct (write_data_view w a (stored instr (cpu s)) s1 m H1 (P1 a Ha) Hw) as (s2 & E2 & Hv2).
  assert (He : bigendSig (cpu s1) = bigendSig (cpu s)).
  { rewrite E1. change (bigendSig (count_N ?c)) with (bigendSig c).
    apply (bigend_inv _ _ mem_inv_BUSUSEDINCPCN). }
  rewrite He in Hv2.
  assert (Hv : view store_effect s (flat_write (bigendSig (cpu s)) w a (stored instr (cpu s)) m) s2)
    by (eapply (view_then (fun c => count_N (BUSUSEDINCPCN c)) ARMul_CLEARABORT s _ s1 m s2); [by split|exact Hv2]).
  assert (Ha2 : aborted s2 = false).
  { unfold aborted. rewrite (proj1 Hv). unfold store_effect, ARMul_CLEARABORT, count_N. upds.
    by rewrite Aborted_BUSUSEDINCPCN, Hab. }
  exists s2. split; [|done]. unfold Store. assert (Hd : DEST instr (upd_cpu BUSUSEDINCPCN s) = stored instr (cpu s))
    by (unfold DEST; by rewrite cpu_upd_cpu).
  destruct w; [unfold StoreByte, ARMul_StoreByte, ARMul_WriteByte|unfold StoreHalfWord, ARMul_StoreHalfWord
    |unfold StoreWord, ARMul_StoreWordN, ARMul_WriteWord]; cbv zeta; rewrite Hd; fold s1; rewrite E2;
    cbn [mbind option_bind]; unfold end_store; by rewrite Ha2.
Qed.

(** The registers below the PC after a load and after a store. *)
Lemma wf_BUSUSEDINCPCS c : wf c -> wf (BUSUSEDINCPCS c).
Proof.
  intros H. unfold BUSUSEDINCPCS. destruct (truth _); [done|]. cbv zeta.
  pose proof (wf_set_reg 15 _ c H (word_add32 (reg c 15) (isize c))) as H'. clear H. wf_frame.
Qed.
Lemma wf_BUSUSEDINCPCN c : wf c -> wf (BUSUSEDINCPCN c).
Proof.
  intros H. unfold BUSUSEDINCPCN, BUSUSEDN. destruct (truth _); [wf_frame|]. cbv zeta.
  pose proof (wf_set_reg 15 _ c H (word_add32 (reg c 15) (isize c))) as H'. clear H. wf_frame.
Qed.
Lemma reg_BUSUSEDINCPCS c i : 0 <= i < 15 -> reg (BUSUSEDINCPCS c) i = reg c i.
Proof.
  intros Hi. unfold BUSUSEDINCPCS. destruct (truth _); [done|]. cbv zeta.
  etransitivity; [|apply (reg_set_reg_ne c 15 i (add32 (reg c 15) (isize c))); lia]. unfold reg. by upds.
Qed.
Lemma reg_BUSUSEDINCPCN c i : 0 <= i < 15 -> reg (BUSUSEDINCPCN c) i = reg c i.
Proof.
  intros Hi. unfold BUSUSEDINCPCN, BUSUSEDN. destruct (truth _); [by unfold reg; upds|]. cbv zeta.
  etransitivity; [|apply (reg_set_reg_ne c 15 i (add32 (reg c 15) (isize c))); lia]. unfold reg. by upds.
Qed.

Lemma DESTReg_range instr : 0 <= DESTReg instr < 16.
Proof. exact (BITS_range instr 12 15 ltac:(lia) ltac:(lia)). Qed.

Lemma reg_write (b : bool) instr v c i : wf c -> 0 <= i < 15 ->
  reg ((if b then WRITEDESTB else WRITEDEST) instr v c) i = if i =? DESTReg instr then v else reg c i.
Proof.
  intros Hwf Hi. pose proof (DESTReg_range instr) as Hd.
  destruct (Z.eq_dec (DESTReg instr) 15) as [E|E].
  - assert (Hpc : forall x c', reg c' i = reg c i -> reg (FLUSHPIPE (set_reg 15 x c')) i = reg c i).
    { intros x c' Hc'. rewrite <- Hc'. etransitivity; [|apply (reg_set_reg_ne c' 15 i x); lia].
      unfold FLUSHPIPE, reg. by upds. }
    destruct (Z.eqb_spec i (DESTReg instr)); [lia|].
    destruct b; [unfold WRITEDESTB, WriteR15Branch|unfold WRITEDEST, WriteR15]; rewrite E; cbn [Z.eqb Pos.eqb].
    + assert (Hpc' : forall x y t', reg (FLUSHPIPE ((set_reg 15 x (c <| TFlag := t' |>)) <| Cpsr := y |>)) i = reg c i).
      { intros. etransitivity; [|apply (reg_set_reg_ne c 15 i x); lia].
        unfold FLUSHPIPE, reg, set_reg. by upds. }
      destruct (truth (v &&& 1)); apply Hpc'.
    + by apply Hpc.
  - rewrite <- (reg_set_reg c (DESTReg instr) i v) by (done || lia).
    destruct b; [unfold WRITEDESTB|unfold WRITEDEST]; by destruct (Z.eqb_spec (DESTReg instr) 15).
Qed.

Lemma reg_load_effect w instr v c i : wf c -> 0 <= i < 15 ->
  reg (load_effect w instr v c) i = if i =? DESTReg instr then v else reg c i.
Proof.
  intros Hwf Hi. unfold load_effect. rewrite reg_Icycles.
  set (c1 := ARMul_CLEARABORT (count_N (BUSUSEDINCPCS c))).
  assert (Hc1 : wf c1).
  { pose proof (wf_BUSUSEDINCPCS c Hwf) as H. unfold c1, ARMul_CLEARABORT, count_N. clear Hwf. wf_frame. }
  assert (Hr : reg c1 i = reg c i).
  { rewrite <- (reg_BUSUSEDINCPCS c i Hi). unfold c1, reg, ARMul_CLEARABORT, count_N. by upds. }
  rewrite <- Hr. destruct (decide (w = Word)); [by apply (reg_write true)|by apply (reg_write false)].
Qed.

(** C13: The single transfers over plain memory.  A load returns "write back
    the base unless it is the destination", puts the word at the address
    rotated by the address's offset, or the halfword or byte there, zero- or
    sign-extended, in the destination, and changes no other register below
    the PC and no memory.  A store writes the low bytes of its register to
    the aligned location and changes no register below the PC. *)
Theorem single_transfers w instr a sx s m :
  sees s m -> plain s a -> wf (cpu s) -> Aborted (cpu s) = 0 ->
  (exists s', Load w instr a sx s = Some (c_bool (negb (DESTReg instr =? LHSReg instr)), s') /\ sees s' m /\
     forall i, 0 <= i < 15 -> reg (cpu s') i =
       if i =? DESTReg instr then loaded (bigendSig (cpu s)) w sx m a else reg (cpu s) i) /\
  (exists s', Store w instr a s = Some (1, s') /\
     sees s' (flat_write (bigendSig (cpu s)) w a (stored instr (cpu s)) m) /\
     (DESTReg instr <> 15 -> stored instr (cpu s) = reg (cpu s) (DESTReg instr)) /\
     forall i, 0 <= i < 15 -> reg (cpu s') i = reg (cpu s) i).
Proof.
  intros Hm Ha Hwf Hab. pose proof (DESTReg_range instr) as Hd. split.
  - destruct (single_load w instr a sx s m Hm Ha Hab) as (s' & E & Hc & Hm' & _).
    exists s'. split; [done|]. split; [done|]. intros i Hi. rewrite Hc. by apply reg_load_effect.
  - destruct (single_store w instr a s m Hm Ha Hab) as (s' & E & Hc & Hm' & _).
    { unfold stored. apply word_reg. by apply wf_BUSUSEDINCPCN. }
    exists s'. split; [done|]. split; [done|]. split.
    + intros Hne. apply reg_BUSUSEDINCPCN. lia.
    + intros i Hi. rewrite Hc, <- (reg_BUSUSEDINCPCN (cpu s) i Hi).
      unfold store_effect, ARMul_CLEARABORT, count_N, reg. by upds.
Qed.

End Transfers.
