(* ===== verification/FaultSpec.v ===== *)
(** * Faulting transfers

    A fault of the MMU during a load or a store is recorded in the fault
    registers and taken as a data abort; the memory the MMU left is kept. *)

From S2P Require Import Prelude Words ArmState ArmSupp ArmBanks ArmFlags ArmPsr ArmInit ArmShift Machine ArmSys ArmMem Tlb Cache Arm7100 ArmVirt ArmLdSt LdStSpec.

(** What a data abort leaves alone. *)
Definition fault_regs (c : ARMul_State) := (lateabtSig c, mmu_fault_status c, mmu_fault_address c, mmu_last_domain c).

Lemma fault_regs_rest c c' : psr_rest c' = psr_rest c -> fault_regs c' = fault_regs c /\ Aborted c' = Aborted c.
Proof.
  intros H. pose proof (f_equal (fun t => snd (fst (fst (fst t)))) H) as H3.
  pose proof (f_equal (fun t => snd (fst (fst t))) H) as H4. unfold fault_regs.
  pose proof (f_equal snd H3) as E1. pose proof (f_equal snd H4) as E2.
  pose proof (f_equal (fun t => snd (fst t)) H4) as E3.
  pose proof (f_equal (fun t => snd (fst (fst t))) H4) as E4.
  pose proof (f_equal (fun t => fst (fst (fst (fst (fst (fst t)))))) H4) as E5.
  cbn [fst snd psr_rest] in E1, E2, E3, E4, E5. by rewrite E1, E2, E3, E4, E5.
Qed.

Lemma fault_regs_inv c c' : fault_regs c' = fault_regs c ->
  lateabtSig c' = lateabtSig c /\ mmu_fault_status c' = mmu_fault_status c /\
  mmu_fault_address c' = mmu_fault_address c.
Proof. by intros [= -> -> -> _]. Qed.

Lemma fault_regs_Abort c : wf c -> banked c -> prog32Sig c <> LOW -> 3 < Mode c ->
  fault_regs (ARMul_Abort ARMul_DataAbortV c) = fault_regs c /\
  Aborted (ARMul_Abort ARMul_DataAbortV c) = 0.
Proof.
  intros Hwf Hb Hp Hm. assert (Hv : exc_vector ARMul_DataAbortV) by (unfold exc_vector; tauto).
  rewrite Abort_parts by done.
  destruct (exc_start_facts ARMul_DataAbortV c Hwf) as (Hw0 & _ & Hb0 & _ & Hp0 & _).
  destruct (SETABORT_spec (exc_mask ARMul_DataAbortV) (exc_mode ARMul_DataAbortV)
    (exc_delta ARMul_DataAbortV c) (reg c 15) (exc_start ARMul_DataAbortV c)) as [[_ _ HM _ _ _ Hr] _];
    [done|by apply Hb0|by rewrite Hp0|by left|apply exc_mode_exc|].
  generalize dependent (SETABORT (exc_mask ARMul_DataAbortV) (exc_mode ARMul_DataAbortV)
    (exc_delta ARMul_DataAbortV c) (reg c 15) (exc_start ARMul_DataAbortV c)). intros s2 HM Hr.
  rewrite abort_jump_eq by (by rewrite ?HM). destruct (fault_regs_rest _ _ Hr) as [E1 E2].
  assert (Hf : forall x, fault_regs (FLUSHPIPE (set_reg 15 x s2)) = fault_regs s2 /\
    Aborted (FLUSHPIPE (set_reg 15 x s2)) = Aborted s2) by done.
  destruct (Hf (exc_target ARMul_DataAbortV s2)) as [-> ->]. rewrite E1, E2.
  generalize (CPSR (exc_start ARMul_DataAbortV c)), (ModeToBank (exc_mode ARMul_DataAbortV)).
  intros v b. by split.
Qed.

Section Faults.
Context {M : Type} `{!Board M} `{!MmuOps M}.
Implicit Type s : system M.

(** The state in which a transfer accesses memory. *)
Definition load_issue s : system M := upd_cpu count_N (upd_cpu BUSUSEDINCPCS s).
Definition store_issue s : system M := upd_cpu count_N (upd_cpu BUSUSEDINCPCN s).

(** The core can take a data abort to a 32-bit mode. *)
Definition abortable (c : ARMul_State) : Prop := wf c /\ banked c /\ prog32Sig c <> LOW /\ 3 < Mode c.

(** The state after the abort of an access that faulted with [f] in [s]. *)
Definition took_fault (f : fault_t) (a : Z) s s' : Prop :=
  exception_entry ARMul_DataAbortV (data_fault f a (cpu s)) (cpu s') /\
  mmu_fault_status (cpu s') = (fault_code f ||| (mmu_last_domain (cpu s) <<< 4)) &&& 0xFF /\
  mmu_fault_address (cpu s') = a /\ Aborted (cpu s') = 0 /\
  exists g, s' = upd_cpu g s.

Lemma TAKEABORT_fault f a s : abortable (cpu s) ->
  took_fault f a s (TAKEABORT (upd_cpu (data_fault f a) s)).
Proof.
  intros (Hwf & Hb & Hp & Hm). unfold took_fault, TAKEABORT. rewrite !cpu_upd_cpu, upd_cpu_twice.
  assert (Hwf' : wf (data_fault f a (cpu s))) by (unfold data_fault, ARMul_DATAABORT; wf_frame).
  destruct (fault_regs_Abort (data_fault f a (cpu s)) Hwf' Hb Hp Hm) as [Hr Hz].
  split; [apply Abort_entry; try done; unfold exc_vector; tauto|].
  destruct (fault_regs_inv _ _ Hr) as (_ & -> & ->). split; [done|]. split; [done|]. split; [done|]. by eexists.
Qed.

(** C14: A transfer whose access faults is a data abort: the fault and the
    domain of the access are in the fault status register, its address in the
    fault address register, and the core enters abort mode at the data abort
    vector with every register of the interrupted mode as the access left it
    (the destination of a load is not written); the flag returned, whether to
    write back the base, is the abort model of the processor. *)
Theorem faulting_transfers_abort w instr a sx s :
  (forall f s1, mmu_read w a (load_issue s) = Some (inl f, s1) -> abortable (cpu s1) ->
     exists s', Load w instr a sx s = Some (lateabtSig (cpu s1), s') /\ took_fault f a s1 s') /\
  (forall f s1, mmu_write w a (stored instr (cpu s)) (store_issue s) = Some (f, s1) -> f <> NO_FAULT ->
     abortable (cpu s1) ->
     exists s', Store w instr a s = Some (lateabtSig (cpu s1), s') /\ took_fault f a s1 s').
Proof.
  assert (Hlate : forall f s1, abortable (cpu s1) ->
    abort_access (upd_cpu (data_fault f a) s1) = (lateabtSig (cpu s1), TAKEABORT (upd_cpu (data_fault f a) s1))).
  { intros f s1 (Hwf & Hb & Hp & Hm). unfold abort_access. f_equal. unfold TAKEABORT. rewrite !cpu_upd_cpu.
    assert (Hwf' : wf (data_fault f a (cpu s1))) by (unfold data_fault, ARMul_DATAABORT; wf_frame).
    destruct (fault_regs_Abort (data_fault f a (cpu s1)) Hwf' Hb Hp Hm) as [Hr _].
    by destruct (fault_regs_inv _ _ Hr) as (-> & _ & _). }
  assert (Hab : forall f s1, aborted (upd_cpu (data_fault f a) s1) = true).
  { intros. unfold aborted. by rewrite cpu_upd_cpu. }
  split; intros f s1 E.
  - intros Hok. exists (TAKEABORT (upd_cpu (data_fault f a) s1)). split; [|by apply TAKEABORT_fault].
    unfold load_issue in E. rewrite <- (Hlate f s1 Hok).
    destruct w; [unfold Load, LoadByte, ARMul_LoadByte, ARMul_ReadByte
      |unfold Load, LoadHalfWord, ARMul_LoadHalfWord|unfold Load, LoadWord, ARMul_LoadWordN, ARMul_ReadWord];
      unfold read_data; rewrite E; cbn [mbind option_bind]; by rewrite Hab.
  - intros Hf Hok. exists (TAKEABORT (upd_cpu (data_fault f a) s1)). split; [|by apply TAKEABORT_fault].
    unfold store_issue in E. rewrite <- (Hlate f s1 Hok).
    assert (Hd : DEST instr (upd_cpu BUSUSEDINCPCN s) = stored instr (cpu s)) by (unfold DEST; by rewrite cpu_upd_cpu).
    destruct w; [unfold Store, StoreByte, ARMul_StoreByte, ARMul_WriteByte
      |unfold Store, StoreHalfWord, ARMul_StoreHalfWord|unfold Store, StoreWord, ARMul_StoreWordN, ARMul_WriteWord];
      cbv zeta; rewrite Hd; unfold write_data; rewrite E; cbn [mbind option_bind];
      (destruct (decide (f = NO_FAULT)); [done|]); unfold end_store; by rewrite Hab.
Qed.
End Faults.
