(* ===== verification/BlockSpec.v ===== *)
(** * Block transfers over plain memory

    STM writes the listed registers to consecutive words, LDM reads them
    back: over the memory interface of LdStSpec.v the second undoes the first. *)

From S2P Require Import Prelude Words Bits ArmState ArmSupp ArmBanks ArmFlags ArmPsr ArmInit ArmShift Machine ArmSys ArmMem MemSpec Tlb Cache Arm7100 ArmVirt ArmLdSt ArmBlock LdStSpec.

(** ** Words in a row *)

Fixpoint store_words (e a : Z) (vs : list Z) (m : Z -> Z) : Z -> Z :=
  match vs with
  | [] => m
  | v :: vs => store_words e (add32 a 4) vs (flat_write e Word a v m)
  end.
Fixpoint load_words (e : Z) (m : Z -> Z) (a : Z) (n : nat) : list Z :=
  match n with
  | O => []
  | S n => flat_read e Word m a :: load_words e m (add32 a 4) n
  end.

Lemma flat_write_same_word e a v m y : bit e -> word v -> same_word y a ->
  flat_write e Word a v m y = lane v (pos e y).
Proof.
  intros He Hv Hy. assert (H0 : word 0) by (unfold word; lia).
  pose proof (lane_set_flat e Word a v 0 y He Hv H0 Hy) as E. cbn [lane_set] in E. rewrite E.
  unfold flat_write. destruct (_ && _) eqn:Ec; [done|]. exfalso.
  unfold same_word, align in *. cbn [size] in *. dlia.
Qed.

Lemma flat_read_write_same e a v m : bit e -> word v -> flat_read e Word (flat_write e Word a v m) a = v.
Proof.
  intros He Hv. rewrite <- (lane_get_flat e Word a v _ He Hv); [done|].
  intros y Hy. by rewrite flat_write_same_word, lane_get_Byte.
Qed.

Lemma flat_read_write_other e a b v m : ~ same_word a b ->
  flat_read e Word (flat_write e Word b v m) a = flat_read e Word m a.
Proof.
  intros Hne. unfold flat_read. apply foldr_lanes. intros k Hk%elem_of_seqZ.
  destruct (pos_lane_no e Word a k) as [_ Hs]; [lia|]. unfold flat_write.
  destruct (_ && _) eqn:Ec; [|done]. exfalso. apply Hne. unfold same_word, align in *. cbn [size] in *. dlia.
Qed.

(** Fewer than 2^30 words in a row do not come back to the first one. *)
Lemma load_store_other e a b vs m : word a -> word b ->
  (forall k, 0 <= k < Z.of_nat (length vs) -> ~ same_word a (u32 (b + 4 * k))) ->
  flat_read e Word (store_words e b vs m) a = flat_read e Word m a.
Proof.
  revert b m. induction vs as [|v vs IH]; intros b m Ha Hb Hk; [done|]. cbn [store_words].
  rewrite IH; [|done|apply word_add32|].
  - apply flat_read_write_other. specialize (Hk 0). rewrite Z.mul_0_r, Z.add_0_r, u32_id in Hk by done.
    apply Hk. simpl. lia.
  - intros k Hkr. specialize (Hk (k + 1)). unfold add32. rewrite u32_add_l.
    replace (b + 4 + 4 * k) with (b + 4 * (k + 1)) by lia. apply Hk. simpl. lia.
Qed.

Lemma next_word_distinct a k : word a -> 0 <= k < 1073741823 -> ~ same_word a (u32 (add32 a 4 + 4 * k)).
Proof.
  intros Ha Hk. unfold add32, same_word. rewrite u32_add_l. unfold u32, word in *. dlia.
Qed.

Lemma load_words_store_words e a vs m : bit e -> word a -> Forall word vs ->
  Z.of_nat (length vs) < 1073741823 -> load_words e (store_words e a vs m) a (length vs) = vs.
Proof.
  intros He Ha Hvs. revert a m Ha. induction Hvs as [|v vs Hv Hvs IH]; intros a m Ha Hl; [done|].
  cbn [length load_words store_words]. simpl in Hl. f_equal; [|apply IH; [apply word_add32|lia]].
  rewrite load_store_other; [by apply flat_read_write_same|done|apply word_add32|].
  intros k Hk. apply next_word_distinct; [done|lia].
Qed.

(** ** The registers of a list *)

Definition regs_from (instr lo : Z) : list Z := filter (fun i => truth (BIT instr i) = true) (seqZ lo (16 - lo)).
Definition regs (instr : Z) : list Z := regs_from instr 0.

Lemma regs_from_range instr lo i : 0 <= lo -> i ∈ regs_from instr lo -> lo <= i < 16.
Proof. unfold regs_from. intros Hlo [_ H%elem_of_seqZ]%list_elem_of_filter. lia. Qed.

Lemma regs_from_cons instr lo : 0 <= lo < 16 ->
  regs_from instr lo = if truth (BIT instr lo) then lo :: regs_from instr (lo + 1) else regs_from instr (lo + 1).
Proof.
  intros Hlo. unfold regs_from. rewrite seqZ_cons by lia. rewrite filter_cons.
  replace (Z.pred (16 - lo)) with (16 - (lo + 1)) by lia. replace (Z.succ lo) with (lo + 1) by lia.
  destruct (truth (BIT instr lo)); [by rewrite decide_True|by rewrite decide_False].
Qed.

Lemma first_set_spec instr fuel lo t rest : 0 <= lo -> lo + Z.of_nat fuel = 32 ->
  regs_from instr lo = t :: rest ->
  first_set fuel instr lo = Some t /\ 0 <= t < 16 /\ rest = regs_from instr (t + 1).
Proof.
  revert lo. induction fuel as [|fuel IH]; intros lo Hlo Hf E.
  - assert (H : regs_from instr lo = []) by (unfold regs_from; by rewrite seqZ_nil by lia). congruence.
  - destruct (Z.lt_ge_cases lo 16).
    + rewrite regs_from_cons in E by lia. cbn [first_set]. destruct (truth (BIT instr lo)).
      * injection E as <- <-. by split.
      * apply IH; [lia|lia|done].
    + assert (H' : regs_from instr lo = []) by (unfold regs_from; by rewrite seqZ_nil by lia). congruence.
Qed.

Lemma NoDup_regs instr lo : NoDup (regs_from instr lo).
Proof. apply list.NoDup_filter, NoDup_seqZ. Qed.

(** ** The loops *)

Section Loops.
Context {M : Type} `{!Board M} `{!MmuOps M} `{!FlatView M}.
Implicit Type s : system M.

(** The words from [a] on are plain memory. *)
Fixpoint plain_words s (a : Z) (n : nat) : Prop :=
  match n with O => True | S n => plain s a /\ plain_words s (add32 a 4) n end.

Lemma plain_words_mono s s' a n : (forall b, plain s b -> plain s' b) -> plain_words s a n -> plain_words s' a n.
Proof. intros Hp. revert a. induction n as [|n IH]; intros a; [done|]. intros [H1 H2]. split; auto. Qed.

(** The sequential cycles of [n] transfers. *)
Definition S_access (c : ARMul_State) : ARMul_State := ARMul_CLEARABORT (count_S c).
Definition N_access (c : ARMul_State) : ARMul_State := ARMul_CLEARABORT (count_N c).

Lemma wf_S_access c : wf c -> wf (S_access c).
Proof. intros H. unfold S_access, ARMul_CLEARABORT, count_S. wf_frame. Qed.
Lemma wf_N_access c : wf c -> wf (N_access c).
Proof. intros H. unfold N_access, ARMul_CLEARABORT, count_N. wf_frame. Qed.
Lemma reg_S_access c i : reg (S_access c) i = reg c i.
Proof. done. Qed.
Lemma reg_N_access c i : reg (N_access c) i = reg c i.
Proof. done. Qed.

(** One access of a block transfer. *)
Lemma load_S a s m : sees s m -> plain s a ->
  exists s', ARMul_LoadWordS a s = Some (flat_read (bigendSig (cpu s)) Word m a, s') /\ view S_access s m s'.
Proof.
  intros Hm Ha. destruct (view_upd count_S s m eq_refl Hm) as (E1 & H1 & P1).
  destruct (read_data_view Word a (upd_cpu count_S s) m H1 (P1 a Ha)) as (s' & E & Hv).
  rewrite E1 in E. exists s'. split; [exact E|].
  eapply (view_then count_S ARMul_CLEARABORT s m _ m s'); [by split|exact Hv].
Qed.
Lemma load_N a s m : sees s m -> plain s a ->
  exists s', ARMul_LoadWordN a s = Some (flat_read (bigendSig (cpu s)) Word m a, s') /\ view N_access s m s'.
Proof.
  intros Hm Ha. destruct (view_upd count_N s m eq_refl Hm) as (E1 & H1 & P1).
  destruct (read_data_view Word a (upd_cpu count_N s) m H1 (P1 a Ha)) as (s' & E & Hv).
  rewrite E1 in E. exists s'. split; [exact E|].
  eapply (view_then count_N ARMul_CLEARABORT s m _ m s'); [by split|exact Hv].
Qed.
Lemma store_S a v s m : sees s m -> plain s a -> word v ->
  exists s', ARMul_StoreWordS a v s = Some s' /\
    view S_access s (flat_write (bigendSig (cpu s)) Word a v m) s'.
Proof.
  intros Hm Ha Hw. destruct (view_upd count_S s m eq_refl Hm) as (E1 & H1 & P1).
  destruct (write_data_view Word a v (upd_cpu count_S s) m H1 (P1 a Ha) Hw) as (s' & E & Hv).
  rewrite E1 in Hv. exists s'. split; [exact E|].
  eapply (view_then count_S ARMul_CLEARABORT s _ _ m s'); [by split|exact Hv].
Qed.
Lemma store_N a v s m : sees s m -> plain s a -> word v ->
  exists s', ARMul_StoreWordN a v s = Some s' /\
    view N_access s (flat_write (bigendSig (cpu s)) Word a v m) s'.
Proof.
  intros Hm Ha Hw. destruct (view_upd count_N s m eq_refl Hm) as (E1 & H1 & P1).
  destruct (write_data_view Word a v (upd_cpu count_N s) m H1 (P1 a Ha) Hw) as (s' & E & Hv).
  rewrite E1 in Hv. exists s'. split; [exact E|].
  eapply (view_then count_N ARMul_CLEARABORT s _ _ m s'); [by split|exact Hv].
Qed.

(** *** Stores *)

(** The core after a step of a block transfer. *)
Record block_state (c c' : ARMul_State) : Prop := {
  bs_wf : wf c';
  bs_abortSig : abortSig c' = LOW;
  bs_Aborted : Aborted c' = 0;
  bs_config : mem_config c' = mem_config c
}.

Lemma block_state_S c : wf c -> Aborted c = 0 -> block_state c (S_access c).
Proof. intros H1 H2. split; [by apply wf_S_access|done..]. Qed.
Lemma block_state_N c : wf c -> Aborted c = 0 -> block_state c (N_access c).
Proof. intros H1 H2. split; [by apply wf_N_access|done..]. Qed.

Lemma late_store_quiet s c : block_state c (cpu s) -> late_store s = Some s /\ aborted s = false.
Proof.
  intros [_ H1 H2 _]. unfold late_store, abort_low, aborted. by rewrite H1, H2.
Qed.

Lemma store_rest_view instr a lo s m : 0 <= lo -> sees s m -> wf (cpu s) -> Aborted (cpu s) = 0 ->
  plain_words s (add32 a 4) (length (regs_from instr lo)) ->
  exists s', store_rest instr a (seqZ lo (16 - lo)) s = Some s' /\
    view (Nat.iter (length (regs_from instr lo)) S_access) s
      (store_words (bigendSig (cpu s)) (add32 a 4) (map (reg (cpu s)) (regs_from instr lo)) m) s'.
Proof.
  intros Hlo. remember (Z.to_nat (16 - lo)) as n eqn:Hn. revert lo Hlo a s m Hn.
  induction n as [|n IH]; intros lo Hlo a s m Hn Hm Hwf Hab Hp.
  - assert (E : seqZ lo (16 - lo) = []) by by rewrite seqZ_nil by lia.
    unfold regs_from in *. rewrite E in *. exists s. by repeat split.
  - rewrite regs_from_cons in * by lia. rewrite seqZ_cons by lia. cbn [store_rest].
    replace (Z.pred (16 - lo)) with (16 - (lo + 1)) by lia. replace (Z.succ lo) with (lo + 1) by lia.
    destruct (truth (BIT instr lo)) eqn:Eb; [|by apply IH; try lia].
    destruct Hp as [Hp1 Hp2].
    destruct (store_S (add32 a 4) (reg (cpu s) lo) s m Hm Hp1 (word_reg _ _ Hwf)) as (s1 & -> & Hv1).
    cbn [mbind option_bind]. pose proof Hv1 as (E1 & H1 & P1).
    assert (Hb1 : block_state (cpu s) (cpu s1)) by (rewrite E1; by apply block_state_S).
    destruct (late_store_quiet s1 _ Hb1) as [-> Hq]. cbn [mbind option_bind]. rewrite Hq.
    destruct (IH (lo + 1) ltac:(lia) (add32 a 4) s1 _ ltac:(lia) H1 (bs_wf _ _ Hb1) (bs_Aborted _ _ Hb1))
      as (s' & E' & Hv'); [by eapply plain_words_mono|].
    exists s'. split; [exact E'|]. cbn [length map store_words].
    assert (He : bigendSig (cpu s1) = bigendSig (cpu s)) by by rewrite E1.
    assert (Hr : map (reg (cpu s1)) (regs_from instr (lo + 1)) = map (reg (cpu s)) (regs_from instr (lo + 1)))
      by (rewrite E1; done).
    rewrite He, Hr in Hv'. destruct Hv' as (Ec & Hm' & P'). split; [|split; [done|by auto]].
    rewrite Ec, E1. by rewrite <- Nat.iter_succ_r.
Qed.

Lemma iter_S_reg n c i : reg (Nat.iter n S_access c) i = reg c i.
Proof. induction n as [|n IH]; [done|]. by rewrite Nat.iter_succ, reg_S_access. Qed.
Lemma iter_S_block n c c' : block_state c c' -> block_state c (Nat.iter n S_access c').
Proof.
  intros H. induction n as [|n IH]; [done|]. rewrite Nat.iter_succ. destruct IH as [H1 H2 H3 H4].
  destruct (block_state_S _ H1 H3) as [G1 G2 G3 G4]. split; [done..|]. by rewrite G4.
Qed.

(** All the stores of a list. *)
Definition store_cycles (instr : Z) (c : ARMul_State) : ARMul_State :=
  Nat.iter (length (regs instr) - 1) S_access (N_access c).

Lemma block_state_cycles instr c : wf c -> Aborted c = 0 -> block_state c (store_cycles instr c).
Proof. intros H1 H2. apply iter_S_block. by apply block_state_N. Qed.
Lemma reg_store_cycles instr c i : reg (store_cycles instr c) i = reg c i.
Proof. unfold store_cycles. by rewrite iter_S_reg. Qed.

Lemma store_regs_view instr a s m : regs instr <> [] -> sees s m -> wf (cpu s) -> Aborted (cpu s) = 0 ->
  plain_words s a (length (regs instr)) ->
  exists s', store_regs instr a s = Some s' /\
    view (store_cycles instr) s (store_words (bigendSig (cpu s)) a (map (reg (cpu s)) (regs instr)) m) s'.
Proof.
  intros Hne Hm Hwf Hab Hp. unfold store_regs, store_cycles.
  destruct (regs instr) as [|t rest] eqn:Er; [done|].
  destruct (first_set_spec instr 32 0 t rest ltac:(lia) ltac:(lia) Er) as (-> & Ht & ->).
  cbn [mbind option_bind]. unfold reg_ok. destruct (Z.ltb_spec t 16); [|lia]. cbn [mbind option_bind].
  destruct Hp as [Hp1 Hp2].
  destruct (store_N a (reg (cpu s) t) s m Hm Hp1 (word_reg _ _ Hwf)) as (s1 & -> & Hv1).
  cbn [mbind option_bind]. pose proof Hv1 as (E1 & H1 & P1).
  assert (Hb1 : block_state (cpu s) (cpu s1)) by (rewrite E1; by apply block_state_N).
  destruct (late_store_quiet s1 _ Hb1) as [-> Hq]. cbn [mbind option_bind]. rewrite Hq.
  destruct (store_rest_view instr a (t + 1) s1 _ ltac:(lia) H1 (bs_wf _ _ Hb1) (bs_Aborted _ _ Hb1))
    as (s' & E' & Hv'); [by eapply plain_words_mono|].
  exists s'. split; [exact E'|]. cbn [length map store_words Nat.sub]. rewrite Nat.sub_0_r.
  assert (He : bigendSig (cpu s1) = bigendSig (cpu s)) by by rewrite E1.
  assert (Hr : map (reg (cpu s1)) (regs_from instr (t + 1)) = map (reg (cpu s)) (regs_from instr (t + 1)))
    by (rewrite E1; done).
  rewrite He, Hr in Hv'. destruct Hv' as (Ec & Hm' & P'). split; [by rewrite Ec, E1|]. split; [done|by auto].
Qed.

(** STM as a whole: the cycles, and the write of the base. *)
Definition stm_pc (c : ARMul_State) : ARMul_State := if negb (truth (TFlag c)) then BUSUSEDINCPCN c else c.
Definition wb_effect (instr wb : Z) (c : ARMul_State) : ARMul_State :=
  if writes_base instr then set_reg (LHSReg instr) wb c else c.

Lemma wf_stm_pc c : wf c -> wf (stm_pc c).
Proof. unfold stm_pc. destruct (truth _); [done|apply wf_BUSUSEDINCPCN]. Qed.
Lemma mem_inv_stm_pc : mem_inv stm_pc.
Proof. intros c. unfold stm_pc. destruct (truth _); [done|apply mem_inv_BUSUSEDINCPCN]. Qed.
Lemma reg_stm_pc c i : 0 <= i < 15 -> reg (stm_pc c) i = reg c i.
Proof. intros. unfold stm_pc. destruct (truth _); [done|by apply reg_BUSUSEDINCPCN]. Qed.
Lemma Aborted_stm_pc c : Aborted (stm_pc c) = Aborted c.
Proof. unfold stm_pc. destruct (truth _); [done|apply Aborted_BUSUSEDINCPCN]. Qed.
Lemma LHSReg_range instr : 0 <= LHSReg instr < 16.
Proof. exact (BITS_range instr 16 19 ltac:(lia) ltac:(lia)). Qed.
Lemma mem_inv_wb instr wb : mem_inv (wb_effect instr wb).
Proof. intros c. unfold wb_effect, set_reg, mem_config. destruct (writes_base _); by upds. Qed.
Lemma wf_wb instr wb c : wf c -> word wb -> wf (wb_effect instr wb c).
Proof. intros. unfold wb_effect. destruct (writes_base _); [by apply wf_set_reg|done]. Qed.
Lemma reg_wb instr wb c i : wf c -> 0 <= i < 15 ->
  reg (wb_effect instr wb c) i = if writes_base instr && (i =? LHSReg instr) then wb else reg c i.
Proof.
  intros Hwf Hi. pose proof (LHSReg_range instr). unfold wb_effect. destruct (writes_base instr); [|done].
  cbn [andb]. by rewrite reg_set_reg by (done || lia).
Qed.

(** The write of the base. *)
Definition wb_state (instr wb : Z) s : system M :=
  if writes_base instr then LSBase_set instr wb s else s.
Lemma wb_view instr wb s m : sees s m -> view (wb_effect instr wb) s m (wb_state instr wb s).
Proof.
  intros Hm. unfold wb_state, wb_effect, LSBase_set. destruct (writes_base instr).
  - by apply (view_upd (set_reg (LHSReg instr) wb)).
  - by split.
Qed.

Lemma StoreMult_view instr a wb s m : regs instr <> [] -> sees s m -> wf (cpu s) -> Aborted (cpu s) = 0 ->
  plain_words s a (length (regs instr)) ->
  exists s', StoreMult instr a wb s = Some s' /\
    view (fun c => wb_effect instr wb (store_cycles instr (stm_pc c))) s
      (store_words (bigendSig (cpu s)) a (map (reg (stm_pc (cpu s))) (regs instr)) m) s'.
Proof.
  intros Hne Hm Hwf Hab Hp. unfold StoreMult. set (s1 := if negb _ then _ else s).
  assert (Hv1 : view stm_pc s m s1).
  { unfold s1, stm_pc. destruct (truth (TFlag (cpu s))) eqn:Et; cbn [negb].
    - split; [by rewrite Et|done].
    - destruct (view_upd BUSUSEDINCPCN s m (mem_inv_BUSUSEDINCPCN _) Hm) as (E & H1 & H2).
      split; [by rewrite E, Et|done]. }
  destruct Hv1 as (E1 & H1 & P1).
  assert (Hwf1 : wf (cpu s1)) by (rewrite E1; by apply wf_stm_pc).
  assert (Hab1 : Aborted (cpu s1) = 0) by (by rewrite E1, Aborted_stm_pc).
  destruct (store_regs_view instr a s1 m Hne H1 Hwf1 Hab1) as (s2 & -> & Hv2); [by eapply plain_words_mono|].
  cbn [mbind option_bind]. destruct Hv2 as (E2 & H2 & P2).
  rewrite E1 in H2. rewrite (bigend_inv _ _ mem_inv_stm_pc) in H2.
  destruct (block_state_cycles instr (cpu s1) Hwf1 Hab1) as [B1 B2 B3 B4]. rewrite <- E2 in *.
  destruct (wb_view instr wb s2 _ H2) as (E3 & H3 & P3).
  assert (Hend : end_stores instr wb s2 = wb_state instr wb s2).
  { unfold end_stores, early_abort, abort_low, wb_state, aborted in *. rewrite B2, B3. cbn [truth negb andb].
    rewrite andb_true_r. destruct (writes_base instr); [|by rewrite B3].
    unfold LSBase_set. rewrite cpu_upd_cpu. change (Aborted (set_reg ?i ?v ?c)) with (Aborted c). by rewrite B3. }
  rewrite Hend. exists (wb_state instr wb s2). split; [done|]. split; [by rewrite E3, E2, E1|].
  split; [done|by auto].
Qed.

(** *** Loads *)

(** The registers loaded one after the other. *)
Definition set_loaded (l : list (Z * Z)) (c : ARMul_State) : ARMul_State :=
  fold_left (fun c '(i, v) => set_reg i v (S_access c)) l c.

Lemma put_loaded_quiet i v s c : block_state c (cpu s) -> i < 16 ->
  put_loaded i v s = Some (upd_cpu (set_reg i v) s).
Proof.
  intros [_ H1 H2 _] Hi. unfold put_loaded, abort_low, aborted. rewrite H1, H2. cbn [truth negb andb Z.eqb].
  unfold reg_ok. by destruct (Z.ltb_spec i 16); [|lia].
Qed.

Lemma block_state_set c c' i v : block_state c c' -> word v -> block_state c (set_reg i v c').
Proof. intros [H1 H2 H3 H4] Hv. split; [by apply wf_set_reg|done..]. Qed.

Lemma block_state_trans c1 c2 c3 : block_state c1 c2 -> block_state c2 c3 -> block_state c1 c3.
Proof. intros [? ? ? E1] [? ? ? E2]. split; [done..|]. by rewrite E2. Qed.

Lemma load_rest_view instr a lo s m : 0 <= lo -> sees s m -> wf (cpu s) -> Aborted (cpu s) = 0 ->
  plain_words s (add32 a 4) (length (regs_from instr lo)) ->
  exists s', load_rest instr a (seqZ lo (16 - lo)) s = Some s' /\
    view (set_loaded (zip (regs_from instr lo)
      (load_words (bigendSig (cpu s)) m (add32 a 4) (length (regs_from instr lo))))) s m s'.
Proof.
  intros Hlo. remember (Z.to_nat (16 - lo)) as n eqn:Hn. revert lo Hlo a s m Hn.
  induction n as [|n IH]; intros lo Hlo a s m Hn Hm Hwf Hab Hp.
  - assert (E : seqZ lo (16 - lo) = []) by by rewrite seqZ_nil by lia.
    unfold regs_from in *. rewrite E in *. exists s. by repeat split.
  - rewrite regs_from_cons in * by lia. rewrite seqZ_cons by lia. cbn [load_rest].
    replace (Z.pred (16 - lo)) with (16 - (lo + 1)) by lia. replace (Z.succ lo) with (lo + 1) by lia.
    destruct (truth (BIT instr lo)) eqn:Eb; [|by apply IH; try lia].
    destruct Hp as [Hp1 Hp2]. destruct (load_S (add32 a 4) s m Hm Hp1) as (s1 & -> & Hv1).
    cbn [mbind option_bind]. pose proof Hv1 as (E1 & H1 & P1).
    set (v := flat_read (bigendSig (cpu s)) Word m (add32 a 4)).
    assert (Hw : word v) by (apply flat_read_word; intros; by apply (view_bytes s)).
    assert (Hb1 : block_state (cpu s) (cpu s1)) by (rewrite E1; by apply block_state_S).
    rewrite (put_loaded_quiet lo v s1 _ Hb1) by lia. cbn [mbind option_bind].
    destruct (view_upd (set_reg lo v) s1 m eq_refl H1) as (E2 & H2 & P2).
    set (s2 := upd_cpu (set_reg lo v) s1) in *.
    assert (Hb2 : block_state (cpu s) (cpu s2)) by (rewrite E2; by apply block_state_set).
    destruct (late_store_quiet s2 _ Hb2) as [_ ->].
    destruct (IH (lo + 1) ltac:(lia) (add32 a 4) s2 _ ltac:(lia) H2 (bs_wf _ _ Hb2) (bs_Aborted _ _ Hb2))
      as (s' & E' & Hv'); [by eapply plain_words_mono; [|exact Hp2]; auto|].
    exists s'. split; [exact E'|]. cbn [length load_words zip zip_with]. fold v.
    assert (He : bigendSig (cpu s2) = bigendSig (cpu s)) by by rewrite E2, E1.
    rewrite He in Hv'. destruct Hv' as (Ec & Hm' & P'). split; [|split; [done|by auto]].
    rewrite Ec, E2, E1. done.
Qed.

Definition ldm_regs (l : list (Z * Z)) (c : ARMul_State) : ARMul_State :=
  match l with
  | [] => c
  | (i, v) :: l => set_loaded l (set_reg i v (N_access c))
  end.

Lemma set_loaded_spec l c c' : block_state c c' ->
  (forall i v, (i, v) ∈ l -> 0 <= i < 16 /\ word v) ->
  block_state c (set_loaded l c') /\
  (forall j, 0 <= j < 16 -> (forall v, (j, v) ∉ l) -> reg (set_loaded l c') j = reg c' j) /\
  (NoDup l.*1 -> forall j v, (j, v) ∈ l -> reg (set_loaded l c') j = v).
Proof.
  revert c'. induction l as [|[i v] l IH]; intros c' Hb Hl.
  { split; [done|]. split; [done|]. intros _ j v H. by apply not_elem_of_nil in H. }
  destruct (Hl i v (list_elem_of_here _ _)) as [Hi Hv].
  assert (Hb' : block_state c (set_reg i v (S_access c'))).
  { apply block_state_set; [|done]. apply (block_state_trans c c'); [done|]. apply block_state_S; apply Hb. }
  assert (Hr : forall j, 0 <= j < 16 -> reg (set_reg i v (S_access c')) j = if j =? i then v else reg c' j).
  { intros j Hj. rewrite reg_set_reg by (done || apply wf_S_access, Hb). done. }
  destruct (IH (set_reg i v (S_access c')) Hb') as (H1 & H2 & H3);
    [intros; by apply Hl, list_elem_of_further|].
  cbn [set_loaded fold_left]. split; [exact H1|]. split.
  - intros j Hj Hn. etransitivity; [apply (H2 j Hj)|].
    + intros v' Hin. by apply (Hn v'), list_elem_of_further.
    + rewrite Hr by done. destruct (Z.eqb_spec j i) as [->|]; [|done].
      destruct (Hn v). apply list_elem_of_here.
  - intros Hnd j w Hin. cbn [fmap list_fmap] in Hnd. apply list.NoDup_cons in Hnd as [Hni Hnd].
    apply elem_of_cons in Hin as [[= -> ->]|Hin].
    + etransitivity; [apply (H2 i Hi)|].
      * intros v' Hin'. apply Hni. apply list_elem_of_fmap. by exists (i, v').
      * rewrite Hr by done. by rewrite Z.eqb_refl.
    + by apply H3.
Qed.

Lemma load_regs_view instr a s m : regs instr <> [] -> sees s m -> wf (cpu s) -> Aborted (cpu s) = 0 ->
  plain_words s a (length (regs instr)) ->
  exists s', load_regs instr a s = Some s' /\
    view (ldm_regs (zip (regs instr) (load_words (bigendSig (cpu s)) m a (length (regs instr))))) s m s'.
Proof.
  intros Hne Hm Hwf Hab Hp. unfold load_regs. destruct (regs instr) as [|t rest] eqn:Er; [done|].
  destruct (first_set_spec instr 32 0 t rest ltac:(lia) ltac:(lia) Er) as (-> & Ht & ->).
  cbn [mbind option_bind]. destruct Hp as [Hp1 Hp2].
  destruct (load_N a s m Hm Hp1) as (s1 & -> & Hv1). cbn [mbind option_bind]. pose proof Hv1 as (E1 & H1 & P1).
  set (v := flat_read (bigendSig (cpu s)) Word m a).
  assert (Hw : word v) by (apply flat_read_word; intros; by apply (view_bytes s)).
  assert (Hb1 : block_state (cpu s) (cpu s1)) by (rewrite E1; by apply block_state_N).
  rewrite (put_loaded_quiet t v s1 _ Hb1) by lia. cbn [mbind option_bind].
  destruct (view_upd (set_reg t v) s1 m eq_refl H1) as (E2 & H2 & P2).
  set (s2 := upd_cpu (set_reg t v) s1) in *.
  assert (Hb2 : block_state (cpu s) (cpu s2)) by (rewrite E2; by apply block_state_set).
  destruct (late_store_quiet s2 _ Hb2) as [_ ->].
  destruct (load_rest_view instr a (t + 1) s2 _ ltac:(lia) H2 (bs_wf _ _ Hb2) (bs_Aborted _ _ Hb2))
    as (s' & E' & Hv'); [by eapply plain_words_mono; [|exact Hp2]; auto|].
  exists s'. split; [exact E'|]. cbn [length load_words zip zip_with ldm_regs]. fold v.
  assert (He : bigendSig (cpu s2) = bigendSig (cpu s)) by by rewrite E2, E1.
  rewrite He in Hv'. destruct Hv' as (Ec & Hm' & P'). split; [|split; [done|by auto]].
  rewrite Ec, E2, E1. done.
Qed.

(** What LDM loads: the pairs of registers and values. *)
Definition ldm_values (instr a : Z) (e : Z) (m : Z -> Z) : list (Z * Z) :=
  zip (regs instr) (load_words e m a (length (regs instr))).

Lemma length_load_words e m a n : length (load_words e m a n) = n.
Proof. revert a. induction n as [|n IH]; intros a; simpl; [done|]. by rewrite IH. Qed.

Lemma ldm_values_ok instr a e m : (forall b, 0 <= m b < 256) ->
  (forall i v, (i, v) ∈ ldm_values instr a e m -> 0 <= i < 16 /\ word v) /\
  (ldm_values instr a e m).*1 = regs instr.
Proof.
  intros Hm. split.
  - intros i v Hin. split.
    + apply (regs_from_range instr 0); [lia|]. by eapply elem_of_zip_l.
    + apply elem_of_zip_r in Hin. revert a Hin. induction (length (regs instr)) as [|n IH]; intros a Hin.
      * by apply not_elem_of_nil in Hin.
      * apply elem_of_cons in Hin as [->|Hin]; [by apply flat_read_word|by apply (IH (add32 a 4))].
  - apply fst_zip. by rewrite length_load_words.
Qed.

(** The branch of an LDM with the PC in its list. *)
Definition ldm_branch (instr : Z) (c : ARMul_State) : ARMul_State :=
  if truth (BIT instr 15) then WriteR15Branch (reg c 15 &&& PCBITS_MODE32) c else c.

Lemma ldm_branch_facts instr c : length (Reg c) = 16%nat ->
  length (Reg (ldm_branch instr c)) = 16%nat /\ Aborted (ldm_branch instr c) = Aborted c /\
  mem_config (ldm_branch instr c) = mem_config c /\
  forall i, 0 <= i < 15 -> reg (ldm_branch instr c) i = reg c i.
Proof.
  intros Hl. unfold ldm_branch. destruct (truth (BIT instr 15)); [|done].
  unfold WriteR15Branch, FLUSHPIPE, set_reg, mem_config, reg.
  destruct (truth (_ &&& 1)); upds; rewrite length_wr;
    (split; [done|]; split; [done|]; split; [done|]; intros i Hi; apply rd_wr_ne; lia).
Qed.

Lemma reg_wb_len instr wb c i : length (Reg c) = 16%nat -> 0 <= i < 15 ->
  reg (wb_effect instr wb c) i = if writes_base instr && (i =? LHSReg instr) then wb else reg c i.
Proof.
  intros Hl Hi. pose proof (LHSReg_range instr). unfold wb_effect. destruct (writes_base instr); [|done].
  cbn [andb]. unfold reg, set_reg. upds. destruct (Z.eqb_spec i (LHSReg instr)) as [->|].
  - apply rd_wr_eq. rewrite Hl. lia.
  - apply rd_wr_ne; lia.
Qed.

Lemma ldm_regs_spec instr a e m c : regs instr <> [] -> wf c -> Aborted c = 0 -> (forall b, 0 <= m b < 256) ->
  let c' := ldm_regs (ldm_values instr a e m) c in
  block_state c c' /\
  (forall j, 0 <= j < 16 -> j ∉ regs instr -> reg c' j = reg c j) /\
  (forall j v, (j, v) ∈ ldm_values instr a e m -> reg c' j = v).
Proof.
  intros Hne Hwf Hab Hm c'. destruct (ldm_values_ok instr a e m Hm) as [Hok Hfst].
  assert (Hnd : NoDup (ldm_values instr a e m).*1) by (rewrite Hfst; apply NoDup_regs).
  unfold c'. destruct (ldm_values instr a e m) as [|[i v] l]; [by rewrite <- Hfst in Hne|].
  destruct (Hok i v (list_elem_of_here _ _)) as [Hi Hv]. cbn [ldm_regs].
  assert (Hb : block_state c (set_reg i v (N_access c))) by (apply block_state_set; [by apply block_state_N|done]).
  assert (Hr : forall j, 0 <= j < 16 -> reg (set_reg i v (N_access c)) j = if j =? i then v else reg c j).
  { intros j Hj. rewrite reg_set_reg by (done || by apply wf_N_access). done. }
  destruct (set_loaded_spec l c _ Hb) as (H1 & H2 & H3); [intros; by apply Hok, list_elem_of_further|].
  cbn [fmap list_fmap] in Hnd, Hfst. apply list.NoDup_cons in Hnd as [Hni Hnd].
  assert (Hnin : forall j, j ∉ l.*1 -> forall w, (j, w) ∉ l).
  { intros j Hj w Hin. apply Hj. apply list_elem_of_fmap. by exists (j, w). }
  split; [done|]. rewrite <- Hfst. split.
  - intros j Hj Hn. rewrite H2, Hr by (done || apply Hnin; intros ?; by apply Hn, list_elem_of_further).
    destruct (Z.eqb_spec j i) as [->|]; [|done]. destruct Hn. apply list_elem_of_here.
  - intros j w Hin. apply elem_of_cons in Hin as [[= -> ->]|Hin]; [|by apply H3].
    rewrite H2, Hr by (done || by apply Hnin). by rewrite Z.eqb_refl.
Qed.

Definition branch_state (instr : Z) s : system M :=
  if truth (BIT instr 15) then upd_cpu (fun c => WriteR15Branch (reg c 15 &&& PCBITS_MODE32) c) s else s.
Lemma branch_view instr s m : mem_config (ldm_branch instr (cpu s)) = mem_config (cpu s) -> sees s m ->
  view (ldm_branch instr) s m (branch_state instr s).
Proof.
  unfold branch_state, ldm_branch. intros Hc Hm. destruct (truth (BIT instr 15)); [|by split].
  by apply (view_upd (fun c => WriteR15Branch (reg c 15 &&& PCBITS_MODE32) c)).
Qed.

Lemma LoadMult_view instr a wb s m : regs instr <> [] -> sees s m -> wf (cpu s) -> Aborted (cpu s) = 0 ->
  plain_words s a (length (regs instr)) ->
  exists s', LoadMult instr a wb s = Some s' /\
    view (fun c => wb_effect instr wb (ARMul_Icycles 1 (ldm_branch instr
      (ldm_regs (ldm_values instr a (bigendSig (cpu s)) m) (BUSUSEDINCPCS c))))) s m s'.
Proof.
  intros Hne Hm Hwf Hab Hp. unfold LoadMult.
  destruct (view_upd BUSUSEDINCPCS s m (mem_inv_BUSUSEDINCPCS _) Hm) as (E1 & H1 & P1).
  set (s1 := upd_cpu BUSUSEDINCPCS s) in *.
  assert (Hwf1 : wf (cpu s1)) by (rewrite E1; by apply wf_BUSUSEDINCPCS).
  assert (Hab1 : Aborted (cpu s1) = 0) by (by rewrite E1, Aborted_BUSUSEDINCPCS).
  destruct (load_regs_view instr a s1 m Hne H1 Hwf1 Hab1) as (s2 & -> & E2 & H2 & P2);
    [by eapply plain_words_mono|].
  cbn [mbind option_bind]. rewrite E1 in E2. rewrite (bigend_inv _ _ mem_inv_BUSUSEDINCPCS) in E2.
  fold (ldm_values instr a (bigendSig (cpu s)) m) in E2.
  destruct (ldm_regs_spec instr a (bigendSig (cpu s)) m (BUSUSEDINCPCS (cpu s)) Hne) as ([B1 B2 B3 B4] & _ & _);
    [by rewrite <- E1|by rewrite <- E1|intros; by apply (view_bytes s)|].
  rewrite <- E2 in B1, B2, B3, B4. assert (Ha2 : aborted s2 = false) by (unfold aborted; by rewrite B3).
  rewrite Ha2. cbn [negb andb]. fold (branch_state instr s2).
  destruct (ldm_branch_facts instr (cpu s2) (wf_Reg_len _ B1)) as (_ & A & C & _).
  destruct (branch_view instr s2 m C H2) as (E3 & H3 & P3).
  destruct (view_upd (ARMul_Icycles 1) (branch_state instr s2) m eq_refl H3) as (E4 & H4 & P4).
  set (s4 := upd_cpu (ARMul_Icycles 1) (branch_state instr s2)) in *.
  assert (Ha4 : aborted s4 = false).
  { unfold aborted. rewrite E4. change (Aborted (ARMul_Icycles 1 ?c)) with (Aborted c). by rewrite E3, A, B3. }
  rewrite Ha4. fold (wb_state instr wb s4). destruct (wb_view instr wb s4 m H4) as (E5 & H5 & P5).
  exists (wb_state instr wb s4). split; [done|]. split; [by rewrite E5, E4, E3, E2|]. split; [done|by auto 10].
Qed.

(** The registers after LDM. *)
Lemma LoadMult_regs instr a wb s m : regs instr <> [] -> sees s m -> wf (cpu s) -> Aborted (cpu s) = 0 ->
  plain_words s a (length (regs instr)) ->
  exists s', LoadMult instr a wb s = Some s' /\ sees s' m /\
    (forall i, 0 <= i < 15 -> writes_base instr && (i =? LHSReg instr) = true -> reg (cpu s') i = wb) /\
    (forall i v, (i, v) ∈ ldm_values instr a (bigendSig (cpu s)) m -> i < 15 ->
       writes_base instr && (i =? LHSReg instr) = false -> reg (cpu s') i = v) /\
    (forall i, 0 <= i < 15 -> i ∉ regs instr -> writes_base instr && (i =? LHSReg instr) = false ->
       reg (cpu s') i = reg (cpu s) i).
Proof.
  intros Hne Hm Hwf Hab Hp.
  destruct (LoadMult_view instr a wb s m Hne Hm Hwf Hab Hp) as (s' & E & Ec & Hm' & _).
  exists s'. split; [done|]. split; [done|].
  destruct (ldm_regs_spec instr a (bigendSig (cpu s)) m (BUSUSEDINCPCS (cpu s)) Hne) as (Hb & Hout & Hin);
    [by apply wf_BUSUSEDINCPCS|by rewrite Aborted_BUSUSEDINCPCS|intros; by apply (view_bytes s)|].
  destruct (ldm_branch_facts instr _ (wf_Reg_len _ (bs_wf _ _ Hb))) as (Hl & _ & _ & Hbr).
  assert (Hreg : forall i, 0 <= i < 15 -> reg (cpu s') i =
    if writes_base instr && (i =? LHSReg instr) then wb
    else reg (ldm_regs (ldm_values instr a (bigendSig (cpu s)) m) (BUSUSEDINCPCS (cpu s))) i).
  { intros i Hi. rewrite Ec, reg_wb_len by (done || exact Hl). by rewrite reg_Icycles, Hbr. }
  split; [|split].
  - intros i Hi Hw. by rewrite Hreg, Hw.
  - intros i v Hiv Hi Hw. assert (0 <= i < 16) by (apply (regs_from_range instr 0); [lia|by eapply elem_of_zip_l]).
    rewrite Hreg, Hw by lia. by apply Hin.
  - intros i Hi Hn Hw. rewrite Hreg, Hw, Hout by (done || lia). by apply reg_BUSUSEDINCPCS.
Qed.

Lemma elem_of_zip_map {A B} (f : A -> B) l x : x ∈ l -> (x, f x) ∈ zip l (map f l).
Proof.
  induction l as [|y l IH]; intros Hx; [by apply not_elem_of_nil in Hx|]. simpl.
  apply elem_of_cons in Hx as [->|Hx]; [apply list_elem_of_here|by apply list_elem_of_further, IH].
Qed.

Lemma length_regs instr : (length (regs instr) <= 16)%nat.
Proof. unfold regs, regs_from. etransitivity; [apply length_filter|]. by rewrite length_seqZ. Qed.

(** C7: LDM undoes STM: when the registers of a list (without the PC) were
    stored at an address, then, whatever happens to the registers in between,
    loading the same list from that address restores every one of them, the
    base register excepted when the load writes it back; the others keep
    their values.  The loops end, and touch only the words of the list. *)
Theorem block_round_trip st ld a wb wb' s m g :
  regs st <> [] -> regs ld = regs st -> 15 ∉ regs st ->
  sees s m -> wf (cpu s) -> Aborted (cpu s) = 0 -> word a -> word wb ->
  plain_words s a (length (regs st)) ->
  (forall c, wf c -> Aborted c = 0 -> mem_config (g c) = mem_config c /\ wf (g c) /\ Aborted (g c) = 0) ->
  exists s1 s2, StoreMult st a wb s = Some s1 /\ LoadMult ld a wb' (upd_cpu g s1) = Some s2 /\
    sees s2 (store_words (bigendSig (cpu s)) a (map (reg (cpu s)) (regs st)) m) /\
    (forall i, i ∈ regs st -> writes_base ld && (i =? LHSReg ld) = false -> reg (cpu s2) i = reg (cpu s) i) /\
    (forall i, 0 <= i < 15 -> i ∉ regs st -> writes_base ld && (i =? LHSReg ld) = false ->
       reg (cpu s2) i = reg (g (cpu s1)) i).
Proof.
  intros Hne Hld H15 Hm Hwf Hab Ha Hwb Hp Hg.
  destruct (StoreMult_view st a wb s m Hne Hm Hwf Hab Hp) as (s1 & Es1 & E1 & H1 & P1).
  assert (Hvals : map (reg (stm_pc (cpu s))) (regs st) = map (reg (cpu s)) (regs st)).
  { apply map_ext_in. intros i Hi%list_elem_of_In. pose proof (regs_from_range st 0 i ltac:(lia) Hi).
    apply reg_stm_pc. assert (i <> 15) by congruence. lia. }
  rewrite Hvals in H1. set (m1 := store_words _ a _ m) in H1.
  assert (Hwf0 : wf (stm_pc (cpu s))) by by apply wf_stm_pc.
  assert (Hab0 : Aborted (stm_pc (cpu s)) = 0) by by rewrite Aborted_stm_pc.
  pose proof (block_state_cycles st (stm_pc (cpu s)) Hwf0 Hab0) as [B1 B2 B3 B4].
  assert (Hwf1 : wf (cpu s1)) by (rewrite E1; by apply wf_wb).
  assert (Hab1 : Aborted (cpu s1) = 0).
  { rewrite E1. unfold wb_effect, set_reg. destruct (writes_base st); by upds. }
  assert (Hcfg1 : mem_config (cpu s1) = mem_config (cpu s)).
  { by rewrite E1, mem_inv_wb, B4, mem_inv_stm_pc. }
  destruct (Hg (cpu s1) Hwf1 Hab1) as (G1 & G2 & G3).
  destruct (view_upd g s1 m1 G1 H1) as (E2 & H2 & P2). rewrite <- E2 in G2, G3.
  assert (He : bigendSig (cpu (upd_cpu g s1)) = bigendSig (cpu s)).
  { rewrite E2. unfold mem_config in *. congruence. }
  destruct (LoadMult_regs ld a wb' (upd_cpu g s1) m1) as (s2 & Es2 & H3 & _ & Hin & Hout);
    rewrite ?Hld; try done; [eapply plain_words_mono; [|exact Hp]; auto|].
  exists s1, s2. split; [done|]. split; [done|]. split; [done|]. split.
  - intros i Hi Hw. pose proof (regs_from_range st 0 i ltac:(lia) Hi).
    assert (i <> 15) by congruence. apply Hin; [|lia|done]. unfold ldm_values. rewrite Hld, He.
    rewrite <- (length_map (reg (cpu s)) (regs st)). unfold m1.
    rewrite load_words_store_words; [by apply elem_of_zip_map|by apply (view_endian s m)|done| |].
    + apply list.Forall_forall. intros x Hx%list_elem_of_In%in_map_iff. destruct Hx as (j & <- & _). by apply word_reg.
    + rewrite length_map. pose proof (length_regs st). lia.
  - intros i Hi Hn Hw. rewrite <- E2. apply Hout; [done|by rewrite Hld|done].
Qed.
End Loops.
