(* ===== verification/SysWitness.v ===== *)
(** * Concrete runs of the memory system

    The theorems on memory, the MMU and the transfers at a concrete board: the
    LPC2300 with 32 KB of RAM whose first half is a first-level table of
    sections, and a ROM of 16 bytes. *)

From S2P Require Import Prelude Words Bits ArmState ArmBanks ArmInit UartDev Machine LpcState LpcIo LpcWitness LpcBoard ArmSys ArmMem MemSpec Tlb TlbSpec Cache Arm7100 MmuSpec ArmVirt ArmLdSt ArmBlock LdStSpec FaultSpec BlockSpec.

(** ** Memory *)

Definition no_bank : mem_bank_t := mkBank 0 0 (fun _ => None) (fun _ => None).
Definition banks0 : list mem_bank_t := [map_M 0 0x8000; type_R (map_M 0x10000 0x10); no_bank].
Definition section0 : Z := 0xC02.
Definition words_of (d : Z) : list Z := replicate 4096 d ++ replicate 4096 0.
Definition rom0 : list Z := [0x11223344; 0; 0; 0x55667788].
Definition ram_of (d : Z) : mem_state_t := mkMem banks0 [words_of d; rom0] None.
Definition ram0 : mem_state_t := ram_of section0.
Definition bytes_of (d a : Z) : Z := default 0 (byte_at 0 (ram_of d) a).
Definition bytes0 : Z -> Z := bytes_of section0.

Lemma at_bank0 addr i b : word addr -> at_bank banks0 addr i b ->
  (i = 0%nat /\ b = map_M 0 0x8000 /\ 0 <= addr < 0x8000) \/
  (i = 1%nat /\ b = type_R (map_M 0x10000 0x10) /\ 0x10000 <= addr < 0x10010).
Proof.
  intros Ha [Hi Hin]. destruct i as [|[|[|i]]]; try discriminate Hi; injection Hi as <-.
  - left. by apply in_bank_range in Hin.
  - right. by apply in_bank_range in Hin.
  - by rewrite in_bank_free in Hin.
Qed.

Lemma banks0_wf : banks_wf banks0.
Proof.
  split.
  - exists [map_M 0 0x8000; type_R (map_M 0x10000 0x10)], [no_bank]. split; [done|].
    split; [repeat constructor; simpl; lia|]. split; [done|]. by repeat constructor.
  - intros addr i j b c Ha Hi Hj. apply at_bank0 in Hi, Hj; [lia|done..].
Qed.

Lemma ram_of_wf d : word d -> mem_wf (ram_of d).
Proof.
  intros Hd. split; [apply banks0_wf|]. intros i b Hi Hu. destruct i as [|[|[|i]]]; try discriminate Hi; injection Hi as <-.
  - exists (words_of d). split; [done|]. split; [unfold words_of; by rewrite length_app, !length_replicate|]. unfold words_of.
    apply Forall_app. split; by apply Forall_replicate.
  - exists rom0. split; [done|]. split; [done|]. by repeat constructor.
  - by destruct Hu as [w [Hu|Hu]].
Qed.
Lemma section0_word : word section0.
Proof. unfold section0, word. lia. Qed.
Lemma ram0_wf : mem_wf ram0.
Proof. apply ram_of_wf, section0_word. Qed.

Lemma implements_of d : word d -> implements 0 (ram_of d) (bytes_of d).
Proof.
  intros Hd. pose proof (ram_of_wf d Hd) as Hwf. split; [done|]. intros a Ha (i & b & Hi & Hb). unfold bytes_of.
  rewrite (byte_at_eq 0 (ram_of d) a i b Hwf Ha Hi).
  destruct (rom_word_defined (ram_of d) a i b Hwf Ha Hi) as (x & -> & _); [|done].
  exists Word. left. apply Hb.
Qed.
Lemma implements0 : implements 0 ram0 bytes0.
Proof. apply implements_of, section0_word. Qed.

Lemma bytes_of_range d a : 0 <= bytes_of d a < 256.
Proof.
  unfold bytes_of, byte_at. destruct (list_find _ _) as [[i b]|]; cbn [mbind option_bind]; [|done].
  destruct (rom_word _ _ _); cbn [fmap option_fmap option_map default id]; [|done].
  unfold lane_get. rewrite (Z.land_ones _ 8) by done. by apply Z.mod_pos_bound.
Qed.

Lemma ram_plain a : 0 <= a < 0x8000 -> at_bank banks0 a 0 (map_M 0 0x8000).
Proof. intros Ha. split; [done|]. apply in_bank_range; [done|unfold word; lia|simpl; lia]. Qed.
Lemma rom_plain a : 0x10000 <= a < 0x10010 -> at_bank banks0 a 1 (type_R (map_M 0x10000 0x10)).
Proof. intros Ha. split; [done|]. apply in_bank_range; [done|unfold word; lia|simpl; lia]. Qed.

(** The system with a value of the control register and of the domains. *)
Definition sys_of (d control dacr : Z) : system (machine lines) :=
  mkSystem (machine0 <| core := zero_state <| mmu_control := control |> |>) (ram_of d) 0 dacr 0 0 true false
    (mmu_tlb_init 8 (fun _ => mkEntry 0 0 0 0 TLB_TINYPAGE)) (mkCache 4 1 0 CACHE_WRITE_THROUGH []) DIVISOR
    (mkEvents 0 0 (replicate 1024 [])) (mkVal (replicate 16 0) 0 0 0 0).
Definition sys0 : Z -> Z -> system (machine lines) := sys_of section0.

Lemma bank_ptr_history_independent_witness :
  banks_wf banks0 /\ exists k k',
    bank_ptr 0x10008 ram0 = Some (Some 1%nat, ram0 <| mbp := k |>) /\
    bank_ptr 0x10008 (ram0 <| mbp := Some 0%nat |>) = Some (Some 1%nat, ram0 <| mbp := k' |>).
Proof.
  split; [apply banks0_wf|].
  destruct (bank_ptr_history_independent ram0 (Some 0%nat) 0x10008 banks0_wf) as (o & k & k' & E & E' & H);
    [unfold word; lia|].
  assert (o = Some 1%nat) as ->.
  { apply H. eexists. apply rom_plain. lia. }
  by exists k, k'.
Defined.

(** A byte written into a word of RAM, a write to ROM, and reads of both. *)
Lemma memory_is_flat_witness :
  exists s', run_accesses [acc_write Byte 0x4001 0x77; acc_write Word 0x10000 5; acc_read Word 0x4000;
      acc_read Half 0x10002] (sys0 0 0) = Some ([0x7700; 0x1122], s').
Proof.
  set (l := [acc_write Byte 0x4001 0x77; acc_write Word 0x10000 5; acc_read Word 0x4000; acc_read Half 0x10002]).
  destruct (memory_is_flat l 0 (sys0 0 0) bytes0) as (s' & E & _ & _); [reflexivity|by left|apply implements0| |].
  - unfold l. rewrite !list.Forall_cons. unfold acc_ok. repeat apply conj; [..|by apply list.Forall_nil_2]; try (unfold word; lia); try done; do 2 eexists.
    + split; [apply ram_plain; lia|]. split; [done|]. by left.
    + split; [apply rom_plain; lia|]. split; [done|]. by right.
    + split; [apply ram_plain; lia|done].
    + split; [apply rom_plain; lia|done].
  - assert (Ev : (flat_run 0 (mem_banks (ram (sys0 0 0))) l bytes0).1 = [0x7700; 0x1122]) by (vm_compute; reflexivity).
    rewrite Ev in E. by exists s'.
Defined.

(** ** The MMU

    Every virtual section is the physical section 0, in domain 0, with all
    accesses allowed to a client. *)

Definition entry0 (va : Z) : tlb_entry_t := ref_entry va section0 0xC00 section0 TLB_SECTION.

Lemma table_word_of d control dacr va : word d -> word va -> table_ok (sys_of d control dacr) (ref_l1 0 va) /\
  flat_read 0 Word (bytes_of d) (ref_l1 0 va) = d.
Proof.
  intros Hd Hv. assert (Ha : 0 <= ref_l1 0 va < 0x4000) by (unfold ref_l1, word in *; dlia).
  assert (Hi : at_bank banks0 (ref_l1 0 va) 0 (map_M 0 0x8000)) by (apply ram_plain; lia).
  assert (Hw : word (ref_l1 0 va)) by (unfold word; lia). split.
  - split; [done|]. split; [done|]. by exists 0%nat, (map_M 0 0x8000).
  - destruct (implements_word 0 (ram_of d) (bytes_of d) (ref_l1 0 va) _ _ ltac:(by left) (implements_of d Hd) Hw Hi) as (x & Ex & Hx & Hy); [done|].
    rewrite <- (lane_get_flat 0 Word _ x (bytes_of d) ltac:(by left) Hx Hy). cbn [lane_get].
    unfold rom_word in Ex. cbn [ram_of mem_banks banks0 rom lookup list_lookup mbind option_bind] in Ex.
    destruct (rom_index_eq (map_M 0 0x8000) (ref_l1 0 va)) as [E _]; [repeat constructor; simpl; lia|apply Hi|done|].
    rewrite E in Ex. unfold words_of in Ex. rewrite lookup_app_l in Ex.
    + apply lookup_replicate in Ex. apply Ex.
    + rewrite length_replicate. simpl. clear - Ha. dlia.
Qed.
Lemma table_word control dacr va : word va -> table_ok (sys0 control dacr) (ref_l1 0 va) /\
  flat_read 0 Word bytes0 (ref_l1 0 va) = section0.
Proof. apply table_word_of, section0_word. Qed.

Lemma sys_walk0 control dacr va : word va -> sys_walk (sys0 control dacr) bytes0 va = inr (entry0 va).
Proof.
  intros Hv. unfold sys_walk, ref_walk. change (translation_table_base _) with 0. change (bigendSig _) with 0.
  rewrite (proj2 (table_word control dacr va Hv)). reflexivity.
Qed.

Lemma tables0_ok control dacr va : word va -> tables_ok (sys0 control dacr) bytes0 va.
Proof.
  intros Hv. destruct (table_word control dacr va Hv) as [Ht E]. unfold tables_ok.
  change (translation_table_base _) with 0. change (bigendSig _) with 0. rewrite E.
  split; [done|]. split; [unfold section0, word; lia|]. split; intros H; by discriminate H.
Qed.

Lemma consistent0 control dacr : pages_consistent (sys_walk (sys0 control dacr) bytes0).
Proof.
  intros va va' e Hv Hv'. rewrite !sys_walk0 by done. intros [= <-] Hp. f_equal.
  unfold entry0, ref_entry in *. cbn [te_mapping te_virt_addr] in Hp. by rewrite Hp.
Qed.

Lemma tlb0_ok w control dacr : tlb_ok w (a71_tlb (sys0 control dacr)).
Proof.
  apply tlb_ok_invalid.
  - split; [done|]. by split.
  - intros e He. by apply list_elem_of_In, in_map_iff in He as (i & <- & _).
Qed.

Lemma translate_is_walk_witness :
  exists t' s', translate 0x12345678 (a71_tlb (sys0 0x71 1)) (sys0 0x71 1) =
    Some (inr (mkEntry 0x12300000 0 0xC00 0 TLB_SECTION), t', s').
Proof.
  destruct (translate_is_walk 0x12345678 (a71_tlb (sys0 0x71 1)) (sys0 0x71 1) bytes0) as (t' & s' & E & _);
    [by left|apply implements0|unfold word; lia|unfold word; simpl; lia|apply tables0_ok; unfold word; lia
    |apply consistent0|apply tlb0_ok|].
  exists t', s'. rewrite E, sys_walk0 by (unfold word; lia). reflexivity.
Defined.

(** The descriptor of one section is cleared, and the buffer invalidated. *)
Definition rd0 (_ : Z) : Z := section0.
Definition rd1 (a : Z) : Z := if a =? 0x48c then 0 else section0.
Definition tlb1 : tlb_t := mkTlb 2 1 [entry0 0x12300000; mkEntry 0 0 0 0 TLB_INVALID].

Lemma tlb1_ok : tlb_ok (ref_walk rd0 false 0) tlb1.
Proof.
  assert (Hone : forall e, e ∈ entrys tlb1 -> te_mapping e <> TLB_INVALID -> e = entry0 0x12300000).
  { intros e [->|[->|H%not_elem_of_nil]%elem_of_cons]%elem_of_cons; done. }
  split; [done| |..].
  - apply list.Forall_forall. intros e He Hm. rewrite (Hone e He Hm). split; [by vm_compute|done].
  - intros e va He Hm Hv. rewrite (Hone e He Hm). intros Hp. cbn [entry0 ref_entry te_mapping te_virt_addr] in Hp.
    change (inr (entry0 va) = inr (entry0 0x12300000) :> (fault_t * option Z) + tlb_entry_t).
    unfold entry0, ref_entry. by rewrite Hp.
  - intros va i j e f _ (Hi & Hm & _) (Hj & Hm' & _).
    destruct i as [|[|i]], j as [|[|j]]; try done; simpl in Hi, Hj; exfalso;
      first [injection Hi as <-; by apply Hm|injection Hj as <-; by apply Hm'].
Qed.

Lemma invalidation_keeps_coherent_witness :
  tlb_ok (ref_walk rd1 false 0) (mmu_tlb_invalidate_entry tlb1 0x12345678) /\
  mmu_tlb_search (mmu_tlb_invalidate_entry tlb1 0x12345678) 0x12345678 = None.
Proof.
  destruct (invalidation_keeps_coherent rd0 rd1 false 0 0 tlb1 0x12345678) as [_ H].
  - apply tlb1_ok.
  - intros va va' e _ _ [= <-] Hp. cbn [ref_entry te_mapping te_virt_addr] in Hp.
    change (inr (entry0 va') = inr (entry0 va) :> (fault_t * option Z) + tlb_entry_t).
    unfold entry0, ref_entry. by rewrite Hp.
  - unfold word. lia.
  - intros x Hx. unfold ref_walk, rd1. destruct (Z.eqb_spec (ref_l1 0 x) 0x48c) as [E|]; [right|by left].
    eexists. split; [reflexivity|]. change (x / 1048576 * 1048576 = 0x12300000). unfold ref_l1 in E.
    change (0 / 16384 * 16384) with 0 in E. replace (x / 1048576) with 0x123 by lia. done.
  - split; [exact H|]. vm_compute. reflexivity.
Defined.

Lemma vm_ok0 control dacr : vm_ok (sys0 control dacr) bytes0.
Proof.
  split; [by left|apply implements0|apply (bytes_of_range section0)|unfold word; simpl; lia|
    apply tables0_ok|apply consistent0|apply tlb0_ok].
Qed.

Lemma virtual0 read : virtual (sys0 0x71 1) bytes0 Word read 0x12304000 = inr 0x4000.
Proof. unfold virtual. rewrite sys_walk0 by (unfold word; lia). by destruct read. Qed.

Lemma arch0 read : arch_access (sys0 0x71 1) bytes0 Word read 0x12304000 = inr 0x4000.
Proof. rewrite <- virtual_architecture. apply virtual0. Qed.

Lemma virtual_memory_witness :
  exists s', a71_mmu_write Word 0x12304000 0xCAFE (sys0 0x71 1) = Some (NO_FAULT, s') /\
    implements 0 (ram s') (flat_write 0 Word 0x4000 0xCAFE bytes0).
Proof.
  destruct (virtual_memory Word 0x12304000 0xCAFE (sys0 0x71 1) bytes0) as [_ (s' & E & _ & _ & H)];
    [apply vm_ok0|unfold word; lia..|done|done| | |].
  - intros pa. rewrite arch0. intros [= <-]. split; [unfold word; lia|]. split; [done|].
    do 2 eexists. split; [apply ram_plain; lia|done].
  - intros pa. rewrite arch0. intros [= <-]. split; [unfold word; lia|].
    do 2 eexists. split; [apply ram_plain; lia|]. split; [done|]. by left.
  - rewrite arch0 in E, H. exists s'. split; [exact E|exact H].
Defined.

(** ** Transfers *)

Lemma sees0 dacr : sees (sys0 0x70 dacr) bytes0.
Proof. split; [done|]. split; [by left|]. split; [apply implements0|apply (bytes_of_range section0)]. Qed.
Lemma plain0 dacr a : 0 <= a < 0x8000 -> plain (sys0 0x70 dacr) a.
Proof.
  intros Ha. split; [unfold word; lia|]. split; [done|]. do 2 eexists. split; [by apply ram_plain|done].
Qed.
Lemma wf_sys0 control dacr : wf (cpu (sys0 control dacr)).
Proof.
  pose proof wf_zero_state as H. change (cpu (sys0 control dacr)) with (zero_state <| mmu_control := control |>). wf_frame.
Qed.

(** LDR r1, [r0] from the unaligned address 1: the descriptor, rotated. *)
Lemma single_transfers_witness :
  exists s', LoadWord 0xe5901000 1 (sys0 0x70 1) = Some (1, s') /\ reg (cpu s') 1 = 0x0200000C.
Proof.
  destruct (single_transfers Word 0xe5901000 1 false (sys0 0x70 1) bytes0) as [(s' & E & _ & H) _];
    [apply sees0|apply plain0; lia|apply wf_sys0|reflexivity|].
  exists s'. split; [exact E|]. rewrite (H 1) by lia. vm_compute. reflexivity.
Defined.

(** STMIA r0!, {r1, r2} and LDMIA r3, {r1, r2}, with r1 cleared in between. *)
Definition sys12 : system (machine lines) := upd_cpu (fun c => set_reg 1 11 (set_reg 2 22 c)) (sys0 0x70 1).

Lemma block_round_trip_witness :
  exists s1 s2, StoreMult 0xe8a00006 0x4000 0x4008 sys12 = Some s1 /\
    LoadMult 0xe8930006 0x4000 0 (upd_cpu (set_reg 1 0) s1) = Some s2 /\
    reg (cpu s2) 1 = 11 /\ reg (cpu s2) 2 = 22.
Proof.
  assert (Hwf : wf (cpu sys12)).
  { unfold sys12. rewrite cpu_upd_cpu. apply wf_set_reg; [apply wf_set_reg; [apply wf_sys0|]|]; unfold word; lia. }
  destruct (view_cpu (fun c => set_reg 1 11 (set_reg 2 22 c)) (sys0 0x70 1) bytes0 eq_refl (sees0 1)) as [Hs Hp].
  destruct (block_round_trip 0xe8a00006 0xe8930006 0x4000 0x4008 0 sys12 bytes0 (set_reg 1 0))
    as (s1 & s2 & E1 & E2 & _ & H & _).
  - discriminate.
  - reflexivity.
  - by_evaluation.
  - exact Hs.
  - exact Hwf.
  - reflexivity.
  - unfold word. lia.
  - unfold word. lia.
  - change (plain sys12 0x4000 /\ plain sys12 0x4004 /\ True).
    split; [apply Hp, plain0; lia|]. split; [apply Hp, plain0; lia|done].
  - intros c Hc Ha. split; [reflexivity|]. split; [apply wf_set_reg; [done|unfold word; lia]|done].
  - exists s1, s2. split; [exact E1|]. split; [exact E2|].
    rewrite (H 1), (H 2) by (reflexivity || by_evaluation). split; vm_compute; reflexivity.
Defined.

(** A load through a domain without access. *)
Definition sys_fault : system (machine lines) := sys0 0x71 0.
Definition issued : system (machine lines) :=
  match a71_mmu_read Word 0x100 (load_issue sys_fault) with Some (_, s) => s | None => sys_fault end.

Lemma cpu_issued : cpu issued = count_N (BUSUSEDINCPCS (cpu sys_fault)).
Proof. vm_compute. reflexivity. Qed.

Lemma faulting_transfers_abort_witness :
  exists s', Load Word 0xe5901000 0x100 false sys_fault = Some (lateabtSig (cpu issued), s') /\
    took_fault SECTION_DOMAIN_FAULT 0x100 issued s'.
Proof.
  destruct (faulting_transfers_abort Word 0xe5901000 0x100 false sys_fault) as [H _].
  destruct (H SECTION_DOMAIN_FAULT issued) as (s' & E & Ht); [| |by exists s'].
  - vm_compute. reflexivity.
  - unfold abortable. rewrite cpu_issued. split; [|split; [by vm_compute|split; [discriminate|done]]].
    pose proof (wf_BUSUSEDINCPCS _ (wf_sys0 0x71 0)) as Hc. unfold count_N. wf_frame.
Defined.
