(* ===== verification/ExecWitness.v ===== *)
(** * Concrete runs of instructions

    The theorems on the instructions and the loop of the core at concrete
    instructions, on the system of SysWitness.v. *)

From S2P Require Import Prelude Words Bits ArmState ArmSupp ArmBanks ArmInit ArmShift ArmDp UartDev Machine LpcState LpcIo LpcWitness LpcBoard ArmSys ArmMem MemSpec ArmVirt ArmLdSt ArmBlock ArmXfer ArmCopro ArmValid ValidSpec ArmEmulate DpSpec LdStSpec SysWitness.

Lemma wf_upd_sys f control dacr : (forall c, wf c -> wf (f c)) -> wf (cpu (upd_cpu f (sys0 control dacr))).
Proof. intros H. rewrite cpu_upd_cpu. apply H, wf_sys0. Qed.

(** ADDS r0, r1, r2, LSL #1 with r1 = 0x7fffffff and r2 = 1: the signed sum
    overflows. *)
Definition sys_adds : system (machine lines) :=
  upd_cpu (fun c => set_reg 1 0x7fffffff (set_reg 2 1 c)) (sys0 0x70 1).

Lemma data_processing_instruction_witness :
  exists s', mainswitch 0 0xe0910082 0 sys_adds = Some s' /\
    reg (cpu s') 0 = 0x80000001 /\ NFlag (cpu s') = 1 /\ CFlag (cpu s') = 0 /\ VFlag (cpu s') = 1.
Proof.
  eexists. split.
  - apply data_processing_instruction.
    + apply wf_upd_sys. intros c Hc. apply wf_set_reg; [apply wf_set_reg; [done|]|]; unfold word; lia.
    + reflexivity.
    + split; [reflexivity|]. split; [by right|by left].
    + right. by left.
    + discriminate.
  - rewrite cpu_upd_cpu. vm_compute. by repeat split.
Defined.

(** CMP r1, r2 with r1 = -1 and r2 = 1: lower as signed, higher as unsigned. *)
Definition sys_cmp : system (machine lines) :=
  upd_cpu (fun c => set_reg 1 0xffffffff (set_reg 2 1 c)) (sys0 0x70 1).

Lemma compare_then_condition_witness :
  exists s' s'', mainswitch 0 0xe1510002 0 sys_cmp = Some s' /\ condition cond_HI (cpu s') = true /\
    mainswitch 0 0xe1510002 0 sys_cmp = Some s'' /\ condition cond_LT (cpu s'') = true.
Proof.
  assert (Hwf : wf (cpu sys_cmp)).
  { apply wf_upd_sys. intros c Hc. apply wf_set_reg; [apply wf_set_reg; [done|]|]; unfold word; lia. }
  assert (Hdp : dp_instruction 0xe1510002) by (split; [reflexivity|split; [by right|by right]]).
  assert (Hst : lhs_stable 0xe1510002) by (right; by left).
  assert (HD : DESTReg 0xe1510002 <> 15) by discriminate.
  destruct (compare_then_condition 0 0xe1510002 0 sys_cmp cond_HI Hwf eq_refl Hdp Hst HD eq_refl eq_refl)
    as (s' & E1 & H1); [unfold cond_HI; lia|].
  destruct (compare_then_condition 0 0xe1510002 0 sys_cmp cond_LT Hwf eq_refl Hdp Hst HD eq_refl eq_refl)
    as (s'' & E2 & H2); [unfold cond_LT; lia|].
  exists s', s''. split; [exact E1|]. rewrite H1. split; [by vm_compute|]. split; [exact E2|].
  rewrite H2. by vm_compute.
Defined.

(** CDP p4, 0, c0, c0, c3 with 25 in register 3 of the validation coprocessor. *)
Definition sys_wait : system (machine lines) := set_val_reg 3 25 (sys0 0x70 1).

Lemma busy_wait_terminates_witness :
  exists s', ARMul_CDP 25 0xee000403 sys_wait = Some s' /\ ARMul_Time (cpu s') = 25.
Proof.
  destruct (busy_wait_terminates 0xee000403 sys_wait) as (s' & E & H);
    [by left|reflexivity|reflexivity|by vm_compute|].
  exists s'. split; [exact E|]. rewrite H; [reflexivity|by vm_compute|by vm_compute].
Defined.
