(* ===== verification/GdbLink.v ===== *)
(** * The link to the remote debugger (gdbserver.c)

    Packets of the remote serial protocol: hexadecimal digits, the frame with
    its checksum, [putpkt] with its wait for an acknowledgement and [getpkt]
    with its search for an undamaged frame.  The socket is a record: the
    chunks its reads will return, and what was written to it.  The theorem:
    a packet that [putpkt] sends arrives in [getpkt], however the stream is
    cut into chunks and whatever damaged frames come before it. *)

From Stdlib Require Import Ascii String.
From S2P Require Import Prelude Words.
Import ListNotations.

(** Characters are their codes, a string is the list of its characters
    without the terminating 0. *)
Definition ch (c : ascii) : Z := Z.of_N (N_of_ascii c).
Fixpoint str (s : string) : list Z :=
  match s with EmptyString => [] | String c s => ch c :: str s end.

(** ** Hexadecimal digits

    [fromhex] of any other character falls off the end of the function. *)
Definition fromhex (a : Z) : option Z :=
  if (ch "0" <=? a) && (a <=? ch "9") then Some (a - ch "0")
  else if (ch "a" <=? a) && (a <=? ch "f") then Some (a - ch "a" + 10)
  else if (ch "A" <=? a) && (a <=? ch "F") then Some (a - ch "A" + 10)
  else None.
Definition tohex (nib : Z) : Z := if nib <? 10 then ch "0" + nib else ch "a" + nib - 10.

Definition hex_byte (b : Z) : list Z := [tohex ((b &&& 0xf0) >>> 4); tohex (b &&& 0x0f)].
Definition convert_int_to_ascii (from : list Z) : list Z := mjoin (hex_byte <$> from).

(** Reads [2 * n] digits of a string; the 0 at its end is not a digit. *)
Fixpoint convert_ascii_to_int (from : list Z) (n : nat) {struct n} : option (list Z) :=
  match n with
  | O => Some []
  | S n =>
      match from with
      | d1 :: d2 :: from =>
          nib1 ← fromhex d1; nib2 ← fromhex d2;
          to ← convert_ascii_to_int from n;
          Some ((((nib1 &&& 0x0f) <<< 4) &&& 0xf0) ||| (nib2 &&& 0x0f) :: to)
      | _ => None
      end
  end.

(** ** The socket

    [rbuf] is the static buffer of [readchar], [inbox] the chunks that
    [read] will find (none left is the end of file), [outbox] what was
    written, [broken] whether writing fails. *)
Record link := mkLink {
  rbuf : list Z; inbox : list (list Z); outbox : list (list Z); broken : bool
}.
#[export] Instance eta_link : Eta link := fun l => mkLink (rbuf l) (inbox l) (outbox l) (broken l).

Definition sock_read (n : nat) (l : link) : list Z * link :=
  match inbox l with
  | [] => ([], l)
  | c :: cs => (take n c, l <| inbox := match drop n c with [] => cs | c => c :: cs end |>)
  end.
Definition sock_write (p : list Z) (l : link) : bool * link :=
  if broken l then (false, l) else (true, l <| outbox ::= fun o => o ++ [p] |>).

Definition BUFSIZ : nat := Z.to_nat 8192.

Definition readchar (l : link) : Z * link :=
  match rbuf l with
  | b :: bs => (b &&& 0x7f, l <| rbuf := bs |>)
  | [] =>
      match sock_read BUFSIZ l with
      | ([], l) => (-1, l)
      | (b :: bs, l) => (b &&& 0x7f, l <| rbuf := bs |>)
      end
  end.

(** ** Sending *)

Definition checksum (p : list Z) : Z := fold_left (fun csum c => (csum + c) mod 256) p 0.
Definition frame (p : list Z) : list Z :=
  [ch "$"] ++ p ++ [ch "#"; tohex ((checksum p >>> 4) &&& 0xf); tohex (checksum p &&& 0xf)].

Fixpoint send_until_ack (fuel : nat) (buf2 : list Z) (l : link) : option (Z * link) :=
  match fuel with
  | O => None
  | S fuel =>
      let '(ok, l) := sock_write buf2 l in
      if negb ok then Some (-1, l)
      else
        match sock_read 1 l with
        | (c :: _, l) => if c =? ch "+" then Some (1, l) else send_until_ack fuel buf2 l
        | ([], l) => Some (-1, l)
        end
  end.

(** The bytes still to come bound the rounds.  [buf2] has 2000 bytes. *)
Definition unread (l : link) : nat := sum_list_with length (inbox l).
Definition putpkt (p : list Z) (l : link) : option (Z * link) :=
  if 1995 <? Z.of_nat (length p) then None else send_until_ack (S (unread l)) (frame p) l.

(** ** Receiving

    The buffer of the caller has 8000 bytes.  The outer option is undefined
    behaviour (a checksum that is not hexadecimal, a buffer overrun) or the end
    of the fuel, the inner one the end of the stream. *)
Definition own_buf_size : Z := 8000.

Fixpoint skip_to_start (fuel : nat) (l : link) : option (bool * link) :=
  match fuel with
  | O => None
  | S fuel =>
      let '(c, l) := readchar l in
      if c =? ch "$" then Some (true, l)
      else if c <? 0 then Some (false, l) else skip_to_start fuel l
  end.

Fixpoint read_body (fuel : nat) (bp : list Z) (csum : Z) (l : link) : option (option (list Z * Z) * link) :=
  match fuel with
  | O => None
  | S fuel =>
      if own_buf_size <=? Z.of_nat (length bp) then None
      else
        let '(c, l) := readchar l in
        if c <? 0 then Some (None, l)
        else if c =? ch "#" then Some (Some (bp, csum), l)
        else read_body fuel (bp ++ [c]) ((csum + c) mod 256) l
  end.

(** The number of bytes left, buffered or not: every round reads one. *)
Definition pending (l : link) : nat := length (rbuf l) + unread l.

Fixpoint getpkt_loop (fuel : nat) (l : link) : option (option (list Z) * link) :=
  match fuel with
  | O => None
  | S fuel =>
      '(found, l) ← skip_to_start (S (pending l)) l;
      if negb found then Some (None, l)
      else
        '(body, l) ← read_body (S (pending l)) [] 0 l;
        match body with
        | None => Some (None, l)
        | Some (buf, csum) =>
            let '(d1, l) := readchar l in
            c1 ← fromhex d1;
            let '(d2, l) := readchar l in
            c2 ← fromhex d2;
            if csum =? (c1 <<< 4) + c2 then Some (Some buf, (sock_write [ch "+"] l).2)
            else getpkt_loop fuel (sock_write [ch "-"] l).2
        end
  end.
Definition getpkt (l : link) : option (option (list Z) * link) := getpkt_loop (S (pending l)) l.

Definition write_ok : list Z := str "OK".
Definition write_enn : list Z := str "E01".

(** ** Digits *)

Lemma nibble_cases (P : Z -> Prop) n : 0 <= n < 16 -> Forall P (seqZ 0 16) -> P n.
Proof. intros Hn H. rewrite list.Forall_forall in H. apply H, elem_of_seqZ. lia. Qed.

Lemma fromhex_tohex n : 0 <= n < 16 -> fromhex (tohex n) = Some n.
Proof.
  intros Hn. apply (nibble_cases (fun n => fromhex (tohex n) = Some n)); [done|].
  repeat (constructor; [reflexivity|]). constructor.
Qed.

Lemma tohex_char n : 0 <= n < 16 -> 0 <= tohex n < 128 /\ tohex n <> ch "#".
Proof.
  intros Hn. unfold tohex. change (ch "0") with 48. change (ch "a") with 97. change (ch "#") with 35.
  destruct (Z.ltb_spec n 10); lia.
Qed.

(** A decidable property of all bytes is checked byte by byte. *)
Lemma byte_cases (P : Z -> bool) b : 0 <= b < 256 -> forallb P (seqZ 0 256) = true -> P b = true.
Proof. intros Hb H. rewrite forallb_forall in H. apply H, list_elem_of_In, elem_of_seqZ. lia. Qed.

Lemma nibbles b : 0 <= b < 256 ->
  (b &&& 0xf0) >>> 4 = b / 16 /\ b &&& 0x0f = b mod 16 /\ (b >>> 4) &&& 0xf = b / 16.
Proof.
  intros Hb. repeat apply conj; apply Z.eqb_eq.
  - by apply (byte_cases (fun b => (b &&& 0xf0) >>> 4 =? b / 16)).
  - by apply (byte_cases (fun b => b &&& 0x0f =? b mod 16)).
  - by apply (byte_cases (fun b => (b >>> 4) &&& 0xf =? b / 16)).
Qed.

Lemma join_nibbles b : 0 <= b < 256 ->
  (((b / 16 &&& 0x0f) <<< 4) &&& 0xf0) ||| (b mod 16 &&& 0x0f) = b.
Proof.
  intros Hb. apply Z.eqb_eq.
  by apply (byte_cases (fun b => (((b / 16 &&& 0x0f) <<< 4) &&& 0xf0) ||| (b mod 16 &&& 0x0f) =? b)).
Qed.

Lemma int_to_ascii_cons b bs :
  convert_int_to_ascii (b :: bs) = [tohex ((b &&& 0xf0) >>> 4); tohex (b &&& 0x0f)] ++ convert_int_to_ascii bs.
Proof. done. Qed.

(** Bytes survive the way to hexadecimal text and back, whatever follows. *)
Lemma ascii_round_trip bs rest : Forall (fun b => 0 <= b < 256) bs ->
  convert_ascii_to_int (convert_int_to_ascii bs ++ rest) (length bs) = Some bs.
Proof.
  induction 1 as [|b bs Hb _ IH]; [done|]. cbv beta in Hb.
  rewrite int_to_ascii_cons, <- app_assoc. destruct (nibbles b Hb) as (-> & -> & _).
  cbn [app length convert_ascii_to_int].
  rewrite (fromhex_tohex (b / 16)), (fromhex_tohex (b mod 16)) by dlia.
  cbn [mbind option_bind]. rewrite IH. cbn [mbind option_bind]. by rewrite join_nibbles.
Qed.

(** ** The stream *)

Definition stream (l : link) : list Z := rbuf l ++ mjoin (inbox l).
Definition wf_link (l : link) : Prop := Forall (fun c => c <> []) (inbox l).

(** [l'] is [l] after reading, with [bs] left. *)
Record left_with (l : link) (bs : list Z) (l' : link) : Prop := mkLeft {
  left_stream : stream l' = bs;
  left_wf : wf_link l';
  left_outbox : outbox l' = outbox l;
  left_broken : broken l' = broken l
}.

Lemma left_trans l1 l2 l3 a b : left_with l1 a l2 -> left_with l2 b l3 -> left_with l1 b l3.
Proof. intros [] []. split; congruence. Qed.

Lemma pending_stream l : pending l = length (stream l).
Proof.
  unfold pending, stream, unread. rewrite length_app. f_equal.
  induction (inbox l) as [|c cs IH]; simpl; [done|]. rewrite length_app. by f_equal.
Qed.

Lemma readchar_some l b bs : wf_link l -> stream l = b :: bs ->
  exists l', readchar l = (b &&& 0x7f, l') /\ left_with l bs l'.
Proof.
  destruct l as [[|r rs] [|[|x xs] cs] out br]; intros Hwf Hs; unfold stream in Hs; simpl in Hs;
    try discriminate Hs; try (by inversion Hwf).
  3,2: by (injection Hs as -> <-; eexists; split; [reflexivity|split]).
  injection Hs as -> <-. unfold wf_link in Hwf. cbn [inbox] in Hwf. inversion Hwf as [|? ? _ Hwf']; subst.
  destruct BUFSIZ as [|n] eqn:En; [discriminate En|].
  unfold readchar, sock_read. rewrite En. cbn [rbuf inbox take drop].
  eexists. split; [reflexivity|].
  pose proof (take_drop n xs) as Ht.
  split; unfold stream, wf_link; upds; cbn [rbuf inbox outbox broken]; [| |done|done].
  - destruct (drop n xs) eqn:Ed; cbn [mjoin list_join]; [rewrite app_nil_r in Ht; by rewrite Ht|by rewrite app_assoc, Ht].
  - destruct (drop n xs) eqn:Ed; [done|]. by constructor.
Qed.

Lemma readchar_eof l : wf_link l -> stream l = [] -> readchar l = (-1, l).
Proof.
  destruct l as [[|r rs] [|[|x xs] cs] out br]; intros Hw Hs; try done. by inversion Hw.
Qed.

(** ** Receiving a frame *)

(** Characters of seven bits, none of them [c]. *)
Definition text_without (c : Z) (p : list Z) : Prop := Forall (fun b => 0 <= b < 128 /\ b <> c) p.

Lemma char_mask b : 0 <= b < 128 -> b &&& 0x7f = b.
Proof. intros. change 0x7f with (Z.ones 7). rewrite Z.land_ones by done. by apply Z.mod_small. Qed.

Lemma read_char7 l b bs : wf_link l -> stream l = b :: bs -> 0 <= b < 128 ->
  exists l', readchar l = (b, l') /\ left_with l bs l'.
Proof. intros Hw Hs Hb. destruct (readchar_some _ _ _ Hw Hs) as (l' & E & H). rewrite char_mask in E by done. by exists l'. Qed.

Lemma skip_to_start_spec junk rest : text_without (ch "$") junk -> forall fuel l,
  (length junk < fuel)%nat -> wf_link l -> stream l = junk ++ ch "$" :: rest ->
  exists l', skip_to_start fuel l = Some (true, l') /\ left_with l rest l'.
Proof.
  induction 1 as [|b junk [Hb Hne] _ IH]; intros [|fuel] l Hf Hw Hs; simpl in Hf; try lia; cbn [app] in Hs.
  - destruct (read_char7 _ _ _ Hw Hs) as (l' & E & H); [done|]. exists l'. cbn [skip_to_start]. by rewrite E.
  - destruct (read_char7 _ _ _ Hw Hs Hb) as (l1 & E & H). cbn [skip_to_start]. rewrite E.
    apply Z.eqb_neq in Hne. rewrite Hne. destruct (Z.ltb_spec b 0); [lia|].
    destruct (IH fuel l1) as (l2 & E2 & H2); [lia|apply H|apply H|].
    exists l2. split; [done|]. by eapply left_trans.
Qed.

Lemma read_body_spec p rest : text_without (ch "#") p -> forall fuel bp csum l,
  (length p < fuel)%nat -> Z.of_nat (length bp + length p) < own_buf_size ->
  wf_link l -> stream l = p ++ ch "#" :: rest ->
  exists l', read_body fuel bp csum l =
      Some (Some (bp ++ p, fold_left (fun csum c => (csum + c) mod 256) p csum), l') /\ left_with l rest l'.
Proof.
  induction 1 as [|b p [Hb Hne] _ IH]; intros [|fuel] bp csum l Hf Hl Hw Hs; simpl in Hf, Hl; try lia;
    cbn [app] in Hs; cbn [read_body].
  - destruct (Z.leb_spec own_buf_size (Z.of_nat (length bp))); [lia|].
    destruct (read_char7 _ _ _ Hw Hs) as (l' & -> & H'); [done|]. exists l'. by rewrite app_nil_r.
  - destruct (Z.leb_spec own_buf_size (Z.of_nat (length bp))); [lia|].
    destruct (read_char7 _ _ _ Hw Hs Hb) as (l1 & -> & H1).
    destruct (Z.ltb_spec b 0); [lia|]. apply Z.eqb_neq in Hne. rewrite Hne.
    destruct (IH fuel (bp ++ [b]) ((csum + b) mod 256) l1) as (l2 & E2 & H2);
      [lia|rewrite length_app; simpl; lia|apply H1|apply H1|].
    exists l2. rewrite E2, <- app_assoc. split; [done|]. by eapply left_trans.
Qed.

(** A frame with any two hexadecimal digits for its checksum. *)
Definition framed (p : list Z) (d1 d2 : Z) : list Z := [ch "$"] ++ p ++ [ch "#"; d1; d2].
Definition good_text (p : list Z) : Prop := text_without (ch "#") p /\ Z.of_nat (length p) < own_buf_size.
Definition digit (d n : Z) : Prop := 0 <= d < 128 /\ fromhex d = Some n.

(** One round of [getpkt]: it accepts the frame or asks for it again. *)
Lemma getpkt_round fuel junk p d1 d2 n1 n2 rest l :
  text_without (ch "$") junk -> good_text p -> digit d1 n1 -> digit d2 n2 ->
  wf_link l -> stream l = junk ++ framed p d1 d2 ++ rest ->
  exists l', left_with l rest l' /\
    getpkt_loop (S fuel) l =
      if checksum p =? (n1 <<< 4) + n2 then Some (Some p, (sock_write [ch "+"] l').2)
      else getpkt_loop fuel (sock_write [ch "-"] l').2.
Proof.
  intros Hj [Hp Hlen] [Hd1 Hn1] [Hd2 Hn2] Hw Hs. unfold framed in Hs. cbn [app] in Hs.
  rewrite <- app_assoc in Hs. cbn [app] in Hs. cbn [getpkt_loop].
  destruct (skip_to_start_spec junk (p ++ ch "#" :: d1 :: d2 :: rest) Hj (S (pending l)) l) as (l1 & -> & H1); [|done|done|].
  { rewrite pending_stream, Hs, length_app. lia. }
  cbn [mbind option_bind negb]. destruct H1 as [S1 W1 O1 B1].
  destruct (read_body_spec p (d1 :: d2 :: rest) Hp (S (pending l1)) [] 0 l1) as (l2 & -> & H2); [|simpl; lia|done|done|].
  { rewrite pending_stream, S1, length_app. lia. }
  cbn [mbind option_bind app]. destruct H2 as [S2 W2 O2 B2].
  destruct (read_char7 l2 d1 _ W2 S2 Hd1) as (l3 & -> & [S3 W3 O3 B3]). rewrite Hn1. cbn [mbind option_bind].
  destruct (read_char7 l3 d2 _ W3 S3 Hd2) as (l4 & -> & [S4 W4 O4 B4]). rewrite Hn2. cbn [mbind option_bind].
  exists l4. split; [split; congruence|done].
Qed.

(** Damaged frames: the checksum is hexadecimal but wrong. *)
Record bad_frame := mkBad { bf_junk : list Z; bf_text : list Z; bf_d1 : Z; bf_d2 : Z }.
Definition bad_chars (f : bad_frame) : list Z := bf_junk f ++ framed (bf_text f) (bf_d1 f) (bf_d2 f).
Definition damaged (f : bad_frame) : Prop :=
  text_without (ch "$") (bf_junk f) /\ good_text (bf_text f) /\
  exists n1 n2, digit (bf_d1 f) n1 /\ digit (bf_d2 f) n2 /\ checksum (bf_text f) <> (n1 <<< 4) + n2.

Lemma sock_write_left p l bs l' : left_with l bs l' -> broken l = false ->
  stream (sock_write p l').2 = bs /\ wf_link (sock_write p l').2 /\
  outbox (sock_write p l').2 = outbox l ++ [p] /\ broken (sock_write p l').2 = false.
Proof. intros [S1 W1 O1 B1] B. unfold sock_write. rewrite B1, B. split; [done|]. split; [done|]. simpl. by rewrite O1, B1. Qed.

Lemma checksum_range p : 0 <= checksum p < 256.
Proof.
  unfold checksum. assert (forall n, 0 <= n < 256 -> 0 <= fold_left (fun csum c => (csum + c) mod 256) p n < 256) as H.
  { induction p as [|c p IH]; intros n Hn; simpl; [done|]. apply IH, Z.mod_pos_bound. lia. }
  by apply H.
Qed.

Lemma frame_framed p : exists d1 d2 n1 n2, frame p = framed p d1 d2 /\
  digit d1 n1 /\ digit d2 n2 /\ checksum p = (n1 <<< 4) + n2.
Proof.
  pose proof (checksum_range p) as Hc. destruct (nibbles _ Hc) as (_ & E2 & E1).
  unfold frame. rewrite E1, E2. exists (tohex (checksum p / 16)), (tohex (checksum p mod 16)), (checksum p / 16), (checksum p mod 16).
  split; [done|]. unfold digit. rewrite !fromhex_tohex by dlia. rewrite Z.shiftl_mul_pow2 by done.
  change (2 ^ 4) with 16. repeat split; try (apply tohex_char; dlia). dlia.
Qed.

Lemma getpkt_delivers bads junk p rest : Forall damaged bads -> text_without (ch "$") junk -> good_text p ->
  forall fuel l, (length bads < fuel)%nat -> wf_link l -> broken l = false ->
  stream l = mjoin (bad_chars <$> bads) ++ junk ++ frame p ++ rest ->
  exists l', getpkt_loop fuel l = Some (Some p, l') /\ stream l' = rest /\
    outbox l' = outbox l ++ replicate (length bads) [ch "-"] ++ [[ch "+"]].
Proof.
  intros Hb Hj Hp. induction Hb as [|f bads (Hfj & Hft & n1 & n2 & Hd1 & Hd2 & Hne) _ IH]; intros [|fuel] l Hf Hw B Hs;
    simpl in Hf; try lia.
  - destruct (frame_framed p) as (d1 & d2 & n1 & n2 & E & Hd1 & Hd2 & Hc). rewrite E in Hs.
    destruct (getpkt_round fuel junk p d1 d2 n1 n2 rest l) as (l1 & H1 & ->); try done.
    rewrite Hc, Z.eqb_refl. eexists. split; [done|]. destruct (sock_write_left [ch "+"] _ _ _ H1 B) as (? & _ & ? & _).
    done.
  - cbn [fmap list_fmap mjoin list_join] in Hs. unfold bad_chars at 1 in Hs. rewrite <- !app_assoc in Hs.
    destruct (getpkt_round fuel _ _ _ _ _ _ _ l Hfj Hft Hd1 Hd2 Hw Hs) as (l1 & H1 & ->).
    apply Z.eqb_neq in Hne. rewrite Hne.
    destruct (sock_write_left [ch "-"] _ _ _ H1 B) as (S1 & W1 & O1 & B1).
    destruct (IH fuel _ ltac:(lia) W1 B1 S1) as (l2 & -> & S2 & O2). exists l2. split; [done|]. split; [done|].
    by rewrite O2, O1, <- app_assoc.
Qed.

(** ** Sending a frame *)

(** Reading one byte from the socket itself. *)
Lemma sock_read_1 l c bs : wf_link l -> mjoin (inbox l) = c :: bs ->
  exists l', sock_read 1 l = ([c], l') /\ mjoin (inbox l') = bs /\ wf_link l' /\
    rbuf l' = rbuf l /\ outbox l' = outbox l /\ broken l' = broken l.
Proof.
  destruct l as [r [|[|x xs] cs] out br]; intros Hw Hs; simpl in Hs; [done|by inversion Hw|].
  injection Hs as -> <-. inversion Hw as [|? ? _ Hw']; subst. eexists. split; [done|].
  unfold wf_link. upds. cbn [inbox rbuf outbox broken drop]. destruct xs; [done|].
  split; [done|]. split; [by constructor|done].
Qed.

Lemma unread_length l : unread l = length (mjoin (inbox l)).
Proof. unfold unread. induction (inbox l) as [|c cs IH]; simpl; [done|]. rewrite length_app. by f_equal. Qed.

Lemma send_until_ack_spec buf2 nacks more : Forall (fun c => c <> ch "+") nacks -> forall fuel l,
  (length nacks < fuel)%nat -> wf_link l -> broken l = false -> 
  (mjoin (inbox l) = nacks ++ ch "+" :: more -> exists l', send_until_ack fuel buf2 l = Some (1, l') /\
     outbox l' = outbox l ++ replicate (S (length nacks)) buf2 /\ mjoin (inbox l') = more /\ rbuf l' = rbuf l) /\
  (mjoin (inbox l) = nacks -> exists l', send_until_ack fuel buf2 l = Some (-1, l') /\
     outbox l' = outbox l ++ replicate (S (length nacks)) buf2).
Proof.
  induction 1 as [|c nacks Hc _ IH]; intros [|fuel] l Hf Hw B; simpl in Hf; try lia;
    cbn [send_until_ack]; unfold sock_write; rewrite B; cbn [negb];
    set (l1 := l <| outbox ::= _ |>).
  - split; intros Hs.
    + destruct (sock_read_1 l1 _ _ Hw Hs) as (l2 & -> & S2 & _ & R2 & O2 & _). rewrite Z.eqb_refl. by exists l2.
    + assert (inbox l1 = []) as Hi. { destruct l as [r [|[|x xs] cs] out br]; try done. by inversion Hw. }
      unfold sock_read. rewrite Hi. by exists l1.
  - apply Z.eqb_neq in Hc. split; intros Hs; destruct (sock_read_1 l1 _ _ Hw Hs) as (l2 & -> & S2 & W2 & R2 & O2 & B2);
      rewrite Hc; destruct (IH fuel l2 ltac:(lia) W2 ltac:(by rewrite B2)) as [H1 H2].
    + destruct (H1 S2) as (l3 & -> & O3 & S3 & R3). exists l3. split; [done|]. split; [|by rewrite R3, R2].
      rewrite O3, O2. unfold l1. upds. by rewrite <- app_assoc.
    + destruct (H2 S2) as (l3 & -> & O3). exists l3. split; [done|].
      rewrite O3, O2. unfold l1. upds. by rewrite <- app_assoc.
Qed.

(** C33: Packets arrive.  [putpkt] writes the frame of its text again after
    every answer other than an acknowledgement, and once more to get the
    acknowledgement; when the connection ends first it gives up with -1.
    [getpkt] finds that frame in whatever precedes it, text outside frames and
    frames with a wrong checksum, asks for each of those again and
    acknowledges the good one, leaves the rest of the stream unread, and returns
    the text that was sent.  Neither depends on how the stream is cut into
    chunks, and the fuel both take always suffices. *)
Theorem packets_arrive p nacks more bads junk rest a b :
  text_without (ch "#") p -> Z.of_nat (length p) <= 1995 ->
  Forall (fun c => c <> ch "+") nacks -> wf_link a -> broken a = false ->
  Forall damaged bads -> text_without (ch "$") junk -> wf_link b -> broken b = false ->
  stream b = mjoin (bad_chars <$> bads) ++ junk ++ frame p ++ rest ->
  (mjoin (inbox a) = nacks ++ ch "+" :: more -> exists a', putpkt p a = Some (1, a') /\
     outbox a' = outbox a ++ replicate (S (length nacks)) (frame p) /\ mjoin (inbox a') = more /\ rbuf a' = rbuf a) /\
  (mjoin (inbox a) = nacks -> exists a', putpkt p a = Some (-1, a') /\
     outbox a' = outbox a ++ replicate (S (length nacks)) (frame p)) /\
  (exists b', getpkt b = Some (Some p, b') /\ stream b' = rest /\
     outbox b' = outbox b ++ replicate (length bads) [ch "-"] ++ [[ch "+"]]).
Proof.
  intros Hp Hlen Hn Hwa Ba Hbad Hj Hwb Bb Hs. unfold putpkt.
  destruct (Z.ltb_spec 1995 (Z.of_nat (length p))); [lia|].
  split; [|split].
  - intros Ha. apply (send_until_ack_spec (frame p) nacks more Hn); [|done..].
    rewrite unread_length, Ha, length_app. lia.
  - intros Ha. apply (send_until_ack_spec (frame p) nacks more Hn); [|done..].
    rewrite unread_length, Ha. lia.
  - unfold getpkt. apply (getpkt_delivers bads junk p rest); try done; [split; [done|unfold own_buf_size; lia]|].
    rewrite pending_stream, Hs, length_app. generalize (length (junk ++ frame p ++ rest)). clear. intros n.
    induction bads as [|f bads IH]; simpl; [lia|]. rewrite length_app.
    assert (1 <= length (bad_chars f))%nat by (unfold bad_chars, framed; cbn [app]; rewrite length_app; cbn [length]; lia).
    unfold fmap in IH. lia.
Qed.
