(* ===== verification/GdbTarget.v ===== *)
(** * The debugger's view of the target (skyeye2gdb.c, arm_regdefs.c)

    The registers of the core as one block of 168 bytes, memory byte by byte
    through the MMU, and the table of breakpoints. *)

From S2P Require Import Prelude Words ArmState ArmSupp Machine ArmSys Tlb Cache Arm7100 ArmVirt GdbLink.

(** ** Words in memory (skyeye2gdb.c)

    The order of the bytes is that of the target's register type;
    [init_arm_register_defs] leaves its [endian_flag] 0, which is little-endian. *)
Definition endian_flag : Z := LOW.
Definition frommem (m : list Z) : Z :=
  if endian_flag =? HIGH
  then shl32 (rd m 0) 24 ||| (rd m 1 <<< 16) ||| (rd m 2 <<< 8) ||| rd m 3
  else shl32 (rd m 3) 24 ||| (rd m 2 <<< 16) ||| (rd m 1 <<< 8) ||| rd m 0.
Definition tomem (v : Z) : list Z :=
  let bs := [(v >>> 24) &&& 0xff; (v >>> 16) &&& 0xff; (v >>> 8) &&& 0xff; v &&& 0xff] in
  if endian_flag =? HIGH then bs else rev bs.

(** [memcpy (&memory[at], bs, length bs)]. *)
Definition blit (at_ : Z) (bs : list Z) (memory : list Z) : list Z :=
  take (Z.to_nat at_) memory ++ bs ++ drop (Z.to_nat at_ + length bs) memory.
Definition slice (at_ n : Z) (memory : list Z) : list Z := take (Z.to_nat n) (drop (Z.to_nat at_) memory).

(** ** Registers (arm_regdefs.c)

    r0 to r15, eight floating-point registers of 12 bytes, the floating-point
    status and the CPSR: numbers 0 to 25. *)
Definition ARM_NUM_REGS : Z := 26.
Definition CPSR_REGNUM : Z := 25.
Definition register_bytes : Z := 16 * 4 + 12 * 8 + 4 + 4.

Definition arm_register_raw_size (x : Z) : Z := if (15 <? x) && (x <? 24) then 12 else 4.
Definition arm_register_byte (x : Z) : Z :=
  if x <? 16 then x * 4
  else if (15 <? x) && (x <? 24) then 16 * 4 + (x - 16) * 12
  else if x =? 24 then 16 * 4 + 8 * 12
  else 16 * 4 + 8 * 12 + 4.

Definition arm_store_register (rn : Z) (memory : list Z) (c : ARMul_State) : ARMul_State :=
  if rn =? CPSR_REGNUM then ARMul_SetCPSR (frommem memory) c
  else if rn <? 16 then ARMul_SetReg (Mode c) rn (frommem memory) c else c.
Definition arm_fetch_register (rn : Z) (c : ARMul_State) : list Z :=
  tomem (if rn <? 16 then ARMul_GetReg c (Mode c) rn
         else if rn =? CPSR_REGNUM then ARMul_GetCPSR c else 0).

(** All the registers for number -1 or 0. *)
Definition fetch_one (c : ARMul_State) (rn : Z) (memory : list Z) : list Z :=
  blit (arm_register_byte rn) (arm_fetch_register rn c) memory.
Definition fetch_inferior_registers (regno : Z) (c : ARMul_State) (memory : list Z) : list Z :=
  if (regno =? -1) || (regno =? 0) then for_range 0 ARM_NUM_REGS (fetch_one c) memory
  else fetch_one c regno memory.
Definition store_one (memory : list Z) (rn : Z) (c : ARMul_State) : ARMul_State :=
  arm_store_register rn (slice (arm_register_byte rn) 4 memory) c.
Definition store_inferior_registers (regno : Z) (memory : list Z) (c : ARMul_State) : ARMul_State :=
  if (regno =? -1) || (regno =? 0) then for_range 0 ARM_NUM_REGS (store_one memory) c
  else store_one memory regno c.

(** ** Memory (skyeye2gdb.c, arm_arch_interface.c) *)
Section Target.
Context {M : Type} `{!Board M} `{!MmuOps M}.
Implicit Type s : system M.

(** The word the byte is read into is uninitialised; only its low byte is used. *)
Definition arm_ICE_read_byte (addr : Z) s : option (Z * Z * system M) :=
  '(ret, data, s) ← ARMul_ICE_ReadByte addr 0 s; Some (ret, data &&& 0xff, s).
Definition arm_ICE_write_byte (addr v : Z) s : option (Z * system M) := ARMul_ICE_WriteByte addr v s.

(** The bytes read, or [None] in the inner option for the -1 of a fault. *)
Fixpoint sim_read (addr : Z) (size : nat) s : option (option (list Z) * system M) :=
  match size with
  | O => Some (Some [], s)
  | S size =>
      '(fault, v, s) ← arm_ICE_read_byte addr s;
      if truth fault then Some (None, s)
      else '(r, s) ← sim_read (add32 addr 1) size s; Some (option_map (cons v) r, s)
  end.
(** Whether the write returned its size, or -1. *)
Fixpoint sim_write (addr : Z) (buffer : list Z) s : option (bool * system M) :=
  match buffer with
  | [] => Some (true, s)
  | v :: buffer =>
      '(fault, s) ← arm_ICE_write_byte addr v s;
      if truth fault then Some (false, s) else sim_write (add32 addr 1) buffer s
  end.
End Target.

(** ** Breakpoints (skyeye2gdb.c)

    The table and the number of entries in use. *)
Definition MAX_BREAKPOINTS : Z := 16.

Fixpoint bp_index (addr : Z) (bps : list Z) (num : nat) : option Z :=
  match num, bps with
  | S num, b :: bps => if b =? addr then Some 0 else Z.succ <$> bp_index addr bps num
  | _, _ => None
  end.
Definition sim_ice_breakpoint_insert (addr : Z) (bps : list Z) (num_bps : Z) : Z * list Z * Z :=
  match bp_index addr bps (Z.to_nat num_bps) with
  | Some _ => (1, bps, num_bps)
  | None =>
      if MAX_BREAKPOINTS <=? num_bps then (-1, bps, num_bps)
      else (0, wr bps num_bps addr, num_bps + 1)
  end.
Definition sim_ice_breakpoint_remove (addr : Z) (bps : list Z) (num_bps : Z) : Z * list Z * Z :=
  match bp_index addr bps (Z.to_nat num_bps) with
  | None => (0, bps, num_bps)
  | Some i =>
      let num_bps := num_bps - 1 in
      (1, if i <? num_bps then wr bps i (rd bps num_bps) else bps, num_bps)
  end.
