(* ===== verification/GdbTrace.v ===== *)
(** * Tracepoints (gdb_tracepoint.c, gdbserver.c)

    A tracepoint has actions, a tree in which a "while" collects for a number
    of steps; hitting it appends a frame with the data collected.  The
    linked lists of the C are lists here, a pointer to the selected frame is
    its index.  [None] is undefined behaviour: a tracepoint outside the table, a
    digit that is none, a string that is too short. *)

From Stdlib Require Import Ascii String.
From S2P Require Import Prelude Words ArmState Machine ArmSys Tlb Cache Arm7100 ArmVirt GdbLink GdbTarget.
Import ListNotations.
#[local] Set Warnings "-register-all".

Definition MAX_TRACEPOINTS : Z := 16.

(** ** Data *)
Inductive collect_action :=
  | collect_registers (mask : Z)
  | collect_memory (base_reg offset length : Z).
Inductive action :=
  | ACTION_COLLECT (ca : collect_action)
  | ACTION_WHILE (step_count remaining_steps : Z) (child : list action).

Inductive tracepoint_status := TRACEPOINT_DISABLED | TRACEPOINT_ENABLED | TRACEPOINT_STEPPING.
Inductive trace_status := TRACE_STARTED | TRACE_STOPPED | TRACE_FOCUSING.
#[export] Instance tracepoint_status_eq_dec : EqDecision tracepoint_status.
Proof. solve_decision. Defined.
#[export] Instance trace_status_eq_dec : EqDecision trace_status.
Proof. solve_decision. Defined.

Record tracepoint_def := mkTp {
  tp_address : Z; number : Z; actions : list action; tp_status : tracepoint_status;
  pass_count : Z; remaining_pass : Z; remaining_step : Z
}.
#[export] Instance eta_tp : Eta tracepoint_def := fun t =>
  mkTp (tp_address t) (number t) (actions t) (tp_status t) (pass_count t) (remaining_pass t) (remaining_step t).

(** What a frame holds: for memory that could not be read, no data. *)
Record collect_record := mkRecord { cr_ca : collect_action; collect_data : list Z }.
Record frame_buffer := mkFrame { fb_tp_number : Z; fb_frame_number : Z; records : list collect_record }.

(** [struct SkyEye_ICE]: [tps] has 16 entries. *)
Record SkyEye_ICE := mkIce {
  bps : list Z; num_bps : Z; tps_status : trace_status;
  tps : list tracepoint_def; num_tps : Z;
  fb : list frame_buffer; num_fb : Z; selected_fb : option nat;
  ro_regions : list (Z * Z)
}.
#[export] Instance eta_ice : Eta SkyEye_ICE := fun i =>
  mkIce (bps i) (num_bps i) (tps_status i) (tps i) (num_tps i) (fb i) (num_fb i) (selected_fb i) (ro_regions i).

(** ** The table of tracepoints *)

Definition get_tp (tp_id : Z) (i : SkyEye_ICE) : option tracepoint_def :=
  if tp_id <? 0 then None else tps i !! Z.to_nat tp_id.
Definition upd_tp (tp_id : Z) (f : tracepoint_def -> tracepoint_def) (i : SkyEye_ICE) : option SkyEye_ICE :=
  t ← get_tp tp_id i; Some (i <| tps ::= fun l => wr l tp_id (f t) |>).

(** The new tracepoint takes over the actions of its entry. *)
Definition add_tracepoint (tp_number address : Z) (i : SkyEye_ICE) : option (Z * SkyEye_ICE) :=
  if num_tps i <? MAX_TRACEPOINTS then
    let n := num_tps i in
    i ← upd_tp n (fun t => t <| tp_address := address |> <| number := tp_number |>
           <| tp_status := TRACEPOINT_DISABLED |> <| pass_count := 0 |> <| remaining_pass := 0 |>
           <| remaining_step := 0 |>) i;
    Some (n, i <| num_tps := n + 1 |>)
  else Some (-1, i).

Fixpoint tp_index (tp_number address : Z) (ts : list tracepoint_def) (num : nat) : Z :=
  match num, ts with
  | S num, t :: ts =>
      if (number t =? tp_number) && (tp_address t =? address) then 0
      else let r := tp_index tp_number address ts num in if r <? 0 then -1 else r + 1
  | _, _ => -1
  end.
Definition find_tp_id (tp_number address : Z) (i : SkyEye_ICE) : Z :=
  tp_index tp_number address (tps i) (Z.to_nat (num_tps i)).

(** ** Regions and frames *)

Definition is_in_ro_region (addr length : Z) (i : SkyEye_ICE) : bool :=
  existsb (fun '(start, finish) => (start <=? addr) && (add32 addr length <=? finish)) (ro_regions i).
Definition add_ro_region (start finish : Z) (i : SkyEye_ICE) : SkyEye_ICE :=
  i <| ro_regions ::= fun l => l ++ [(start, finish)] |>.

Definition selected (i : SkyEye_ICE) : option frame_buffer := n ← selected_fb i; fb i !! n.

Fixpoint find_registers (rs : list collect_record) : option (list Z) :=
  match rs with
  | [] => None
  | r :: rs => match cr_ca r with collect_registers _ => Some (collect_data r) | _ => find_registers rs end
  end.
(** Without such a record the block stays as it is. *)
Definition trace_fetch_registers (i : SkyEye_ICE) (memory : list Z) : list Z :=
  match selected i ≫= fun f => find_registers (records f) with Some d => blit 0 d memory | None => memory end.

Fixpoint find_memory (addr size : Z) (rs : list collect_record) : option (list Z) :=
  match rs with
  | [] => None
  | r :: rs =>
      match cr_ca r with
      | collect_memory _ offset length =>
          if (offset <=? addr) && (add32 addr size <=? add32 offset length)
          then Some (slice (addr - offset) size (collect_data r)) else find_memory addr size rs
      | _ => find_memory addr size rs
      end
  end.
Definition trace_read (addr size : Z) (i : SkyEye_ICE) : option (list Z) :=
  selected i ≫= fun f => find_memory addr size (records f).

Fixpoint frame_index (p : frame_buffer -> bool) (fs : list frame_buffer) (n : nat) : option (nat * frame_buffer) :=
  match fs with
  | [] => None
  | f :: fs => if p f then Some (n, f) else frame_index p fs (S n)
  end.
Definition first_frame (i : SkyEye_ICE) : option nat := match fb i with [] => None | _ => Some O end.

(** The number of the tracepoint, when the frame is found. *)
Definition select_frame_buffer_by_fn (frame_number : Z) (i : SkyEye_ICE) : option Z * SkyEye_ICE :=
  if num_fb i <? s32 frame_number then (None, i)
  else
    match frame_index (fun f => fb_frame_number f =? frame_number) (fb i) 0 with
    | Some (n, f) => (Some (fb_tp_number f), i <| selected_fb := Some n |>)
    | None => (None, i <| selected_fb := first_frame i |>)
    end.
(** The number of the next frame of the tracepoint. *)
Definition select_frame_buffer_by_tpn (tracepoint_number : Z) (i : SkyEye_ICE) : option Z * SkyEye_ICE :=
  let i := match selected_fb i with None => i <| selected_fb := first_frame i |> | Some _ => i end in
  match selected_fb i with
  | None => (None, i)
  | Some n =>
      match frame_index (fun f => fb_tp_number f =? tracepoint_number) (drop (S n) (fb i)) (S n) with
      | Some (n, f) => (Some (fb_frame_number f), i <| selected_fb := Some n |>)
      | None => (None, i)
      end
  end.

Definition init_tracepoints (i : SkyEye_ICE) : SkyEye_ICE :=
  i <| num_tps := 0 |> <| tps ::= fun l => (fun t => t <| actions := [] |>) <$> l |>
    <| tps_status := TRACE_STOPPED |> <| fb := [] |>
    <| num_fb ::= fun n => match fb i with [] => n | _ => 0 end |>
    <| selected_fb := None |> <| ro_regions := [] |>.
Definition start_trace_recording (i : SkyEye_ICE) := i <| tps_status := TRACE_STARTED |>.
Definition stop_trace_recording (i : SkyEye_ICE) := i <| tps_status := TRACE_STOPPED |>.
Definition start_trace_focusing (i : SkyEye_ICE) := i <| tps_status := TRACE_FOCUSING |>.
Definition stop_trace_focusing (i : SkyEye_ICE) :=
  i <| tps_status := TRACE_STARTED |> <| selected_fb := None |>.

(** ** Collecting

    [fresh] is the contents of freshly allocated memory. *)
Section Collect.
Context {M : Type} `{!Board M} `{!MmuOps M}.
Implicit Type s : system M.

(** The state of a collection: the tracepoint's status, the records so far. *)
Definition collecting : Type := tracepoint_status * list collect_record * system M.

(** The base register contributes its lowest byte. *)
Definition base_reg_val (fresh : list Z) (base_reg : Z) s : option Z :=
  if base_reg =? 0xffffffff then Some 0
  else if base_reg <? ARM_NUM_REGS
  then Some (rd (fetch_inferior_registers base_reg (cpu s) fresh) (arm_register_byte base_reg))
  else None.

Definition do_action (fresh : list Z) (ca : collect_action) (st : collecting) : option collecting :=
  let '(status, rs, s) := st in
  match ca with
  | collect_registers _ =>
      Some (status, rs ++ [mkRecord ca (fetch_inferior_registers (-1) (cpu s) fresh)], s)
  | collect_memory base_reg offset length =>
      base ← base_reg_val fresh base_reg s;
      '(d, s) ← sim_read (add32 base offset) (Z.to_nat length) s;
      Some (status, rs ++ [mkRecord ca (default [] d)], s)
  end.

Fixpoint do_one (fresh : list Z) (a : action) (st : collecting) : option (action * collecting) :=
  match a with
  | ACTION_COLLECT ca => st ← do_action fresh ca st; Some (a, st)
  | ACTION_WHILE steps remaining child =>
      let list := fix list (l : list action) (st : collecting) : option (list action * collecting) :=
        match l with
        | [] => Some ([], st)
        | a :: l => '(a, st) ← do_one fresh a st; '(l, st) ← list l st; Some (a :: l, st)
        end in
      '(remaining, child, st) ←
        (if remaining =? 0 then Some (remaining, child, st)
         else '(child, st) ← list child (TRACEPOINT_STEPPING, st.1.2, st.2); Some (remaining - 1, child, st));
      Some (if remaining =? 0
            then (ACTION_WHILE steps steps child, (TRACEPOINT_ENABLED, st.1.2, st.2))
            else (ACTION_WHILE steps remaining child, st))
  end.
Fixpoint do_action_list (fresh : list Z) (l : list action) (st : collecting) : option (list action * collecting) :=
  match l with
  | [] => Some ([], st)
  | a :: l => '(a, st) ← do_one fresh a st; '(l, st) ← do_action_list fresh l st; Some (a :: l, st)
  end.

Definition is_while (a : action) : bool := match a with ACTION_WHILE _ _ _ => true | _ => false end.
Fixpoint split_while (l : list action) : list action * list action :=
  match l with
  | [] => ([], [])
  | a :: l' => if is_while a then ([], l) else let '(p, q) := split_while l' in (a :: p, q)
  end.

(** A new frame with what the actions [todo] collect; [before] stay as they are. *)
Definition collect_frame (fresh : list Z) (tp_id : Z) (before todo : list action) (i : SkyEye_ICE) s :
    option (SkyEye_ICE * system M) :=
  t ← get_tp tp_id i;
  '(todo, (status, rs, s)) ← do_action_list fresh todo (tp_status t, [], s);
  i ← upd_tp tp_id (fun t => t <| actions := before ++ todo |> <| tp_status := status |>)
        (i <| fb ::= fun l => l ++ [mkFrame (number t) (u32 (num_fb i)) rs] |> <| num_fb ::= Z.succ |>);
  Some (i, s).

Definition handle_tracepoint (fresh : list Z) (tp_id : Z) (i : SkyEye_ICE) s : option (SkyEye_ICE * system M) :=
  t ← get_tp tp_id i;
  match tp_status t with
  | TRACEPOINT_DISABLED => Some (i, s)
  | TRACEPOINT_STEPPING =>
      match actions t, split_while (actions t) with
      | [], _ => None
      | _, (_, []) => Some (i, s)
      | _, (before, todo) => collect_frame fresh tp_id before todo i s
      end
  | TRACEPOINT_ENABLED =>
      if pass_count t =? 0 then collect_frame fresh tp_id [] (actions t) i s
      else if remaining_pass t =? 0 then Some (i, s)
      else i ← upd_tp tp_id (fun t => t <| remaining_pass ::= Z.pred |>) i;
           collect_frame fresh tp_id [] (actions t) i s
  end.
End Collect.

(** ** The packets (gdbserver.c)

    A number in hexadecimal up to a character of [stop], with what follows
    that character's place (it stays in front).  The end of the string counts as
    the character 0. *)
Fixpoint hex_until (stop : list Z) (acc : Z) (p : list Z) : option (Z * list Z) :=
  let c := hd 0 p in
  if existsb (Z.eqb c) stop then Some (acc, p)
  else
    match p with
    | [] => None
    | c :: p => d ← fromhex c; hex_until stop (shl32 acc 4 ||| (d &&& 0x0f)) p
    end.
(** [&p[n]] of a string that has these characters. *)
Definition at_char (n : nat) (p : list Z) : option (list Z) :=
  if (n <=? length p)%nat then Some (drop n p) else None.

(** "E:step:pass" and "D:step:pass". *)
Definition decode_status (st : tracepoint_status) (p : list Z) (t : tracepoint_def) : option tracepoint_def :=
  p ← at_char 2 p;
  '(step, p) ← hex_until [ch ":"] 0 p;
  '(pass, _) ← hex_until [ch "-"; 0] 0 (tail p);
  Some (t <| tp_status := st |> <| remaining_step := step |> <| pass_count := pass |> <| remaining_pass := pass |>).

(** "M-1,offset,length"; with a base register, the code parses the comma after
    the register as the offset. *)
Definition decode_memory (p : list Z) : option action :=
  p ← at_char 1 p;
  '(base_reg, p) ←
    (if hd 0 p =? ch "-"
     then '(_, p) ← (let fix comma p := match p with [] => None | c :: p => if c =? ch "," then Some (0, p) else comma p end
                     in comma p); Some (0xffffffff, p)
     else p ← at_char 1 p; hex_until [ch ","; 0] 0 p);
  '(offset, p) ← hex_until [ch ","; 0] 0 p;
  p ← at_char 1 p;
  '(length, _) ← hex_until [ch "-"; 0] 0 p;
  Some (ACTION_COLLECT (collect_memory base_reg offset length)).

(** The actions of a packet are appended to [siblings]. *)
Fixpoint decode_DP_playload (p : list Z) (t : tracepoint_def) (siblings : list action) :
    option (tracepoint_def * list action) :=
  match p with
  | [] => Some (t, siblings)
  | c :: p' =>
      if c =? ch "E" then t ← decode_status TRACEPOINT_ENABLED p t; Some (t, siblings)
      else if c =? ch "D" then t ← decode_status TRACEPOINT_DISABLED p t; Some (t, siblings)
      else if c =? ch "R" then
        '(mask, _) ← hex_until [ch "-"; 0] 0 p'; Some (t, siblings ++ [ACTION_COLLECT (collect_registers mask)])
      else if c =? ch "M" then a ← decode_memory p; Some (t, siblings ++ [a])
      else if c =? ch "S" then
        '(t', child) ← decode_DP_playload p' t [];
        Some (t', siblings ++ [ACTION_WHILE (remaining_step t) (remaining_step t) child])
      else Some (t, siblings)
  end.

Definition decode_DP_packet (p : list Z) (i : SkyEye_ICE) : option SkyEye_ICE :=
  let p := match p with c :: p' => if c =? ch "-" then p' else p | [] => p end in
  '(tp_number, p) ← hex_until [ch ":"] 0 p;
  '(address, p) ← hex_until [ch ":"] 0 (tail p);
  '(tp_id, i) ← (let tp_id := find_tp_id tp_number address i in
                 if tp_id =? -1 then add_tracepoint tp_number address i else Some (tp_id, i));
  t ← get_tp tp_id i;
  '(t, l) ← decode_DP_playload (tail p) t (actions t);
  upd_tp tp_id (fun _ => t <| actions := l |>) i.

(** [sprintf (response, "%x", n)]. *)
Fixpoint hex_digits (fuel : nat) (n : Z) : list Z :=
  match fuel with
  | O => []
  | S fuel => if n <? 16 then [tohex n] else hex_digits fuel (n / 16) ++ [tohex (n mod 16)]
  end.
Definition frame_reply (f t : Z) : list Z := str "F" ++ hex_digits 8 f ++ str "T" ++ hex_digits 8 t.

(** The reply; [None] in the inner option leaves the request in the buffer. *)
Definition decode_Frame_packet (p : list Z) (i : SkyEye_ICE) : option (option (list Z) * SkyEye_ICE) :=
  let i := start_trace_focusing i in
  let c := hd 0 p in
  if (c =? ch "p") || (c =? ch "r") || (c =? ch "o") then Some (None, i)
  else if c =? ch "t" then
    p ← at_char 4 p;
    '(tp, _) ← hex_until [0] 0 p;
    let '(r, i) := select_frame_buffer_by_tpn tp i in
    Some (Some (match r with Some f => frame_reply f tp | None => str "F-1" end), i)
  else
    '(f, _) ← hex_until [0] 0 p;
    if f =? 0xFFFFFFFF then Some (Some (str "OK"), stop_trace_focusing i)
    else
      let '(r, i) := select_frame_buffer_by_fn f i in
      Some (Some (match r with Some t => frame_reply f t | None => str "F-1" end), i).

(** "start,end:start,end:..."; [second] tells which of the two is read. *)
Fixpoint decode_ro (p : list Z) (start finish : Z) (second : bool) (i : SkyEye_ICE) : option SkyEye_ICE :=
  match p with
  | [] => Some (if (start =? 0) && (finish =? 0) then i else add_ro_region start finish i)
  | c :: p =>
      if c =? ch "," then decode_ro p start finish true i
      else if c =? ch ":" then decode_ro p 0 0 false (add_ro_region start finish i)
      else
        d ← fromhex c;
        let push a := shl32 a 4 ||| (d &&& 0x0f) in
        if second then decode_ro p start (push finish) true i else decode_ro p (push start) finish false i
  end.

(** The reply to "Q" and [p]: [Some None] leaves the buffer, an empty reply
    is a request that is not known. *)
Definition decode_Q_packet (p : list Z) (i : SkyEye_ICE) : option (option (list Z) * SkyEye_ICE) :=
  let ok i := Some (Some write_ok, i) in
  let unknown := Some (Some [], i) in
  let c n := nth n p 0 in
  if negb (c 0%nat =? ch "T") then unknown
  else if c 1%nat =? ch "i" then ok (init_tracepoints i)
  else if c 1%nat =? ch "S" then
    p ← at_char 3 p;
    if hd 0 p =? ch "a" then ok (start_trace_recording i)
    else if hd 0 p =? ch "o" then ok (stop_trace_recording i) else unknown
  else if c 1%nat =? ch "D" then p ← at_char 4 p; i ← decode_DP_packet p i; ok i
  else if c 1%nat =? ch "F" then p ← at_char 7 p; decode_Frame_packet p i
  else if c 1%nat =? ch "r" then p ← at_char 4 p; i ← decode_ro p 0 0 false i; ok i
  else unknown.
