(* ===== verification/GdbServer.v ===== *)
(** * The remote debugging server (gdbserver.c)

    [sim_debug] answers the packets of a debugger: registers, memory,
    breakpoints, running and stepping, tracepoints.  One definition per kind of
    packet, the dispatch on its first character, and the loop of one
    connection.  [None] is undefined behaviour (malformed requests and
    overrun buffers) or the end of the simulator. *)

From Stdlib Require Import Ascii String.
From S2P Require Import Prelude Words ArmState Machine ArmSys Tlb Cache Arm7100 ArmVirt ArmCopro ArmEmulate GdbLink GdbTarget GdbTrace.
Import ListNotations.

(** ** [strtoul (p, &p, 16)]

    White space, a sign, "0x" before a digit, then digits; the value
    saturates.  Without digits the value is 0 and [p] does not move. *)
Definition isspace (c : Z) : bool := (c =? 32) || ((9 <=? c) && (c <=? 13)).
Fixpoint skip_space (p : list Z) : list Z :=
  match p with c :: p' => if isspace c then skip_space p' else p | [] => [] end.
Fixpoint digits16 (acc : Z) (p : list Z) : Z * list Z :=
  match p with
  | c :: p' => match fromhex c with Some d => digits16 (acc * 16 + d) p' | None => (acc, p) end
  | [] => (acc, p)
  end.
Definition ULONG_MAX : Z := 0xffffffffffffffff.
Definition is_digit (p : list Z) : bool := match p with c :: _ => bool_decide (is_Some (fromhex c)) | [] => false end.
Definition skip_0x (p : list Z) : list Z :=
  match p with
  | z :: x :: p' => if (z =? ch "0") && ((x =? ch "x") || (x =? ch "X")) && is_digit p' then p' else p
  | _ => p
  end.
Definition strtoul16 (p : list Z) : Z * list Z :=
  let q := skip_space p in
  let '(neg, q) := match q with
                   | c :: q' => if c =? ch "-" then (true, q') else if c =? ch "+" then (false, q') else (false, q)
                   | [] => (false, q)
                   end in
  let q := skip_0x q in
  if is_digit q then
    let '(v, q) := digits16 0 q in
    (if ULONG_MAX <? v then ULONG_MAX else if neg : bool then (- v) mod (ULONG_MAX + 1) else v, q)
  else (0, p).

(** ** Requests *)

(** "type,addr,len": the length is not used. *)
Definition skip_comma (p : list Z) : list Z :=
  match p with c :: p' => if c =? ch "," then p' else p | [] => [] end.
Definition decode_z_packet (p : list Z) : Z * Z :=
  let '(type, p) := strtoul16 p in
  let '(addr, _) := strtoul16 (skip_comma p) in (u32 type, u32 addr).

(** "addr,len" with at most four digits of length. *)
Fixpoint len_digits (n : nat) (acc : Z) (p : list Z) : option Z :=
  match n, p with
  | O, _ | _, [] => Some acc
  | S n, c :: p => d ← fromhex c; len_digits n (shl32 acc 4 ||| (d &&& 0x0f)) p
  end.
Definition decode_m_packet (p : list Z) : option (Z * Z) :=
  '(addr, p) ← hex_until [ch ","] 0 p;
  len ← len_digits 4 0 (tail p); Some (addr, len).

(** "addr,len:bytes". *)
Definition decode_M_packet (p : list Z) : option (Z * list Z) :=
  '(addr, p) ← hex_until [ch ","] 0 p;
  '(len, p) ← hex_until [ch ":"] 0 (tail p);
  if Z.of_nat (length p) <? len then None
  else to ← convert_ascii_to_int (tail p) (Z.to_nat len); Some (addr, to).

(** ** Replies *)

Definition pc_regnum : Z := 0.
Definition fp_regnum : Z := 0.
Definition sp_regnum : Z := 0.
Definition outreg (registers : list Z) (regno : Z) : list Z :=
  [tohex (regno >>> 4); tohex (regno &&& 0xf); ch ":"] ++
  convert_int_to_ascii (slice (arm_register_byte regno) (arm_register_raw_size regno) registers) ++ [ch ";"].
Definition prepare_resume_reply (registers : list Z) (status signo : Z) : list Z :=
  if status =? 0 then []
  else [status; tohex ((signo &&& 0xf0) >>> 4); tohex (signo &&& 0x0f)] ++
    (if status =? ch "T"
     then outreg registers pc_regnum ++ outreg registers fp_regnum ++ outreg registers sp_regnum else []).

(** ** The server

    [registers] is the block of 168 bytes, [status] and [signal] the locals
    that only "?" sets. *)
Record server (M : Type) := mkServer {
  target : system M; ice : SkyEye_ICE; registers : list Z; remote : link;
  status : Z; signal : Z; remote_debug : bool
}.
Arguments mkServer {M} _ _ _ _ _ _ _.
Arguments target {M} _.
Arguments ice {M} _.
Arguments registers {M} _.
Arguments remote {M} _.
Arguments status {M} _.
Arguments signal {M} _.
Arguments remote_debug {M} _.
#[export] Instance eta_server M : Eta (server M) := fun v =>
  mkServer (target v) (ice v) (registers v) (remote v) (status v) (signal v) (remote_debug v).

Section Server.
Context {M : Type} `{!Board M} `{!MmuOps M} `{!CoPros M}.
Implicit Type v : server M.

Definition focusing v : bool := bool_decide (tps_status (ice v) = TRACE_FOCUSING).

Definition on_g v : list Z * server M :=
  let regs := if focusing v then trace_fetch_registers (ice v) (registers v)
              else fetch_inferior_registers (-1) (cpu (target v)) (registers v) in
  (convert_int_to_ascii regs, v <| registers := regs |>).

Definition on_G (p : list Z) v : option (list Z * server M) :=
  regs ← convert_ascii_to_int p (Z.to_nat register_bytes);
  Some (write_ok, v <| registers := regs |>
                    <| target ::= upd_cpu (store_inferior_registers (-1) regs) |>).

(** Both buffers have 8000 bytes. *)
Definition on_m (p : list Z) v : option (list Z * server M) :=
  '(addr, len) ← decode_m_packet p;
  if focusing v && negb (is_in_ro_region addr len (ice v)) then
    match trace_read addr len (ice v) with
    | None => Some (write_enn, v)
    | Some d => if (Z.of_nat (length d) =? len) && (len <=? 3999) then Some (convert_int_to_ascii d, v) else None
    end
  else
    '(d, s) ← sim_read addr (Z.to_nat (Z.min len 8000)) (target v);
    match d with
    | None => Some (write_enn, v <| target := s |>)
    | Some d => if len <=? 3999 then Some (convert_int_to_ascii d, v <| target := s |>) else None
    end.

Definition on_M (p : list Z) v : option (list Z * server M) :=
  '(addr, d) ← decode_M_packet p;
  '(ok, s) ← sim_write addr d (target v);
  Some (if ok : bool then write_ok else write_enn, v <| target := s |>).

Definition on_z (insert : bool) (p : list Z) v : list Z * server M :=
  let '(type, addr) := decode_z_packet p in
  if (type =? 0) || (type =? 1) then
    let '(r, b, n) := (if insert then sim_ice_breakpoint_insert else sim_ice_breakpoint_remove)
                        addr (bps (ice v)) (num_bps (ice v)) in
    (if r <? 0 then write_enn else write_ok, v <| ice ::= fun i => i <| bps := b |> <| num_bps := n |> |>)
  else (write_enn, v).

Definition resume_reply v : list Z := prepare_resume_reply (registers v) (status v) (signal v).

(** The reply to a request that starts with [c]; [None] in the inner option
    sends the request back.  [k], [n] and [fuel] bound a run of the target. *)
Definition handle (k n fuel : nat) (c : Z) (p : list Z) v : option (option (list Z) * server M) :=
  let reply (r : list Z * server M) := Some (Some r.1, r.2) in
  if c =? ch "d" then Some (None, v <| remote_debug ::= negb |>)
  else if c =? ch "?" then
    let v := v <| status := ch "S" |> <| signal := 5 |> in reply (resume_reply v, v)
  else if c =? ch "g" then reply (on_g v)
  else if c =? ch "G" then on_G p v ≫= reply
  else if c =? ch "m" then on_m p v ≫= reply
  else if c =? ch "M" then on_M p v ≫= reply
  else if c =? ch "Q" then '(r, i) ← decode_Q_packet p (ice v); Some (r, v <| ice := i |>)
  else if c =? ch "q" then
    reply (if hd 0 p =? ch "T"
           then if bool_decide (tps_status (ice v) = TRACE_STARTED) then str "T1" else str "T0"
           else [], v)
  else if c =? ch "c" then
    s ← gdbserver_cont k n fuel false (target v);
    let v := v <| target := s |> in reply (resume_reply v, v)
  else if c =? ch "s" then
    s ← gdbserver_step n fuel false (target v);
    let v := v <| target := s |> in reply (resume_reply v, v)
  else if c =? ch "z" then reply (on_z false p v)
  else if c =? ch "Z" then reply (on_z true p v)
  else reply ([], v).

(** The string in a buffer ends at the first 0. *)
Fixpoint until_nul (p : list Z) : list Z :=
  match p with c :: p => if c =? 0 then [] else c :: until_nul p | [] => [] end.

(** One connection: requests are read and answered until the stream ends or an
    empty packet comes.  A status of "W" or "X" ends the simulator. *)
Fixpoint serve (rounds k n fuel : nat) v : option (server M) :=
  match rounds with
  | O => None
  | S rounds =>
      '(packet, l) ← getpkt (remote v);
      let v := v <| remote := l |> in
      match packet with
      | None | Some [] => Some v
      | Some (c :: p) =>
          '(r, v) ← handle k n fuel c (if c =? 0 then [] else until_nul p) v;
          '(_, l) ← putpkt (default (until_nul (c :: p)) r) (remote v);
          let v := v <| remote := l |> in
          if (status v =? ch "W") || (status v =? ch "X") then None else serve rounds k n fuel v
      end
  end.
End Server.
