(* ===== verification/GdbSpec.v ===== *)
(** * What the debugger can rely on

    The requests of the remote debugging server against what they mean:
    breakpoints are a set, memory written is read back and is the memory of the
    program, a block of registers written is read back and is the registers
    of the core. *)

From Stdlib Require Import Ascii String.
From S2P Require Import Prelude Words Bits ArmState ArmSupp ArmBanks ArmPsr Machine ArmSys MemSpec Tlb Cache Arm7100 ArmVirt ArmCopro ArmEmulate LdStSpec GdbLink GdbTarget GdbTrace GdbServer.
Import ListNotations.

(** ** Numbers in hexadecimal *)

Definition nib (n : Z) : Prop := 0 <= n < 16.
Definition hex_text (ns : list Z) : list Z := tohex <$> ns.
Definition hex_acc (acc : Z) (ns : list Z) : Z := fold_left (fun a d => a * 16 + d) ns acc.
Definition hex_value (ns : list Z) : Z := hex_acc 0 ns.

Lemma hex_acc_le ns : Forall nib ns -> forall acc, 0 <= acc -> acc <= hex_acc acc ns.
Proof.
  unfold nib, hex_acc. induction 1 as [|n ns Hn _ IH]; intros acc Ha; simpl; [lia|].
  etransitivity; [|apply IH]; lia.
Qed.

Lemma push_digit acc d : 0 <= acc -> nib d -> acc * 16 + d < 2 ^ 32 -> shl32 acc 4 ||| (d &&& 0x0f) = acc * 16 + d.
Proof.
  unfold nib. intros Ha Hd Hlt. change 0x0f with (Z.ones 4). rewrite Z.land_ones by done.
  rewrite Z.mod_small by done. unfold shl32, u32. rewrite Z.mod_small.
  - rewrite <- add_lor_shift by (done || lia). by rewrite Z.shiftl_mul_pow2.
  - rewrite Z.shiftl_mul_pow2 by done. change (2 ^ 4) with 16. change (2 ^ 32) with 4294967296 in Hlt. lia.
Qed.

(** Characters that end a number. *)
Definition ends (stop : list Z) : Prop := Forall (fun c => forall n, nib n -> tohex n <> c) stop.

Lemma existsb_stop (stop : list Z) c : existsb (Z.eqb c) stop = bool_decide (c ∈ stop).
Proof.
  induction stop as [|x stop IH]; simpl; [done|]. rewrite IH.
  destruct (Z.eqb_spec c x) as [->|Hne]; simpl.
  - symmetry. apply bool_decide_eq_true_2. constructor.
  - apply bool_decide_ext. rewrite elem_of_cons. tauto.
Qed.

Lemma hex_until_text stop ns rest : Forall nib ns -> ends stop -> hd 0 rest ∈ stop -> forall acc,
  0 <= acc -> hex_acc acc ns < 2 ^ 32 ->
  hex_until stop acc (hex_text ns ++ rest) = Some (hex_acc acc ns, rest).
Proof.
  intros Hns Hst Hr. induction Hns as [|n ns Hn Hns IH]; intros acc Ha Hv.
  - cbn [hex_text fmap list_fmap app]. assert (existsb (Z.eqb (hd 0 rest)) stop = true) as E.
    { rewrite existsb_stop. by apply bool_decide_eq_true_2. }
    by destruct rest; simpl in *; rewrite E.
  - change (hex_text (n :: ns) ++ rest) with (tohex n :: (hex_text ns ++ rest)).
    cbn [hex_until hd]. rewrite existsb_stop, bool_decide_eq_false_2.
    2:{ intros Hin. unfold ends in Hst. rewrite list.Forall_forall in Hst. by apply (Hst _ Hin n). }
    rewrite fromhex_tohex by done. cbn [mbind option_bind]. simpl in Hv.
    assert (acc * 16 + n < 2 ^ 32). { pose proof (hex_acc_le ns Hns (acc * 16 + n)). unfold nib in Hn. lia. }
    rewrite push_digit by done. apply IH; [unfold nib in Hn; lia|done].
Qed.

Lemma tohex_not c : forallb (fun n => negb (tohex n =? c)) (seqZ 0 16) = true -> forall n, nib n -> tohex n <> c.
Proof.
  intros H n Hn. rewrite forallb_forall in H. apply Z.eqb_neq, negb_true_iff, H, list_elem_of_In, elem_of_seqZ.
  unfold nib in Hn. lia.
Qed.

Lemma digits16_text ns rest : Forall nib ns -> is_digit rest = false -> forall acc,
  digits16 acc (hex_text ns ++ rest) = (hex_acc acc ns, rest).
Proof.
  intros Hns Hr. induction Hns as [|n ns Hn Hns IH]; intros acc.
  - cbn [hex_text fmap list_fmap app]. destruct rest as [|c rest]; [done|]. unfold is_digit in Hr.
    cbn [digits16]. destruct (fromhex c); [|done]. by rewrite bool_decide_eq_true_2 in Hr.
  - change (hex_text (n :: ns) ++ rest) with (tohex n :: (hex_text ns ++ rest)).
    cbn [digits16]. rewrite fromhex_tohex by done. apply IH.
Qed.

(** A number in a breakpoint packet, up to a comma or the end of the packet. *)
Lemma strtoul16_text ns rest : Forall nib ns -> ns <> [] -> hex_value ns < 2 ^ 32 ->
  (rest = [] \/ hd 0 rest = ch ",") -> strtoul16 (hex_text ns ++ rest) = (hex_value ns, rest).
Proof.
  intros Hns Hne Hv Hr. destruct Hns as [|n ns Hn Hns]; [done|]. clear Hne.
  assert (is_digit rest = false) as Hd. { destruct Hr as [->|Hr]; [done|]. destruct rest; [done|]. simpl in Hr. by subst. }
  change (hex_text (n :: ns) ++ rest) with (tohex n :: (hex_text ns ++ rest)). unfold strtoul16.
  assert (skip_space (tohex n :: (hex_text ns ++ rest)) = tohex n :: (hex_text ns ++ rest)) as ->.
  { cbn [skip_space]. assert (isspace (tohex n) = false) as ->; [|done].
    apply (nibble_cases (fun n => isspace (tohex n) = false)); [done|]. repeat (constructor; [reflexivity|]). constructor. }
  assert (tohex n <> ch "-" /\ tohex n <> ch "+") as [E1 E2] by (split; revert Hn; by apply tohex_not).
  apply Z.eqb_neq in E1, E2. rewrite E1, E2.
  assert (skip_0x (tohex n :: (hex_text ns ++ rest)) = tohex n :: (hex_text ns ++ rest)) as ->.
  { unfold skip_0x. destruct (hex_text ns ++ rest) as [|x q'] eqn:Eq; [done|].
    assert (x <> ch "x" /\ x <> ch "X") as [H1 H2].
    { destruct Hns as [|n' ns Hn' Hns].
      - destruct Hr as [->|Hr]; [done|]. simpl in Eq. subst rest. simpl in Hr. by subst x.
      - injection Eq as <- _. by split; revert Hn'; apply tohex_not. }
    apply Z.eqb_neq in H1, H2. rewrite H1, H2. by rewrite andb_false_r. }
  assert (is_digit (tohex n :: (hex_text ns ++ rest)) = true) as ->.
  { unfold is_digit. rewrite fromhex_tohex by done. by apply bool_decide_eq_true_2. }
  change (tohex n :: (hex_text ns ++ rest)) with (hex_text (n :: ns) ++ rest).
  rewrite digits16_text by (done || by constructor). unfold hex_value in *.
  assert (Forall nib (n :: ns)) as Hall by (by constructor).
  pose proof (hex_acc_le _ Hall 0 ltac:(lia)). destruct (Z.ltb_spec ULONG_MAX (hex_acc 0 (n :: ns))); [|done].
  unfold ULONG_MAX in *. change (2 ^ 32) with 4294967296 in Hv. lia.
Qed.

(** ** Breakpoints are a set *)

Definition is_bp (a : Z) (i : SkyEye_ICE) : Prop := a ∈ take (Z.to_nat (num_bps i)) (bps i).
Record bp_ok (i : SkyEye_ICE) : Prop := {
  bp_len : length (bps i) = Z.to_nat MAX_BREAKPOINTS;
  bp_num : 0 <= num_bps i <= MAX_BREAKPOINTS;
  bp_nodup : NoDup (take (Z.to_nat (num_bps i)) (bps i))
}.

Lemma bp_index_spec a l : forall n, match bp_index a l n with
  | Some i => 0 <= i < Z.of_nat n /\ l !! Z.to_nat i = Some a
  | None => a ∉ take n l
  end.
Proof.
  induction l as [|b l IH]; intros [|n]; cbn [bp_index take]; try apply not_elem_of_nil.
  destruct (Z.eqb_spec b a) as [->|Hne]; [split; [lia|done]|].
  specialize (IH n). destruct (bp_index a l n) as [i|]; cbn [fmap option_fmap option_map].
  - destruct IH as [Hi Hl]. split; [lia|]. by rewrite Z2Nat.inj_succ by lia.
  - apply not_elem_of_cons. by split; [congruence|].
Qed.

Lemma insert_spec a i : bp_ok i ->
  let '(r, b, n) := sim_ice_breakpoint_insert a (bps i) (num_bps i) in
  let i' := i <| bps := b |> <| num_bps := n |> in
  bp_ok i' /\
  if r <? 0 then ~ is_bp a i /\ num_bps i = MAX_BREAKPOINTS /\ b = bps i /\ n = num_bps i
  else forall x, is_bp x i' <-> x = a \/ is_bp x i.
Proof.
  intros [Hl Hn Hd]. unfold sim_ice_breakpoint_insert. pose proof (bp_index_spec a (bps i) (Z.to_nat (num_bps i))) as H.
  destruct (bp_index _ _ _) as [j|].
  - split; [by split|]. simpl. intros x. unfold is_bp. upds. split; [by right|]. intros [->|Hx]; [|exact Hx].
    apply list_elem_of_lookup. exists (Z.to_nat j). rewrite lookup_take_lt by lia. apply H.
  - destruct (Z.leb_spec MAX_BREAKPOINTS (num_bps i)); [split; [by split|]; split; [exact H|]; split; [lia|done]|].
    assert (take (Z.to_nat (num_bps i + 1)) (wr (bps i) (num_bps i) a) = take (Z.to_nat (num_bps i)) (bps i) ++ [a]) as E.
    { replace (Z.to_nat (num_bps i + 1)) with (S (Z.to_nat (num_bps i))) by lia.
      unfold wr. rewrite (take_S_r _ _ a) by (apply list_lookup_insert_eq; rewrite Hl; lia).
      by rewrite take_insert_ge by lia. }
    split.
    + split; upds; [by rewrite length_wr|lia|]. rewrite E. apply list.NoDup_app. split; [done|].
      split; [|apply list.NoDup_singleton]. intros x Hx ->%list_elem_of_singleton. by apply H.
    + simpl. intros x. unfold is_bp. upds. rewrite E, elem_of_app, list_elem_of_singleton. tauto.
Qed.

(** Removing entry [j] of the first [S k] by moving the last one there. *)
Lemma remove_perm (l : list Z) j k a : (j <= k < length l)%nat -> l !! j = Some a ->
  a :: take k (if bool_decide (j < k)%nat then <[j := nth k l 0]> l else l) ≡ₚ take (S k) l.
Proof.
  intros Hk Hj. destruct (lookup_lt_is_Some_2 l k) as [z Hz]; [lia|].
  rewrite (nth_lookup_Some _ _ _ _ Hz), (take_S_r _ _ z Hz). case_bool_decide as E.
  - assert (Hj' : take k l !! j = Some a) by (by rewrite lookup_take_lt).
    assert (E1 : take k (<[j:=z]> l) = take j (take k l) ++ z :: drop (S j) (take k l)).
    { rewrite take_insert_lt by done. apply insert_take_drop. by apply lookup_lt_Some in Hj'. }
    rewrite E1. rewrite <- (take_drop_middle (take k l) j a Hj') at 3.
    rewrite <- app_assoc. cbn [app]. rewrite <- !Permutation_middle.
    by rewrite app_assoc, app_nil_r.
  - assert (j = k) as -> by lia. assert (z = a) as -> by congruence. apply Permutation_cons_append.
Qed.

Lemma remove_spec a i : bp_ok i ->
  let '(r, b, n) := sim_ice_breakpoint_remove a (bps i) (num_bps i) in
  let i' := i <| bps := b |> <| num_bps := n |> in
  bp_ok i' /\ 0 <= r /\ forall x, is_bp x i' <-> x <> a /\ is_bp x i.
Proof.
  intros [Hl Hn Hd]. unfold sim_ice_breakpoint_remove. pose proof (bp_index_spec a (bps i) (Z.to_nat (num_bps i))) as H.
  destruct (bp_index _ _ _) as [j|].
  2:{ split; [by split|]. split; [done|]. intros x. unfold is_bp. upds. split; [|tauto]. intros Hx. by split; [intros ->|]. }
  destruct H as [Hj Hlj].
  assert (Hp := remove_perm (bps i) (Z.to_nat j) (Z.to_nat (num_bps i - 1)) a ltac:(lia) Hlj).
  replace (S (Z.to_nat (num_bps i - 1))) with (Z.to_nat (num_bps i)) in Hp by lia.
  set (b := if j <? num_bps i - 1 then _ else _).
  assert (E : b = if bool_decide (Z.to_nat j < Z.to_nat (num_bps i - 1))%nat
              then <[Z.to_nat j := nth (Z.to_nat (num_bps i - 1)) (bps i) 0]> (bps i) else bps i).
  { unfold b, wr, rd. case_bool_decide; destruct (Z.ltb_spec j (num_bps i - 1)); done || lia. }
  rewrite <- E in Hp. assert (Hlb : length b = length (bps i)).
  { rewrite E. case_bool_decide; [apply length_insert|done]. }
  rewrite <- Hp in Hd. apply list.NoDup_cons in Hd as [Hna Hd].
  split; [split; upds; [congruence|lia|done]|]. split; [done|]. intros x. unfold is_bp. upds.
  rewrite <- Hp, elem_of_cons. split; [|tauto]. intros Hx. split; [|by right]. by intros ->.
Qed.

(** C36: The breakpoint table is a set of at most 16 addresses.  A request to
    insert (type 0 or 1, an address in hexadecimal) makes the address a
    member and answers OK, or, when the table is full and does not hold the
    address, answers E01 and changes nothing; a request to remove takes exactly
    that address out and answers OK.  The table keeps its form, without
    duplicates, and nothing else of the server changes. *)
Theorem breakpoint_packets {M} `{!Board M} `{!MmuOps M} `{!CoPros M} k n fuel t ns rest (v : server M) :
  t ∈ [0; 1] -> Forall nib ns -> ns <> [] -> hex_value ns < 2 ^ 32 -> rest = [] \/ hd 0 rest = ch "," ->
  bp_ok (ice v) ->
  let a := hex_value ns in let p := tohex t :: ch "," :: hex_text ns ++ rest in
  (exists r i, handle k n fuel (ch "Z") p v = Some (Some r, v <| ice := i |>) /\ bp_ok i /\
     (r = write_ok /\ (forall b, is_bp b i <-> b = a \/ is_bp b (ice v)) \/
      r = write_enn /\ i = ice v /\ ~ is_bp a i /\ num_bps i = MAX_BREAKPOINTS)) /\
  (exists i, handle k n fuel (ch "z") p v = Some (Some write_ok, v <| ice := i |>) /\ bp_ok i /\
     forall b, is_bp b i <-> b <> a /\ is_bp b (ice v)).
Proof.
  intros Ht Hns Hne Hv Hr Hok a p.
  assert (Hz : decode_z_packet p = (t, a)).
  { unfold decode_z_packet, p. change (tohex t :: ?x) with (hex_text [t] ++ x).
    assert (nib t /\ u32 t = t) as [Hnt Hut].
    { unfold nib. apply elem_of_cons in Ht as [->|Ht%list_elem_of_singleton]; [|subst t]; by split. }
    rewrite strtoul16_text; [|by constructor; [exact Hnt|constructor]|done| |by right].
    2:{ unfold hex_value, hex_acc, nib in *. simpl. lia. }
    cbn [skip_comma]. rewrite Z.eqb_refl, strtoul16_text by done. f_equal; [exact Hut|].
    unfold u32. apply Z.mod_small. split; [|exact Hv]. by apply hex_acc_le. }
  assert (Ht' : (t =? 0) || (t =? 1) = true).
  { apply elem_of_cons in Ht as [->|Ht%list_elem_of_singleton]; [done|by subst t]. }
  split.
  - pose proof (insert_spec a (ice v) Hok) as H. unfold handle. cbn [Z.eqb]. unfold on_z. rewrite Hz, Ht'. cbn [Z.eqb].
    destruct (sim_ice_breakpoint_insert _ _ _) as [[r b] m]. destruct H as [H1 H2].
    eexists _, _. split; [reflexivity|]. split; [exact H1|]. destruct (r <? 0).
    + destruct H2 as (Hn & Hm & -> & ->). right. assert ((ice v) <| bps := bps (ice v) |> <| num_bps := num_bps (ice v) |> = ice v) as ->.
      { by destruct (ice v). } done.
    + by left.
  - pose proof (remove_spec a (ice v) Hok) as H. unfold handle. cbn [Z.eqb]. unfold on_z. rewrite Hz, Ht'. cbn [Z.eqb].
    destruct (sim_ice_breakpoint_remove _ _ _) as [[r b] m]. destruct H as (H1 & Hr0 & H2).
    assert ((r <? 0) = false) as E by (apply Z.ltb_ge; lia). eexists. split; [rewrite E; reflexivity|]. done.
Qed.

(** ** Memory *)

Section Memory.
Context {M : Type} `{!Board M} `{!MmuOps M} `{!FlatView M}.
Implicit Type s : system M.

Lemma flat_byte e m a : flat_read e Byte m a = m a.
Proof.
  unfold flat_read, align, lane_no, size. simpl. rewrite Z.mod_1_r, Z.lor_0_r. f_equal.
  destruct (e =? 0); lia.
Qed.

Lemma flat_byte_write e m a v x : 0 <= v < 256 -> flat_write e Byte a v m x = if x =? a then v else m x.
Proof.
  intros Hv. unfold flat_write, align, lane_no, size. rewrite Z.mod_1_r, Z.sub_0_r.
  destruct (Z.eqb_spec x a) as [->|Hne].
  - rewrite (proj2 (Z.leb_le a a)), (proj2 (Z.ltb_lt a (a + 1))) by lia. cbn [andb].
    rewrite Z.sub_diag. destruct (e =? 0); (rewrite Z.shiftr_0_r, (Z.land_ones _ 8) by done; by apply Z.mod_small).
  - destruct (Z.leb_spec a x), (Z.ltb_spec x (a + 1)); done || lia.
Qed.

(** The bytes [ds] at address [a], the rest as in [m]. *)
Definition overlaid (a : Z) (ds : list Z) (m m' : Z -> Z) : Prop :=
  forall x, m' x = if (a <=? x) && (x <? a + Z.of_nat (length ds)) then nth (Z.to_nat (x - a)) ds 0 else m x.
Definition all_plain s (a : Z) (n : nat) : Prop := forall x, a <= x < a + Z.of_nat n -> plain s x.

Lemma ICE_write_view s a d m : sees s m -> plain s a -> 0 <= d < 256 ->
  exists s', arm_ICE_write_byte a d s = Some (0, s') /\ sees s' (flat_write (bigendSig (cpu s)) Byte a d m) /\
    cpu s' = cpu s /\ (forall b, plain s b -> plain s' b).
Proof.
  intros Hm Ha Hd. unfold arm_ICE_write_byte, ARMul_ICE_WriteByte.
  destruct (view_write Byte a d s m Hm Ha) as (s' & -> & H); [unfold word; lia|].
  exists s'. cbn [mbind option_bind]. by destruct (decide (NO_FAULT = NO_FAULT)).
Qed.

Lemma ICE_read_view s a m : sees s m -> plain s a ->
  exists s', arm_ICE_read_byte a s = Some (0, m a, s') /\ sees s' m /\ cpu s' = cpu s /\
    (forall b, plain s b -> plain s' b).
Proof.
  intros Hm Ha. unfold arm_ICE_read_byte, ARMul_ICE_ReadByte.
  destruct (view_read Byte a s m Hm Ha) as (s' & -> & H). exists s'. cbn [mbind option_bind].
  rewrite flat_byte, Z.ldiff_0_l, Z.lor_0_l, !(Z.land_ones _ 8), Z.mod_mod, Z.mod_small by
    (done || by apply (view_bytes s m)). done.
Qed.

Lemma add32_next a n : 0 <= a -> a + Z.of_nat (S (S n)) <= 2 ^ 32 -> add32 a 1 = a + 1.
Proof. intros. unfold add32, u32. apply Z.mod_small. change 4294967296 with (2 ^ 32). lia. Qed.

Lemma sim_write_view ds : Forall (fun b => 0 <= b < 256) ds -> forall s a m,
  sees s m -> all_plain s a (length ds) -> 0 <= a -> a + Z.of_nat (length ds) <= 2 ^ 32 ->
  exists s' m', sim_write a ds s = Some (true, s') /\ sees s' m' /\ overlaid a ds m m' /\ cpu s' = cpu s /\
    (forall b, plain s b -> plain s' b).
Proof.
  induction 1 as [|d ds Hd Hds IH]; intros s a m Hm Hp Ha Hl.
  - exists s, m. split; [done|]. split; [done|]. split; [|done]. intros x. cbn [length].
    destruct (Z.leb_spec a x), (Z.ltb_spec x (a + Z.of_nat 0)); try done. lia.
  - cbn [length] in Hp, Hl. cbv beta in Hd. cbn [sim_write].
    destruct (ICE_write_view s a d m Hm (Hp a ltac:(lia)) Hd) as (s1 & -> & Hm1 & Hc1 & Hp1).
    cbn [mbind option_bind]. change (truth 0) with false. cbv iota. destruct ds as [|d' ds].
    + exists s1, (flat_write (bigendSig (cpu s)) Byte a d m). split; [done|]. split; [done|]. split; [|done].
      intros x. rewrite flat_byte_write by done. cbn [length]. change (Z.of_nat 1) with 1.
      destruct (Z.eqb_spec x a) as [->|].
      * rewrite (proj2 (Z.leb_le a a)), (proj2 (Z.ltb_lt a (a + 1))), Z.sub_diag by lia. done.
      * destruct (Z.leb_spec a x), (Z.ltb_spec x (a + 1)); try done. lia.
    + cbn [length] in Hp, Hl. rewrite (add32_next a (length ds)) by (done || lia).
      destruct (IH s1 (a + 1) _ Hm1) as (s2 & m2 & -> & Hm2 & Ho & Hc2 & Hp2);
        [intros x Hx; cbn [length] in Hx; apply Hp1, Hp; lia|lia|cbn [length]; lia|].
      exists s2, m2. split; [done|]. split; [done|]. split; [|split; [congruence|auto]].
      intros x. rewrite Ho, flat_byte_write by done. cbn [length].
      destruct (Z.eqb_spec x a) as [->|].
      * destruct (Z.leb_spec (a + 1) a); [lia|]. cbn [andb]. rewrite Z.sub_diag.
        destruct (Z.leb_spec a a), (Z.ltb_spec a (a + Z.of_nat (S (S (length ds))))); try lia. done.
      * destruct (Z.leb_spec (a + 1) x), (Z.leb_spec a x), (Z.ltb_spec x (a + 1 + Z.of_nat (S (length ds)))),
          (Z.ltb_spec x (a + Z.of_nat (S (S (length ds))))); try lia; cbn [andb]; try done.
        replace (Z.to_nat (x - a)) with (S (Z.to_nat (x - (a + 1)))) by lia. done.
Qed.

Lemma sim_read_view n : forall s a m,
  sees s m -> all_plain s a n -> 0 <= a -> a + Z.of_nat n <= 2 ^ 32 ->
  exists s', sim_read a n s = Some (Some (m <$> seqZ a (Z.of_nat n)), s') /\ sees s' m /\ cpu s' = cpu s /\
    (forall b, plain s b -> plain s' b).
Proof.
  induction n as [|n IH]; intros s a m Hm Hp Ha Hl; [by exists s|].
  cbn [sim_read]. destruct (ICE_read_view s a m Hm (Hp a ltac:(lia))) as (s1 & -> & Hm1 & Hc1 & Hp1).
  cbn [mbind option_bind]. change (truth 0) with false. cbv iota. rewrite (seqZ_cons a) by lia.
  replace (Z.pred (Z.of_nat (S n))) with (Z.of_nat n) by lia. destruct n as [|n].
  - by exists s1.
  - rewrite (add32_next a n) by done. destruct (IH s1 (a + 1) m Hm1) as (s2 & -> & Hm2 & Hc2 & Hp2);
      [intros x Hx; apply Hp1, Hp; lia|lia|lia|].
    exists s2. split; [done|]. split; [done|]. split; [congruence|auto].
Qed.
End Memory.

Lemma len_digits_text ns : Forall nib ns -> forall k acc, (length ns <= k)%nat -> 0 <= acc -> hex_acc acc ns < 2 ^ 32 ->
  len_digits k acc (hex_text ns) = Some (hex_acc acc ns).
Proof.
  induction 1 as [|n ns Hn Hns IH]; intros [|k] acc Hk Ha Hv; cbn [length] in Hk; try done; [lia|].
  change (hex_text (n :: ns)) with (tohex n :: hex_text ns). cbn [len_digits].
  rewrite fromhex_tohex by done. cbn [mbind option_bind]. change (hex_acc acc (n :: ns)) with (hex_acc (acc * 16 + n) ns) in *.
  assert (acc * 16 + n < 2 ^ 32). { pose proof (hex_acc_le ns Hns (acc * 16 + n)). unfold nib in Hn. lia. }
  rewrite push_digit by done. apply IH; [lia|unfold nib in Hn; lia|done].
Qed.

Lemma ends_comma : ends [ch ","].
Proof. constructor; [by apply tohex_not|constructor]. Qed.
Lemma ends_colon : ends [ch ":"].
Proof. constructor; [by apply tohex_not|constructor]. Qed.

Section MemoryPackets.
Context {M : Type} `{!Board M} `{!MmuOps M} `{!FlatView M} `{!CoPros M}.
Implicit Type v : server M.

(** The requests for [len] bytes at [a], both written in hexadecimal. *)
Definition m_text (na nl : list Z) : list Z := hex_text na ++ ch "," :: hex_text nl.
Definition M_text (na nl ds : list Z) : list Z := m_text na nl ++ ch ":" :: convert_int_to_ascii ds.

Lemma decode_m_text na nl : Forall nib na -> Forall nib nl -> (length nl <= 4)%nat ->
  hex_value na < 2 ^ 32 -> hex_value nl < 2 ^ 32 -> decode_m_packet (m_text na nl) = Some (hex_value na, hex_value nl).
Proof.
  intros Ha Hl Hlen Hva Hvl. unfold decode_m_packet, m_text.
  rewrite (hex_until_text _ na) by (done || apply ends_comma || constructor). cbn [mbind option_bind tail].
  by rewrite len_digits_text.
Qed.

Lemma length_int_to_ascii ds : length (convert_int_to_ascii ds) = (2 * length ds)%nat.
Proof. induction ds as [|d ds IH]; [done|]. rewrite int_to_ascii_cons, length_app, IH. simpl. lia. Qed.

Lemma decode_M_text na nl ds : Forall nib na -> Forall nib nl -> hex_value na < 2 ^ 32 ->
  hex_value nl = Z.of_nat (length ds) -> hex_value nl < 2 ^ 32 -> Forall (fun b => 0 <= b < 256) ds ->
  decode_M_packet (M_text na nl ds) = Some (hex_value na, ds).
Proof.
  intros Ha Hl Hva Hvl Hlt Hds. unfold decode_M_packet, M_text, m_text. rewrite <- app_assoc.
  rewrite (hex_until_text _ na) by (done || apply ends_comma || constructor). cbn [mbind option_bind tail app].
  rewrite (hex_until_text _ nl) by (done || apply ends_colon || constructor). cbn [mbind option_bind tail length].
  change (hex_acc 0 nl) with (hex_value nl). rewrite length_int_to_ascii, Hvl.
  destruct (Z.ltb_spec (Z.of_nat (S (2 * length ds))) (Z.of_nat (length ds))); [lia|]. rewrite Nat2Z.id.
  rewrite <- (app_nil_r (convert_int_to_ascii ds)), ascii_round_trip by done. done.
Qed.

Lemma handle_m k n fuel na nl m v : Forall nib na -> Forall nib nl -> (length nl <= 4)%nat ->
  hex_value na < 2 ^ 32 -> hex_value nl <= 3999 -> hex_value na + hex_value nl <= 2 ^ 32 ->
  focusing v = false -> sees (target v) m -> all_plain (target v) (hex_value na) (Z.to_nat (hex_value nl)) ->
  exists s, handle k n fuel (ch "m") (m_text na nl) v =
      Some (Some (convert_int_to_ascii (m <$> seqZ (hex_value na) (hex_value nl))), v <| target := s |>) /\
    sees s m /\ cpu s = cpu (target v) /\ forall b, plain (target v) b -> plain s b.
Proof.
  intros Ha Hl Hlen Hva Hvl Hsum Hf Hm Hp. unfold handle. cbn [Z.eqb]. unfold on_m.
  pose proof (hex_acc_le nl Hl 0 ltac:(lia)) as H0. change (hex_acc 0 nl) with (hex_value nl) in H0.
  pose proof (hex_acc_le na Ha 0 ltac:(lia)) as H1. change (hex_acc 0 na) with (hex_value na) in H1.
  rewrite decode_m_text by (done || change (2 ^ 32) with 4294967296; lia). cbn [mbind option_bind]. rewrite Hf. cbn [andb].
  rewrite Z.min_l by lia.
  destruct (sim_read_view (Z.to_nat (hex_value nl)) (target v) (hex_value na) m) as (s & -> & H); [done|done|lia|lia|].
  cbn [mbind option_bind]. rewrite Z2Nat.id by lia. destruct (Z.leb_spec (hex_value nl) 3999); [|lia].
  by exists s.
Qed.

Lemma overlaid_read a ds m m' : overlaid a ds m m' -> m' <$> seqZ a (Z.of_nat (length ds)) = ds.
Proof.
  intros Ho. apply list_eq. intros i. rewrite list_lookup_fmap. destruct (decide (i < length ds)%nat) as [Hi|Hi].
  - rewrite lookup_seqZ_lt by lia. cbn [fmap option_fmap option_map]. rewrite Ho.
    destruct (Z.leb_spec a (a + Z.of_nat i)), (Z.ltb_spec (a + Z.of_nat i) (a + Z.of_nat (length ds))); try lia.
    cbn [andb]. replace (Z.to_nat (a + Z.of_nat i - a)) with i by lia.
    destruct (lookup_lt_is_Some_2 ds i Hi) as [x Hx]. by rewrite (nth_lookup_Some _ _ _ _ Hx), Hx.
  - rewrite lookup_seqZ_ge by lia. symmetry. apply lookup_ge_None. lia.
Qed.

(** C34: Memory through the debugger is the memory of the program.  A read
    request answers with the bytes of memory in hexadecimal; a write request
    answers OK and stores its bytes, at every address and nowhere else, and a
    read of the same range then returns the text that was sent.  The registers
    of the core do not change. *)
Theorem memory_packets k n fuel na nl ds m v : Forall nib na -> Forall nib nl -> (length nl <= 4)%nat ->
  hex_value nl = Z.of_nat (length ds) -> hex_value nl <= 3999 -> hex_value na + hex_value nl <= 2 ^ 32 ->
  hex_value na < 2 ^ 32 -> Forall (fun b => 0 <= b < 256) ds ->
  focusing v = false -> sees (target v) m -> all_plain (target v) (hex_value na) (length ds) ->
  (exists s, handle k n fuel (ch "m") (m_text na nl) v =
      Some (Some (convert_int_to_ascii (m <$> seqZ (hex_value na) (hex_value nl))), v <| target := s |>) /\
    sees s m /\ cpu s = cpu (target v)) /\
  (exists s1 m1 s2, handle k n fuel (ch "M") (M_text na nl ds) v = Some (Some write_ok, v <| target := s1 |>) /\
    sees s1 m1 /\ overlaid (hex_value na) ds m m1 /\ cpu s1 = cpu (target v) /\
    handle k n fuel (ch "m") (m_text na nl) (v <| target := s1 |>) =
      Some (Some (convert_int_to_ascii ds), v <| target := s2 |>) /\
    sees s2 m1 /\ cpu s2 = cpu (target v)).
Proof.
  intros Ha Hl Hlen Hvl Hle Hsum Hva Hds Hf Hm Hp.
  assert (Hn : Z.to_nat (hex_value nl) = length ds) by lia.
  split.
  - destruct (handle_m k n fuel na nl m v) as (s & E & Hs & Hc & _); try done; [by rewrite Hn|]. by exists s.
  - pose proof (hex_acc_le na Ha 0 ltac:(lia)) as H1. change (hex_acc 0 na) with (hex_value na) in H1.
    destruct (sim_write_view ds Hds (target v) (hex_value na) m Hm Hp) as (s1 & m1 & Ew & Hm1 & Ho & Hc1 & Hp1); [done|lia|].
    destruct (handle_m k n fuel na nl m1 (v <| target := s1 |>)) as (s2 & Er & Hm2 & Hc2 & _); try done.
    { rewrite Hn. intros x Hx. by apply Hp1, Hp. }
    exists s1, m1, s2. split.
    { unfold handle. cbn [Z.eqb]. unfold on_M.
      rewrite decode_M_text by (done || change (2 ^ 32) with 4294967296; lia). cbn [mbind option_bind]. rewrite Ew. done. }
    split; [done|]. split; [done|]. split; [done|]. split; [|split; [done|]; upds_in Hc2; congruence].
    by rewrite Er, Hvl, (overlaid_read _ _ _ _ Ho).
Qed.
End MemoryPackets.

(** ** Registers *)

Definition block_word (regs : list Z) (rn : Z) : Z := frommem (slice (arm_register_byte rn) 4 regs).

Lemma frommem_bytes b0 b1 b2 b3 : frommem [b0; b1; b2; b3] = shl32 b3 24 ||| (b2 <<< 16) ||| (b1 <<< 8) ||| b0.
Proof. done. Qed.

Lemma frommem_tomem w : word w -> frommem (tomem w) = w.
Proof.
  intros Hw. unfold tomem. change (endian_flag =? HIGH) with false. cbn [rev app]. rewrite frommem_bytes.
  apply Z.bits_inj'. intros k Hk0. destruct (Z.lt_ge_cases k 32) as [Hlt|Hge].
  - assert (Hk : 0 <= k < 32) by lia. clear Hk0 Hlt. unfold shl32. autorewrite with tbits. abstract_bits.
    revert k Hk. apply word_bits_cases. repeat constructor; vm_compute; case_bits.
  - unfold shl32. autorewrite with tbits. destruct (Z.ltb_spec k 32); [lia|]. cbn [andb orb].
    rewrite (testbit_high w 32 k) by (done || lia).
    assert (forall n, 8 <= n -> Z.testbit 255 n = false) as H8.
    { intros n Hn. apply Z.bits_above_log2; [done|]. change (Z.log2 255) with 7. lia. }
    rewrite !H8 by lia. by rewrite !andb_false_r.
Qed.

Lemma slice_lookup a n m i : 0 <= a -> (i < Z.to_nat n)%nat -> slice a n m !! i = m !! (Z.to_nat a + i)%nat.
Proof. intros. unfold slice. by rewrite lookup_take_lt, lookup_drop by done. Qed.

Lemma word_frommem a regs : Forall (fun b => 0 <= b < 256) regs -> 0 <= a -> a + 4 <= Z.of_nat (length regs) ->
  word (frommem (slice a 4 regs)).
Proof.
  intros Hb Ha Hl.
  assert (H : Forall (fun b => 0 <= b < 256) (slice a 4 regs)) by (by apply Forall_take, Forall_drop).
  assert (length (slice a 4 regs) = 4%nat) as Hs by (unfold slice; rewrite length_take, length_drop; lia).
  destruct (slice a 4 regs) as [|b0 [|b1 [|b2 [|b3 [|]]]]]; try discriminate Hs. rewrite frommem_bytes.
  repeat (apply list.Forall_cons in H as [? H]). cbv beta in *.
  assert (forall b n, 0 <= b < 256 -> 0 <= n <= 24 -> word (b <<< n)) as Hsh.
  { intros b n Hb' Hn. unfold word. rewrite Z.shiftl_mul_pow2 by lia.
    pose proof (Z.pow_le_mono_r 2 n 24 ltac:(lia) ltac:(lia)). pose proof (Z.pow_pos_nonneg 2 n ltac:(lia) ltac:(lia)).
    change (2 ^ 24) with 16777216 in *. nia. }
  repeat apply word_lor; [apply word_shl32|apply Hsh; lia|apply Hsh; lia|unfold word; lia].
Qed.

(** ** Blocks *)

Lemma length_blit a bs m : 0 <= a -> (Z.to_nat a + length bs <= length m)%nat -> length (blit a bs m) = length m.
Proof. intros. unfold blit. rewrite !length_app, length_take, length_drop. lia. Qed.

Lemma slice_blit_eq a bs m : (Z.to_nat a <= length m)%nat -> slice a (Z.of_nat (length bs)) (blit a bs m) = bs.
Proof.
  intros. unfold slice, blit. rewrite Nat2Z.id, drop_app_length' by (rewrite length_take; lia).
  by rewrite take_app_length.
Qed.

Lemma slice_blit_ne a b n bs m : 0 <= a -> 0 <= b -> (Z.to_nat a + length bs <= length m)%nat ->
  b + n <= a \/ a + Z.of_nat (length bs) <= b -> slice b n (blit a bs m) = slice b n m.
Proof.
  intros Ha Hb Hl Hd. apply list_eq. intros i. destruct (decide (i < Z.to_nat n)%nat) as [Hi|Hi].
  - rewrite !slice_lookup by done. unfold blit. destruct Hd.
    + rewrite lookup_app_l by (rewrite length_take; lia). apply lookup_take_lt. lia.
    + rewrite lookup_app_r by (rewrite length_take; lia). rewrite length_take, lookup_app_r by lia.
      rewrite lookup_drop. f_equal. lia.
  - unfold slice. by rewrite !lookup_take_ge by lia.
Qed.

Lemma slot_range rn : 0 <= rn < 26 -> 0 <= arm_register_byte rn /\ arm_register_byte rn + 4 <= 168.
Proof.
  intros. unfold arm_register_byte. destruct (Z.ltb_spec rn 16), (Z.ltb_spec 15 rn), (Z.ltb_spec rn 24), (Z.eqb_spec rn 24);
    cbn [andb]; lia.
Qed.
Lemma slots_disjoint i j : 0 <= i < 26 -> 0 <= j < 26 -> i <> j ->
  arm_register_byte j + 4 <= arm_register_byte i \/ arm_register_byte i + 4 <= arm_register_byte j.
Proof.
  intros. unfold arm_register_byte.
  destruct (Z.ltb_spec i 16), (Z.ltb_spec 15 i), (Z.ltb_spec i 24), (Z.eqb_spec i 24),
    (Z.ltb_spec j 16), (Z.ltb_spec 15 j), (Z.ltb_spec j 24), (Z.eqb_spec j 24); cbn [andb]; lia.
Qed.

(** What the block holds after all registers were fetched. *)
Definition fetched (c : ARMul_State) (rn : Z) : Z :=
  if rn <? 16 then ARMul_GetReg c (Mode c) rn else if rn =? CPSR_REGNUM then ARMul_GetCPSR c else 0.

Lemma fetch_all c memory : length memory = 168%nat -> (forall rn, 0 <= rn < 26 -> word (fetched c rn)) ->
  length (fetch_inferior_registers (-1) c memory) = 168%nat /\
  forall rn, 0 <= rn < 26 -> block_word (fetch_inferior_registers (-1) c memory) rn = fetched c rn.
Proof.
  intros Hl Hw. unfold fetch_inferior_registers. cbn [Z.eqb orb].
  pose proof (for_range_ind (fun i m => length m = 168%nat /\ forall rn, 0 <= rn < i -> block_word m rn = fetched c rn)
    0 ARM_NUM_REGS (fetch_one c) memory) as H. apply H; clear H; [done|split; [done|lia]|].
  intros i m Hi [Hm IH]. unfold ARM_NUM_REGS in Hi. destruct (slot_range i Hi) as [H1 H2].
  assert (Ht : length (arm_fetch_register i c) = 4%nat) by done.
  unfold fetch_one. split; [rewrite length_blit by (rewrite ?Ht; lia); done|].
  intros rn Hrn. unfold block_word. destruct (decide (rn = i)) as [->|Hne].
  - change 4 with (Z.of_nat 4). rewrite <- Ht, slice_blit_eq by lia. apply frommem_tomem, Hw. lia.
  - destruct (slot_range rn) as [H3 H4]; [lia|].
    rewrite slice_blit_ne; [apply IH; lia|lia|lia|rewrite Ht; lia|].
    rewrite Ht. destruct (slots_disjoint i rn); lia.
Qed.

Lemma mode_bits c : wf c -> Mode c &&& MODEBITS = Mode c.
Proof. intros Hwf. change MODEBITS with (Z.ones 5). rewrite Z.land_ones by done. apply Z.mod_small. apply Hwf. Qed.
Lemma GetReg_own c r : wf c -> ARMul_GetReg c (Mode c) r = reg c r.
Proof. intros. unfold ARMul_GetReg. by rewrite mode_bits, Z.eqb_refl. Qed.
Lemma SetReg_own c r x : wf c -> ARMul_SetReg (Mode c) r x c = set_reg r x c.
Proof. intros. unfold ARMul_SetReg. by rewrite mode_bits, Z.eqb_refl. Qed.

(** Where an access in the current mode and one in a mode of bank [b] reach the
    same register: the copies of r8 to r12 are FIQ's and the others', those of
    r13 and r14 one per bank. *)
Definition same_copy (current b : bank) (r : Z) : bool :=
  if (8 <=? r) && (r <? 13) then eqb (bool_decide (b = FIQBANK)) (bool_decide (current = FIQBANK))
  else if (13 <=? r) && (r <? 15) then bool_decide (b = current)
  else true.

Lemma same_copy_own b r : same_copy b b r = true.
Proof. unfold same_copy. rewrite eqb_reflx, bool_decide_eq_true_2 by done. by destruct ((8 <=? r) && (r <? 13)), ((13 <=? r) && (r <? 15)). Qed.

(** Writing the registers of the current mode changes the copies it uses. *)
Lemma phys_same_copy c c' b r : Bank c' = Bank c -> RegBank c' = RegBank c ->
  phys c' b r = if same_copy (Bank c) b r then reg c' r else phys c b r.
Proof.
  intros HB HR. unfold phys, same_copy, bank_reg. rewrite HB, HR. destruct ((8 <=? r) && (r <? 13)).
  - repeat case_bool_decide; repeat case_decide; done.
  - destruct (_ && _); [|done]. case_bool_decide; case_decide; done || congruence.
Qed.
Lemma phys_own c r : phys c (Bank c) r = reg c r.
Proof. rewrite (phys_same_copy c c) by done. by rewrite same_copy_own. Qed.

(** A write of the CPSR between modes of 32 bits keeps the PC. *)
Lemma SetCPSR_pc x c : wf c -> word x -> prog32Sig c <> LOW -> banked c -> SVC26MODE < Mode c -> SVC26MODE < x &&& MODEBITS ->
  ModeToBank (x &&& MODEBITS) <> DUMMYBANK -> reg (ARMul_SetCPSR x c) 15 = reg c 15.
Proof.
  intros Hwf Hw Hp [HB HD] Hm Hx Hd. rewrite HB in HD. unfold ARMul_SetCPSR, ARMul_CPSRAltered. cbv zeta. upds.
  destruct (Z.eqb_spec (prog32Sig c) LOW); [done|]. upds. set (m := x &&& MODEBITS) in *.
  set (c1 := c <| Cpsr := x |>). assert (Mode (change_mode m c1) = m /\ reg (change_mode m c1) 15 = reg c 15) as [Hm1 H15].
  { unfold change_mode. destruct (Z.eqb_spec (Mode c1) m) as [E|E]; [done|]. upds. split; [done|].
    destruct (SwitchMode_switched (Mode c1) m c1) as [_ _ H]; [|done..|].
    { by apply wf_set_Cpsr. }
    specialize (H USERBANK 15 ltac:(done) ltac:(lia)). exact H. }
  destruct (Z.ltb_spec SVC26MODE (Mode c)); [|lia].
  unfold ASSIGNINT, ASSIGNN, ASSIGNZ, ASSIGNC, ASSIGNV, ASSIGNS, ASSIGNT. upds. rewrite Hm1.
  destruct (Z.leb_spec m SVC26MODE); [lia|]. unfold reg in *. by upds.
Qed.

Lemma for_range_last {A} lo hi (body : Z -> A -> A) a : lo <= hi ->
  for_range lo (hi + 1) body a = body hi (for_range lo hi body a).
Proof.
  intros H. unfold for_range. replace (hi + 1 - lo) with (hi - lo + 1) by lia.
  rewrite seqZ_app, fold_left_app by lia. cbn. by replace (lo + (hi - lo)) with hi by lia.
Qed.

Lemma block_word_range regs rn : length regs = 168%nat -> Forall (fun b => 0 <= b < 256) regs -> 0 <= rn < 26 ->
  word (block_word regs rn).
Proof. intros Hl Hb Hrn. destruct (slot_range rn Hrn). apply word_frommem; [done|lia|lia]. Qed.

Lemma store_one_reg regs rn c : wf c -> 0 <= rn < 25 -> length regs = 168%nat -> Forall (fun b => 0 <= b < 256) regs ->
  store_one regs rn c = if rn <? 16 then set_reg rn (block_word regs rn) c else c.
Proof.
  intros Hwf Hrn Hl Hb. unfold store_one, arm_store_register. fold (block_word regs rn).
  destruct (Z.eqb_spec rn CPSR_REGNUM); [unfold CPSR_REGNUM in *; lia|]. by rewrite SetReg_own.
Qed.
Lemma store_one_cpsr regs c : store_one regs CPSR_REGNUM c = ARMul_SetCPSR (block_word regs CPSR_REGNUM) c.
Proof. done. Qed.

Lemma store_registers c regs : wf c -> length regs = 168%nat -> Forall (fun b => 0 <= b < 256) regs ->
  let c' := for_range 0 CPSR_REGNUM (store_one regs) c in
  wf c' /\ c' = c <| Reg := Reg c' |> /\ forall r, 0 <= r < 16 -> reg c' r = block_word regs r.
Proof.
  intros Hwf Hl Hb. cbv zeta.
  pose proof (for_range_ind (fun i c' => wf c' /\ c' = c <| Reg := Reg c' |> /\
    forall r, 0 <= r < 16 -> r < i -> reg c' r = block_word regs r) 0 CPSR_REGNUM (store_one regs) c) as H.
  destruct H as (Hwf1 & Hf1 & Hr1); [done|split; [done|]; split; [by destruct c|lia]| |].
  - intros i c1 Hi (Hw1 & HF & HR). unfold CPSR_REGNUM in Hi. rewrite store_one_reg by (done || lia).
    destruct (Z.ltb_spec i 16).
    + split; [apply wf_set_reg; [done|apply block_word_range; (done || lia)]|].
      split; [rewrite HF; unfold set_reg; by upds|]. intros r Hr Hlt.
      destruct (decide (r = i)) as [->|Hne].
      * unfold reg, set_reg. upds. apply rd_wr_eq. rewrite (wf_Reg_len c1 Hw1). lia.
      * rewrite reg_set_reg_ne by lia. apply HR; lia.
    + split; [done|]. split; [done|]. intros r Hr Hlt. apply HR; lia.
  - split; [done|]. split; [done|]. intros r Hr. apply Hr1; [done|unfold CPSR_REGNUM; lia].
Qed.

Lemma store_registers_last regs c : store_inferior_registers (-1) regs c =
  ARMul_SetCPSR (block_word regs CPSR_REGNUM) (for_range 0 CPSR_REGNUM (store_one regs) c).
Proof.
  unfold store_inferior_registers. rewrite Z.eqb_refl. cbn [orb].
  replace ARM_NUM_REGS with (CPSR_REGNUM + 1) by done. rewrite for_range_last by done. apply store_one_cpsr.
Qed.

(** The registers after a block is stored: those of the mode before it. *)
Definition block_phys (c : ARMul_State) (regs : list Z) (b : bank) (r : Z) : Z :=
  if same_copy (Bank c) b r then block_word regs r else phys c b r.

Lemma store_all c regs : wf c -> prog32Sig c <> LOW -> banked c -> SVC26MODE < Mode c ->
  length regs = 168%nat -> Forall (fun b => 0 <= b < 256) regs ->
  let mode := block_word regs CPSR_REGNUM &&& MODEBITS in
  SVC26MODE < mode -> ModeToBank mode <> DUMMYBANK ->
  let c' := store_inferior_registers (-1) regs c in
  wf c' /\ Mode c' = mode /\ banked c' /\ ARMul_GetCPSR c' = block_word regs CPSR_REGNUM &&& PSR_MASK /\
  reg c' 15 = block_word regs 15 /\
  forall b r, b <> DUMMYBANK -> 0 <= r < 15 -> phys c' b r = block_phys c regs b r.
Proof.
  intros Hwf Hp HB Hm Hl Hb mode H26 HD. cbv zeta. rewrite store_registers_last.
  destruct (store_registers c regs Hwf Hl Hb) as (Hwf1 & Hf1 & Hr1).
  set (c1 := for_range _ _ _ c) in *.
  assert (Mode c1 = Mode c /\ Bank c1 = Bank c /\ RegBank c1 = RegBank c /\ prog32Sig c1 = prog32Sig c) as (E1 & E2 & E3 & E4).
  { rewrite Hf1. by upds. }
  assert (Hb1 : banked c1) by (unfold banked in *; by rewrite E1, E2).
  rewrite <- E4 in Hp. rewrite <- E1 in Hm.
  assert (Hw : word (block_word regs CPSR_REGNUM)) by (apply (block_word_range regs CPSR_REGNUM Hl Hb); by split).
  destruct (SetCPSR_facts _ c1 Hwf1 Hw Hp) as (Hw2 & HC & HM2 & _ & HP). destruct (HP Hb1 HD) as [Hb2 HP2].
  split_and!; [done..| |].
  - rewrite (SetCPSR_pc _ c1) by done. by apply Hr1.
  - intros b r Hb' Hr. rewrite HP2 by done. unfold block_phys. rewrite (phys_same_copy c c1) by done.
    by rewrite Hr1 by lia.
Qed.

(** C35: The register block.  Writing a block of registers (the "G" request)
    answers OK.  Its words go to r0 to r14 as the mode before the request
    numbers them, to the PC and to the CPSR; if the new CPSR has another mode,
    that mode has its own copies of r13 and r14 (and r8 to r12 for FIQ), which
    keep their values, as all copies of other modes do: the words in the block
    for them went to the old mode.  Reading the block (the "g" request) then
    answers with the registers of the new mode, the PC, the CPSR restricted to
    the bits it has, and zeros for the floating-point registers; in
    particular, with r0 to r15 as written when the block keeps the mode.  The
    core stays well formed and reading does not change it. *)
Theorem register_packets {M} `{!Board M} `{!MmuOps M} `{!CoPros M} k n fuel regs p (v : server M) :
  length regs = 168%nat -> Forall (fun b => 0 <= b < 256) regs ->
  let c := cpu (target v) in let mode := block_word regs CPSR_REGNUM &&& MODEBITS in
  wf c -> prog32Sig c <> LOW -> banked c -> SVC26MODE < Mode c ->
  SVC26MODE < mode -> ModeToBank mode <> DUMMYBANK -> focusing v = false ->
  exists v' regs' v'',
    handle k n fuel (ch "G") (convert_int_to_ascii regs) v = Some (Some write_ok, v') /\
    let c' := cpu (target v') in
    wf c' /\ Mode c' = mode /\ banked c' /\ reg c' 15 = block_word regs 15 /\
    ARMul_GetCPSR c' = block_word regs CPSR_REGNUM &&& PSR_MASK /\
    (forall b r, b <> DUMMYBANK -> 0 <= r < 15 -> phys c' b r = block_phys c regs b r) /\
    handle k n fuel (ch "g") p v' = Some (Some (convert_int_to_ascii regs'), v'') /\ target v'' = target v' /\
    length regs' = 168%nat /\
    (forall r, 0 <= r < 15 -> block_word regs' r = block_phys c regs (ModeToBank mode) r) /\
    (mode = Mode c -> forall r, 0 <= r < 16 -> block_word regs' r = block_word regs r) /\
    block_word regs' 15 = block_word regs 15 /\
    (forall r, 16 <= r < CPSR_REGNUM -> block_word regs' r = 0) /\
    block_word regs' CPSR_REGNUM = block_word regs CPSR_REGNUM &&& PSR_MASK.
Proof.
  intros Hl Hb c mode Hwf Hp HB Hm H26 HD Hf.
  destruct (store_all c regs Hwf Hp HB Hm Hl Hb H26 HD) as (Hw & HM & HB' & HC & H15 & HP).
  set (c' := store_inferior_registers (-1) regs c) in *.
  set (v' := v <| registers := regs |> <| target ::= upd_cpu (store_inferior_registers (-1) regs) |>).
  assert (Hc' : cpu (target v') = c'). { unfold v'. upds. apply cpu_upd_cpu. }
  assert (Hreg : forall r, 0 <= r < 15 -> reg c' r = block_phys c regs (ModeToBank mode) r).
  { intros r Hr. rewrite <- (HP (ModeToBank mode) r HD Hr). rewrite <- phys_own. f_equal.
    unfold mode. rewrite <- HM. apply HB'. }
  assert (Hfetched : forall rn, 0 <= rn < 26 -> word (fetched c' rn)).
  { intros rn Hrn. unfold fetched. rewrite GetReg_own, HC by done. destruct (Z.ltb_spec rn 16); [by apply word_reg|].
    destruct (rn =? CPSR_REGNUM); [|by vm_compute]. apply word_land_l, block_word_range; [done..|by split]. }
  destruct (fetch_all c' regs Hl Hfetched) as [Hl' Hbw].
  assert (Hregs' : forall r, 0 <= r < 16 -> block_word (fetch_inferior_registers (-1) c' regs) r = reg c' r).
  { intros r Hr. rewrite Hbw by lia. unfold fetched. destruct (Z.ltb_spec r 16); [|lia]. by rewrite GetReg_own. }
  exists v', (fetch_inferior_registers (-1) c' regs), (v' <| registers := fetch_inferior_registers (-1) c' regs |>).
  split.
  { unfold handle. cbn [Z.eqb]. unfold on_G.
    rewrite <- (app_nil_r (convert_int_to_ascii regs)). change (Z.to_nat register_bytes) with 168%nat.
    rewrite <- Hl, ascii_round_trip by done. done. }
  cbv zeta. rewrite Hc'. split_and!; try done.
  { unfold handle. cbn [Z.eqb]. unfold on_g. change (focusing v') with (focusing v). rewrite Hf, Hc'. done. }
  - intros r Hr. by rewrite Hregs', Hreg by lia.
  - intros Ek r Hr. rewrite Hregs' by lia. destruct (decide (r = 15)) as [->|]; [done|]. rewrite Hreg by lia.
    unfold block_phys. rewrite Ek. destruct HB as [<- _]. by rewrite same_copy_own.
  - by rewrite Hregs' by lia.
  - intros r Hr. unfold CPSR_REGNUM in Hr. rewrite Hbw by lia. unfold fetched, CPSR_REGNUM.
    rewrite (proj2 (Z.ltb_ge _ _)), (proj2 (Z.eqb_neq _ _)) by lia. done.
  - unfold CPSR_REGNUM in *. rewrite Hbw by lia. exact HC.
Qed.
