(* ===== verification/GdbWitness.v ===== *)
(** * Concrete packets

    The theorems on the debugger at concrete packets, on the system of
    SysWitness.v. *)

From Stdlib Require Import Ascii String.
From S2P Require Import Prelude Words Bits ArmState ArmSupp ArmBanks ArmPsr UartDev Machine LpcState LpcIo LpcBoard ArmSys MemSpec Tlb Cache Arm7100 ArmVirt ArmCopro ArmValid ArmEmulate LdStSpec SysWitness GdbLink GdbTarget GdbTrace GdbServer GdbSpec.
Import ListNotations.

(** "OK" is sent twice, for the first answer is "-"; it arrives after some
    text outside frames and a frame with a wrong checksum. *)
Definition link_a : link := mkLink [] [str "-"; str "+"] [] false.
Definition link_b : link := mkLink [] [str "ab$O"; str "K#00$OK"; str "#9a+"] [] false.

Lemma packets_arrive_witness :
  (exists a', putpkt (str "OK") link_a = Some (1, a') /\ outbox a' = [frame (str "OK"); frame (str "OK")]) /\
  (exists b', getpkt link_b = Some (Some (str "OK"), b') /\ outbox b' = [str "-"; str "+"]).
Proof.
  destruct (packets_arrive (str "OK") (str "-") [] [mkBad (str "ab") (str "OK") (ch "0") (ch "0")] [] (str "+")
    link_a link_b) as (H1 & _ & H3); try done.
  - repeat constructor; done.
  - repeat constructor; done.
  - repeat constructor; done.
  - constructor; [|constructor]. split; [repeat constructor; done|]. split; [split; [repeat constructor; done|done]|].
    by exists 0, 0.
  - constructor.
  - repeat constructor; done.
  - split.
    + destruct (H1 eq_refl) as (a' & E & Ho & _). by exists a'.
    + destruct H3 as (b' & E & _ & Ho). by exists b'.
Defined.

(** A server on the system with 32 KB of RAM. *)
Definition tp0 : tracepoint_def := mkTp 0 0 [] TRACEPOINT_DISABLED 0 0 0.
Definition ice0 : SkyEye_ICE := mkIce (replicate 16 0) 0 TRACE_STOPPED (replicate 16 tp0) 0 [] 0 None [].
Definition server0 : server (machine lines) :=
  mkServer (sys0 0x70 1) ice0 (replicate 168 0) (mkLink [] [] [] false) 0 0 false.

Lemma bp_ok0 : bp_ok ice0.
Proof. split; [done|by split|constructor]. Qed.

(** "Z0,8000,4". *)
Lemma breakpoint_packets_witness :
  exists r i, handle 0 0 0 (ch "Z") (str "0,8000,4") server0 = Some (Some r, server0 <| ice := i |>) /\ bp_ok i.
Proof.
  destruct (breakpoint_packets 0 0 0 0 [8; 0; 0; 0] (str ",4") server0) as [(r & i & E & H & _) _].
  - constructor.
  - repeat constructor; done.
  - done.
  - by vm_compute.
  - by right.
  - apply bp_ok0.
  - exists r, i. split; [exact E|exact H].
Defined.

(** "M100,4:01020304". *)
Lemma memory_packets_witness :
  exists s1 s2, handle 0 0 0 (ch "M") (str "100,4:01020304") server0 = Some (Some write_ok, server0 <| target := s1 |>) /\
    handle 0 0 0 (ch "m") (str "100,4") (server0 <| target := s1 |>) = Some (Some (str "01020304"), server0 <| target := s2 |>).
Proof.
  destruct (memory_packets 0 0 0 [1; 0; 0] [4] [1; 2; 3; 4] bytes0 server0) as [_ (s1 & m1 & s2 & E1 & _ & _ & _ & E2 & _)].
  - repeat constructor; done.
  - repeat constructor; done.
  - cbn [length]. lia.
  - reflexivity.
  - by vm_compute.
  - by vm_compute.
  - by vm_compute.
  - repeat constructor; done.
  - reflexivity.
  - apply sees0.
  - intros x Hx. apply plain0. change (hex_value [1; 0; 0]) with 256 in Hx. cbn [length] in Hx. lia.
  - exists s1, s2. split; [exact E1|exact E2].
Defined.

(** r0 to r15 all 0x07070707, the CPSR that of the core. *)
(** Every register byte 7, and the CPSR of IRQ mode: in the mode before, r7 and
    r13 are written; r13 reads back as the one of IRQ mode. *)
Definition regs0 : list Z := replicate 164 7 ++ tomem IRQ32MODE.
Lemma regs0_bytes : Forall (fun b => 0 <= b < 256) regs0.
Proof.
  apply list.Forall_app. split; [by apply Forall_replicate|]. unfold tomem. vm_compute. repeat constructor; done.
Qed.
Lemma register_packets_witness :
  exists v' regs' v'', handle 0 0 0 (ch "G") (convert_int_to_ascii regs0) server0 = Some (Some write_ok, v') /\
    handle 0 0 0 (ch "g") [] v' = Some (Some (convert_int_to_ascii regs'), v'') /\
    phys (cpu (target v')) USERBANK 13 = 0x07070707 /\ block_word regs' 7 = 0x07070707 /\ block_word regs' 13 = 0.
Proof.
  destruct (register_packets 0 0 0 regs0 [] server0) as (v' & regs' & v'' & E & _ & _ & _ & _ & _ & HP & E' & _ & _ & HR & _).
  - by vm_compute.
  - apply regs0_bytes.
  - apply wf_sys0.
  - by vm_compute.
  - by vm_compute.
  - by vm_compute.
  - by vm_compute.
  - by vm_compute.
  - done.
  - exists v', regs', v''. split; [exact E|]. split; [exact E'|].
    rewrite HP, !HR by done. split_and!; by vm_compute.
Defined.
