(* ===== verification/LpcCore.v ===== *)
(** * The peripherals and the core

    What the operations of the LPC2300 do to the core: they drive its two
    interrupt pins and leave everything else alone. *)

From S2P Require Import Prelude Words ArmState UartDev Machine LpcState LpcVic LpcUart LpcTimer LpcIo.

(** The core but for its interrupt pins. *)
Definition unpinned (c : ARMul_State) : ARMul_State := c <| NfiqSig := 0 |> <| NirqSig := 0 |>.

Create Rewrite HintDb pins.

Section Pins.
Context {host : Type} `{!UartDriver host}.
Implicit Type s : machine host.

(** The result, if there is one, has the core [c] but for the pins. *)
Definition pins (c : ARMul_State) (o : option (machine host)) : Prop :=
  match o with Some s' => unpinned (core s') = c | None => True end.
Definition read_pins (c : ARMul_State) (o : option (Z * machine host)) : Prop :=
  match o with Some (_, s') => unpinned (core s') = c | None => True end.

Lemma pins_bind c o (k : machine host -> option (machine host)) :
  pins c o -> (forall s, unpinned (core s) = c -> pins c (k s)) -> pins c (o ≫= k).
Proof. intros H Hk. destruct o as [s|]; [by apply Hk|done]. Qed.
Lemma read_pins_bind c o (k : machine host -> option (Z * machine host)) :
  pins c o -> (forall s, unpinned (core s) = c -> read_pins c (k s)) -> read_pins c (o ≫= k).
Proof. intros H Hk. destruct o as [s|]; [by apply Hk|done]. Qed.
Lemma pins_loop c lo hi body s :
  unpinned (core s) = c -> (forall i s, unpinned (core s) = c -> pins c (body i s)) ->
  pins c (for_range_opt lo hi body s).
Proof.
  intros H Hb. unfold for_range_opt.
  assert (forall l o, pins c o -> pins c (fold_left (fun acc i => acc ≫= body i) l o)) as Hl.
  { intros l. induction l as [|i l IH]; intros o Ho; cbn [fold_left]; [done|].
    apply IH. apply pins_bind; [done|]. intros s0. by apply Hb. }
  by apply Hl.
Qed.

Lemma pins_some c s : unpinned (core s) = c -> pins c (Some s).
Proof. done. Qed.

(** Updates of the peripherals. *)
Lemma core_upd_io f s : core (upd_io f s) = core s.
Proof. reflexivity. Qed.
Lemma core_upd_vic f s : core (upd_vic f s) = core s.
Proof. reflexivity. Qed.
Lemma core_upd_timer i f s : core (upd_timer i f s) = core s.
Proof. reflexivity. Qed.
Lemma core_upd_uart i f s : core (upd_uart i f s) = core s.
Proof. reflexivity. Qed.
Lemma core_clear_source m s : core (clear_source m s) = core s.
Proof. reflexivity. Qed.
Lemma core_uart_receive i c s : core (uart_receive i c s) = core s.
Proof. reflexivity. Qed.
Lemma core_uart_raise i k s : core (uart_raise i k s) = core s.
Proof. reflexivity. Qed.
Lemma core_upd_dev (h : host) s : core (s <| dev := h |>) = core s.
Proof. reflexivity. Qed.
Lemma core_upd_cnt f s : core (s <| uartcnt ::= f |>) = core s.
Proof. reflexivity. Qed.
Hint Rewrite core_upd_io core_upd_vic core_upd_timer core_upd_uart core_clear_source core_uart_receive
  core_uart_raise core_upd_dev core_upd_cnt : pins.

(** [unpinned (core _)] of an updated state, by cases. *)
Ltac same_pins :=
  repeat first
    [ progress autorewrite with pins
    | match goal with |- context [core (if ?b then _ else _)] => destruct b end ];
  assumption.

Lemma pins_update_int c s : unpinned (core s) = c -> pins c (lpc2300_update_int s).
Proof.
  intros H. unfold pins. destruct (lpc2300_update_int s) as [s'|] eqn:E; [|done].
  destruct (update_int_inv s s' E) as [_ (_ & _ & _ & Hc)]. rewrite Hc, <- H. reflexivity.
Qed.

(** ** Timers *)

Lemma pins_timer_match c i ntc n s : unpinned (core s) = c -> pins c (timer_match i ntc n s).
Proof.
  intros H. unfold timer_match. destruct (_ =? _); [|exact H]. cbv zeta.
  match goal with |- pins _ (if _ then _ else Some ?x) => assert (unpinned (core x) = c) as H1 by same_pins;
    set (s1 := x) in *; clearbody s1 end.
  destruct (_ && _); [|exact H1]. apply pins_update_int. same_pins.
Qed.
Lemma pins_timer_cycle c i s : unpinned (core s) = c -> pins c (timer_cycle i s).
Proof.
  intros H. unfold timer_cycle. destruct (negb _); [exact H|]. destruct (truth _); [apply pins_some; same_pins|].
  destruct (truth _); [|exact H]. cbv zeta.
  match goal with |- pins _ (if _ then _ else Some ?x) => assert (unpinned (core x) = c) as H1 by same_pins;
    set (s1 := x) in *; clearbody s1 end.
  destruct (_ && _); [|exact H1]. apply pins_loop; [same_pins|]. intros. by apply pins_timer_match.
Qed.
Lemma pins_timer_write c addr data i s : unpinned (core s) = c -> pins c (lpc2300_timer_write addr data i s).
Proof.
  intros H. unfold lpc2300_timer_write. cbv zeta.
  destruct (_ =? 0).
  { match goal with |- pins _ (if _ then _ else Some ?x) => assert (unpinned (core x) = c) as H1 by same_pins;
      set (s1 := x) in *; clearbody s1 end.
    destruct (truth _); [by apply pins_update_int|exact H1]. }
  repeat (match goal with |- pins _ (if ?b then _ else _) => destruct b end; [apply pins_some; same_pins|]). exact H.
Qed.

(** ** UARTs *)

Lemma pins_end_int c i b s : unpinned (core s) = c -> pins c (uart_end_int i b s).
Proof.
  intros H. unfold uart_end_int. destruct (_ && _); [|exact H]. apply pins_update_int. same_pins.
Qed.
Lemma core_uart_transmit i s : core (lpc2300_uart_transmit i s).2 = core s.
Proof.
  unfold lpc2300_uart_transmit. cbv zeta. destruct (0 <? _); [|reflexivity].
  destruct (skyeye_uart_write _ _ _) as [n h]. destruct (0 <? n); [|reflexivity]. by destruct (_ && _).
Qed.
Lemma pins_uart_cycle c i s : unpinned (core s) = c -> pins c (uart_cycle i s).
Proof.
  intros H. unfold uart_cycle. destruct (negb _); [exact H|]. destruct (_ && _ && _); [|exact H].
  destruct (_ && _).
  - destruct (skyeye_uart_read i (dev s)) as [[n buf] h]. cbv zeta. apply pins_update_int. same_pins.
  - destruct (_ =? _); [|exact H]. pose proof (core_uart_transmit i s) as E.
    destruct (lpc2300_uart_transmit i s) as [res s1]. cbn [snd] in E. rewrite <- E in H.
    destruct (_ && _); [|exact H]. apply pins_update_int. same_pins.
Qed.
Lemma pins_read_end c i b s (data : machine host -> Z) :
  unpinned (core s) = c -> read_pins c (s' ← uart_end_int i b s; Some (data s', s')).
Proof. intros H. apply read_pins_bind; [by apply pins_end_int|done]. Qed.
Lemma pins_uart_read c addr i s : unpinned (core s) = c -> read_pins c (lpc2300_uart_read addr i s).
Proof.
  intros H. unfold lpc2300_uart_read. cbv zeta.
  destruct (_ =? 0).
  { destruct (truth _); [exact H|]. apply (pins_read_end c i _ _ (fun s => rbr (uar s i))). same_pins. }
  destruct (_ =? 1); [exact H|]. destruct (_ =? 2).
  { apply (pins_read_end c i _ _ (fun _ => iir (uar s i))). same_pins. }
  destruct (_ =? 3); [exact H|]. destruct (_ =? 5).
  { apply (pins_read_end c i _ _ (fun s => lsr (uar s i))). autorewrite with pins.
    destruct (_ && _); [|exact H]. destruct (skyeye_uart_read i (dev s)) as [[n buf] h]. same_pins. }
  destruct (_ =? 6).
  { apply (pins_read_end c i _ _ (fun _ => msr (uar s i))). same_pins. }
  destruct (_ =? 7); exact H.
Qed.
Lemma pins_uart_write c addr data i s : unpinned (core s) = c -> pins c (lpc2300_uart_write addr data i s).
Proof.
  intros H. unfold lpc2300_uart_write. cbv zeta. destruct (_ =? 0).
  { destruct (truth _); [apply pins_some; same_pins|]. destruct (negb _).
    - destruct (skyeye_uart_write _ _ _) as [n h]. apply pins_some; same_pins.
    - apply pins_end_int. same_pins. }
  destruct (_ =? 1); [destruct (truth _); apply pins_some; same_pins|].
  repeat (match goal with |- pins _ (if ?b then _ else _) => destruct b end; [apply pins_some; same_pins|]). exact H.
Qed.

(** ** The register file and the machine *)

Lemma pins_read_word c addr s : unpinned (core s) = c -> read_pins c (lpc2300_io_read_word addr s).
Proof.
  intros H. unfold lpc2300_io_read_word. destruct (_ =? _).
  { apply read_pins_bind; [by apply pins_update_int|done]. }
  destruct (io_read_reg addr (io s)); [exact H|]. unfold io_read_default.
  repeat (match goal with |- read_pins _ (if ?b then _ else _) => destruct b end; 
    [lazymatch goal with |- read_pins _ (lpc2300_uart_read _ _ _) => by apply pins_uart_read | |- _ => exact H end|]).
  exact H.
Qed.
Lemma pins_write_VAR c s : unpinned (core s) = c -> pins c (vic_write_VAR s).
Proof.
  intros H. unfold vic_write_VAR. destruct (truth _); [apply pins_some; same_pins|]. cbv zeta.
  destruct (_ <? 16); [|exact H]. apply pins_update_int. same_pins.
Qed.
Lemma pins_write_default c addr data s : unpinned (core s) = c -> pins c (io_write_default addr data s).
Proof.
  intros H. unfold io_write_default.
  repeat (match goal with |- pins _ (if ?b then _ else _) => destruct b end;
    [lazymatch goal with
     | |- pins _ (lpc2300_uart_write _ _ _ _) => by apply pins_uart_write
     | |- pins _ (lpc2300_timer_write _ _ _ _) => by apply pins_timer_write
     | |- _ => apply pins_some; same_pins
     end|]).
  exact H.
Qed.
Lemma pins_write_word c addr data s : unpinned (core s) = c -> pins c (lpc2300_io_write_word addr data s).
Proof.
  intros H. unfold lpc2300_io_write_word, io_write_vic.
  repeat (match goal with |- pins _ (if ?b then _ else _) => destruct b end;
    [lazymatch goal with
     | |- pins _ (vic_write_VAR _) => by apply pins_write_VAR
     | |- pins _ (lpc2300_update_int _) => apply pins_update_int; same_pins
     | |- _ => apply pins_some; same_pins
     end|]).
  destruct (io_write_reg _ _ _); [apply pins_some; same_pins|by apply pins_write_default].
Qed.
Lemma pins_do_cycle c s : unpinned (core s) = c -> pins c (lpc2300_io_do_cycle s).
Proof.
  intros H. unfold lpc2300_io_do_cycle. apply pins_bind; [apply pins_loop; [done|]; intros; by apply pins_timer_cycle|].
  intros s1 H1. apply pins_bind; [apply pins_loop; [done|]; intros; by apply pins_uart_cycle|].
  intros s2 H2. cbn. destruct (_ =? 0); exact H2.
Qed.
End Pins.
