(* ===== verification/CoreTypes.v ===== *)
(** * The core keeps its types

    Every operation of the core that works on [ARMul_State] alone keeps the
    typing invariant: registers, PSRs and the registers that flow into them
    hold words, flags hold bits, and the arrays keep their C sizes. *)

From S2P Require Import Prelude Words ArmState ArmSupp ArmBanks ArmFlags ArmPsr ArmShift ArmMul ThumbDecode ArmInit ArmDp Machine ArmSys Tlb Arm7100 ArmVirt ArmLdSt ArmXfer ArmEmulate.

(** ** The invariant *)

(** [wf] with the other members whose values reach registers or memory; the
    processor is not an XScale. *)
Record typed (c : ARMul_State) : Prop := {
  ty_wf : wf c;
  ty_Base : word (Base c);
  ty_control : word (mmu_control c);
  ty_status : word (mmu_fault_status c);
  ty_fault : word (mmu_fault_address c);
  ty_endian : bit (bigendSig c);
  ty_XScale : is_XScale c = 0
}.

Create HintDb typed.

(** The members of [typed] that are not in [wf]. *)
Definition extra (c : ARMul_State) :=
  (Base c, mmu_control c, mmu_fault_status c, mmu_fault_address c, bigendSig c, is_XScale c).

Lemma typed_extra c c' : typed c -> wf c' -> extra c' = extra c -> typed c'.
Proof. intros [H1 H2 H3 H4 H5 H6 H7] Hw [= E1 E2 E3 E4 E5 E6]. split; congruence. Qed.
Lemma typed_rest c c' : typed c -> wf c' -> psr_rest c' = psr_rest c -> typed c'.
Proof. intros H Hw E. apply (typed_extra c); [done..|]. unfold psr_rest in E. unfold extra. congruence. Qed.

(** A change to members that [typed] does not mention. *)
Definition untyped (c : ARMul_State) :=
  (Reg c, RegBank c, Spsr c, Cpsr c, (NFlag c, ZFlag c, CFlag c, VFlag c, SFlag c, TFlag c, IFFlags c, Mode c), extra c).
Lemma typed_same c c' : untyped c' = untyped c -> typed c -> typed c'.
Proof.
  unfold untyped, extra. intros [= E1 E2 E3 E4 E5 E6 E7 E8 E9 E10 E11 E12 E13 E14 E15 E16 E17 E18] [H1 H2 H3 H4 H5 H6 H7].
  destruct H1. split; [constructor|..]; congruence.
Qed.

Lemma typed_reg c i : typed c -> word (reg c i).
Proof. intros H. apply word_reg, H. Qed.
Lemma typed_bank_reg c b i : typed c -> word (bank_reg c b i).
Proof. intros H. apply word_bank_reg, H. Qed.
Lemma typed_spsr c b : typed c -> word (spsr c b).
Proof. intros H. apply word_spsr, H. Qed.
Lemma typed_CPSR c : typed c -> word (CPSR c).
Proof. intros H. apply word_CPSR, H. Qed.
#[export] Hint Resolve typed_reg typed_bank_reg typed_spsr typed_CPSR ty_Base ty_control ty_status ty_fault : words.
#[export] Hint Resolve ty_wf : wf typed.

(** ** One member *)

Lemma typed_set_reg i v c : typed c -> word v -> typed (set_reg i v c).
Proof. intros H Hv. apply (typed_extra c); [done| |done]. by apply wf_set_reg; [apply H|]. Qed.
Lemma typed_set_bank_reg b i v c : typed c -> word v -> typed (set_bank_reg b i v c).
Proof. intros H Hv. apply (typed_extra c); [done| |done]. by apply wf_set_bank_reg; [apply H|]. Qed.
Lemma typed_set_spsr b v c : typed c -> word v -> typed (set_spsr b v c).
Proof. intros H Hv. apply (typed_extra c); [done| |done]. by apply wf_set_spsr; [apply H|]. Qed.
Lemma typed_Cpsr v c : typed c -> word v -> typed (c <| Cpsr := v |>).
Proof. intros H Hv. apply (typed_extra c); [done| |done]. by apply wf_set_Cpsr; [apply H|]. Qed.

Ltac typed_flag := intros [H ? ? ? ? ? ?] Hv; split; upds; try done; wf_frame.
Lemma typed_NFlag v c : typed c -> bit v -> typed (c <| NFlag := v |>).
Proof. typed_flag. Qed.
Lemma typed_ZFlag v c : typed c -> bit v -> typed (c <| ZFlag := v |>).
Proof. typed_flag. Qed.
Lemma typed_CFlag v c : typed c -> bit v -> typed (c <| CFlag := v |>).
Proof. typed_flag. Qed.
Lemma typed_VFlag v c : typed c -> bit v -> typed (c <| VFlag := v |>).
Proof. typed_flag. Qed.
Lemma typed_SFlag v c : typed c -> bit v -> typed (c <| SFlag := v |>).
Proof. typed_flag. Qed.
Lemma typed_TFlag v c : typed c -> bit v -> typed (c <| TFlag := v |>).
Proof. typed_flag. Qed.
Lemma typed_IFFlags v c : typed c -> 0 <= v < 4 -> typed (c <| IFFlags := v |>).
Proof. typed_flag. Qed.
Lemma typed_setBase v c : typed c -> word v -> typed (c <| Base := v |>).
Proof. typed_flag. Qed.
Lemma typed_set_control v c : typed c -> word v -> typed (c <| mmu_control := v |>).
Proof. typed_flag. Qed.
Lemma typed_set_status v c : typed c -> word v -> typed (c <| mmu_fault_status := v |>).
Proof. typed_flag. Qed.
Lemma typed_set_fault v c : typed c -> word v -> typed (c <| mmu_fault_address := v |>).
Proof. typed_flag. Qed.

#[export] Hint Resolve typed_set_reg typed_set_bank_reg typed_set_spsr typed_Cpsr typed_NFlag typed_ZFlag typed_CFlag
  typed_VFlag typed_SFlag typed_TFlag typed_IFFlags typed_setBase typed_set_control typed_set_status typed_set_fault : typed.

(** Composite operations: by cases on their tests, member by member. *)
Ltac typed_words := solve [auto 12 with typed words].
Ltac typed_step := match goal with
  | |- typed (if ?b then _ else _) => destruct b
  | |- typed (let '(_, _) := ?x in _) => destruct x eqn:?
  | |- typed _ => solve [auto 12 with typed words]
  | H : typed ?s |- typed (@upd _ _ _ _ _ ?s) => apply (typed_same s); [reflexivity|exact H]
  | |- typed (@upd _ _ _ _ _ ?s) =>
      first [ apply (typed_same s); [reflexivity|]
            | apply typed_Cpsr | apply typed_NFlag | apply typed_ZFlag | apply typed_CFlag | apply typed_VFlag
            | apply typed_SFlag | apply typed_TFlag | apply typed_IFFlags | apply typed_setBase
            | apply typed_set_control | apply typed_set_status | apply typed_set_fault ]
  | |- typed (set_reg _ _ _) => apply typed_set_reg
  | |- typed (set_spsr _ _ _) => apply typed_set_spsr
  | |- word (if ?b then _ else _) => destruct b
  | |- word _ => solve [auto 12 with typed words]
  | |- bit _ => solve [auto with typed words]
  | |- context [if ?b then _ else _] => no_if b; destruct b
  end.
Ltac typed_go := cbv zeta; repeat typed_step.

(** ** Next instruction, cycles, flags *)

Lemma typed_NORMALCYCLE c : typed c -> typed (NORMALCYCLE c).
Proof. intros H. unfold NORMALCYCLE. typed_go. Qed.
Lemma typed_FLUSHPIPE c : typed c -> typed (FLUSHPIPE c).
Proof. intros H. unfold FLUSHPIPE. typed_go. Qed.
Lemma typed_BUSUSEDN c : typed c -> typed (BUSUSEDN c).
Proof. intros H. unfold BUSUSEDN. typed_go. Qed.
#[export] Hint Resolve typed_NORMALCYCLE typed_FLUSHPIPE typed_BUSUSEDN : typed.
Lemma typed_BUSUSEDINCPCS c : typed c -> typed (BUSUSEDINCPCS c).
Proof. intros H. unfold BUSUSEDINCPCS. typed_go. Qed.
Lemma typed_BUSUSEDINCPCN c : typed c -> typed (BUSUSEDINCPCN c).
Proof. intros H. unfold BUSUSEDINCPCN. typed_go. Qed.
Lemma typed_INCPC c : typed c -> typed (INCPC c).
Proof. intros H. unfold INCPC. typed_go. Qed.
Lemma typed_Icycles n c : typed c -> typed (ARMul_Icycles n c).
Proof. intros H. unfold ARMul_Icycles. typed_go. Qed.
Lemma typed_Ccycles n c : typed c -> typed (ARMul_Ccycles n c).
Proof. intros H. unfold ARMul_Ccycles. typed_go. Qed.
Lemma typed_ASSIGNN b c : typed c -> typed (ASSIGNN b c).
Proof. intros H. unfold ASSIGNN. typed_go. Qed.
Lemma typed_ASSIGNZ b c : typed c -> typed (ASSIGNZ b c).
Proof. intros H. unfold ASSIGNZ. typed_go. Qed.
Lemma typed_ASSIGNC v c : typed c -> bit v -> typed (ASSIGNC v c).
Proof. intros H Hv. unfold ASSIGNC. typed_go. Qed.
Lemma typed_ASSIGNV b c : typed c -> typed (ASSIGNV b c).
Proof. intros H. unfold ASSIGNV. typed_go. Qed.
Lemma bit_0 : bit 0. Proof. by left. Qed.
Lemma bit_1 : bit 1. Proof. by right. Qed.
Lemma bit_land_1 x : bit (x &&& 1).
Proof. rewrite land_1_testbit_0. auto. Qed.
Lemma bit_top x : word x -> bit (x >>> 31).
Proof. intros Hx. rewrite top_testbit by done. auto. Qed.
#[export] Hint Resolve typed_BUSUSEDINCPCS typed_BUSUSEDINCPCN typed_INCPC typed_Icycles typed_Ccycles
  typed_ASSIGNN typed_ASSIGNZ typed_ASSIGNC typed_ASSIGNV : typed.
#[export] Hint Resolve bit_0 bit_1 bit_land_1 bit_top : typed.
Lemma typed_NegZero x c : typed c -> typed (ARMul_NegZero x c).
Proof. intros H. unfold ARMul_NegZero. typed_go. Qed.
Lemma typed_AddCarry x y z c : typed c -> typed (ARMul_AddCarry x y z c).
Proof. intros H. unfold ARMul_AddCarry. typed_go. Qed.
Lemma typed_SubCarry x y z c : typed c -> typed (ARMul_SubCarry x y z c).
Proof. intros H. unfold ARMul_SubCarry. typed_go. Qed.
Lemma typed_AddOverflow x y z c : typed c -> typed (ARMul_AddOverflow x y z c).
Proof. intros H. unfold ARMul_AddOverflow. typed_go. Qed.
Lemma typed_SubOverflow x y z c : typed c -> typed (ARMul_SubOverflow x y z c).
Proof. intros H. unfold ARMul_SubOverflow. typed_go. Qed.
#[export] Hint Resolve typed_NegZero typed_AddCarry typed_SubCarry typed_AddOverflow typed_SubOverflow : typed.

(** ** Modes, PSRs and exceptions *)

Lemma typed_SwitchMode o n c : typed c -> typed (ARMul_SwitchMode o n c).
Proof.
  intros H. destruct (SwitchMode_frame o n c (ty_wf _ H)) as [Hw E]. apply (typed_extra c); [done..|]. by rewrite E.
Qed.
Lemma typed_CPSRAltered c : typed c -> typed (ARMul_CPSRAltered c).
Proof.
  intros H. apply (typed_rest c); [done| |by apply CPSRAltered_rest, H].
  by destruct (CPSRAltered_unpacked c (ty_wf _ H)).
Qed.
#[export] Hint Resolve typed_SwitchMode typed_CPSRAltered : typed.
Lemma typed_SetCPSR v c : typed c -> word v -> typed (ARMul_SetCPSR v c).
Proof. intros H Hv. unfold ARMul_SetCPSR. typed_go. Qed.
Lemma word_SETPSR_typed m d x : word d -> word m -> word (SETPSR m d x).
Proof. intros Hd Hm. unfold SETPSR. apply word_lor; [by apply word_ldiff|by apply word_land_r]. Qed.
Lemma word_GetSPSR c m : typed c -> word (ARMul_GetSPSR c m).
Proof. intros H. unfold ARMul_GetSPSR, ARMul_GetCPSR. typed_go. Qed.
Lemma typed_SetSPSR m v c : typed c -> word v -> typed (ARMul_SetSPSR m v c).
Proof. intros H Hv. unfold ARMul_SetSPSR. typed_go. Qed.
#[export] Hint Resolve typed_SetCPSR typed_SetSPSR : typed.
#[export] Hint Resolve word_GetSPSR : words.
Lemma word_Cpsr c : typed c -> word (Cpsr c).
Proof. intros H. apply H. Qed.
#[export] Hint Resolve word_Cpsr : words.
Lemma typed_upd_Cpsr g c : typed c -> word (g (Cpsr c)) -> typed (c <| Cpsr ::= g |>).
Proof. intros H Hv. apply (typed_extra c); [done| |done]. destruct (ty_wf _ H). constructor; upds; done. Qed.

Lemma typed_FixCPSR instr rhs c : typed c -> typed (ARMul_FixCPSR instr rhs c).
Proof.
  intros H. unfold ARMul_FixCPSR. cbv zeta. apply typed_CPSRAltered.
  assert (forall (b : bool) m x, word m -> typed x -> typed (if b then x <| Cpsr ::= fun c => SETPSR m c rhs |> else x)) as Hf.
  { intros [] m x Hm Hx; [|done]. apply typed_upd_Cpsr; [done|]. apply word_SETPSR_typed; [by apply word_Cpsr|done]. }
  apply Hf; [by compute|].
  assert (typed (c <| Cpsr := ARMul_GetCPSR c |>)) as H0 by (unfold ARMul_GetCPSR; typed_go).
  destruct (_ && _); [|done]. repeat (apply Hf; [by compute|]). done.
Qed.
Lemma typed_FixSPSR instr rhs c : typed c -> typed (ARMul_FixSPSR instr rhs c).
Proof.
  intros H. unfold ARMul_FixSPSR. cbv zeta. destruct (BANK_CAN_ACCESS_SPSR _); [|done].
  assert (forall (b : bool) m x, word m -> typed x ->
    typed (if b then set_spsr (Bank x) (SETPSR m (spsr x (Bank x)) rhs) x else x)) as Hf.
  { intros [] m x Hm Hx; [|done]. apply typed_set_spsr; [done|]. apply word_SETPSR_typed; [by apply typed_spsr|done]. }
  repeat (apply Hf; [by compute|]). done.
Qed.
Lemma typed_change_mode m c : typed c -> 0 <= m < 32 -> typed (change_mode m c).
Proof.
  intros H Hm. apply (typed_rest c); [done| |by apply change_mode_rest, H]. by apply wf_change_mode; [apply H|].
Qed.
Lemma flags_range x : 0 <= x &&& 3 < 4.
Proof. by apply (land_range x 2). Qed.
Lemma typed_R15Altered c : typed c -> typed (ARMul_R15Altered c).
Proof.
  intros H. unfold ARMul_R15Altered, R15MODE. cbv zeta.
  assert (typed (change_mode (reg c 15 &&& R15MODEBITS) c)) as H1.
  { apply typed_change_mode; [done|]. pose proof (flags_range (reg c 15)). unfold R15MODEBITS. lia. }
  set (c1 := change_mode _ c) in *. clearbody c1.
  assert (typed (if SVC26MODE <? Mode c1 then c1 <| Emulate := CHANGEMODE |> else c1)) as H2 by typed_go.
  match type of H2 with typed ?x => set (c2 := x) in * end. clearbody c2. unfold ASSIGNR15INT.
  pose proof (flags_range ((reg c2 15 &&& R15INTBITS) >>> 26)). typed_go.
Qed.
#[export] Hint Resolve typed_FixCPSR typed_FixSPSR typed_R15Altered : typed.

Lemma typed_SetR15 v c : typed c -> word v -> typed (ARMul_SetR15 v c).
Proof. intros H Hv. unfold ARMul_SetR15. typed_go. Qed.
Lemma typed_SetPC v c : typed c -> word v -> typed (ARMul_SetPC v c).
Proof.
  intros H Hv. unfold ARMul_SetPC, R15CCINTMODE. typed_go.
Qed.
#[export] Hint Resolve typed_SetR15 typed_SetPC : typed.

Lemma typed_SETABORT i m d temp c : typed c -> word i -> word m -> typed (SETABORT i m d temp c).
Proof.
  intros H Hi Hm. unfold SETABORT, ARMul_GetCPSR. cbv zeta. apply typed_set_reg; [|auto with words].
  assert (typed (ARMul_SetSPSR m (CPSR c) c)) as H1 by typed_go. set (c1 := ARMul_SetSPSR _ _ _) in *. clearbody c1.
  apply typed_SetCPSR; [done|]. repeat apply word_lor; try done. apply word_ldiff. by apply typed_CPSR.
Qed.
Lemma typed_Abort v c : typed c -> word v -> typed (ARMul_Abort v c).
Proof.
  intros H Hv. unfold ARMul_Abort. cbv zeta.
  assert (typed (c <| Aborted := 0 |>)) as H0 by typed_go. set (c0 := c <| Aborted := 0 |>) in *. clearbody c0.
  match goal with |- context [SETABORT INTBITS _ 0 ?t] => set (temp := t) end. clearbody temp.
  match goal with |- context [ARMul_MODE32BIT ?x] => set (c1 := x) end.
  assert (typed c1) as H1.
  { subst c1. repeat case_match; try done; apply typed_SETABORT; try typed_go; by compute. }
  clearbody c1. unfold R15CCINTMODE. destruct (ARMul_MODE32BIT c1); apply typed_SetR15; try done.
  - typed_go.
  - apply word_lor; [|done]. apply word_land_l. by apply typed_reg.
Qed.
#[export] Hint Resolve typed_Abort : typed.
Lemma typed_UndefInstr instr c : typed c -> typed (ARMul_UndefInstr instr c).
Proof. intros H. apply typed_Abort; [done|by compute]. Qed.
Lemma typed_IntPending c : typed c -> typed (IntPending c).2.
Proof. intros H. unfold IntPending. repeat case_match; cbn [snd]; try done; apply typed_Abort; done || by compute. Qed.
#[export] Hint Resolve typed_UndefInstr : typed.

(** ** Operands and destinations *)

Definition typed_operand (o : operand) : Prop := forall c, typed c -> word (o c).1 /\ typed (o c).2.

Lemma word_shift c n : word c -> 0 <= n -> word (c >>> n).
Proof. intros Hc Hn. by apply word_shiftr. Qed.
#[export] Hint Resolve word_shift word_lor word_lxor word_ldiff : words.
Lemma nonneg_land a b : 0 <= b -> 0 <= a &&& b.
Proof. intros Hb. by apply land_le_r. Qed.
#[export] Hint Extern 1 (0 <= Z.land _ _) => apply nonneg_land; done : words.
#[export] Hint Extern 1 (0 <= _) => lia : words.

(** The cases of a shifter routine. *)
Ltac operand_go := repeat match goal with
  | |- context [if ?b then _ else _] => no_if b; destruct b eqn:?
  end; cbn [fst snd]; split; typed_go.

Lemma typed_GetDPRegRHS instr : typed_operand (GetDPRegRHS instr).
Proof.
  intros c H. unfold GetDPRegRHS. cbv zeta. pose proof (BITS_range instr 7 11 ltac:(lia) ltac:(lia)) as Hk.
  destruct (truth (BIT instr 4)).
  - assert (typed (ARMul_Icycles 1 (INCPC c))) as H1 by typed_go.
    pose proof (typed_INCPC c H) as H0. pose proof (typed_reg _ (RHSReg instr) H0) as Hb.
    set (base := reg (INCPC c) _) in *. clearbody base. set (c1 := ARMul_Icycles 1 (INCPC c)) in *. clearbody c1.
    pose proof (land_le_r (reg c1 (BITS instr 8 11)) 0xff ltac:(lia)) as Hs. set (shamt := _ &&& 0xff) in *. clearbody shamt.
    operand_go.
  - pose proof (typed_reg _ (RHSReg instr) H) as Hb. set (base := reg c _) in *. clearbody base. operand_go.
Qed.
Lemma typed_GetDPSRegRHS instr : typed_operand (GetDPSRegRHS instr).
Proof.
  intros c H. unfold GetDPSRegRHS, GetDPSRegRHS_reg, GetDPSRegRHS_imm. cbv zeta.
  pose proof (BITS_range instr 7 11 ltac:(lia) ltac:(lia)) as Hk.
  destruct (truth (BIT instr 4)).
  - assert (typed (ARMul_Icycles 1 (INCPC c))) as H1 by typed_go.
    pose proof (typed_INCPC c H) as H0. pose proof (typed_reg _ (RHSReg instr) H0) as Hb.
    set (base := reg (INCPC c) _) in *. clearbody base. set (c1 := ARMul_Icycles 1 (INCPC c)) in *. clearbody c1.
    pose proof (land_le_r (reg c1 (BITS instr 8 11)) 0xff ltac:(lia)) as Hs. set (shamt := _ &&& 0xff) in *. clearbody shamt.
    operand_go.
  - pose proof (typed_reg _ (RHSReg instr) H) as Hb. set (base := reg c _) in *. clearbody base.
    set (k := BITS instr 7 11) in *. clearbody k. operand_go.
Qed.
Lemma typed_DPRegRHS instr : typed_operand (DPRegRHS instr).
Proof. intros c H. unfold DPRegRHS. destruct (_ =? 0); [operand_go|by apply typed_GetDPRegRHS]. Qed.
Lemma typed_DPSRegRHS instr : typed_operand (DPSRegRHS instr).
Proof. intros c H. unfold DPSRegRHS. destruct (_ =? 0); [operand_go|by apply typed_GetDPSRegRHS]. Qed.
Lemma word_DPImmRHS instr : word (DPImmRHS instr).
Proof. apply word_ROTATER. Qed.
#[export] Hint Resolve word_DPImmRHS : words.
Lemma typed_dp_imm instr : typed_operand (dp_imm instr).
Proof. intros c H. split; [apply word_DPImmRHS|done]. Qed.
Lemma typed_DPSImmRHS instr : typed_operand (DPSImmRHS instr).
Proof. intros c H. unfold DPSImmRHS. split; [apply word_DPImmRHS|]. cbn [snd]. typed_go. Qed.

Lemma word_LHS_typed instr c : typed c -> word (LHS instr c).
Proof. intros H. unfold LHS. typed_go. Qed.
Lemma word_RHS instr c : typed c -> word (RHS instr c).
Proof. intros H. unfold RHS. typed_go. Qed.
Lemma word_GetLSRegRHS instr c : typed c -> word (GetLSRegRHS instr c).
Proof.
  intros H. unfold GetLSRegRHS. pose proof (BITS_range instr 7 11 ltac:(lia) ltac:(lia)) as Hk. typed_go.
Qed.
Lemma word_BITS instr m n : 0 <= m <= n -> n <= 31 -> word (BITS instr m n).
Proof.
  intros H1 H2. pose proof (BITS_range instr m n H1 H2) as Hr. apply (word_pow2 _ (n - m + 1)); [lia|done].
Qed.
Lemma word_LSRegRHS instr c : typed c -> word (LSRegRHS instr c).
Proof. intros H. unfold LSRegRHS. destruct (_ =? 0); [typed_go|by apply word_GetLSRegRHS]. Qed.
Lemma word_GetLS7RHS instr c : typed c -> word (GetLS7RHS instr c).
Proof.
  intros H. unfold GetLS7RHS. pose proof (word_BITS instr 0 3 ltac:(lia) ltac:(lia)). typed_go.
Qed.
#[export] Hint Resolve word_LHS_typed word_RHS word_LSRegRHS word_GetLS7RHS : words.

Lemma typed_WriteR15 v c : typed c -> typed (WriteR15 v c).
Proof. intros H. unfold WriteR15. typed_go. Qed.
Lemma typed_WriteSR15 v c : typed c -> typed (WriteSR15 v c).
Proof.
  intros H. unfold WriteSR15. cbv zeta.
  assert (typed (if 0 <? bank_index (Bank c) then ARMul_CPSRAltered (c <| Cpsr := spsr c (Bank c) |>) else c)) as H1 by typed_go.
  match type of H1 with typed ?x => set (c1 := x) in * end. clearbody c1. typed_go.
Qed.
Lemma typed_WriteR15Branch v c : typed c -> typed (WriteR15Branch v c).
Proof.
  intros H. unfold WriteR15Branch, ARMul_GetCPSR. cbv zeta. apply typed_FLUSHPIPE.
  match goal with |- typed (_ <| Cpsr := CPSR ?x |>) => assert (typed x) as H1 by typed_go; set (c1 := x) in * end.
  clearbody c1. typed_go.
Qed.
#[export] Hint Resolve typed_WriteR15 typed_WriteSR15 typed_WriteR15Branch : typed.
Lemma typed_WRITEDEST instr d c : typed c -> word d -> typed (WRITEDEST instr d c).
Proof. intros H Hd. unfold WRITEDEST. typed_go. Qed.
Lemma typed_WRITESDEST instr d c : typed c -> word d -> typed (WRITESDEST instr d c).
Proof. intros H Hd. unfold WRITESDEST. typed_go. Qed.
Lemma typed_WRITEDESTB instr d c : typed c -> word d -> typed (WRITEDESTB instr d c).
Proof. intros H Hd. unfold WRITEDESTB. typed_go. Qed.
#[export] Hint Resolve typed_WRITEDEST typed_WRITESDEST typed_WRITEDESTB : typed.

(** ** Data processing *)

Lemma typed_sub_flags_of a b d c : typed c -> typed (sub_flags_of a b d c).
Proof. intros H. unfold sub_flags_of, CLEARV, CLEARC. typed_go. Qed.
Lemma typed_add_flags_of a b d c : typed c -> typed (add_flags_of a b d c).
Proof. intros H. unfold add_flags_of, CLEARV, CLEARC, CLEARN. typed_go. Qed.
#[export] Hint Resolve typed_sub_flags_of typed_add_flags_of : typed.

Lemma typed_dp_plain instr rhs f c : typed_operand rhs -> (forall c l r, word l -> word r -> word (f c l r)) ->
  typed c -> typed (dp_plain instr rhs f c).
Proof.
  intros Ho Hf H. unfold dp_plain. destruct (Ho c H) as [H1 H2]. destruct (rhs c) as [r c1]. cbn [fst snd] in *.
  apply typed_WRITEDEST; [done|]. apply Hf; [by apply word_LHS_typed|done].
Qed.
Lemma typed_dp_logicS instr rhs f c : typed_operand rhs -> (forall l r, word l -> word r -> word (f l r)) ->
  typed c -> typed (dp_logicS instr rhs f c).
Proof.
  intros Ho Hf H. unfold dp_logicS. destruct (Ho c H) as [H1 H2]. destruct (rhs c) as [r c1]. cbn [fst snd] in *.
  apply typed_WRITESDEST; [done|]. apply Hf; [by apply word_LHS_typed|done].
Qed.
Lemma typed_dp_arithS instr rhs f flags c : typed_operand rhs -> (forall c l r, word l -> word r -> word (f c l r)) ->
  (forall a b d c, typed c -> typed (flags a b d c)) -> typed c -> typed (dp_arithS instr rhs f flags c).
Proof.
  intros Ho Hf Hg H. unfold dp_arithS. cbv zeta. pose proof (word_LHS_typed instr c H) as Hl.
  destruct (Ho c H) as [H1 H2]. destruct (rhs c) as [r c1]. cbn [fst snd] in *.
  apply typed_WRITESDEST; [by apply Hg|by apply Hf].
Qed.
Lemma typed_cpsr_from_spsr c : typed c -> typed (cpsr_from_spsr c).
Proof. intros H. unfold cpsr_from_spsr. typed_go. Qed.
#[export] Hint Resolve typed_cpsr_from_spsr : typed.
Lemma typed_dp_testL instr rhs f c : typed_operand rhs -> typed c -> typed (dp_testL instr rhs f c).
Proof.
  intros Ho H. unfold dp_testL. destruct (_ =? 15); [typed_go|]. destruct (Ho c H) as [H1 H2].
  destruct (rhs c) as [r c1]. cbn [fst snd] in *. typed_go.
Qed.
Lemma typed_dp_CMP instr rhs c : typed_operand rhs -> typed c -> typed (dp_CMP instr rhs c).
Proof.
  intros Ho H. unfold dp_CMP. cbv zeta. destruct (_ =? 15); [typed_go|]. destruct (Ho c H) as [H1 H2].
  destruct (rhs c) as [r c1]. cbn [fst snd] in *. typed_go.
Qed.
Lemma typed_dp_CMN instr rhs c : typed_operand rhs -> typed c -> typed (dp_CMN instr rhs c).
Proof.
  intros Ho H. unfold dp_CMN. cbv zeta. destruct (_ =? 15); [typed_go|]. destruct (Ho c H) as [H1 H2].
  destruct (rhs c) as [r c1]. cbn [fst snd] in *. typed_go.
Qed.

Lemma typed_dp_noS op instr rhs c : typed_operand rhs -> typed c -> typed (dp_noS op instr rhs c).
Proof.
  intros Ho H. unfold dp_noS. repeat case_match; try done; (apply typed_dp_plain; [done| |done]); intros; auto with words.
Qed.
Lemma typed_dp_S op instr rhs srhs c : typed_operand rhs -> typed_operand srhs -> typed c -> typed (dp_S op instr rhs srhs c).
Proof.
  intros Ho Hs H. unfold dp_S. cbv zeta.
  repeat case_match; first [ apply typed_dp_CMP; done | apply typed_dp_CMN; done | apply typed_dp_testL; done
    | apply typed_dp_logicS; [done| |done]; intros; auto with words
    | apply typed_dp_arithS; [done| | |done]; intros; auto with words typed ].
Qed.
#[export] Hint Resolve typed_DPRegRHS typed_DPSRegRHS typed_dp_imm typed_DPSImmRHS typed_dp_noS typed_dp_S : typed.

Lemma word_PSR c : typed c -> word (ECC c ||| EINT c ||| EMODE c).
Proof.
  intros H. destruct (ty_wf _ H). unfold ECC, EINT, EMODE. auto 10 with words.
Qed.
Lemma typed_MRS_CPSR instr c : typed c -> typed (MRS_CPSR instr c).
Proof. intros H. apply typed_set_reg; [done|by apply word_PSR]. Qed.
Lemma typed_MRS_SPSR instr c : typed c -> typed (MRS_SPSR instr c).
Proof. intros H. unfold MRS_SPSR. typed_go. Qed.
Lemma typed_MSR_CPSR_reg instr c : typed c -> typed (MSR_CPSR_reg instr c).
Proof.
  intros H. unfold MSR_CPSR_reg. destruct (typed_DPRegRHS instr c H) as [H1 H2]. destruct (DPRegRHS instr c) as [r c1].
  cbn [fst snd] in *. typed_go.
Qed.
Lemma typed_MSR_SPSR_reg instr c : typed c -> typed (MSR_SPSR_reg instr c).
Proof.
  intros H. unfold MSR_SPSR_reg. destruct (typed_DPRegRHS instr c H) as [H1 H2]. destruct (DPRegRHS instr c) as [r c1].
  cbn [fst snd] in *. typed_go.
Qed.
Lemma typed_exec_dp_imm instr c : typed c -> typed (exec_dp_imm instr c).
Proof. intros H. unfold exec_dp_imm. typed_go. Qed.
#[export] Hint Resolve typed_MRS_CPSR typed_MRS_SPSR typed_MSR_CPSR_reg typed_MSR_SPSR_reg typed_exec_dp_imm : typed.

(** ** Multiplies and version 5E *)

Lemma typed_mult_cycles r c : typed c -> typed (mult_cycles r c).
Proof. intros H. unfold mult_cycles. typed_go. Qed.
#[export] Hint Resolve typed_mult_cycles : typed.
Lemma typed_MUL instr c : typed c -> typed (MUL instr c).
Proof. intros H. unfold MUL. typed_go. Qed.
Lemma typed_MULS instr c : typed c -> typed (MULS instr c).
Proof. intros H. unfold MULS, SETZ, CLEARN. typed_go. Qed.
Lemma typed_MLA instr c : typed c -> typed (MLA instr c).
Proof. intros H. unfold MLA. typed_go. Qed.
Lemma typed_MLAS instr c : typed c -> typed (MLAS instr c).
Proof. intros H. unfold MLAS. typed_go. Qed.
#[export] Hint Resolve typed_MUL typed_MULS typed_MLA typed_MLAS : typed.

Lemma word_Add32 a b : word (Add32 a b).1 /\ word (Add32 a b).2.
Proof. unfold Add32. split; cbn [fst snd]; auto with words. Qed.
Lemma word_mul64_parts sg a b : word (mul64_parts sg a b).1 /\ word (mul64_parts sg a b).2.
Proof.
  unfold mul64_parts. cbv zeta.
  match goal with |- context [Add32 (mul32 ?x ?y) ?z] => set (m := Add32 (mul32 x y) z) end.
  destruct m as [lo k]. match goal with |- context [Add32 lo ?z] => pose proof (word_Add32 lo z) as [H1 H2]; destruct (Add32 lo z) end.
  cbn [fst snd] in *. repeat case_match; cbn [fst snd]; split; auto with words.
Qed.
Lemma typed_Multiply64 instr sg scc c : typed c -> typed (Multiply64 instr sg scc c).2.
Proof.
  intros H. unfold Multiply64. cbv zeta.
  pose proof (word_mul64_parts sg (reg c (BITS instr 0 3)) (reg c (BITS instr 8 11))) as [H1 H2].
  destruct (mul64_parts sg _ _) as [lo hi]. cbn [fst snd] in *.
  destruct (_ && _); destruct scc; cbn [snd]; typed_go.
Qed.
Lemma typed_MultiplyAdd64 instr sg scc c : typed c -> typed (MultiplyAdd64 instr sg scc c).2.
Proof.
  intros H. unfold MultiplyAdd64. cbv zeta. pose proof (typed_Multiply64 instr sg false c H) as H1.
  destruct (Multiply64 instr sg false c) as [n c1]. cbn [snd] in H1.
  pose proof (word_Add32 (reg c (BITS instr 12 15)) (reg c1 (BITS instr 12 15))) as [H2 H3].
  destruct (Add32 _ _) as [lo k]. cbn [fst snd] in *. destruct scc; cbn [snd]; typed_go.
Qed.
Lemma typed_long_mult f c : typed (f c).2 -> typed (long_mult f c).
Proof. intros H. unfold long_mult. destruct (f c). cbn [snd] in H. typed_go. Qed.
#[export] Hint Resolve typed_Multiply64 typed_MultiplyAdd64 typed_long_mult : typed.

Lemma typed_exec_multiply instr f c : exec_multiply instr = Some f -> typed c -> typed (f c).
Proof.
  unfold exec_multiply. intros E H. repeat case_match; try discriminate E; injection E as <-; typed_go.
Qed.

Lemma typed_SETS c : typed c -> typed (SETS c).
Proof. intros H. unfold SETS. typed_go. Qed.
#[export] Hint Resolve typed_SETS : typed.
Lemma typed_sat_add a b c : typed c -> word (sat_add a b c).1 /\ typed (sat_add a b c).2.
Proof. intros H. unfold sat_add, saturated. operand_go. Qed.
Lemma typed_sat_sub a b c : typed c -> word (sat_sub a b c).1 /\ typed (sat_sub a b c).2.
Proof. intros H. unfold sat_sub, saturated. operand_go. Qed.
Lemma typed_SMLAxy instr c : typed c -> typed (SMLAxy instr c).
Proof. intros H. unfold SMLAxy. typed_go. Qed.
Lemma typed_SMULxy instr c : typed c -> typed (SMULxy instr c).
Proof. intros H. unfold SMULxy. typed_go. Qed.
Lemma typed_SMLAWy instr c : typed c -> typed (SMLAWy instr c).
Proof. intros H. unfold SMLAWy. typed_go. Qed.
Lemma u64_high x : word (u64 x >>> 32).
Proof.
  unfold u64, word. rewrite Z.shiftr_div_pow2 by done. change (2 ^ 32) with 4294967296.
  pose proof (Z.mod_pos_bound x 18446744073709551616 eq_refl). dlia.
Qed.
#[export] Hint Resolve u64_high : words.
Lemma typed_SMLALxy instr c : typed c -> typed (SMLALxy instr c).
Proof. intros H. unfold SMLALxy. typed_go. Qed.
Lemma typed_QADD instr c : typed c -> typed (QADD instr c).
Proof.
  intros H. unfold QADD. pose proof (typed_sat_add (reg c (BITS instr 0 3)) (reg c (BITS instr 16 19)) c H) as [H1 H2].
  destruct (sat_add _ _ _). cbn [fst snd] in *. typed_go.
Qed.
Lemma typed_QSUB instr c : typed c -> typed (QSUB instr c).
Proof.
  intros H. unfold QSUB. pose proof (typed_sat_sub (reg c (BITS instr 0 3)) (reg c (BITS instr 16 19)) c H) as [H1 H2].
  destruct (sat_sub _ _ _). cbn [fst snd] in *. typed_go.
Qed.
Lemma typed_QDADD instr c : typed c -> typed (QDADD instr c).
Proof.
  intros H. unfold QDADD. cbv zeta. set (op2 := reg c (BITS instr 16 19)).
  pose proof (typed_sat_add op2 op2 c H) as [H1 H2]. destruct (sat_add op2 op2 c) as [d c1]. cbn [fst snd] in *.
  pose proof (typed_sat_add (reg c (BITS instr 0 3)) d c1 H2) as [H3 H4]. destruct (sat_add _ _ c1). cbn [fst snd] in *. typed_go.
Qed.
Lemma typed_QDSUB instr c : typed c -> typed (QDSUB instr c).
Proof.
  intros H. unfold QDSUB. cbv zeta. set (op2 := reg c (BITS instr 16 19)).
  pose proof (typed_sat_add op2 op2 c H) as [H1 H2]. destruct (sat_add op2 op2 c) as [d c1]. cbn [fst snd] in *.
  pose proof (typed_sat_sub (reg c (BITS instr 0 3)) d c1 H2) as [H3 H4]. destruct (sat_sub _ _ c1). cbn [fst snd] in *. typed_go.
Qed.
Lemma clz_loop_range fuel x n : n <= clz_loop fuel x n <= n + Z.of_nat fuel.
Proof.
  revert x n. induction fuel as [|fuel IH]; intros x n; cbn [clz_loop]; [lia|].
  destruct (_ =? 0); [|lia]. specialize (IH (shl32 x 1) (n + 1)). lia.
Qed.
Lemma typed_CLZ instr c : typed c -> typed (CLZ instr c).
Proof.
  intros H. unfold CLZ. cbv zeta. pose proof (clz_loop_range 32 (reg c (BITS instr 0 3)) 0). typed_go.
Qed.
#[export] Hint Resolve typed_SMLAxy typed_SMULxy typed_SMLAWy typed_SMLALxy typed_QADD typed_QSUB typed_QDADD typed_QDSUB
  typed_CLZ : typed.
Lemma typed_exec_dsp instr c0 f c : exec_dsp instr c0 = Some f -> typed c -> typed (f c).
Proof.
  unfold exec_dsp. intros E H. repeat case_match; try discriminate E; injection E as <-; typed_go.
Qed.

(** ** Branches, software interrupts, media instructions *)

Lemma typed_Branch instr pc c : typed c -> typed (Branch instr pc c).
Proof. intros H. unfold Branch. typed_go. Qed.
#[export] Hint Resolve typed_Branch : typed.
Lemma typed_BranchLink instr pc c : typed c -> typed (BranchLink instr pc c).
Proof. intros H. unfold BranchLink. typed_go. Qed.
Lemma typed_BLX1 instr pc c : typed c -> typed (BLX1 instr pc c).
Proof. intros H. unfold BLX1. typed_go. Qed.
Lemma typed_BLX2 instr pc c : typed c -> typed (BLX2 instr pc c).
Proof. intros H. unfold BLX2. typed_go. Qed.
Lemma typed_breakpoint c : typed c -> typed (breakpoint c).
Proof. intros H. unfold breakpoint. typed_go. Qed.
#[export] Hint Resolve typed_BranchLink typed_BLX1 typed_BLX2 typed_breakpoint : typed.
Lemma typed_BKPT c : typed c -> typed (BKPT c).
Proof.
  intros H. unfold BKPT. pose proof (typed_breakpoint c H) as H1. set (c1 := breakpoint c) in *. clearbody c1. typed_go.
Qed.
Lemma typed_set_cc t c : typed c -> typed (set_cc t c).
Proof. intros H. unfold set_cc. typed_go. Qed.
Lemma typed_exec_SWI instr pc c : typed c -> typed (exec_SWI instr pc c).
Proof. intros H. unfold exec_SWI. destruct (_ && _); apply typed_Abort; done. Qed.
#[export] Hint Resolve typed_BKPT typed_set_cc typed_exec_SWI : typed.

Lemma v6_ror_nonneg instr k : v6_ror instr = Some k -> 0 <= k.
Proof. unfold v6_ror. repeat case_match; intros [= <-]; lia. Qed.
Lemma typed_handle_v6_insn instr c c' : typed c -> handle_v6_insn instr c = Some c' -> typed c'.
Proof.
  intros H. unfold handle_v6_insn. cbv zeta. pose proof (word_BITS instr 10 11 ltac:(lia) ltac:(lia)) as Hb.
  pose proof (word_RHS instr c H) as Hr. set (r := RHS instr c) in *. clearbody r. unfold word in Hb.
  destruct (v6_ror instr) as [k|] eqn:E; [apply v6_ror_nonneg in E|];
    repeat case_match; cbn [mbind option_bind]; intros [= <-]; typed_go.
Qed.
Lemma typed_exec_ls_bit4 instr c : typed c -> typed (exec_ls_bit4 instr c).
Proof.
  intros H. unfold exec_ls_bit4. destruct (_ =? 0x7f); [destruct (_ =? _); typed_go|].
  destruct (truth (is_v6 c) && _); [|typed_go].
  destruct (handle_v6_insn instr c) as [c'|] eqn:E; [by apply (typed_handle_v6_insn instr c)|typed_go].
Qed.
#[export] Hint Resolve typed_exec_ls_bit4 : typed.

(** ** Thumb *)

Lemma typed_thumb_bl2 t pc c : typed c -> typed (thumb_bl2 t pc c).
Proof. intros H. unfold thumb_bl2. typed_go. Qed.
#[export] Hint Resolve typed_thumb_bl2 : typed.
Lemma typed_thumb_fmt16_19 pc t n c : typed c -> typed (thumb_fmt16_19 pc t n c).2.
Proof. intros H. unfold thumb_fmt16_19. cbv zeta. repeat case_match; cbn [snd]; typed_go. Qed.
Lemma typed_ThumbDecode pc t c : typed c -> typed (ARMul_ThumbDecode pc t c).2.
Proof.
  intros H. unfold ARMul_ThumbDecode. destruct (if truth (bigendSig c) then _ else _) as [next t'].
  repeat case_match; cbn [snd]; try done. by apply typed_thumb_fmt16_19.
Qed.
