(* ===== verification/ExecTypes.v ===== *)
(** * The instructions keep the system well typed

    Every instruction, and every turn of the loop, against an interface: a
    memory system and devices that keep their own invariant. *)

From S2P Require Import Prelude Words ArmState ArmSupp ArmBanks ArmFlags ArmPsr ArmShift ArmMul ThumbDecode ArmInit ArmDp Machine ArmSys Tlb Arm7100 ArmVirt ArmLdSt ArmBlock ArmXfer ArmCopro ArmValid ArmEmulate CoreTypes.

(** ** The interface

    [bus_ok]: the system is well typed, with whatever the memory system and
    the devices need; [bus_total]: no access leaves the simulator. *)
Class SafeBus (M : Type) `{!Board M} `{!MmuOps M} := {
  bus_total : bool;
  bus_ok : system M -> Prop;
  bus_typed s : bus_ok s -> typed (cpu s);
  bus_cpu f s : bus_ok s -> typed (f (cpu s)) -> bus_ok (upd_cpu f s);
  bus_events e s : bus_ok s -> bus_ok (s <| events := e |>);
  bus_read w a s : bus_ok s -> word a ->
    outcome bus_total (fun p => bus_ok p.2 /\ forall v, p.1 = inr v -> word v) (mmu_read w a s);
  bus_load_instr a s : bus_ok s -> word a ->
    outcome bus_total (fun p => bus_ok p.2 /\ forall v, p.1 = inr v -> word v) (mmu_load_instr a s);
  bus_write w a v s : bus_ok s -> word a -> word v -> outcome bus_total (fun p => bus_ok p.2) (mmu_write w a v s);
  bus_cycle s : bus_ok s -> outcome bus_total bus_ok (cycle s)
}.

(** The coprocessors exchange words. *)
Class SafeCoPros (M : Type) `{!Board M} `{!MmuOps M} `{!SafeBus M} `{!CoPros M} := {
  safe_LDC n ty i d s : bus_ok s -> word d -> outcome false (fun p => bus_ok p.2) (cp_LDC n ty i d s);
  safe_STC n ty i d s : bus_ok s -> word d -> outcome false (fun p => bus_ok p.2 /\ word p.1.2) (cp_STC n ty i d s);
  safe_MRC n ty i d s : bus_ok s -> word d -> outcome false (fun p => bus_ok p.2 /\ word p.1.2) (cp_MRC n ty i d s);
  safe_MCR n ty i d s : bus_ok s -> word d -> outcome false (fun p => bus_ok p.2) (cp_MCR n ty i d s);
  safe_CDP n ty i s : bus_ok s -> outcome false (fun p => bus_ok p.2) (cp_CDP n ty i s)
}.

Section Transfers.
Context {M : Type} `{!Board M} `{!MmuOps M} `{!SafeBus M}.
Implicit Type s : system M.

(** A transfer with a result, and one without. *)
Definition gives {A} (P : A -> Prop) (o : option (A * system M)) : Prop :=
  outcome bus_total (fun p => bus_ok p.2 /\ P p.1) o.
Definition keeps (o : option (system M)) : Prop := outcome bus_total bus_ok o.

Lemma ok_upd f s : bus_ok s -> (forall c, typed c -> typed (f c)) -> bus_ok (upd_cpu f s).
Proof. intros H Hf. apply bus_cpu; [done|]. by apply Hf, bus_typed. Qed.
Lemma ok_reg s i : bus_ok s -> word (reg (cpu s) i).
Proof. intros H. by apply typed_reg, bus_typed. Qed.

Lemma keeps_some s : bus_ok s -> keeps (Some s).
Proof. done. Qed.
Lemma keeps_upd f s : bus_ok s -> (forall c, typed c -> typed (f c)) -> keeps (Some (upd_cpu f s)).
Proof. apply ok_upd. Qed.

(** ** Loads and stores *)

Lemma typed_count_S c : typed c -> typed (count_S c).
Proof. intros H. unfold count_S. typed_go. Qed.
Lemma typed_count_N c : typed c -> typed (count_N c).
Proof. intros H. unfold count_N. typed_go. Qed.
Lemma typed_CLEARABORT c : typed c -> typed (ARMul_CLEARABORT c).
Proof. intros H. unfold ARMul_CLEARABORT. typed_go. Qed.
Lemma typed_PREFETCHABORT a c : typed c -> typed (ARMul_PREFETCHABORT a c).
Proof. intros H. unfold ARMul_PREFETCHABORT. typed_go. Qed.
Lemma typed_data_fault f a c : typed c -> word a -> typed (data_fault f a c).
Proof.
  intros H Ha. unfold data_fault, ARMul_DATAABORT. 
  match goal with |- typed ((?x <| abortSig := HIGH |>) <| Aborted := _ |>) => assert (typed x) as H1 by typed_go; set (c1 := x) in * end.
  clearbody c1. typed_go.
Qed.
Lemma word_ABORTWORD c : word (ARMul_ABORTWORD c).
Proof. unfold ARMul_ABORTWORD. by destruct (truth _); compute. Qed.
Hint Resolve typed_count_S typed_count_N typed_CLEARABORT typed_PREFETCHABORT typed_data_fault : typed.
Hint Resolve word_ABORTWORD : words.

Lemma read_data_ok w a s : bus_ok s -> word a -> gives word (read_data w a s).
Proof.
  intros H Ha. unfold read_data. eapply outcome_bind; [by apply bus_read|]. intros [[f|v] s1] [H1 Hv]; cbn in *.
  - split; [|apply word_ABORTWORD]. apply bus_cpu; [done|]. apply typed_data_fault; [|done]. by apply bus_typed.
  - split; [|by apply Hv]. apply ok_upd; [done|]. apply typed_CLEARABORT.
Qed.
Lemma write_data_ok w a v s : bus_ok s -> word a -> word v -> keeps (write_data w a v s).
Proof.
  intros H Ha Hv. unfold write_data. eapply outcome_bind; [by apply bus_write|]. intros [f s1] H1; cbn in *.
  destruct (decide _); [apply ok_upd; [done|apply typed_CLEARABORT]|].
  apply bus_cpu; [done|]. apply typed_data_fault; [|done]. by apply bus_typed.
Qed.

Lemma LoadWordN_ok a s : bus_ok s -> word a -> gives word (ARMul_LoadWordN a s).
Proof. intros H Ha. apply read_data_ok; [|done]. apply ok_upd; [done|apply typed_count_N]. Qed.
Lemma LoadWordS_ok a s : bus_ok s -> word a -> gives word (ARMul_LoadWordS a s).
Proof. intros H Ha. apply read_data_ok; [|done]. apply ok_upd; [done|apply typed_count_S]. Qed.
Lemma LoadHalf_ok a s : bus_ok s -> word a -> gives word (ARMul_LoadHalfWord a s).
Proof. intros H Ha. apply read_data_ok; [|done]. apply ok_upd; [done|apply typed_count_N]. Qed.
Lemma LoadByte_ok a s : bus_ok s -> word a -> gives word (ARMul_LoadByte a s).
Proof. intros H Ha. apply read_data_ok; [|done]. apply ok_upd; [done|apply typed_count_N]. Qed.
Lemma StoreWordN_ok a v s : bus_ok s -> word a -> word v -> keeps (ARMul_StoreWordN a v s).
Proof. intros H Ha Hv. apply write_data_ok; [|done..]. apply ok_upd; [done|apply typed_count_N]. Qed.
Lemma StoreWordS_ok a v s : bus_ok s -> word a -> word v -> keeps (ARMul_StoreWordS a v s).
Proof. intros H Ha Hv. apply write_data_ok; [|done..]. apply ok_upd; [done|apply typed_count_S]. Qed.
Lemma StoreHalf_ok a v s : bus_ok s -> word a -> word v -> keeps (ARMul_StoreHalfWord a v s).
Proof. intros H Ha Hv. apply write_data_ok; [|done..]. apply ok_upd; [done|apply typed_count_N]. Qed.
Lemma StoreByte_ok a v s : bus_ok s -> word a -> word v -> keeps (ARMul_StoreByte a v s).
Proof. intros H Ha Hv. apply write_data_ok; [|done..]. apply ok_upd; [done|apply typed_count_N]. Qed.

Lemma fetch_ok a s : bus_ok s -> word a ->
  outcome bus_total (fun p => bus_ok p.2 /\ forall v, p.1 = inr v -> word v) (fetch a s).
Proof. intros H Ha. unfold fetch. destruct (instcache s); [by apply bus_load_instr|by apply bus_read]. Qed.
Lemma ReLoadInstr_ok a n s : bus_ok s -> word a -> gives word (ARMul_ReLoadInstr a n s).
Proof.
  intros H Ha. unfold ARMul_ReLoadInstr.
  assert (forall s1, bus_ok s1 -> gives word (Some (ARMul_ABORTWORD (cpu (upd_cpu (ARMul_PREFETCHABORT a) s1)),
                                                upd_cpu (ARMul_PREFETCHABORT a) s1))) as Hab.
  { intros s1 H1. split; [|apply word_ABORTWORD]. apply ok_upd; [done|apply typed_PREFETCHABORT]. }
  destruct (_ && _); (eapply outcome_bind; [by apply fetch_ok|]); intros [[f|v] s1] [H1 Hv]; cbn [fst snd] in *; try by apply Hab.
  - eapply outcome_bind; [apply fetch_ok; [done|apply word_add32]|]. intros [[f|w] s2] [H2 Hw]; cbn [fst snd] in *; [by apply Hab|].
    specialize (Hv v eq_refl). specialize (Hw w eq_refl). split; cbn [fst snd].
    + apply ok_upd; [done|apply typed_CLEARABORT].
    + destruct (_ =? HIGH); auto with words.
  - split; [|by apply Hv]. apply ok_upd; [done|apply typed_CLEARABORT].
Qed.
Lemma LoadInstrS_ok a n s : bus_ok s -> word a -> gives word (ARMul_LoadInstrS a n s).
Proof. intros H Ha. apply ReLoadInstr_ok; [|done]. apply ok_upd; [done|apply typed_count_S]. Qed.
Lemma LoadInstrN_ok a n s : bus_ok s -> word a -> gives word (ARMul_LoadInstrN a n s).
Proof. intros H Ha. apply ReLoadInstr_ok; [|done]. apply ok_upd; [done|apply typed_count_N]. Qed.

Lemma SwapWord_ok a v s : bus_ok s -> word a -> word v -> gives word (ARMul_SwapWord a v s).
Proof.
  intros H Ha Hv. unfold ARMul_SwapWord. eapply outcome_bind; [by apply LoadWordN_ok|]. intros [t s1] [H1 Ht]; cbn in *.
  eapply outcome_bind; [apply bus_write; [|done..]; apply ok_upd; [done|apply typed_count_N]|]. intros [f s2] H2; cbn in *. done.
Qed.
Lemma SwapByte_ok a v s : bus_ok s -> word a -> word v -> gives word (ARMul_SwapByte a v s).
Proof.
  intros H Ha Hv. unfold ARMul_SwapByte. eapply outcome_bind; [by apply LoadByte_ok|]. intros [t s1] [H1 Ht]; cbn in *.
  eapply outcome_bind; [by apply StoreByte_ok|]. intros s2 H2. done.
Qed.

(** ** Single transfers *)

Lemma TAKEABORT_ok s : bus_ok s -> bus_ok (TAKEABORT s).
Proof. intros H. apply ok_upd; [done|]. intros c Hc. by apply typed_Abort. Qed.
Lemma abort_access_ok s : bus_ok s -> bus_ok (abort_access s).2.
Proof. apply TAKEABORT_ok. Qed.
Lemma end_load_ok instr f s : bus_ok s -> (forall c, typed c -> typed (f c)) -> bus_ok (end_load instr f s).2.
Proof. intros H Hf. apply ok_upd; [done|]. intros c Hc. by apply typed_Icycles, Hf. Qed.

(** The three loads and the three stores of the core return a system. *)
Definition done_ok (o : option (Z * system M)) : Prop := outcome bus_total (fun p => bus_ok p.2) o.

Lemma word_Align a x y : word x -> ARMul_Align a x = Some y -> word y.
Proof.
  intros Hx. unfold ARMul_Align. cbv zeta. destruct (_ =? 0); [done|]. intros [= <-].
  apply word_lor; [|apply word_shl32]. apply word_shiftr; [|done]. rewrite Z.shiftl_mul_pow2 by done.
  pose proof (nonneg_land a 3 ltac:(lia)). lia.
Qed.
Lemma Align_total a x : truth (a &&& 3) = true -> exists y, ARMul_Align a x = Some y.
Proof.
  intros H. unfold ARMul_Align. cbv zeta. destruct (Z.eqb_spec ((a &&& 3) <<< 3) 0) as [E|]; [|by eexists].
  rewrite Z.shiftl_mul_pow2 in E by done. unfold truth in H. replace (a &&& 3) with 0 in H by lia. discriminate.
Qed.
Lemma aligned_ok a x : word x -> outcome true word (if truth (a &&& 3) then ARMul_Align a x else Some x).
Proof.
  intros Hx. destruct (truth (a &&& 3)) eqn:E; [|done]. destruct (Align_total a x E) as [y Hy]. rewrite Hy.
  by apply (word_Align a x).
Qed.

Ltac upd_bus := apply ok_upd; [done|first [apply typed_BUSUSEDINCPCS | apply typed_BUSUSEDINCPCN]].

Lemma LoadWord_ok instr a s : bus_ok s -> word a -> done_ok (LoadWord instr a s).
Proof.
  intros H Ha. unfold LoadWord. eapply outcome_bind; [apply LoadWordN_ok; [upd_bus|done]|]. intros [d s1] [H1 Hd]; cbn [fst snd] in *.
  destruct (aborted s1); [by apply abort_access_ok|].
  eapply outcome_bind; [eapply outcome_mono; [by apply aligned_ok|done|exact (fun _ h => h)]|].
  intros x Hx. apply end_load_ok; [done|]. intros c Hc. by apply typed_WRITEDESTB.
Qed.
Lemma LoadHalfWord_ok instr a sx s : bus_ok s -> word a -> done_ok (LoadHalfWord instr a sx s).
Proof.
  intros H Ha. unfold LoadHalfWord. eapply outcome_bind; [apply LoadHalf_ok; [upd_bus|done]|]. intros [d s1] [H1 Hd]; cbn [fst snd] in *.
  destruct (aborted s1); [by apply abort_access_ok|]. cbv zeta.
  apply end_load_ok; [done|]. intros c Hc. apply typed_WRITEDEST; [done|]. destruct (_ && _); auto with words.
Qed.
Lemma LoadByte'_ok instr a sx s : bus_ok s -> word a -> done_ok (LoadByte instr a sx s).
Proof.
  intros H Ha. unfold LoadByte. eapply outcome_bind; [apply LoadByte_ok; [upd_bus|done]|]. intros [d s1] [H1 Hd]; cbn [fst snd] in *.
  destruct (aborted s1); [by apply abort_access_ok|]. cbv zeta.
  apply end_load_ok; [done|]. intros c Hc. apply typed_WRITEDEST; [done|]. destruct (_ && _); auto with words.
Qed.
Lemma end_store_ok s : bus_ok s -> bus_ok (end_store s).2.
Proof. intros H. unfold end_store. destruct (aborted s); [by apply abort_access_ok|done]. Qed.
Lemma StoreWord_ok instr a s : bus_ok s -> word a -> done_ok (StoreWord instr a s).
Proof.
  intros H Ha. unfold StoreWord. cbv zeta. assert (bus_ok (upd_cpu BUSUSEDINCPCN s)) as H0 by upd_bus.
  eapply outcome_bind; [apply StoreWordN_ok; [done..|by apply ok_reg]|]. intros s1 H1. by apply end_store_ok.
Qed.
Lemma StoreHalfWord_ok instr a s : bus_ok s -> word a -> done_ok (StoreHalfWord instr a s).
Proof.
  intros H Ha. unfold StoreHalfWord. cbv zeta. assert (bus_ok (upd_cpu BUSUSEDINCPCN s)) as H0 by upd_bus.
  eapply outcome_bind; [apply StoreHalf_ok; [done..|by apply ok_reg]|]. intros s1 H1. by apply end_store_ok.
Qed.
Lemma StoreByte'_ok instr a s : bus_ok s -> word a -> done_ok (StoreByte instr a s).
Proof.
  intros H Ha. unfold StoreByte. cbv zeta. assert (bus_ok (upd_cpu BUSUSEDINCPCN s)) as H0 by upd_bus.
  eapply outcome_bind; [apply StoreByte_ok; [done..|by apply ok_reg]|]. intros s1 H1. by apply end_store_ok.
Qed.

(** ** Double transfers *)

Lemma undef_ok instr s : bus_ok s -> bus_ok (undef instr s).
Proof. intros H. apply ok_upd; [done|]. intros c Hc. by apply typed_UndefInstr. Qed.
Lemma word_double_offset instr c : typed c -> word (double_offset instr c).
Proof.
  intros H. unfold double_offset. pose proof (word_BITS instr 0 3 ltac:(lia) ltac:(lia)). typed_go.
Qed.
Lemma word_double_sum instr c : word (double_sum instr c).
Proof. unfold double_sum. destruct (truth _); auto with words. Qed.
Lemma word_double_addr instr c : typed c -> word (double_addr instr c).
Proof. intros H. unfold double_addr. destruct (truth _); [apply word_double_sum|typed_go]. Qed.
Lemma typed_double_wb instr sum addr c : typed c -> word sum -> word addr -> typed (double_wb instr sum addr c).
Proof. intros H Hs Ha. unfold double_wb. typed_go. Qed.

Lemma Handle_Load_Double_ok instr s : bus_ok s -> keeps (Handle_Load_Double instr s).
Proof.
  intros H. unfold Handle_Load_Double. cbv zeta. assert (bus_ok (upd_cpu BUSUSEDINCPCS s)) as H0 by upd_bus.
  set (s0 := upd_cpu BUSUSEDINCPCS s) in *. clearbody s0. pose proof (word_double_sum instr (cpu s0)) as Ws.
  pose proof (word_double_addr instr (cpu s0) (bus_typed _ H0)) as Wa.
  repeat (match goal with |- keeps (if ?b then _ else _) => destruct b end; [by apply undef_ok|]).
  eapply outcome_bind; [by apply LoadWordN_ok|]. intros [v1 s1] [H1 W1]; cbn [fst snd] in *.
  eapply outcome_bind; [apply LoadWordN_ok; [done|apply word_add32]|]. intros [v2 s2] [H2 W2]; cbn [fst snd] in *.
  destruct (aborted s2); [by apply TAKEABORT_ok|]. apply ok_upd; [done|]. intros c Hc.
  apply typed_double_wb; [|done..]. typed_go.
Qed.
Lemma Handle_Store_Double_ok instr s : bus_ok s -> keeps (Handle_Store_Double instr s).
Proof.
  intros H. unfold Handle_Store_Double. cbv zeta. assert (bus_ok (upd_cpu BUSUSEDINCPCS s)) as H0 by upd_bus.
  set (s0 := upd_cpu BUSUSEDINCPCS s) in *. clearbody s0. pose proof (word_double_sum instr (cpu s0)) as Ws.
  pose proof (word_double_addr instr (cpu s0) (bus_typed _ H0)) as Wa.
  repeat (match goal with |- keeps (if ?b then _ else _) => destruct b end; [by apply undef_ok|]).
  eapply outcome_bind; [apply StoreWordN_ok; [done..|by apply ok_reg]|]. intros s1 H1.
  eapply outcome_bind; [apply StoreWordN_ok; [done|apply word_add32|by apply ok_reg]|]. intros s2 H2.
  destruct (aborted s2); [by apply TAKEABORT_ok|]. apply ok_upd; [done|]. intros c Hc. by apply typed_double_wb.
Qed.

(** ** Addressing and write-back *)

Lemma word_offset_by up a b : word (offset_by up a b).
Proof. unfold offset_by. destruct up; auto with words. Qed.
Lemma LSBase_set_ok instr v s : bus_ok s -> word v -> bus_ok (LSBase_set instr v s).
Proof. intros H Hv. apply ok_upd; [done|]. intros c Hc. by apply typed_set_reg. Qed.
Lemma write_back_ok d instr v s : bus_ok s -> word v -> bus_ok (write_back d instr v s).
Proof. intros H Hv. unfold write_back. destruct (truth d); [by apply LSBase_set_ok|done]. Qed.
Lemma ok_LHS instr s : bus_ok s -> word (LHS instr (cpu s)).
Proof. intros H. by apply word_LHS_typed, bus_typed. Qed.
Hint Resolve word_offset_by ok_LHS : words.

Lemma SH_post_ok up instr s : bus_ok s -> keeps (SH_post up instr s).
Proof.
  intros H. unfold SH_post. cbv zeta. eapply outcome_bind; [apply StoreHalfWord_ok; auto with words|].
  intros [d s1] H1. apply write_back_ok; [done|auto with words].
Qed.
Lemma SH_pre_ok up instr s : bus_ok s -> keeps (SH_pre up instr s).
Proof.
  intros H. unfold SH_pre. eapply outcome_bind; [apply StoreHalfWord_ok; auto with words|]. by intros [d s1] H1.
Qed.
Lemma SH_preWB_ok up instr s : bus_ok s -> keeps (SH_preWB up instr s).
Proof.
  intros H. unfold SH_preWB. cbv zeta. eapply outcome_bind; [apply StoreHalfWord_ok; auto with words|].
  intros [d s1] H1. apply write_back_ok; [done|auto with words].
Qed.
Lemma LH_load_ok instr load a s : LH_load instr = Some load -> bus_ok s -> word a -> done_ok (load a s).
Proof.
  unfold LH_load. intros E H Ha. repeat case_match; try discriminate E; injection E as <-; cbv beta;
    lazymatch goal with
    | |- done_ok (LoadHalfWord _ _ _ _) => by apply LoadHalfWord_ok
    | |- done_ok (LoadByte _ _ _ _) => by apply LoadByte'_ok
    end.
Qed.
Lemma LH_post_ok up instr rest s : bus_ok s -> keeps rest -> keeps (LH_post up instr rest s).
Proof.
  intros H Hr. unfold LH_post. cbv zeta. destruct (LH_load instr) as [load|] eqn:E; [|done].
  eapply outcome_bind; [apply (LH_load_ok _ _ _ _ E); auto with words|].
  intros [d s1] H1. apply write_back_ok; [done|auto with words].
Qed.
Lemma LH_pre_ok up instr rest s : bus_ok s -> keeps rest -> keeps (LH_pre up instr rest s).
Proof.
  intros H Hr. unfold LH_pre. cbv zeta. destruct (LH_load instr) as [load|] eqn:E; [|done].
  eapply outcome_bind; [apply (LH_load_ok _ _ _ _ E); auto with words|]. by intros [d s1] H1.
Qed.
Lemma LH_preWB_ok up instr rest s : bus_ok s -> keeps rest -> keeps (LH_preWB up instr rest s).
Proof.
  intros H Hr. unfold LH_preWB. cbv zeta. destruct (LH_load instr) as [load|] eqn:E; [|done].
  eapply outcome_bind; [apply (LH_load_ok _ _ _ _ E); auto with words|].
  intros [d s1] H1. apply write_back_ok; [done|auto with words].
Qed.

Lemma swap_abort_ok s : bus_ok s -> bus_ok (swap_abort s).
Proof. intros H. unfold swap_abort. destruct (_ || _); [by apply TAKEABORT_ok|done]. Qed.
Lemma set_dest_ok i v s : bus_ok s -> word v -> bus_ok (upd_cpu (set_reg i v) s).
Proof. intros H Hv. apply ok_upd; [done|]. intros c Hc. by apply typed_set_reg. Qed.
Lemma SWP_word_ok instr s : bus_ok s -> keeps (SWP_word instr s).
Proof.
  intros H. unfold SWP_word. cbv zeta. assert (bus_ok (upd_cpu BUSUSEDINCPCS s)) as H0 by upd_bus.
  eapply outcome_bind; [apply SwapWord_ok; [done|by apply ok_LHS|by apply ok_reg]|]. intros [d s1] [H1 Hd]; cbn [fst snd] in *.
  eapply outcome_bind; [eapply outcome_mono; [by apply aligned_ok|done|exact (fun _ h => h)]|].
  intros x Hx. by apply swap_abort_ok, set_dest_ok.
Qed.
Lemma SWP_byte_ok instr s : bus_ok s -> keeps (SWP_byte instr s).
Proof.
  intros H. unfold SWP_byte. cbv zeta. assert (bus_ok (upd_cpu BUSUSEDINCPCS s)) as H0 by upd_bus.
  eapply outcome_bind; [apply SwapByte_ok; [done|by apply ok_LHS|by apply ok_reg]|]. intros [d s1] [H1 Hd]; cbn [fst snd] in *.
  by apply swap_abort_ok, set_dest_ok.
Qed.

Lemma transfer_ok instr a s : bus_ok s -> word a -> done_ok (transfer instr a s).
Proof.
  intros H Ha. unfold transfer. repeat case_match;
    [by apply LoadByte'_ok|by apply LoadWord_ok|by apply StoreByte'_ok|by apply StoreWord_ok].
Qed.
Lemma typed_Ntrans v c : typed c -> typed (c <| NtransSig := v |>).
Proof. intros H. typed_go. Qed.
Lemma exec_ls_ok instr off s : bus_ok s -> keeps (exec_ls instr off s).
Proof.
  intros H. unfold exec_ls. destruct (truth (BIT instr 24)).
  - unfold LS_pre. cbv zeta. eapply outcome_bind; [apply transfer_ok; auto with words|]. intros [d s1] H1.
    destruct (truth _); [apply write_back_ok; auto with words|done].
  - unfold LS_post. cbv zeta.
    assert (bus_ok (if truth (BIT instr 21) then upd_cpu (fun c => c <| NtransSig := LOW |>) s else s)) as H0.
    { destruct (truth _); [|done]. apply ok_upd; [done|]. intros. by apply typed_Ntrans. }
    eapply outcome_bind; [apply transfer_ok; [done|by apply ok_LHS]|]. intros [d s1] H1. cbn [snd] in H1.
    match goal with |- outcome _ _ (Some (if _ then _ else write_back ?a ?b ?v ?w)) => assert (bus_ok (write_back a b v w)) as H2 end.
    { apply write_back_ok; [done|]. destruct (truth (BIT instr 20)); apply word_offset_by. }
    cbn. destruct (truth (BIT instr 21)); [|done]. apply ok_upd; [done|]. intros. by apply typed_Ntrans.
Qed.

(** ** Block transfers *)

(** A register list that names a register; [total] without one is undefined
    behaviour. *)
Definition has_list (instr : Z) : bool := negb (instr &&& 0xffff =? 0).
Definition keeps_list (instr : Z) (o : option (system M)) : Prop := outcome (bus_total && has_list instr) bus_ok o.

Lemma keeps_keeps_list instr o : keeps o -> keeps_list instr o.
Proof. intros H. eapply outcome_mono; [exact H| |done]. by rewrite andb_true_iff; intros []. Qed.

Lemma first_set_range fuel instr t u : first_set fuel instr t = Some u -> t <= u.
Proof.
  revert t. induction fuel as [|fuel IH]; intros t; cbn [first_set]; [done|].
  destruct (truth _); [intros [= <-]; lia|]. intros E. specialize (IH _ E). lia.
Qed.
Lemma first_set_found fuel instr t k : t <= k -> k < t + Z.of_nat fuel -> truth (BIT instr k) = true ->
  exists u, first_set fuel instr t = Some u /\ u <= k.
Proof.
  revert t. induction fuel as [|fuel IH]; intros t H1 H2 Hk; cbn [first_set]; [lia|].
  destruct (truth (BIT instr t)) eqn:E; [by exists t|]. apply IH; [|lia|done].
  destruct (decide (t = k)) as [->|]; [congruence|lia].
Qed.
Lemma has_list_first instr : has_list instr = true -> exists t, first_set 32 instr 0 = Some t /\ 0 <= t < 16.
Proof.
  intros H. unfold has_list in H. apply negb_true_iff, Z.eqb_neq in H.
  assert (exists k, 0 <= k < 16 /\ Z.testbit instr k = true) as (k & Hk & Hb).
  { destruct (decide (Exists (fun k => Z.testbit instr k = true) (seqZ 0 16))) as [E|E].
    - apply Exists_exists in E as (k & Hk & Hb). exists k. split; [|done]. apply list_elem_of_In, elem_of_seqZ in Hk. lia.
    - destruct H. apply Z.bits_inj'. intros j Hj. rewrite Z.land_spec, Z.bits_0.
      destruct (Z.lt_ge_cases j 16) as [Hl|Hl].
      + assert (Z.testbit instr j = false) as ->; [|done].
        apply not_true_iff_false. intros Hb. apply E, Exists_exists. exists j. split; [|done].
        apply list_elem_of_In, elem_of_seqZ. lia.
      + rewrite (testbit_high 65535 16 j); [by rewrite andb_false_r|done|lia]. }
  destruct (first_set_found 32 instr 0 k) as (t & E & Ht); [lia|lia|by rewrite truth_BIT by lia|].
  exists t. split; [done|]. pose proof (first_set_range _ _ _ _ E). lia.
Qed.

Lemma late_abort_ok s : bus_ok s -> exists s', late_abort s = Some s' /\ bus_ok s'.
Proof.
  intros H. unfold late_abort, XScale_set_fsr_far. rewrite (ty_XScale _ (bus_typed _ H)). cbn [truth Z.eqb negb mbind option_bind].
  eexists. split; [done|]. apply ok_upd; [done|]. intros. typed_go.
Qed.
Lemma late_store_ok s : bus_ok s -> exists s', late_store s = Some s' /\ bus_ok s'.
Proof. intros H. unfold late_store. destruct (_ && _); [by apply late_abort_ok|by exists s]. Qed.
Lemma put_loaded_ok t d s : bus_ok s -> word d -> outcome (t <? 16) bus_ok (put_loaded t d s).
Proof.
  intros H Hd. unfold put_loaded, reg_ok. destruct (_ && _).
  - destruct (t <? 16); [by apply set_dest_ok|done].
  - destruct (negb _); [|done]. by destruct (late_abort_ok s H) as (s' & -> & H').
Qed.
Lemma put_first_user_ok t d s : bus_ok s -> word d -> outcome (t <? 16) bus_ok (put_first_user t d s).
Proof.
  intros H Hd. unfold put_first_user, reg_ok. destruct (abort_low s).
  - destruct (t <? 16); [by apply set_dest_ok|done].
  - destruct (negb _); [|done]. by destruct (late_abort_ok s H) as (s' & -> & H').
Qed.

Definition reg_list (l : list Z) : Prop := Forall (fun t => 0 <= t < 16) l.
Lemma reg_list_from t : 0 <= t -> reg_list (seqZ (t + 1) (16 - (t + 1))).
Proof. intros Ht. unfold reg_list. rewrite Forall_seqZ. lia. Qed.

Lemma load_rest_ok instr a l s : bus_ok s -> word a -> reg_list l -> keeps (load_rest instr a l s).
Proof.
  intros H Ha Hl. revert a s Ha H. induction Hl as [|t l Ht Hl IH]; intros a s Ha H; cbn [load_rest]; [done|].
  destruct (truth _); [|by apply IH]. cbv zeta.
  eapply outcome_bind; [apply LoadWordS_ok; [done|apply word_add32]|]. intros [d s1] [H1 Hd]; cbn [fst snd] in *.
  pose proof (put_loaded_ok t d s1 H1 Hd) as H2. rewrite (proj2 (Z.ltb_lt t 16)) in H2 by lia.
  apply outcome_total in H2 as (s2 & -> & H2). cbn [mbind option_bind].
  destruct (aborted s2); [done|]. apply IH; [apply word_add32|done].
Qed.
Lemma store_rest_ok instr a l s : bus_ok s -> word a -> reg_list l -> keeps (store_rest instr a l s).
Proof.
  intros H Ha Hl. revert a s Ha H. induction Hl as [|t l Ht Hl IH]; intros a s Ha H; cbn [store_rest]; [done|].
  destruct (truth _); [|by apply IH]. cbv zeta.
  eapply outcome_bind; [apply StoreWordS_ok; [done|apply word_add32|by apply ok_reg]|]. intros s1 H1.
  destruct (late_store_ok s1 H1) as (s2 & -> & H2). cbn [mbind option_bind].
  destruct (aborted s2); [done|]. apply IH; [apply word_add32|done].
Qed.

(** The first register of the list. *)
Lemma first_reg_ok instr : outcome (has_list instr) (fun t => 0 <= t /\ (has_list instr = true -> t < 16)) (first_set 32 instr 0).
Proof.
  destruct (has_list instr) eqn:E.
  - destruct (has_list_first instr E) as (t & -> & Ht). cbn. lia.
  - destruct (first_set 32 instr 0) as [t|] eqn:F; [|done]. apply first_set_range in F. by split.
Qed.
Lemma list_total instr t : (has_list instr = true -> t < 16) -> bus_total && has_list instr = true -> (t <? 16) = true.
Proof. intros Ht. rewrite andb_true_iff. intros [_ E]. apply Z.ltb_lt. auto. Qed.
Lemma list_bus instr : bus_total && has_list instr = true -> bus_total = true.
Proof. by rewrite andb_true_iff; intros []. Qed.

(** The loads, with either way of placing the first word. *)
Lemma load_list_ok instr a (put : Z -> Z -> system M -> option (system M)) s : bus_ok s -> word a ->
  (forall t d s, bus_ok s -> word d -> outcome (t <? 16) bus_ok (put t d s)) ->
  keeps_list instr (temp ← first_set 32 instr 0; '(dest, s) ← ARMul_LoadWordN a s; s ← put temp dest s;
    if aborted s then Some s else load_rest instr a (seqZ (temp + 1) (16 - (temp + 1))) s).
Proof.
  intros H Ha Hput. eapply outcome_bind.
  { eapply outcome_mono; [apply first_reg_ok| |exact (fun _ h => h)]. by rewrite andb_true_iff; intros []. }
  intros t [H0 Ht]. eapply outcome_bind; [eapply outcome_mono; [by apply LoadWordN_ok|apply list_bus|exact (fun _ h => h)]|].
  intros [d s1] [H1 Hd]; cbn [fst snd] in *.
  eapply outcome_bind; [eapply outcome_mono; [by apply Hput|by apply list_total|exact (fun _ h => h)]|]. intros s2 H2.
  destruct (aborted s2); [done|]. apply keeps_keeps_list, load_rest_ok; [done..|by apply reg_list_from].
Qed.
Lemma store_regs_ok instr a s : bus_ok s -> word a -> keeps_list instr (store_regs instr a s).
Proof.
  intros H Ha. unfold store_regs. eapply outcome_bind.
  { eapply outcome_mono; [apply first_reg_ok| |exact (fun _ h => h)]. by rewrite andb_true_iff; intros []. }
  intros t [H0 Ht]. unfold reg_ok. destruct (t <? 16) eqn:E; cbn [mbind option_bind].
  2: { destruct (bus_total && has_list instr) eqn:F; [|done]. apply (list_total _ _ Ht) in F. congruence. }
  eapply outcome_bind; [eapply outcome_mono; [apply StoreWordN_ok; [done..|by apply ok_reg]|apply list_bus|exact (fun _ h => h)]|].
  intros s1 H1. destruct (late_store_ok s1 H1) as (s2 & -> & H2). cbn [mbind option_bind].
  destruct (aborted s2); [done|]. apply keeps_keeps_list, store_rest_ok; [done..|by apply reg_list_from].
Qed.

Lemma end_stores_ok instr wb s : bus_ok s -> word wb -> bus_ok (end_stores instr wb s).
Proof.
  intros H Hw. unfold end_stores. cbv zeta.
  assert (bus_ok (if writes_base instr && negb (early_abort s) then LSBase_set instr wb s else s)) as H1.
  { destruct (_ && _); [by apply LSBase_set_ok|done]. }
  match type of H1 with bus_ok ?x => set (s1 := x) in * end. destruct (aborted s1); [by apply TAKEABORT_ok|done].
Qed.
Lemma StoreMult_ok instr a wb s : bus_ok s -> word a -> word wb -> keeps_list instr (StoreMult instr a wb s).
Proof.
  intros H Ha Hw. unfold StoreMult. cbv zeta. eapply outcome_bind.
  { apply store_regs_ok; [|done]. destruct (negb _); [upd_bus|done]. }
  intros s1 H1. by apply end_stores_ok.
Qed.
Lemma switch_ok (b : bool) f s : bus_ok s -> (forall c, typed c -> typed (f c)) -> bus_ok (if b then upd_cpu f s else s).
Proof. intros H Hf. destruct b; [by apply ok_upd|done]. Qed.
Lemma StoreSMult_ok instr a wb s : bus_ok s -> word a -> word wb -> keeps_list instr (StoreSMult instr a wb s).
Proof.
  intros H Ha Hw. unfold StoreSMult. cbv zeta. eapply outcome_bind.
  { apply store_regs_ok; [|done]. apply switch_ok; [upd_bus|]. intros. by apply typed_SwitchMode. }
  intros s1 H1. apply end_stores_ok; [|done]. apply switch_ok; [done|]. intros. by apply typed_SwitchMode.
Qed.
Lemma LoadMult_ok instr a wb s : bus_ok s -> word a -> word wb -> keeps_list instr (LoadMult instr a wb s).
Proof.
  intros H Ha Hw. unfold LoadMult. cbv zeta. eapply outcome_bind.
  { apply load_list_ok; [upd_bus|done|apply put_loaded_ok]. }
  intros s1 H1.
  match goal with |- outcome _ _ (Some (if aborted ?x then _ else _)) => assert (bus_ok x) as H2 end.
  { apply ok_upd; [|intros; by apply typed_Icycles]. apply switch_ok; [done|]. intros. by apply typed_WriteR15Branch. }
  match type of H2 with bus_ok ?x => set (s2 := x) in * end. cbn.
  destruct (aborted s2); [by apply TAKEABORT_ok|]. destruct (writes_base instr); [by apply LSBase_set_ok|done].
Qed.
Lemma LoadSMult_ok instr a wb s : bus_ok s -> word a -> word wb -> keeps_list instr (LoadSMult instr a wb s).
Proof.
  intros H Ha Hw. unfold LoadSMult. cbv zeta. eapply outcome_bind.
  { apply load_list_ok; [|done|apply put_first_user_ok]. apply switch_ok; [upd_bus|]. intros. by apply typed_SwitchMode. }
  intros s1 H1. apply ok_upd; [|intros; by apply typed_Icycles]. apply switch_ok; [|intros; by apply typed_SwitchMode].
  match goal with |- context [not_user (cpu ?x)] => assert (bus_ok x) as H2; [|set (s2 := x) in *; clearbody s2] end.
  { destruct (aborted s1).
    - apply TAKEABORT_ok. destruct (_ && _); [by apply LSBase_set_ok|done].
    - destruct (writes_base instr); [by apply LSBase_set_ok|done]. }
  destruct (_ && _); [|done]. apply ok_upd; [|intros; by apply typed_WriteR15].
  apply switch_ok; [done|]. intros c Hc. typed_go.
Qed.
Lemma exec_block_ok instr s : bus_ok s -> keeps_list instr (exec_block instr s).
Proof.
  intros H. unfold exec_block. cbv zeta.
  assert (word (block_address instr (cpu s))) as Ha.
  { pose proof (ok_reg s (LHSReg instr) H). unfold block_address. repeat case_match; auto with words. }
  assert (word (block_wb instr (cpu s))) as Hw by (unfold block_wb; repeat case_match; auto with words).
  repeat case_match; [by apply LoadSMult_ok|by apply StoreSMult_ok|by apply LoadMult_ok|by apply StoreMult_ok].
Qed.
End Transfers.

(** ** Coprocessor instructions

    They take fuel, so that the results satisfy the invariant when there are
    any. *)
Section Copro.
Context {M : Type} `{!Board M} `{!MmuOps M} `{!SafeBus M} `{!CoPros M} `{!SafeCoPros M}.
Implicit Type s : system M.

Definition soft (o : option (system M)) : Prop := outcome false bus_ok o.
Lemma soft_some s : bus_ok s -> soft (Some s).
Proof. done. Qed.
Lemma keeps_soft o : keeps o -> soft o.
Proof. intros H. by eapply outcome_mono; [exact H| |]. Qed.

Lemma pending_ok s : bus_ok s -> bus_ok (upd_cpu (fun _ => (IntPending (cpu s)).2) s).
Proof. intros H. apply bus_cpu; [done|]. by apply typed_IntPending, bus_typed. Qed.

Lemma busy_wait_ok {A} (P : A -> Prop) fuel (h : Z -> A -> system M -> option (Z * A * system M)) cpab d nod s :
  (forall ty a s, bus_ok s -> P a -> outcome false (fun p => bus_ok p.2 /\ P p.1.2) (h ty a s)) ->
  P d -> P nod -> bus_ok s ->
  outcome false (fun p => bus_ok p.2 /\ forall cp a, p.1 = Some (cp, a) -> P a) (busy_wait fuel h cpab d nod s).
Proof.
  intros Hh Hd Hn. revert cpab d s Hd. induction fuel as [|fuel IH]; intros cpab d s Hd H; cbn [busy_wait];
    (destruct (negb _); [by split; [|intros cp a [= _ <-]]|]); [done|].
  assert (bus_ok (upd_cpu (ARMul_Icycles 1) s)) as H1 by (apply ok_upd; [done|intros; by apply typed_Icycles]).
  set (s1 := upd_cpu _ s) in *. cbv zeta. pose proof (pending_ok s1 H1) as H2. destruct (IntPending (cpu s1)) as [pend c].
  cbn [snd] in H2. destruct pend.
  - eapply outcome_bind; [by apply Hh|]. intros [[x y] s2] [H3 _]; cbn in *. done.
  - eapply outcome_bind; [by apply Hh|]. intros [[x y] s2] [H3 Hy]; cbn [fst snd] in *. by apply IH.
Qed.
Lemma start_ok {A} (P : A -> Prop) fuel (h : Z -> A -> system M -> option (Z * A * system M)) d nod s :
  (forall ty a s, bus_ok s -> P a -> outcome false (fun p => bus_ok p.2 /\ P p.1.2) (h ty a s)) ->
  P d -> P nod -> bus_ok s ->
  outcome false (fun p => bus_ok p.2 /\ forall cp a, p.1 = Some (cp, a) -> P a) (start fuel h d nod s).
Proof.
  intros Hh Hd Hn H. unfold start. eapply outcome_bind; [by apply Hh|]. intros [[x y] s1] [H1 Hy]; cbn [fst snd] in *.
  by apply busy_wait_ok.
Qed.

Lemma CPTAKEABORT_ok s : bus_ok s -> bus_ok (CPTAKEABORT s).
Proof. intros H. unfold CPTAKEABORT. apply ok_upd; [done|]. intros. apply typed_Abort; [done|]. by repeat case_match. Qed.
Lemma TAKEABORT26_ok s : bus_ok s -> bus_ok (TAKEABORT26 s).
Proof.
  intros H. unfold TAKEABORT26. destruct (_ =? _); [|by apply TAKEABORT_ok].
  apply ok_upd; [done|]. intros. by apply typed_Abort.
Qed.
Lemma check_address_ok bad a s : bus_ok s -> bus_ok (check_address bad a s).
Proof. intros H. unfold check_address, INTERNALABORT. destruct bad; [|done]. apply ok_upd; [done|]. intros c Hc. typed_go. Qed.
Lemma end_cp_transfer_ok instr s : bus_ok s -> bus_ok (end_cp_transfer instr s).
Proof.
  intros H. unfold end_cp_transfer. cbv zeta.
  match goal with |- bus_ok (if abort_seen ?x then _ else _) => assert (bus_ok x) as H1; [|set (s1 := x) in *; clearbody s1] end.
  { destruct (_ && _); [|done]. apply LSBase_set_ok; [done|]. apply (ty_Base _ (bus_typed _ H)). }
  destruct (abort_seen s1); [by apply TAKEABORT26_ok|done].
Qed.
Lemma upd_soft {A} (P : A -> Prop) (o : option (A * system M)) :
  gives P o -> outcome false (fun p => bus_ok p.2 /\ P p.1) o.
Proof. intros H. by eapply outcome_mono; [exact H| |]. Qed.

Lemma allowed_ok n s (k : bool -> option (system M)) : (forall b, soft (k b)) -> soft (CP_ACCESS_ALLOWED n s ≫= k).
Proof. intros Hk. unfold CP_ACCESS_ALLOWED. repeat case_match; cbn; first [apply Hk | done]. Qed.

Lemma ldc_words_ok fuel instr a cpab s : bus_ok s -> soft (ldc_words_loop fuel instr a cpab s).
Proof.
  revert a cpab s. induction fuel as [|fuel IH]; intros a cpab s H; cbn [ldc_words_loop];
    (destruct (negb _); [done|]); [done|]. cbv zeta.
  eapply outcome_bind; [by apply (upd_soft word), LoadWordN_ok; [|apply word_add32]|]. intros [d s1] [H1 Hd]; cbn [fst snd] in *.
  destruct (abort_seen s1); [done|]. eapply outcome_bind; [by apply safe_LDC|]. intros [x s2] H2; cbn in *. by apply IH.
Qed.
Lemma ARMul_LDC_ok fuel instr a s : bus_ok s -> word a -> soft (ARMul_LDC fuel instr a s).
Proof.
  intros H Ha. unfold ARMul_LDC. cbv zeta. apply allowed_ok. intros [|]; cbn [negb]; [|by apply undef_ok].
  pose proof (fun bad => check_address_ok bad a s H) as Hc. set (s0 := check_address _ _ s).
  assert (bus_ok s0) as H0 by apply Hc. clearbody s0.
  eapply outcome_bind; [apply (start_ok word); try done|].
  { intros ty v s1 H1 Hv. unfold give_data. eapply outcome_bind; [by apply safe_LDC|]. intros [x s2] H2. by split. }
  intros [[[cpab v]|] s1] [H1 _]; cbn [fst snd] in *; [|done]. destruct (_ =? ARMul_CANT); [by apply CPTAKEABORT_ok|].
  eapply outcome_bind; [by apply safe_LDC|]. intros [x s2] H2; cbn [snd] in H2.
  eapply outcome_bind; [by apply (upd_soft word), LoadWordN_ok|]. intros [d s3] [H3 Hd]; cbn [fst snd] in *.
  destruct (abort_seen s3); [by apply end_cp_transfer_ok|].
  eapply outcome_bind; [apply safe_LDC; [|done]; apply ok_upd; [done|apply typed_BUSUSEDINCPCN]|]. intros [y s4] H4; cbn [snd] in H4.
  eapply outcome_bind; [by apply ldc_words_ok|]. intros s5 H5. by apply end_cp_transfer_ok.
Qed.
Lemma stc_words_ok fuel instr a cpab d s : bus_ok s -> word d -> soft (stc_words_loop fuel instr a cpab d s).
Proof.
  revert a cpab d s. induction fuel as [|fuel IH]; intros a cpab d s H Hd; cbn [stc_words_loop];
    (destruct (negb _); [done|]); [done|]. cbv zeta.
  eapply outcome_bind; [by apply safe_STC|]. intros [[x d1] s1] [H1 Hd1]; cbn [fst snd] in *.
  eapply outcome_bind; [by apply keeps_soft, StoreWordN_ok; [|apply word_add32|]|]. intros s2 H2.
  destruct (abort_seen s2); [done|]. by apply IH.
Qed.
Lemma ARMul_STC_ok fuel d0 instr a s : bus_ok s -> word a -> word d0 -> soft (ARMul_STC fuel d0 instr a s).
Proof.
  intros H Ha Hd0. unfold ARMul_STC. cbv zeta. apply allowed_ok. intros [|]; cbn [negb]; [|by apply undef_ok].
  pose proof (fun bad => check_address_ok bad a s H) as Hc. set (s0 := check_address _ _ s).
  assert (bus_ok s0) as H0 by apply Hc. clearbody s0.
  eapply outcome_bind; [apply (start_ok word); try done; intros; by apply safe_STC|].
  intros [[[cpab v]|] s1] [H1 Hv]; cbn [fst snd] in *; [|done]. specialize (Hv _ _ eq_refl).
  destruct (_ =? ARMul_CANT); [by apply CPTAKEABORT_ok|].
  eapply outcome_bind; [apply safe_STC; [|done]; apply ok_upd; [by apply check_address_ok|apply typed_BUSUSEDINCPCN]|].
  intros [[x d] s2] [H2 Hd]; cbn [fst snd] in *.
  eapply outcome_bind; [by apply keeps_soft, StoreWordN_ok|]. intros s3 H3.
  eapply outcome_bind; [apply (outcome_mono false false bus_ok bus_ok); [|done..]; destruct (abort_seen s3); [done|by apply stc_words_ok]|].
  intros s4 H4. by apply end_cp_transfer_ok.
Qed.
Lemma ARMul_MCR_ok fuel instr v s : bus_ok s -> word v -> soft (ARMul_MCR fuel instr v s).
Proof.
  intros H Hv. unfold ARMul_MCR. cbv zeta. apply allowed_ok. intros [|]; cbn [negb]; [|by apply undef_ok].
  eapply outcome_bind; [apply (start_ok word); try done|].
  { intros ty w s1 H1 Hw. unfold give_data. eapply outcome_bind; [by apply safe_MCR|]. intros [x s2] H2. by split. }
  intros [[[cpab w]|] s1] [H1 _]; cbn [fst snd] in *; [|done]. destruct (_ =? ARMul_CANT); (apply ok_upd; [done|]); intros c Hc.
  - by apply typed_Abort.
  - by apply typed_Ccycles, typed_BUSUSEDINCPCN.
Qed.
Lemma word_ECC c : word (ECC c).
Proof. unfold ECC. auto 10 with words. Qed.
Lemma ARMul_MRC_ok fuel instr s : bus_ok s -> outcome false (fun p => bus_ok p.2 /\ word p.1) (ARMul_MRC fuel instr s).
Proof.
  intros H. assert (word 0xffffffff) as W by by compute. unfold ARMul_MRC. cbv zeta.
  assert (forall k, (forall b : bool, outcome false (fun p => bus_ok p.2 /\ word p.1) (k b)) ->
    outcome false (fun p : Z * system M => bus_ok p.2 /\ word p.1) (CP_ACCESS_ALLOWED (CPNum instr) s ≫= k)) as Hal.
  { intros k Hk. unfold CP_ACCESS_ALLOWED. repeat case_match; cbn; first [apply Hk | done]. }
  apply Hal. intros [|]; cbn [negb]; [|split; [by apply undef_ok|exact W]].
  eapply outcome_bind; [apply (start_ok word); [exact (fun ty d s1 => safe_MRC _ ty _ d s1)|by split|by split|exact H]|].
  intros [r s1] [H1 Hv]. cbn [fst snd] in H1, Hv. destruct r as [[cpab v]|].
  2: { split; [exact H1|]. by split. }
  specialize (Hv _ _ eq_refl). destruct (_ =? ARMul_CANT).
  - split; [|apply word_ECC]. apply ok_upd; [exact H1|]. intros c Hc. by apply typed_Abort.
  - split; [|exact Hv]. apply ok_upd; [exact H1|]. intros c Hc. by apply typed_Icycles, typed_Ccycles, typed_BUSUSEDINCPCN.
Qed.
Lemma ARMul_CDP_ok fuel instr s : bus_ok s -> soft (ARMul_CDP fuel instr s).
Proof.
  intros H. unfold ARMul_CDP. cbv zeta. apply allowed_ok. intros [|]; cbn [negb]; [|by apply undef_ok].
  eapply outcome_bind; [apply (start_ok (fun _ => True)); try done|].
  { intros ty w s1 H1 Hw. unfold no_data. eapply outcome_bind; [by apply safe_CDP|]. intros [x s2] H2. by split. }
  intros [[[cpab w]|] s1] [H1 _]; cbn [fst snd] in *; [|done]. destruct (_ =? ARMul_CANT); (apply ok_upd; [done|]); intros c Hc.
  - by apply typed_Abort.
  - by apply typed_BUSUSEDN.
Qed.

(** ** Decoding *)

(** What is sure to have a result: no transfer of an empty register list and
    no coprocessor instruction. *)
Definition regular (instr : Z) : bool :=
  match BITS instr 25 27 with
  | 4 => has_list instr
  | 6 => false
  | 7 => truth (BIT instr 24)
  | _ => true
  end.
(** The ARM instruction that is executed, if any. *)
Definition executed (instr pc : Z) (c : ARMul_State) : Z :=
  if truth (TFlag c) then
    match ARMul_ThumbDecode pc instr c with (t_decoded, new, _) => new | _ => 0 end
  else instr.
Definition runs (instr : Z) (o : option (system M)) : Prop := outcome (bus_total && regular instr) bus_ok o.

Lemma keeps_runs instr o : keeps o -> runs instr o.
Proof. intros H. eapply outcome_mono; [exact H| |done]. by rewrite andb_true_iff; intros []. Qed.
Lemma soft_runs instr o : soft o -> regular instr = false -> runs instr o.
Proof. intros H E. eapply outcome_mono; [exact H| |done]. by rewrite E, andb_false_r. Qed.

Lemma core_ok f s : bus_ok s -> (forall c, typed c -> typed (f c)) -> keeps (core f s).
Proof. apply ok_upd. Qed.
Lemma exec_STRH_ok instr s : bus_ok s -> keeps (exec_STRH instr s).
Proof.
  intros H. unfold exec_STRH. cbv zeta. repeat case_match; [by apply SH_post_ok|by apply SH_preWB_ok|by apply SH_pre_ok].
Qed.
Lemma exec_LDRH_ok instr rest s : bus_ok s -> keeps rest -> keeps (exec_LDRH instr rest s).
Proof.
  intros H Hr. unfold exec_LDRH. cbv zeta. repeat case_match; [by apply LH_post_ok|by apply LH_preWB_ok|by apply LH_pre_ok].
Qed.
Lemma exec_extra_ok instr f s : exec_extra instr = Some f -> bus_ok s -> keeps (f s).
Proof.
  unfold exec_extra, exec_double. intros E H. destruct (is_STRH instr); [injection E as <-; by apply exec_STRH_ok|].
  destruct (negb _); [discriminate E|]. repeat case_match; try discriminate E; injection E as <-;
    lazymatch goal with
    | |- keeps (Handle_Load_Double _ _) => by apply Handle_Load_Double_ok
    | |- keeps (Handle_Store_Double _ _) => by apply Handle_Store_Double_ok
    end.
Qed.
Lemma exec_SWP_ok instr swap mrs s : bus_ok s -> keeps (swap instr s) -> (forall c, typed c -> typed (mrs instr c)) ->
  keeps (exec_SWP instr swap mrs s).
Proof. intros H Hs Hm. unfold exec_SWP. destruct (_ =? 9); [done|]. destruct (_ && _); [by apply core_ok|done]. Qed.
Lemma exec_MSR_ok instr msr s : bus_ok s -> (forall c, typed c -> typed (msr instr c)) -> keeps (exec_MSR instr msr s).
Proof. intros H Hm. unfold exec_MSR. destruct (_ =? 15); [by apply core_ok|done]. Qed.

Lemma match_misc {A} (P : A -> Prop) n a b c d : P a -> P b -> P c -> P d ->
  P (match n with 0x10 => a | 0x12 => b | 0x14 => c | _ => d end).
Proof. intros. repeat case_match; assumption. Qed.
Lemma exec_misc_ok instr pc s : bus_ok s -> keeps (exec_misc instr pc s).
Proof.
  intros H. unfold exec_misc. cbv zeta. destruct (_ && _ && _); [apply core_ok; [done|]; intros; by apply typed_BLX2|].
  destruct (exec_dsp instr (cpu s)) as [f|] eqn:E1.
  { apply core_ok; [done|]. intros c Hc. by apply (typed_exec_dsp instr (cpu s)). }
  destruct (_ && _ && _ && _); [apply core_ok; [done|]; intros; by apply typed_CLZ|].
  destruct (exec_extra instr) as [f|] eqn:E2; [by apply (exec_extra_ok instr)|].
  assert (keeps (exec_MSR instr MSR_SPSR_reg s)) as Hm by (apply exec_MSR_ok; [done|intros; by apply typed_MSR_SPSR_reg]).
  apply match_misc; [| | |exact Hm].
  - apply exec_SWP_ok; [done|by apply SWP_word_ok|intros; by apply typed_MRS_CPSR].
  - destruct (_ =? 0x12FFF1); [apply core_ok; [done|]; intros; by apply typed_WriteR15Branch|].
    destruct (_ && _); [apply core_ok; [done|]; intros; by apply typed_BKPT|].
    apply exec_MSR_ok; [done|]. intros. by apply typed_MSR_CPSR_reg.
  - apply exec_SWP_ok; [done|by apply SWP_byte_ok|intros; by apply typed_MRS_SPSR].
Qed.

Lemma exec_reg_ok instr pc s : bus_ok s -> keeps (exec_reg instr pc s).
Proof.
  intros H. unfold exec_reg. cbv zeta. destruct (truth (BIT instr 20)).
  - match goal with |- keeps (if _ then exec_LDRH _ ?r _ else _) => assert (keeps r) as Hr end.
    { destruct (exec_multiply instr) as [f|] eqn:E; (apply core_ok; [done|]); intros c Hc;
        [by apply (typed_exec_multiply instr)|]. apply typed_dp_S; [apply typed_DPRegRHS|apply typed_DPSRegRHS|done]. }
    destruct (is_LDRH instr); [by apply exec_LDRH_ok|done].
  - destruct (_ && _); [by apply exec_misc_ok|]. destruct (exec_extra instr) as [f|] eqn:E2; [by apply (exec_extra_ok instr)|].
    destruct (exec_multiply instr) as [f|] eqn:E; (apply core_ok; [done|]); intros c Hc; [by apply (typed_exec_multiply instr)|].
    apply typed_dp_noS; [apply typed_DPRegRHS|done].
Qed.
Lemma exec_ls_reg_ok instr s : bus_ok s -> keeps (exec_ls_reg instr s).
Proof.
  intros H. unfold exec_ls_reg. destruct (truth (BIT instr 4)); [|by apply exec_ls_ok].
  apply ok_upd; [done|]. intros. by apply typed_exec_ls_bit4.
Qed.
Lemma exec_cp_transfer_ok fuel instr s : bus_ok s -> soft (exec_cp_transfer fuel instr s).
Proof.
  intros H. unfold exec_cp_transfer. destruct (_ && _).
  { destruct (truth _); [done|]. by apply undef_ok. }
  cbv zeta. pose proof (ok_LHS instr s H) as Hl. pose proof (word_offset_by (truth (BIT instr 23)) (LHS instr (cpu s)) (LSCOff instr)) as Hm.
  set (moved := offset_by _ _ _) in *. set (lhs := LHS instr (cpu s)) in *.
  assert (bus_ok (if truth (BIT instr 21) then upd_cpu (fun c => c <| Base := moved |>) s else s)) as H1.
  { apply switch_ok; [done|]. intros c Hc. by apply typed_setBase. }
  match type of H1 with bus_ok ?x => set (s1 := x) in * end. clearbody s1 moved lhs.
  destruct (truth (BIT instr 20)); [apply ARMul_LDC_ok|apply ARMul_STC_ok]; try done; by destruct (truth (BIT instr 24)).
Qed.
Lemma exec_cp_register_ok fuel instr s : bus_ok s -> soft (exec_cp_register fuel instr s).
Proof.
  intros H. unfold exec_cp_register. destruct (_ && _); [done|]. destruct (negb _); [by apply ARMul_CDP_ok|].
  destruct (truth (BIT instr 20)).
  - eapply outcome_bind; [by apply ARMul_MRC_ok|]. intros [t s1] [H1 Ht]; cbn [fst snd] in *. apply ok_upd; [done|]. intros c Hc.
    destruct (_ =? 15); [by apply typed_set_cc|by apply typed_set_reg].
  - apply ARMul_MCR_ok; [done|]. destruct (_ =? 15); [apply word_add32|by apply ok_reg].
Qed.

Lemma BITS_25_27 instr : BITS instr 25 27 ∈ [0; 1; 2; 3; 4; 5; 6; 7].
Proof.
  pose proof (BITS_range instr 25 27 ltac:(lia) ltac:(lia)) as Hr. change (2 ^ (27 - 25 + 1)) with 8 in Hr.
  apply list_elem_of_In. assert (exists n, n = BITS instr 25 27) as [n En] by by eexists. rewrite <- En in *. simpl. lia.
Qed.
Lemma mainswitch_ok fuel instr pc s : bus_ok s -> runs instr (mainswitch fuel instr pc s).
Proof.
  intros H. unfold mainswitch. rewrite (ty_XScale _ (bus_typed _ H)). cbn [truth Z.eqb negb].
  assert (forall n, BITS instr 25 27 = n -> n <> 4 -> n <> 6 -> n <> 7 -> forall o, keeps o -> runs instr o) as Hk.
  { intros. by apply keeps_runs. }
  pose proof (BITS_25_27 instr) as Hin. rewrite !elem_of_cons in Hin.
  destruct Hin as [E|[E|[E|[E|[E|[E|[E|[E|[]%elem_of_nil]]]]]]]]; rewrite E.
  - apply keeps_runs. by apply exec_reg_ok.
  - apply keeps_runs, core_ok; [done|]. intros. by apply typed_exec_dp_imm.
  - apply keeps_runs. by apply exec_ls_ok.
  - apply keeps_runs. by apply exec_ls_reg_ok.
  - unfold runs, regular. rewrite E. by apply exec_block_ok.
  - apply keeps_runs, core_ok; [done|]. intros. destruct (truth _); [by apply typed_BranchLink|by apply typed_Branch].
  - apply soft_runs; [by apply exec_cp_transfer_ok|]. unfold regular. by rewrite E.
  - destruct (truth (BIT instr 24)) eqn:B; [apply keeps_runs, core_ok; [done|]; intros; by apply typed_exec_SWI|].
    apply soft_runs; [by apply exec_cp_register_ok|]. unfold regular. by rewrite E, B.
Qed.
Lemma exec_arm_ok fuel instr pc s : bus_ok s -> runs instr (exec_arm fuel instr pc s).
Proof.
  intros H. unfold exec_arm, exec_NV. repeat case_match; lazymatch goal with
    | |- runs _ (mainswitch _ _ _ _) => by apply mainswitch_ok
    | |- runs _ (core _ _) => apply keeps_runs, core_ok; [exact H|]; intros; by apply typed_BLX1
    | |- runs _ (Some (undef _ _)) => apply keeps_runs; by apply undef_ok
    | |- _ => by apply keeps_runs
    end.
Qed.
Lemma execute_ok fuel instr pc s : bus_ok s -> runs (executed instr pc (cpu s)) (execute fuel instr pc s).
Proof.
  intros H. unfold execute, executed. destruct (truth (TFlag (cpu s))); [|by apply exec_arm_ok].
  pose proof (typed_ThumbDecode pc instr (cpu s) (bus_typed _ H)) as Ht.
  destruct (ARMul_ThumbDecode pc instr (cpu s)) as [[td new] c]. cbn [snd] in Ht. cbv zeta.
  assert (bus_ok (upd_cpu (fun _ => c) s)) as H1 by by apply bus_cpu.
  destruct td; [by apply keeps_runs, undef_ok|by apply exec_arm_ok|by apply keeps_runs].
Qed.

(** ** The loop *)

Definition pipe_ok (p : pipeline) : Prop := word (pl_pc p) /\ word (pl_decoded p) /\ word (pl_loaded p).
Definition fetched (x : Z * pipeline * system M) : Prop := bus_ok x.2 /\ pipe_ok x.1.2 /\ word x.1.1.

(** The state in which the instruction is executed, when no exception is taken. *)
Definition before_execute s : option (system M) :=
  let s := if truth (tea_pc (cpu s)) then upd_cpu (fun c => c <| Cpsr := ARMul_GetCPSR c |>) s else s in
  s ← cycle s; Some (upd_cpu (fun c => c <| NumInstrs ::= fun n => u64 (n + 1) |>) s).
(** Whether the next turn of the loop executes a regular instruction. *)
Definition regular_next (p : pipeline) s : bool :=
  match fetch_stage p s with
  | Some (instr, p, s) =>
      match before_execute (run_events s) with
      | Some s => regular (executed instr (pl_pc p) (cpu s)) | None => true
      end
  | None => true
  end.

(** [n] turns of the loop, or fewer if it is left. *)
Fixpoint turns (n fuel : nat) (p : pipeline) s : option (pipeline * system M) :=
  match n with
  | O => Some (p, s)
  | S n =>
      '(what, p, s) ← iteration fuel p s;
      if bool_decide (what = Leave) then Some (p, s) else turns n fuel p s
  end.
Fixpoint regular_turns (n fuel : nat) (p : pipeline) s : bool :=
  match n with
  | O => true
  | S n => regular_next p s &&
      match iteration fuel p s with
      | Some (Continue, p, s) => regular_turns n fuel p s | _ => true
      end
  end.

Lemma advance_ok load p s : bus_ok s -> pipe_ok p -> (forall a n s, bus_ok s -> word a -> gives word (load a n s)) ->
  outcome bus_total fetched (advance load p s).
Proof.
  intros H (H1 & H2 & H3) Hl. unfold advance. cbv zeta. eapply outcome_bind; [apply Hl; [done|apply word_add32]|].
  intros [w s1] [H4 Hw]; cbn [fst snd] in *. split; [done|]. split; [|done]. split; [apply word_add32|done].
Qed.
Lemma refill_ok first rest s : bus_ok s -> (forall a n s, bus_ok s -> word a -> gives word (first a n s)) ->
  (forall a n s, bus_ok s -> word a -> gives word (rest a n s)) -> outcome bus_total fetched (refill first rest s).
Proof.
  intros H Hf Hr. unfold refill. cbv zeta. pose proof (ok_reg s 15 H) as Hpc.
  set (n := isize (cpu s)). set (pc := reg (cpu s) 15) in *. clearbody n pc.
  match goal with |- context [first pc n ?x] => assert (bus_ok x) as H0; [|set (s0 := x) in *; clearbody s0] end.
  { apply ok_upd; [done|]. intros c Hc.
    assert (typed (set_reg 15 (add32 pc (n * 2)) c)) as H1 by typed_go. set (c1 := set_reg _ _ c) in *. clearbody c1. typed_go. }
  eapply outcome_bind; [by apply Hf|]. intros [w0 s1] [H1 W0]; cbn [fst snd] in *.
  eapply outcome_bind; [apply Hr; [done|apply word_add32]|]. intros [w1 s2] [H2 W1]; cbn [fst snd] in *.
  eapply outcome_bind; [apply Hr; [done|apply word_add32]|]. intros [w2 s3] [H3 W2]; cbn [fst snd] in *.
  split; [|by split]. apply ok_upd; [done|]. apply typed_NORMALCYCLE.
Qed.
Lemma then_normal_ok r : outcome bus_total fetched r -> outcome bus_total fetched (then_normal r).
Proof.
  intros H. unfold then_normal. eapply outcome_bind; [exact H|]. intros [[w p] s] (H1 & H2 & H3); cbn [fst snd] in *.
  split; [|by split]. apply ok_upd; [done|]. apply typed_NORMALCYCLE.
Qed.
Lemma fetch_stage_ok p s : bus_ok s -> pipe_ok p -> outcome bus_total fetched (fetch_stage p s).
Proof.
  intros H Hp. unfold fetch_stage. cbv zeta.
  assert (bus_ok (upd_cpu (fun c => c <| isize := INSN_SIZE c |>) s)) as H0.
  { apply ok_upd; [done|]. intros c Hc. typed_go. }
  set (s0 := upd_cpu _ s) in *. clearbody s0.
  assert (bus_ok (upd_cpu advance_r15 s0)) as H1.
  { apply ok_upd; [done|]. intros c Hc. unfold advance_r15. typed_go. }
  pose proof LoadInstrS_ok as HS. pose proof LoadInstrN_ok as HN. pose proof ReLoadInstr_ok as HR.
  assert (outcome bus_total fetched (refill ARMul_LoadInstrN ARMul_LoadInstrS s0)) as Hd by by apply refill_ok.
  generalize (NextInstr (cpu s0)). intros k. repeat case_match; first
    [ exact Hd | by apply refill_ok | by apply advance_ok | apply then_normal_ok; by apply advance_ok ].
Qed.

Lemma run_events_ok s : bus_ok s -> bus_ok (run_events s).
Proof.
  intros H. unfold run_events. destruct (truth _); [|done].
  assert (forall f s, bus_ok s -> bus_ok (run_event f s)) as Hr.
  { intros f s0 H0. destruct f; (apply ok_upd; [done|]; intros c Hc; typed_go). }
  assert (forall i s, bus_ok s -> bus_ok (EnvokeSlot i s)) as Hs.
  { intros i s0 H0. unfold EnvokeSlot. cbv zeta. apply (bus_events _ _).
    generalize (nth (Z.to_nat i) (EventPtr (events s0)) []). intros l. revert s0 H0.
    induction l as [|f l IH]; intros s0 H0; cbn [fold_left]; [done|]. apply IH. apply Hr. by apply (bus_events _ _). }
  assert (forall a b s, bus_ok s -> bus_ok (EnvokeList a b s)) as Hl.
  { intros a b s0 H0. unfold EnvokeList. apply for_range_inv; [done|]. intros. by apply Hs. }
  unfold ARMul_EnvokeEvent. cbv zeta.
  assert (bus_ok (s <| events ::= fun e => e <| Now := Z.rem (ARMul_Time (cpu s)) EVENTLISTSIZE |> |>)) as H1 by by apply (bus_events _ _).
  repeat case_match; [by apply Hl|by apply Hl, Hl|done].
Qed.

Lemma test_emulate_ok s : bus_ok s -> bus_ok (test_emulate s).2.
Proof.
  intros H. unfold test_emulate. repeat case_match; try done. apply ok_upd; [done|]. intros c Hc. typed_go.
Qed.
Lemma before_execute_ok s : bus_ok s -> outcome bus_total bus_ok (before_execute s).
Proof.
  intros H. unfold before_execute. cbv zeta.
  assert (bus_ok (if truth (tea_pc (cpu s)) then upd_cpu (fun c => c <| Cpsr := ARMul_GetCPSR c |>) s else s)) as H1.
  { apply switch_ok; [done|]. intros c Hc. unfold ARMul_GetCPSR. typed_go. }
  eapply outcome_bind; [by apply bus_cycle|]. intros s1 H2. apply ok_upd; [done|]. intros c Hc. typed_go.
Qed.

(** One instruction: the tests for exceptions, the devices, the execution. *)
Lemma run_instruction_split fuel instr pc s :
  run_instruction fuel instr pc s = (
    if (IntPending (cpu s)).1 then Some (Leave, upd_cpu (fun _ => (IntPending (cpu s)).2) s)
    else if Emulate (cpu (if truth (tea_pc (cpu s)) then upd_cpu (fun c => c <| Cpsr := ARMul_GetCPSR c |>) s else s)) <? ONCE
    then Some (Leave, upd_cpu (fun c => c <| NextInstr := RESUME |>)
                        (if truth (tea_pc (cpu s)) then upd_cpu (fun c => c <| Cpsr := ARMul_GetCPSR c |>) s else s))
    else s ← before_execute s; s ← execute fuel instr pc s; Some (test_emulate (upd_cpu (donext pc) s))).
Proof.
  unfold run_instruction, before_execute. destruct (IntPending (cpu s)) as [pend c]; cbn [fst snd]. destruct pend; [done|].
  cbv zeta. destruct (_ <? ONCE); [done|]. by destruct (cycle _).
Qed.
Lemma run_instruction_ok fuel instr pc s : bus_ok s ->
  outcome (bus_total && match before_execute s with Some s => regular (executed instr pc (cpu s)) | None => true end)
    (fun x => bus_ok x.2) (run_instruction fuel instr pc s).
Proof.
  intros H. rewrite run_instruction_split. destruct (IntPending (cpu s)).1; [by apply pending_ok|].
  destruct (_ <? ONCE).
  { apply ok_upd; [|intros c Hc; typed_go]. apply switch_ok; [done|]. intros c Hc. unfold ARMul_GetCPSR. typed_go. }
  pose proof (before_execute_ok s H) as Hb. destruct (before_execute s) as [s1|]; cbn [mbind option_bind].
  2: { cbn in *. by rewrite Hb. }
  cbn in Hb. eapply outcome_bind; [by apply execute_ok|]. intros s2 H2. apply test_emulate_ok.
  apply ok_upd; [done|]. intros c Hc. unfold donext. typed_go.
Qed.
Lemma iteration_ok fuel p s : bus_ok s -> pipe_ok p ->
  outcome (bus_total && regular_next p s) (fun x => bus_ok x.2 /\ pipe_ok x.1.2) (iteration fuel p s).
Proof.
  intros H Hp. unfold iteration, regular_next. pose proof (fetch_stage_ok p s H Hp) as Hf.
  destruct (fetch_stage p s) as [[[instr p1] s1]|]; cbn [mbind option_bind].
  2: { cbn in *. by rewrite Hf. }
  destruct Hf as (H1 & H2 & H3); cbn [fst snd] in *.
  eapply outcome_bind; [apply run_instruction_ok; by apply run_events_ok|]. intros [w s2] H4. by split.
Qed.
Lemma turns_ok n fuel p s : bus_ok s -> pipe_ok p ->
  outcome (bus_total && regular_turns n fuel p s) (fun x => bus_ok x.2 /\ pipe_ok x.1) (turns n fuel p s).
Proof.
  revert p s. induction n as [|n IH]; intros p s H Hp; cbn [turns regular_turns]; [by split|].
  pose proof (iteration_ok fuel p s H Hp) as Hi. destruct (iteration fuel p s) as [[[w p1] s1]|]; cbn [mbind option_bind].
  2: { cbn in *. by rewrite andb_true_r. }
  destruct Hi as [H1 H2]; cbn [fst snd] in *. destruct w; cbn [bool_decide]; [|by split].
  rewrite bool_decide_eq_false_2 by done. eapply outcome_mono; [by apply IH| |done].
  rewrite !andb_true_iff. tauto.
Qed.
End Copro.
