(* ===== verification/SysTypes.v ===== *)
(** * The memory system and the devices keep their types

    The ARM7100 memory system and the coprocessors of a plain core discharge the
    interface of ExecTypes.v, on any board that keeps its own invariant: no
    access leaves an array of the translation buffer, of the cache or of a
    bank. *)

From S2P Require Import Prelude Words ArmState ArmSupp ArmInit Machine ArmSys ArmMem MemSpec Tlb Cache Arm7100 ArmVirt ArmCopro ArmValid ArmEmulate CoreTypes ExecTypes.

(** ** Boards

    A board with its invariant.  When it is [board_total] its operations return,
    for which the guest may have to keep to the [writable] addresses. *)
Class SafeBoard (M : Type) `{!Board M} := {
  board_total : bool;
  board_ok : M -> Prop;
  writable : Z -> Prop;
  board_typed m : board_ok m -> typed (bcore m);
  board_core c m : board_ok m -> typed c -> board_ok (set_bcore c m);
  board_read w a m : board_ok m -> word a -> outcome board_total (fun p => board_ok p.2 /\ word p.1) (io_read w a m);
  board_write w a d m : board_ok m -> word a -> word d -> (board_total = true -> writable a) ->
    outcome board_total board_ok (io_write w a d m);
  board_cycle n m : board_ok m -> outcome board_total (fun p => board_ok p.2) (io_do_cycle n m)
}.

(** ** The invariants of the parts *)

Record tlb_wf (t : tlb_t) : Prop := {
  tlb_len : Z.of_nat (length (entrys t)) = tlb_num t;
  tlb_at : 0 <= tlb_cycle t < tlb_num t
}.
Definition line_wf (l : cache_line_t) : Prop := length (line_data l) = 4%nat /\ Forall word (line_data l).
Record set_wf (way : Z) (cs : cache_set_t) : Prop := {
  set_len : Z.of_nat (length (lines_of cs)) = way;
  set_at : 0 <= set_cycle cs < way;
  set_lines : Forall line_wf (lines_of cs)
}.
Record cache_wf (c : cache_t) : Prop := {
  cache_width : c_width c = 16;
  cache_len : Z.of_nat (length (sets c)) = c_set c;
  cache_some : 0 < c_set c;
  cache_sets : Forall (set_wf (c_way c)) (sets c)
}.

(** *** The buffer *)

Lemma tlb_wf_init num fresh : 0 < num -> tlb_wf (mmu_tlb_init num fresh).
Proof. intros H. split; cbn [entrys tlb_num tlb_cycle mmu_tlb_init]; [rewrite length_map, length_seqZ|]; lia. Qed.
Lemma tlb_wf_place e t : tlb_wf t -> tlb_wf (tlb_place e t).
Proof.
  intros [H1 H2]. unfold tlb_place. split; upds; [by rewrite length_wr|].
  rewrite Z.rem_mod_nonneg by lia. apply Z.mod_pos_bound. lia.
Qed.
Lemma tlb_wf_invalidate_all t : tlb_wf t -> tlb_wf (mmu_tlb_invalidate_all t).
Proof.
  intros H. unfold mmu_tlb_invalidate_all. cbv zeta.
  assert (forall n, tlb_wf (for_range 0 n (fun i t => t <| entrys ::= alter (fun e => e <| te_mapping := TLB_INVALID |>) (Z.to_nat i) |>) t)) as Hl.
  { intros n. apply for_range_inv; [done|]. intros i x _ [H1 H2]. split; upds; [by rewrite length_alter|done]. }
  destruct (Hl (tlb_num t)) as [H1 H2]. set (t' := for_range _ _ _ _) in *. clearbody t'. split; upds; [done|lia].
Qed.
Lemma tlb_wf_invalidate_entry a t : tlb_wf t -> tlb_wf (mmu_tlb_invalidate_entry t a).
Proof.
  intros [H1 H2]. unfold mmu_tlb_invalidate_entry. destruct (mmu_tlb_search t a) as [[i e]|]; [|done].
  split; upds; [by rewrite length_insert|done].
Qed.
Lemma search_valid t va i e : mmu_tlb_search t va = Some (i, e) -> te_mapping e <> TLB_INVALID.
Proof.
  unfold mmu_tlb_search. intros (_ & H & _)%list_find_Some. unfold tlb_hit in H. by destruct (decide _).
Qed.
Lemma subpage_total m va : m <> TLB_INVALID -> exists n, subpage m va = Some n.
Proof. destruct m; intros H; [done|by eexists..]. Qed.

(** *** The cache *)

Lemma cache_wf_init way set mode fresh : 0 < set -> 0 < way -> (forall i j, line_wf (fresh i j)) ->
  cache_wf (mmu_cache_init 16 way set mode fresh).
Proof.
  intros Hs Hw Hf. split; cbn [c_width c_set c_way sets mmu_cache_init]; [done|rewrite length_map, length_seqZ; lia|done|].
  apply list.Forall_forall. intros x (i & -> & _)%list_elem_of_fmap.
  split; cbn [lines_of set_cycle]; [rewrite length_map, length_seqZ; lia|lia|].
  apply list.Forall_forall. intros l (j & -> & _)%list_elem_of_fmap. destruct (Hf i j) as [H1 H2]. by split.
Qed.

Lemma set_index_range va c : cache_wf c -> 0 <= va_cache_set va c < c_set c.
Proof.
  intros [_ _ H _]. unfold va_cache_set. 
  pose proof (land_le_r (va / c_width c) (c_set c - 1) ltac:(lia)). lia.
Qed.
Lemma set_there c i : cache_wf c -> 0 <= i < c_set c -> exists cs, sets c !! Z.to_nat i = Some cs /\ set_wf (c_way c) cs.
Proof.
  intros [_ Hl _ HF] Hi. destruct (lookup_lt_is_Some_2 (sets c) (Z.to_nat i)) as [cs Hcs]; [lia|].
  exists cs. split; [done|]. rewrite Forall_lookup in HF. by eapply HF.
Qed.
(** The pointer [p] to a line is valid. *)
Definition line_ptr (c : cache_t) (p : Z * Z) : Prop := 0 <= p.1 < c_set c /\ 0 <= p.2 < c_way c.
Lemma line_there c p : cache_wf c -> line_ptr c p -> exists l, cache_line c p = Some l /\ line_wf l.
Proof.
  intros H [H1 H2]. destruct (set_there c p.1 H H1) as (cs & E & [Hl _ HF]).
  destruct (lookup_lt_is_Some_2 (lines_of cs) (Z.to_nat p.2)) as [l El]; [lia|].
  exists l. unfold cache_line. rewrite E. cbn [mbind option_bind]. split; [done|]. rewrite Forall_lookup in HF. by eapply HF.
Qed.
Lemma cache_wf_upd c p f : cache_wf c -> (forall l, line_wf l -> line_wf (f l)) -> cache_wf (upd_line p f c).
Proof.
  intros [H1 H2 H3 H4] Hf. unfold upd_line. split; upds; [done|by rewrite length_alter|done|].
  apply Forall_alter; [done|]. intros cs Hcs [L1 L2 L3]. split; cbn [lines_of set_cycle upd]; upds; [by rewrite length_alter|done|].
  apply Forall_alter; [done|]. intros l _ Hl. by apply Hf.
Qed.
Lemma line_ptr_upd c p q f : line_ptr (upd_line q f c) p <-> line_ptr c p.
Proof. done. Qed.
Lemma line_wf_tag l f : line_wf l -> line_wf (l <| tag ::= f |>).
Proof. done. Qed.
Lemma line_wf_data l i v : line_wf l -> word v -> line_wf (l <| line_data ::= fun a => wr a i v |>).
Proof. intros [H1 H2] Hv. split; upds; [by rewrite length_wr|by apply Forall_wr]. Qed.
Lemma line_word_there l i : line_wf l -> 0 <= i < 4 -> exists x, line_data l !! Z.to_nat i = Some x /\ word x.
Proof.
  intros [H1 H2] Hi. destruct (lookup_lt_is_Some_2 (line_data l) (Z.to_nat i)) as [x Hx]; [lia|].
  exists x. split; [done|]. rewrite Forall_lookup in H2. by eapply H2.
Qed.
Lemma search_there c va : cache_wf c -> outcome true (fun o => forall p, o = Some p -> line_ptr c p) (mmu_cache_search c va).
Proof.
  intros H. unfold mmu_cache_search. cbv zeta. pose proof (set_index_range va c H) as Hi.
  destruct (set_there c _ H Hi) as (cs & -> & [Hl _ _]). cbn [mbind option_bind outcome].
  intros p E. destruct (list_find _ _) as [[i l]|] eqn:Ef; [|done]. cbn in E. injection E as <-.
  apply list_find_Some in Ef as (Ei & _ & _). apply lookup_take_Some in Ei as [Ei Hw].
  split; cbn [fst snd]; [done|lia].
Qed.

(** ** The system

    On a total board the map keeps the guest to the addresses it may write, and
    every address lies in a bank with a function for byte writes (such a
    write elsewhere ends the simulation). *)
Section System.
Context {M : Type} `{!Board M} `{!SafeBoard M}.
#[local] Abbreviation full := board_total (only parsing).
Implicit Type s : system M.

Record map_ok (bs : list mem_bank_t) : Prop := {
  map_io addr i b w : full = true -> word addr -> at_bank bs addr i b -> bk_write b w = Some mem_io -> writable addr;
  map_full addr : full = true -> word addr -> exists i b, at_bank bs addr i b /\ bk_write b Byte <> None
}.

Record sys_ok s : Prop := {
  so_board : board_ok (board s);
  so_ram : mem_wf (ram s);
  so_map : map_ok (mem_banks (ram s));
  so_tlb : tlb_wf (a71_tlb s);
  so_cache : cache_wf (a71_cache s);
  so_words : Forall word [translation_table_base s; domain_access_control s; cpu_val s];
  so_val : Forall word (ValReg (val s))
}.

Lemma ok_typed s : sys_ok s -> typed (cpu s).
Proof. intros H. apply board_typed, H. Qed.
Lemma ok_ttb s : sys_ok s -> word (translation_table_base s).
Proof. intros H. pose proof (so_words _ H) as W. by inversion W. Qed.
Lemma ok_dacr s : sys_ok s -> word (domain_access_control s).
Proof. intros H. pose proof (so_words _ H) as W. apply list.Forall_cons in W as [_ W]. by inversion W. Qed.
Lemma ok_id s : sys_ok s -> word (cpu_val s).
Proof. intros H. pose proof (so_words _ H) as W. apply list.Forall_cons in W as [_ W]. apply list.Forall_cons in W as [_ W]. by inversion W. Qed.

(** *** One part changes *)
Ltac all_words := repeat (apply list.Forall_cons_2; [done|]); apply list.Forall_nil_2.
Ltac ok_part := intros [? ? ? ? ? ? ?]; intros; split; upds; congruence || assumption.
Lemma ok_set_board m s : sys_ok s -> board_ok m -> sys_ok (s <| board := m |>).
Proof. ok_part. Qed.
Lemma ok_set_prescale n s : sys_ok s -> sys_ok (s <| prescale := n |>).
Proof. ok_part. Qed.
Lemma ok_set_events e s : sys_ok s -> sys_ok (s <| events := e |>).
Proof. ok_part. Qed.
Lemma ok_set_ram r s : sys_ok s -> mem_wf r -> mem_banks r = mem_banks (ram s) -> sys_ok (s <| ram := r |>).
Proof. ok_part. Qed.
Lemma ok_set_tlb t s : sys_ok s -> tlb_wf t -> sys_ok (s <| a71_tlb := t |>).
Proof. ok_part. Qed.
Lemma ok_set_cache c s : sys_ok s -> cache_wf c -> sys_ok (s <| a71_cache := c |>).
Proof. ok_part. Qed.
Lemma ok_set_val v s : sys_ok s -> Forall word (ValReg v) -> sys_ok (s <| val := v |>).
Proof. ok_part. Qed.
Lemma ok_set_ttb v s : sys_ok s -> word v -> sys_ok (s <| translation_table_base := v |>).
Proof.
  intros H Hv. pose proof (ok_dacr s H). pose proof (ok_id s H). destruct H. split; upds; try done. all_words.
Qed.
Lemma ok_set_dacr v s : sys_ok s -> word v -> sys_ok (s <| domain_access_control := v |>).
Proof.
  intros H Hv. pose proof (ok_ttb s H). pose proof (ok_id s H). destruct H. split; upds; try done. all_words.
Qed.
Lemma ok_cpu f s : sys_ok s -> typed (f (cpu s)) -> sys_ok (upd_cpu f s).
Proof. intros H Hf. apply ok_set_board; [done|]. apply board_core; [apply H|done]. Qed.
Lemma ok_last_domain d s : sys_ok s -> sys_ok (set_last_domain d s).
Proof. intros H. apply ok_cpu; [done|]. apply (typed_same (cpu s)); [reflexivity|by apply ok_typed]. Qed.

(** ** Memory *)

Lemma mem_wf_mbp k r : mem_wf r -> mem_wf (r <| mbp := k |>).
Proof. by intros [H1 H2]. Qed.
Lemma bank_ok addr s : sys_ok s -> word addr ->
  outcome full (fun p => sys_ok p.2 /\ mem_banks (ram p.2) = mem_banks (ram s) /\
    match p.1 with
    | Some (i, b) => at_bank (mem_banks (ram s)) addr i b
    | None => forall i b, ~ at_bank (mem_banks (ram s)) addr i b
    end) (bank_of_addr addr s).
Proof.
  intros H Ha. unfold bank_of_addr. pose proof (so_ram _ H) as Hr.
  assert (forall k, sys_ok (s <| ram := (ram s) <| mbp := k |> |>)) as Hs.
  { intros k. apply ok_set_ram; [done|by apply mem_wf_mbp|done]. }
  destruct (at_bank_dec (mem_banks (ram s)) addr) as [(i & b & Hi)|Hno].
  - destruct (bank_ptr_found _ addr i b (wf_banks _ Hr) Ha Hi) as [k ->]. cbn [mbind option_bind outcome fst snd].
    split; [apply Hs|]. split; [done|]. change (mem_banks ((ram s) <| mbp := k |>)) with (mem_banks (ram s)).
    destruct Hi as [Hi Hin]. rewrite Hi. cbn [mbind option_bind]. done.
  - destruct (bank_ptr_missing _ addr (wf_banks _ Hr) Hno) as [k ->]. cbn [mbind option_bind outcome fst snd].
    split; [apply Hs|done].
Qed.

Definition reads_ok (o : option (Z * system M)) : Prop := outcome full (fun p => sys_ok p.2 /\ word p.1) o.
Lemma call_read_ok f w i b addr s : sys_ok s -> word addr -> at_bank (mem_banks (ram s)) addr i b ->
  bk_read b w = Some f -> reads_ok (call_read f w i addr s).
Proof.
  intros H Ha Hi Hf. destruct f; cbn [call_read].
  - destruct (rom_word_defined (ram s) addr i b (so_ram _ H) Ha Hi) as (x & E & Hx); [exists w; by left|].
    unfold real_read. rewrite E. split; cbn [fst snd]; [done|by apply word_lane_get].
  - eapply outcome_bind; [apply board_read; [apply H|done]|]. intros [v m] [H1 Hv]; cbn [fst snd] in *.
    split; [by apply ok_set_board|done].
  - split; [done|by compute].
Qed.
Lemma word_remap s a : word a -> word (remap s a).
Proof. intros Ha. unfold remap. destruct (_ && _); [apply word_add32|done]. Qed.
Lemma mem_read_ok w addr s : sys_ok s -> word addr -> reads_ok (mem_read w addr s).
Proof.
  intros H Ha. unfold mem_read. cbv zeta. pose proof (word_remap s addr Ha) as Hra. set (a := remap s addr) in *.
  eapply outcome_bind; [by apply bank_ok|]. intros [[[i b]|] s1] (H1 & Eb & Hi); cbn [fst snd mbind option_bind] in *.
  - destruct (bk_read b w) as [f|] eqn:Ef; cbn [mbind option_bind]; [|by split].
    apply (call_read_ok f w i b); [done..| |done]. by rewrite Eb.
  - by split.
Qed.
Lemma call_write_ok f w i b addr data s : sys_ok s -> word addr -> word data ->
  at_bank (mem_banks (ram s)) addr i b -> bk_write b w = Some f -> outcome full sys_ok (call_write f w i addr data s).
Proof.
  intros H Ha Hd Hi Hf. destruct f; cbn [call_write].
  - destruct (rom_word_defined (ram s) addr i b (so_ram _ H) Ha Hi) as (x & E & Hx); [exists w; by right|].
    unfold real_write. rewrite E. cbn [mbind option_bind outcome].
    apply ok_set_ram; [done| |apply mem_banks_set]. apply (mem_wf_set _ _ _ b); [apply H|done|].
    apply word_lane_set; [|done..]. apply (ty_endian _ (ok_typed s H)).
  - eapply outcome_bind; [apply board_write; [apply H|done..|]|].
    { intros Ef. by apply (map_io _ (so_map _ H) addr i b w). }
    intros m Hm. by apply ok_set_board.
  - done.
Qed.
Lemma mem_write_ok w addr data s : sys_ok s -> word addr -> word data -> outcome full sys_ok (mem_write w addr data s).
Proof.
  intros H Ha Hd. unfold mem_write. pose proof (bank_ok addr s H Ha) as Hb.
  destruct (bank_of_addr addr s) as [[o s1]|]; [|exact Hb]. destruct Hb as (H1 & Eb & Hi); cbn [fst snd mbind option_bind] in *.
  assert ((forall i b, at_bank (mem_banks (ram s)) addr i b -> bk_write b w = None) ->
          outcome full sys_ok (if decide (w = Byte) then None else Some s1)) as Hn.
  { intros Hno. destruct (decide (w = Byte)) as [->|]; [|done]. cbn. destruct board_total eqn:Ef; [|done].
    destruct (map_full _ (so_map _ H) addr Ef Ha) as (i & b & Hib & Hw). by rewrite (Hno i b Hib) in Hw. }
  destruct o as [[i b]|]; cbn [mbind option_bind].
  - destruct (bk_write b w) as [f|] eqn:Ef; cbn [mbind option_bind].
    + eapply outcome_mono; [apply (call_write_ok f w i b)|done|done]; try done. by rewrite Eb.
    + apply Hn. intros j c Hj. by destruct (banks_disjoint _ (wf_banks _ (so_ram _ H)) addr i j b c Ha Hi Hj), Hi, Hj as [? _]; simplify_eq.
  - apply Hn. intros i b Hib. by destruct (Hi i b).
Qed.

(** ** Translation *)

Definition found {A} (Q : A -> Prop) (r : fault_t + A) : Prop := forall x, r = inr x -> Q x.
Definition valid_entry (e : tlb_entry_t) : Prop := te_mapping e <> TLB_INVALID.

Lemma check_access_ok va e read s : sys_ok s -> valid_entry e -> outcome full (fun p => sys_ok p.2) (check_access va e read s).
Proof.
  intros H He. unfold check_access. cbv zeta. pose proof (ok_last_domain (te_domain e) s H) as H1.
  set (s1 := set_last_domain _ s) in *. clearbody s1. destruct (subpage_total (te_mapping e) va He) as [n ->].
  cbn [mbind option_bind]. repeat apply outcome_if; exact H1.
Qed.
Lemma word_clear3 x : word x -> word (x &&~ 3).
Proof. apply word_ldiff. Qed.
Lemma word_l1_addr ttb va : word va -> word (l1_addr ttb va).
Proof. intros H. unfold l1_addr. apply word_clear3, word_lor; [by apply word_land_r|by apply word_shiftr]. Qed.
Lemma word_fine_addr d va : word (fine_addr d va).
Proof. unfold fine_addr. apply word_clear3, word_lor; [by apply word_land_r|by apply word_shiftr, word_land_r]. Qed.
Lemma word_coarse_addr d va : word (coarse_addr d va).
Proof. unfold coarse_addr. apply word_clear3, word_lor; [by apply word_land_r|by apply word_shiftr, word_land_r]. Qed.

Definition walks (o : option ((fault_t + tlb_entry_t) * system M)) : Prop :=
  outcome full (fun p => sys_ok p.2 /\ found valid_entry p.1) o.
Lemma walks_fault f s : sys_ok s -> walks (Some (inl f, s)).
Proof. by split. Qed.
Lemma walks_entry e s : sys_ok s -> valid_entry e -> walks (Some (inr e, s)).
Proof. intros H He. split; [done|]. intros x Hx. by injection Hx as <-. Qed.

(** The cases of a descriptor. *)
Ltac walk_cases := repeat match goal with |- context [if ?b then _ else _] => destruct b end;
  first [apply walks_fault; first [assumption | by apply ok_last_domain] | by apply walks_entry].
Lemma walk_fine_ok va d s : sys_ok s -> walks (walk_fine va d s).
Proof.
  intros H. unfold walk_fine. eapply outcome_bind; [apply mem_read_ok; [done|apply word_fine_addr]|].
  intros [l2 s1] [H1 _]; cbn [fst snd] in *. cbv zeta. walk_cases.
Qed.
Lemma walk_coarse_ok va d s : sys_ok s -> walks (walk_coarse va d s).
Proof.
  intros H. unfold walk_coarse. eapply outcome_bind; [apply mem_read_ok; [done|apply word_coarse_addr]|].
  intros [l2 s1] [H1 _]; cbn [fst snd] in *. cbv zeta. walk_cases.
Qed.
Lemma walk_ok va s : sys_ok s -> word va -> walks (walk va s).
Proof.
  intros H Hv. unfold walk. eapply outcome_bind; [apply mem_read_ok; [done|by apply word_l1_addr]|].
  intros [l1 s1] [H1 _]; cbn [fst snd] in *.
  destruct (_ =? 0); [by apply walks_fault|]. destruct (_ =? 3); [by apply walk_fine_ok|].
  destruct (_ =? 1); [by apply walk_coarse_ok|by apply walks_entry].
Qed.
Lemma translate_ok va t s : sys_ok s -> tlb_wf t -> word va ->
  outcome full (fun p => sys_ok p.2 /\ tlb_wf p.1.2 /\ found valid_entry p.1.1) (translate va t s).
Proof.
  intros H Ht Hv. unfold translate. destruct (mmu_tlb_search t va) as [[i e]|] eqn:E.
  - split; [by apply ok_last_domain|]. split; [done|]. intros x Hx. injection Hx as <-. by apply (search_valid t va i).
  - eapply outcome_bind; [by apply walk_ok|]. intros [[f|e] s1] [H1 He]; cbn [fst snd] in *; [by split|].
    cbv zeta. split; [by apply ok_last_domain|]. split; [by apply tlb_wf_place|]. intros x Hx. injection Hx as <-. by apply (He e).
Qed.
Lemma a71_translate_ok va read s : sys_ok s -> word va ->
  outcome full (fun p => sys_ok p.2 /\ found valid_entry p.1) (a71_translate va read s).
Proof.
  intros H Hv. unfold a71_translate. eapply outcome_bind; [apply translate_ok; [done|apply H|done]|].
  intros [[r t] s1] (H1 & Ht & Hr); cbn [fst snd] in *. cbv zeta. pose proof (ok_set_tlb t s1 H1 Ht) as H2.
  set (s2 := s1 <| a71_tlb := t |>) in *. clearbody s2. destruct r as [f|e]; [by split|].
  eapply outcome_bind; [apply check_access_ok; [done|by apply Hr]|]. intros [f s3] H3; cbn [fst snd] in *.
  destruct (decide _); (split; [exact H3|]); intros x Hx; [injection Hx as <-; by apply Hr|discriminate Hx].
Qed.
Lemma word_masks m : word (tlb_masks m).
Proof. by destruct m. Qed.
Lemma word_va_to_pa e va : word va -> word (tlb_va_to_pa e va).
Proof. intros H. unfold tlb_va_to_pa. cbv zeta. apply word_lor; [apply word_land_r, word_masks|by apply word_ldiff]. Qed.

(** ** The cache *)

Definition cached (p : cache_t * system M) : Prop := cache_wf p.1 /\ sys_ok p.2.
(** The sizes of a cache are not changed. *)
Definition same_size (c c' : cache_t) : Prop := c_set c' = c_set c /\ c_way c' = c_way c.
Lemma dirty_range c l nw first : cache_wf c -> dirty_words c l = Some (nw, first) -> 0 <= first /\ first + nw <= 4.
Proof.
  intros H. unfold dirty_words. rewrite (cache_width _ H). cbv zeta. change (16 >>> 2) with 4. change (4 ÷ 2) with 2.
  destruct (_ =? 0); [done|]. repeat (destruct (_ =? _); [intros [= <- <-]; lia|]). intros [= <- <-]. lia.
Qed.
Lemma cache_write_back_ok p c s : cache_wf c -> line_ptr c p -> sys_ok s ->
  outcome full (fun x => cached x /\ same_size c x.1) (mmu_cache_write_back p c s).
Proof.
  intros Hc Hp H. unfold mmu_cache_write_back. destruct (line_there c p Hc Hp) as (l & -> & Hl). cbn [mbind option_bind].
  destruct (_ =? 0); [done|]. destruct (dirty_words c l) as [[nw first]|] eqn:E; [|done].
  apply dirty_range in E as [E1 E2]; [|done]. cbv zeta.
  eapply outcome_bind; [apply (outcome_loop full sys_ok); [done|]|].
  - intros i x Hi Hx. destruct (line_word_there l (first + i) Hl) as (d & -> & Hd); [lia|]. cbn [mbind option_bind].
    apply mem_write_ok; [done|apply word_add32|done].
  - intros s1 H1. split; [|done]. split; [|done]. by apply cache_wf_upd.
Qed.
Lemma fill_word_ok p c s i a : cache_wf c -> line_ptr c p -> sys_ok s -> 0 <= i < 4 -> word a ->
  outcome full (fun x => cached x /\ same_size c x.1)
    ('(d, s) ← mem_read Word a s;
     l ← cache_line c p; _ ← line_data l !! Z.to_nat i;
     Some (upd_line p (fun l => l <| line_data ::= fun a => wr a i d |>) c, s)).
Proof.
  intros Hc Hp H Hi Ha. eapply outcome_bind; [by apply mem_read_ok|]. intros [d s1] [H1 Hd]; cbn [fst snd] in *.
  destruct (line_there c p Hc Hp) as (l & -> & Hl). cbn [mbind option_bind].
  destruct (line_word_there l i Hl Hi) as (x & -> & _). cbn [mbind option_bind]. split; [|done]. split; [|done].
  apply cache_wf_upd; [done|]. intros l' Hl'. by apply line_wf_data.
Qed.
Lemma same_size_ptr c c' p : same_size c c' -> line_ptr c p -> line_ptr c' p.
Proof. intros [E1 E2]. unfold line_ptr. by rewrite E1, E2. Qed.
Lemma same_size_trans c1 c2 c3 : same_size c1 c2 -> same_size c2 c3 -> same_size c1 c3.
Proof. unfold same_size. intros [? ?] [? ?]. split; congruence. Qed.
(** Four words from memory, as [fill_line] and [a71_fill] read them. *)
Lemma fill_words_ok p c s n pa : cache_wf c -> line_ptr c p -> sys_ok s -> n <= 4 ->
  outcome full (fun x => cached x /\ same_size c x.1)
    (for_range_opt 0 n (fun i '(c, s) =>
      '(d, s) ← mem_read Word (add32 pa (4 * i)) s;
      l ← cache_line c p; _ ← line_data l !! Z.to_nat i;
      Some (upd_line p (fun l => l <| line_data ::= fun a => wr a i d |>) c, s)) (c, s)).
Proof.
  intros Hc Hp H Hn. apply outcome_loop; [done|]. intros i [c1 s1] Hi [[Hc1 H1] Hs]; cbn [fst snd] in *.
  eapply outcome_mono; [apply (fill_word_ok p c1 s1 i); try done; [by apply (same_size_ptr c)|lia|apply word_add32]|done|].
  intros [c2 s2] [H2 Hs2]. split; [done|]. by apply (same_size_trans c c1).
Qed.

Lemma alloc_ok va pa c s : cache_wf c -> sys_ok s ->
  outcome full (fun x => cached (x.1.2, x.2) /\ line_ptr x.1.2 x.1.1) (mmu_cache_alloc va pa c s).
Proof.
  intros Hc H. unfold mmu_cache_alloc. cbv zeta. generalize (va_cache_align va c) (va_cache_align pa c). intros va' pa'.
  pose proof (set_index_range va' c Hc) as Hi. set (i := va_cache_set va' c) in *. clearbody i.
  destruct (set_there c i Hc Hi) as (cs & Ecs & Hcs). rewrite Ecs. cbn [mbind option_bind].
  assert (line_ptr c (i, set_cycle cs)) as Hp by (split; [done|apply (set_at _ _ Hcs)]).
  destruct (line_there c _ Hc Hp) as (l & -> & Hl). cbn [mbind option_bind].
  set (n := if _ =? c_way c then 0 else _).
  assert (0 <= n < c_way c) as Hn.
  { pose proof (set_at _ _ Hcs). subst n. destruct (Z.eqb_spec (set_cycle cs + 1) (c_way c)); lia. }
  clearbody n. set (c1 := c <| sets ::= _ |>).
  assert (cache_wf c1) as Hc1.
  { destruct Hc as [W1 W2 W3 W4]. subst c1. split; upds; [done|by rewrite length_alter|done|].
    apply Forall_alter; [done|]. intros cs' _ [L1 L2 L3]. by split. }
  assert (line_ptr c1 (i, set_cycle cs)) as Hp1 by done. clearbody c1. set (p := (i, set_cycle cs)) in *. clearbody p.
  eapply (outcome_bind full (fun x => cached x /\ same_size c1 x.1)).
  - destruct (decide _); [|done]. eapply (outcome_bind full (fun x => cached x /\ same_size c1 x.1)).
    + destruct (truth _); [by apply cache_write_back_ok|done].
    + intros [c2 s2] [[Hc2 H2] Hs2]; cbn [fst snd] in *. unfold fill_line. rewrite (cache_width _ Hc2).
      eapply outcome_mono; [apply (fill_words_ok p c2 s2 (16 >>> 2) pa'); try done; by apply (same_size_ptr c1)|done|].
      intros x [Hx Hs]. split; [done|]. by apply (same_size_trans c1 c2).
  - intros [c2 s2] [[Hc2 H2] Hs2]; cbn [fst snd] in *. split; cbn [fst snd].
    + split; [|done]. by apply cache_wf_upd.
    + by apply (same_size_ptr c1).
Qed.
Lemma invalidate_line_ok p c s : cache_wf c -> line_ptr c p -> sys_ok s ->
  outcome full (fun x => cached x /\ same_size c x.1) (invalidate_line p c s).
Proof.
  intros Hc Hp H. unfold invalidate_line. eapply outcome_bind; [by apply cache_write_back_ok|].
  intros [c1 s1] [[Hc1 H1] Hs]; cbn [fst snd] in *. split; [|done]. split; [|done]. by apply cache_wf_upd.
Qed.
Lemma invalidate_all_ok c s : cache_wf c -> sys_ok s -> outcome full cached (mmu_cache_invalidate_all c s).
Proof.
  intros Hc H. unfold mmu_cache_invalidate_all.
  eapply outcome_mono; [apply (outcome_loop full (fun x => cached x /\ same_size c x.1)); [done|]|done|by intros x []].
  intros i [c1 s1] Hi H1. apply outcome_loop; [done|].
  intros j [c2 s2] Hj [[Hc2 H2] Hs]; cbn [fst snd] in *.
  eapply outcome_mono; [apply (invalidate_line_ok (i, j) c2 s2); try done; apply (same_size_ptr c); [done|by split]|done|].
  intros x [Hx Hs2]. split; [done|]. by apply (same_size_trans c c2).
Qed.

(** ** Accesses through the MMU *)

Definition read_res (o : option ((fault_t + Z) * system M)) : Prop := outcome full (fun p => sys_ok p.2 /\ found word p.1) o.
Lemma res_fault f s : sys_ok s -> read_res (Some (inl f, s)).
Proof. by split. Qed.
Lemma res_value v s : sys_ok s -> word v -> read_res (Some (inr v, s)).
Proof. intros H Hv. split; [done|]. intros x Hx. by injection Hx as <-. Qed.

Lemma word_index_range va : 0 <= (va >>> 2) &&& 3 < 4.
Proof. pose proof (land_le_r (va >>> 2) 3 ltac:(lia)). lia. Qed.
Lemma read_line_ok w va p s : sys_ok s -> line_ptr (a71_cache s) p -> outcome full word (read_line w va p s).
Proof.
  intros H Hp. unfold read_line. destruct (line_there _ p (so_cache _ H) Hp) as (l & -> & Hl). cbn [mbind option_bind].
  unfold line_word. destruct (line_word_there l _ Hl (word_index_range va)) as (x & -> & Hx). by apply word_lane_get.
Qed.
Lemma write_line_ok w va d p s : sys_ok s -> word d -> line_ptr (a71_cache s) p -> outcome full sys_ok (write_line w va d p s).
Proof.
  intros H Hd Hp. unfold write_line. destruct (line_there _ p (so_cache _ H) Hp) as (l & -> & Hl). cbn [mbind option_bind].
  unfold line_word. destruct (line_word_there l _ Hl (word_index_range va)) as (x & -> & Hx). cbn [mbind option_bind outcome].
  apply (ok_set_cache _ _ H). apply cache_wf_upd; [apply H|]. intros l' Hl'. apply line_wf_data; [done|].
  apply word_lane_set; [apply (ty_endian _ (ok_typed s H))|done..].
Qed.
Lemma lookup_ok va s : sys_ok s -> outcome true (fun o => forall p, o = Some p -> line_ptr (a71_cache s) p) (a71_lookup va s).
Proof. intros H. unfold a71_lookup. destruct (control_on _ _); [by apply search_there, H|done]. Qed.
Lemma a71_fill_ok va pa s : sys_ok s -> outcome full (fun x => sys_ok x.2 /\ line_ptr (a71_cache x.2) x.1) (a71_fill va pa s).
Proof.
  intros H. unfold a71_fill. eapply outcome_bind; [apply alloc_ok; [apply H|done]|].
  intros [[p c] s1] [[Hc H1] Hp]; cbn [fst snd] in *. cbv zeta.
  eapply outcome_bind; [eapply outcome_mono; [by apply (fill_words_ok p c s1 4)|done|exact (fun _ h => h)]|].
  intros [c1 s2] [[Hc1 H2] Hs]; cbn [fst snd] in *. split; cbn [fst snd].
  - apply (ok_set_cache _ _ H2). by apply cache_wf_upd.
  - by apply (same_size_ptr c).
Qed.
Lemma a71_read_ok w va s : sys_ok s -> word va -> read_res (a71_mmu_read w va s).
Proof.
  intros H Hv. unfold a71_mmu_read.
  assert (forall a s, sys_ok s -> word a -> read_res ('(v, s) ← mem_read w a s; Some (inr v, s))) as Hm.
  { intros a s0 H0 Ha. eapply outcome_bind; [eapply outcome_mono; [by apply mem_read_ok|done|exact (fun _ h => h)]|].
    intros [v s1] [H1 Hx]. by apply res_value. }
  assert (forall p s, sys_ok s -> line_ptr (a71_cache s) p -> read_res (v ← read_line w va p s; Some (inr v, s))) as Hl.
  { intros p s0 H0 Hp. eapply outcome_bind; [eapply outcome_mono; [by apply read_line_ok|done|exact (fun _ h => h)]|].
    intros v Hx. by apply res_value. }
  destruct (negb _); [by apply Hm|]. destruct (misaligned _ _ _); [by apply res_fault|].
  eapply outcome_bind; [eapply outcome_mono; [by apply lookup_ok|done|exact (fun _ h => h)]|].
  intros [p|] Hp; [apply Hl; [done|by apply Hp]|].
  eapply outcome_bind; [eapply outcome_mono; [by apply a71_translate_ok|done|exact (fun _ h => h)]|].
  intros [[f|e] s1] [H1 He]; cbn [fst snd] in *; [by apply res_fault|]. cbv zeta.
  destruct (_ && _); [|apply Hm; [done|by apply word_va_to_pa]].
  eapply outcome_bind; [by apply a71_fill_ok|]. intros [p s2] [H2 Hp2]. by apply Hl.
Qed.
Lemma a71_write_ok w va d s : sys_ok s -> word va -> word d -> outcome full (fun p => sys_ok p.2) (a71_mmu_write w va d s).
Proof.
  intros H Hv Hd. unfold a71_mmu_write.
  assert (forall a s, sys_ok s -> word a -> outcome full (fun p => sys_ok p.2) (s ← mem_write w a d s; Some (NO_FAULT, s))) as Hm.
  { intros a s0 H0 Ha. eapply outcome_bind; [by apply mem_write_ok|]. done. }
  destruct (negb _); [by apply Hm|]. destruct (misaligned _ _ _); [exact H|].
  eapply outcome_bind; [eapply outcome_mono; [by apply lookup_ok|done|exact (fun _ h => h)]|]. intros o Ho.
  eapply (outcome_bind full sys_ok).
  { destruct o as [p|]; [|exact H]. eapply outcome_mono; [apply write_line_ok; [done..|by apply Ho]|done|done]. }
  intros s1 H1. eapply outcome_bind; [eapply outcome_mono; [by apply a71_translate_ok|done|exact (fun _ h => h)]|].
  intros [[f|e] s2] [H2 He]; cbn [fst snd] in *; [exact H2|]. apply Hm; [done|by apply word_va_to_pa].
Qed.

(** ** Coprocessor 15 *)

Lemma word_mrc instr s : sys_ok s -> word (a71_mmu_mrc instr s).
Proof.
  intros H. unfold a71_mmu_mrc. cbv zeta. pose proof (ok_typed s H) as Ht. pose proof (ok_ttb s H). pose proof (ok_dacr s H).
  pose proof (ok_id s H). repeat match goal with |- word (if ?b then _ else _) => destruct b end;
    first [assumption | apply Ht | by compute].
Qed.
Lemma flush_cache_ok s : sys_ok s -> outcome full sys_ok (flush_cache s).
Proof.
  intros H. unfold flush_cache. eapply outcome_bind; [apply invalidate_all_ok; [apply H|done]|].
  intros [c s1] [Hc H1]. by apply ok_set_cache.
Qed.
Lemma flush_tlb_ok s : sys_ok s -> sys_ok (s <| a71_tlb ::= mmu_tlb_invalidate_all |>).
Proof. intros H. apply (ok_set_tlb _ _ H). apply tlb_wf_invalidate_all, H. Qed.
Lemma flush_entry_ok v s : sys_ok s -> sys_ok (s <| a71_tlb ::= fun t => mmu_tlb_invalidate_entry t v |>).
Proof. intros H. apply (ok_set_tlb _ _ H). apply tlb_wf_invalidate_entry, H. Qed.
Lemma mcr_common_ok c v s s' : sys_ok s -> word v -> mcr_common c v s = Some s' -> sys_ok s'.
Proof.
  intros H Hv. unfold mcr_common. destruct (_ =? _).
  { intros [= <-]. apply ok_cpu; [done|]. apply typed_set_control; [by apply ok_typed|by apply word_land_r]. }
  destruct (_ =? _); [intros [= <-]; apply ok_set_ttb; [done|by apply word_land_r]|].
  destruct (_ =? _); [|done]. intros [= <-]. by apply ok_set_dacr.
Qed.
Lemma mcr_v4_ok instr c v s : sys_ok s -> word v -> outcome full sys_ok (mcr_v4 instr c v s).
Proof.
  intros H Hv. unfold mcr_v4. pose proof (ok_typed s H) as Ht. destruct (_ =? _).
  { apply ok_cpu; [done|]. apply typed_set_status; [done|by apply word_land_r]. }
  destruct (_ =? _); [apply ok_cpu; [done|]; by apply typed_set_fault|].
  destruct (_ =? _); [apply outcome_if; [by apply flush_cache_ok|exact H]|].
  repeat apply outcome_if; first [exact H | by apply flush_tlb_ok | by apply flush_entry_ok].
Qed.
Lemma mcr_v3_ok c v s : sys_ok s -> outcome full sys_ok (mcr_v3 c v s).
Proof.
  intros H. unfold mcr_v3. repeat apply outcome_if.
  - by apply flush_tlb_ok.
  - by apply flush_entry_ok.
  - by apply flush_cache_ok.
  - exact H.
Qed.
Lemma a71_mcr_ok instr v s : sys_ok s -> word v -> outcome full sys_ok (a71_mmu_mcr instr v s).
Proof.
  intros H Hv. unfold a71_mmu_mcr. cbv zeta. destruct (mcr_common _ v s) as [s'|] eqn:E; [by apply mcr_common_ok in E|].
  destruct (armv4 s); [by apply mcr_v4_ok|by apply mcr_v3_ok].
Qed.

(** ** The interface of the core *)

Lemma cycle_ok s : sys_ok s -> outcome full sys_ok (cycle s).
Proof.
  intros H. unfold cycle. eapply outcome_bind; [apply board_cycle, H|]. intros [n m] Hm; cbn [snd] in Hm.
  apply ok_set_prescale. by apply ok_set_board.
Qed.
#[export] Instance arm7100_safe_bus : SafeBus M.
Proof.
  refine {| bus_total := full; bus_ok := sys_ok |}.
  - exact ok_typed.
  - exact ok_cpu.
  - exact ok_set_events.
  - intros w a s H Ha. by apply a71_read_ok.
  - intros a s H Ha. by apply a71_read_ok.
  - exact a71_write_ok.
  - intros s H. eapply outcome_mono; [by apply cycle_ok|done|done].
Defined.

(** *** The validation coprocessor *)

Lemma word_val_reg s i : sys_ok s -> word (val_reg s i).
Proof. intros H. apply word_rd, H. Qed.
Lemma set_val_reg_ok i v s : sys_ok s -> word v -> sys_ok (set_val_reg i v s).
Proof. intros H Hv. apply (ok_set_val _ _ H). apply Forall_wr; [apply H|done]. Qed.
Lemma val_count_ok f s : sys_ok s -> (forall v, ValReg (f v) = ValReg v) -> sys_ok (upd_val f s).
Proof. intros H Hf. apply (ok_set_val _ _ H). rewrite Hf. apply H. Qed.
Lemma ValLDC_ok ty instr d s : sys_ok s -> word d -> outcome false (fun p => sys_ok p.2) (ValLDC ty instr d s).
Proof.
  intros H Hd. unfold ValLDC. cbv zeta. pose proof (set_val_reg_ok (BITS instr 12 15) d s H Hd) as H1.
  set (s1 := set_val_reg _ d s) in *. clearbody s1. destruct (negb _); [by apply val_count_ok|].
  destruct (truth _); [by apply val_count_ok|exact H1].
Qed.
Lemma ValSTC_ok ty instr d s : sys_ok s -> word d -> outcome false (fun p => sys_ok p.2 /\ word p.1.2) (ValSTC ty instr d s).
Proof.
  intros H Hd. unfold ValSTC. cbv zeta. pose proof (word_val_reg s (BITS instr 12 15) H) as Hw.
  destruct (negb _); [split; [by apply val_count_ok|done]|]. destruct (truth _); split; try done. by apply val_count_ok.
Qed.
Lemma ValCDP_ok ty instr s : sys_ok s -> outcome false (fun p => sys_ok p.2) (ValCDP ty instr s).
Proof.
  intros H. unfold ValCDP. cbv zeta. repeat apply outcome_if; first [exact H | by apply val_count_ok].
Qed.
Lemma int_after_ok n v f s : sys_ok s -> word v -> sys_ok (int_after n v f s).
Proof.
  intros H Hv. unfold int_after. destruct (_ =? 0).
  - apply ok_cpu; [done|]. by apply typed_Abort; [apply ok_typed|].
  - unfold ARMul_ScheduleEvent. cbv zeta. by apply ok_set_events.
Qed.
Lemma match_cdp {A} (P : A -> Prop) n a0 a1 a2 a3 a4 a5 d : P a0 -> P a1 -> P a2 -> P a3 -> P a4 -> P a5 -> P d ->
  P (match n with 0 => a0 | 1 => a1 | 2 => a2 | 3 => a3 | 4 => a4 | 5 => a5 | _ => d end).
Proof. intros. repeat case_match; assumption. Qed.
Lemma word_time_sum c : word (ARMul_Time c).
Proof. unfold ARMul_Time. auto with words. Qed.
Lemma IntCDP_ok ty instr s : sys_ok s -> outcome false (fun p => sys_ok p.2) (IntCDP ty instr s).
Proof.
  intros H. unfold IntCDP. cbv zeta. apply match_cdp.
  - repeat apply outcome_if; first [exact H | by apply val_count_ok].
  - by apply int_after_ok; [|compute].
  - by apply int_after_ok; [|compute].
  - apply ok_cpu; [done|]. apply (typed_same (cpu s)); [reflexivity|by apply ok_typed].
  - apply ok_cpu; [done|]. apply (typed_same (cpu s)); [reflexivity|by apply ok_typed].
  - apply set_val_reg_ok; [done|apply word_time_sum].
  - exact H.
Qed.

#[export] Instance plain_safe_copros : SafeCoPros M.
Proof.
  split; intros n ty i; [intros d s H Hd..|intros s H]; cbn [cp_LDC cp_STC cp_MRC cp_MCR cp_CDP ARMul_CoProInit].
  - apply outcome_if; [by apply ValLDC_ok|exact H].
  - apply outcome_if; [by apply ValSTC_ok|by split].
  - apply outcome_if; [|apply outcome_if; [|by split]]; (split; [exact H|]); [by apply word_val_reg|by apply word_mrc].
  - apply outcome_if; [by apply set_val_reg_ok|]. apply outcome_if; [|exact H].
    eapply (outcome_bind false sys_ok); [eapply outcome_mono; [by apply a71_mcr_ok|done|done]|done].
  - apply outcome_if; [by apply ValCDP_ok|]. apply outcome_if; [by apply IntCDP_ok|exact H].
Qed.
End System.
