(* ===== verification/SysSound.v ===== *)
(** * The LPC2300 keeps its types

    The whole machine: the core of CoreTypes.v and ExecTypes.v, the memory
    system of SysTypes.v and the peripherals of the LPC2300, which discharge
    its interface for boards; and a run of an LPC2300 with 4 KB of RAM, its
    serial lines and timers, and the rest of the address space in banks that
    ignore writes, whose program sends a byte to UART 0 and polls its
    status; and a run on the memory map of skyeye.conf. *)

From S2P Require Import Prelude Words ArmState ArmBanks ArmInit UartDev Machine LpcIo LpcSafe LpcWitness LpcBoard ArmSys ArmMem MemSpec Tlb Cache Arm7100 ArmVirt ArmCopro ArmValid ArmEmulate SysWitness LpcCore CoreTypes ExecTypes SysTypes LpcState.

Section Lpc.
Context {host : Type} `{!UartDriver host}.
Implicit Type m : machine host.

(** The registers of the interrupt priorities, where a number that is negative
    as an [int] is undefined behaviour, are at other addresses. *)
Definition no_priority (addr : Z) : Prop := 0x7c < sub32 addr 0xfffff200.

Lemma typed_pins m m' : typed (core m) -> unpinned (core m') = unpinned (core m) -> typed (core m').
Proof.
  intros H E. apply (typed_same (core m)); [|done].
  change (untyped (unpinned (core m')) = untyped (unpinned (core m))). by rewrite E.
Qed.

(** The board, and with [full] the promise that its operations return. *)
Definition lpc2300_safe_board (full : bool) : SafeBoard (machine host).
Proof.
  refine {| board_total := full; board_ok := fun m => machine_ok full m /\ typed (core m); writable := no_priority |}.
  - by intros m [_ H].
  - intros c m [H1 H2] Hc. split; [exact (wf_upd_core (fun _ => c) m H1)|exact Hc].
  - intros w a m [H1 H2] Ha. assert (io_read w a m = lpc2300_io_read_word a m) as -> by by destruct w.
    pose proof (pins_read_word (unpinned (core m)) a m eq_refl) as Hp.
    pose proof (safe_read_word a m H1) as Hs. destruct (lpc2300_io_read_word a m) as [[d m']|]; [|exact Hs].
    destruct Hs as [Hd H3]. split; [|done]. split; [done|]. by apply (typed_pins m).
  - intros w a d m [H1 H2] Ha Hd Hw. assert (io_write w a d m = lpc2300_io_write_word a d m) as -> by by destruct w.
    pose proof (pins_write_word (unpinned (core m)) a d m eq_refl) as Hp.
    assert (write_ok (strict := full) a d) as Hok.
    { split; [done|]. intros Hf. specialize (Hw Hf). unfold no_priority in Hw. lia. }
    pose proof (safe_write_word a d Hok m H1) as Hs. destruct (lpc2300_io_write_word a d m) as [m'|]; [|exact Hs].
    split; [exact Hs|]. by apply (typed_pins m).
  - intros n m [H1 H2]. unfold io_do_cycle. cbv zeta. destruct (_ <? 0); [|by split].
    change (fold_left _ devices _) with (Some m). cbn [mbind option_bind].
    change (mach_io_do_cycle mach m) with (lpc2300_io_do_cycle m).
    pose proof (pins_do_cycle (unpinned (core m)) m eq_refl) as Hp. pose proof (safe_do_cycle m H1) as Hs.
    destruct (lpc2300_io_do_cycle m) as [m'|]; [|exact Hs]. split; [exact Hs|]. by apply (typed_pins m).
Defined.

(** A well-typed system; with [full] every address lies in a bank, and no bank
    of devices covers the interrupt priorities. *)
Definition well_typed (full : bool) : system (machine host) -> Prop := sys_ok (SafeBoard0 := lpc2300_safe_board full).

Implicit Type s : system (machine host).

(** C40: The machine is type sound.  From a well-typed system (words in the
    registers, status registers, memories, buffers and devices, bits in the
    flags, the arrays of C at their sizes, every ring and cycle index in range),
    on any memory map, every turn of the instruction loop that returns leaves
    a well-typed system: fetch, exceptions, events, the peripherals' cycle and
    the execution of any instruction, Thumb or ARM, with its MMU, cache and
    device accesses.  If moreover ([full]) every address lies in a bank, no bank of
    devices covers the registers of the interrupt priorities, and the
    instructions executed are neither coprocessor transfers nor block
    transfers with an empty list, every turn returns: no access leaves an
    array and nothing ends the simulation.  (The map of skyeye.conf has
    devices at the interrupt priorities, and is covered by the first part:
    a guest can write a priority of 2^31 there, which is undefined behaviour.) *)
Theorem machine_is_type_sound full n fuel p s :
  well_typed full s -> pipe_ok p ->
  (forall p' s', turns n fuel p s = Some (p', s') -> well_typed full s' /\ pipe_ok p') /\
  (full = true -> regular_turns n fuel p s = true -> exists p' s', turns n fuel p s = Some (p', s')).
Proof.
  intros H Hp.
  pose proof (turns_ok (SafeBus0 := arm7100_safe_bus (SafeBoard0 := lpc2300_safe_board full))
    (SafeCoPros0 := plain_safe_copros (SafeBoard0 := lpc2300_safe_board full)) n fuel p s H Hp) as Ht.
  cbn [bus_total bus_ok arm7100_safe_bus board_total lpc2300_safe_board] in Ht.
  destruct (turns n fuel p s) as [[p1 s1]|].
  - split; [by intros p' s' [= <- <-]|]. intros _ _. by exists p1, s1.
  - split; [done|]. intros -> Hr. rewrite Hr in Ht. discriminate Ht.
Qed.
End Lpc.

(** ** A concrete run *)

Definition warn_bank (addr len : Z) : mem_bank_t :=
  mkBank addr len (fun _ => Some mem_warn) (fun _ => Some mem_warn).
Definition used_banks : list mem_bank_t :=
  [map_M 0 0x1000; warn_bank 0x1000 0xDFFFF000; map_I 0xE0000000 0x200000; warn_bank 0xE0200000 0x1FE00000].
Definition all_banks : list mem_bank_t := used_banks ++ [no_bank].
(** MOV r0, #65; STR r0, [r1]; LDR r2, [r1, #20]; a branch to itself. *)
Definition program : list Z := [0xE3A00041; 0xE5810000; 0xE5912014; 0xEAFFFFFE].
Definition run_ram : mem_state_t := mkMem all_banks [program ++ replicate 1020 0] None.
Definition run_core : ARMul_State :=
  set_reg 1 0xE000C000 (zero_state <| Emulate := RUN |> <| Mode := SVC32MODE |> <| prog32Sig := HIGH |>
    <| data32Sig := HIGH |> <| NextInstr := PRIMEPIPE |> <| NresetSig := HIGH |> <| NfiqSig := HIGH |> <| NirqSig := HIGH |>).
Definition run_sys : system (machine lines) :=
  mkSystem (machine0 <| core := run_core |>) run_ram 0 0 0 0 true false
    (mmu_tlb_init 64 (fun _ => mkEntry 0 0 0 0 TLB_TINYPAGE))
    (mmu_cache_init 16 4 128 CACHE_WRITE_THROUGH (fun _ _ => mkLine 0 0 [0; 0; 0; 0])) DIVISOR
    (mkEvents 0 0 (replicate 1024 [])) (mkVal (replicate 16 0) 0 0 0 0).

Lemma all_banks_at addr i b : word addr -> at_bank all_banks addr i b ->
  used_banks !! i = Some b /\ bk_addr b <= addr < bk_addr b + bk_len b.
Proof.
  intros Ha [Hi Hin]. destruct i as [|[|[|[|[|i]]]]]; try discriminate Hi; injection Hi as <-;
    try (split; [reflexivity|]; by apply in_bank_range in Hin).
  by rewrite in_bank_free in Hin.
Qed.
Lemma all_banks_cover addr : word addr -> exists i b, at_bank all_banks addr i b /\ bk_write b Byte <> None.
Proof.
  intros Ha.
  assert (forall i b, all_banks !! i = Some b -> 0 <= bk_addr b -> bk_addr b <= addr < bk_addr b + bk_len b -> bk_write b Byte <> None ->
            exists i b, at_bank all_banks addr i b /\ bk_write b Byte <> None) as Hb.
  { intros i b Hi Hp Hr Hw. exists i, b. split; [split; [done|]; by apply in_bank_range|done]. }
  destruct Ha as [Ha1 Ha2]. destruct (Z.ltb_spec addr 0x1000); [apply (Hb 0%nat _ eq_refl); cbn; [lia|lia|done]|].
  destruct (Z.ltb_spec addr 0xE0000000); [apply (Hb 1%nat _ eq_refl); cbn; [lia|lia|done]|].
  destruct (Z.ltb_spec addr 0xE0200000); [apply (Hb 2%nat _ eq_refl); cbn; [lia|lia|done]|].
  apply (Hb 3%nat _ eq_refl); cbn; [lia|lia|done].
Qed.
(** Banks in a row that do not overlap. *)
Definition apart (b c : mem_bank_t) : bool :=
  (bk_addr b + bk_len b <=? bk_addr c) || (bk_addr c + bk_len c <=? bk_addr b).
Lemma banks_wf_apart used : Forall bank_shape used -> ForallOrdPairs (fun b c => apart b c = true) used ->
  banks_wf (used ++ [no_bank]).
Proof.
  intros Hs Ha. split; [exists used, [no_bank]; split; [done|]; split; [done|]; split; [done|]; by repeat constructor|].
  assert (forall i j b c, (i < j)%nat -> used !! i = Some b -> used !! j = Some c -> apart b c = true) as Hp.
  { clear Hs. induction Ha as [|x l Hx Hl IH]; [done|]. intros [|i] [|j] b c Hij Hi Hj; try lia.
    - injection Hi as <-. rewrite List.Forall_forall in Hx. by apply Hx, list_elem_of_In, (list_elem_of_lookup_2 _ j).
    - apply (IH i j); [lia|done..]. }
  assert (forall addr i b, at_bank (used ++ [no_bank]) addr i b -> word addr ->
    used !! i = Some b /\ bk_addr b <= addr < bk_addr b + bk_len b) as Hat.
  { intros addr i b [[Hi|[Hl Hi]]%lookup_app_Some Hin] Hw.
    - split; [done|]. rewrite Forall_lookup in Hs. apply in_bank_range in Hin; [done|apply (Hs i b Hi)|done].
    - apply list_lookup_singleton_Some in Hi as [_ <-]. by rewrite in_bank_free in Hin. }
  intros addr i j b c Hw Hi Hj. apply Hat in Hi as [Hi Ri]; [|done]. apply Hat in Hj as [Hj Rj]; [|done].
  destruct (Nat.lt_trichotomy i j) as [H|[H|H]]; [|done|]; exfalso.
  - specialize (Hp i j b c H Hi Hj). unfold apart in Hp. lia.
  - specialize (Hp j i c b H Hj Hi). unfold apart in Hp. lia.
Qed.
Lemma all_banks_wf : banks_wf all_banks.
Proof. apply banks_wf_apart; repeat constructor; cbn; lia || done. Qed.
Lemma run_ram_wf : mem_wf run_ram.
Proof.
  split; [apply all_banks_wf|]. intros i b Hi [w Hu].
  destruct i as [|[|[|[|[|i]]]]]; try discriminate Hi; injection Hi as <-; try by destruct Hu.
  exists (program ++ replicate 1020 0). split; [done|]. split; [by vm_compute|]. apply Forall_app.
  split; [repeat (apply list.Forall_cons_2; [by compute|]); apply list.Forall_nil_2|by apply Forall_replicate].
Qed.
Lemma typed_run_core : typed run_core.
Proof.
  unfold run_core. apply typed_set_reg; [|by compute].
  split; [|by compute..|by left|done]. pose proof wf_zero_state. wf_frame.
Qed.
Lemma run_sys_ok : well_typed true run_sys.
Proof.
  split; cbn [board ram a71_tlb a71_cache val translation_table_base domain_access_control cpu_val run_sys ValReg].
  - split; [|exact typed_run_core]. apply (wf_upd_core (fun _ => run_core)). apply wf_zero_io. unfold UART_INT_CYCLE. lia.
  - exact run_ram_wf.
  - split; [|intros addr _; apply all_banks_cover]. intros addr i b w _ Ha [Hi Ri]%all_banks_at Hw; [|done].
    destruct i as [|[|[|[|i]]]]; try discriminate Hi; injection Hi as <-; try discriminate Hw.
    cbn [bk_addr bk_len map_I] in Ri. change (no_priority addr). unfold no_priority, sub32, u32. clear - Ri. dlia.
  - by apply tlb_wf_init.
  - apply cache_wf_init; [done..|]. intros _ _. split; [done|]. cbn [line_data]. repeat (apply list.Forall_cons_2; [by compute|]). apply list.Forall_nil_2.
  - repeat (apply list.Forall_cons_2; [by compute|]). apply list.Forall_nil_2.
  - by apply Forall_replicate.
Qed.

(** The memory map of skyeye.conf, with a program that gives interrupt 4 the
    priority 2^31: MOV r0, #2^31; STR r0, [r1, #0x210]; a branch to itself. *)
Definition shipped_banks : list mem_bank_t :=
  [map_M 0 0x80000; map_M 0x40000000 0x10000; map_M 0x7FD00000 0x4000; map_M 0x7FE00000 0x4000;
   map_I 0xE0000000 0x10000000; map_I 0xF0000000 0x10000000; map_I 0x3FFFC000 0xA0].
Definition rom_of (words : list Z) (n : Z) : list Z := words ++ replicate (Z.to_nat n) 0.
Definition shipped_rom : list (list Z) :=
  [rom_of [0xE3A00102; 0xE5810210; 0xEAFFFFFE] 0x1FFFD; rom_of [] 0x4000; rom_of [] 0x1000; rom_of [] 0x1000].
Definition shipped_ram : mem_state_t := mkMem (shipped_banks ++ [no_bank]) shipped_rom None.
Definition shipped_sys : system (machine lines) :=
  run_sys <| board := machine0 <| core := set_reg 1 0xFFFFF000 run_core |> |> <| ram := shipped_ram |>.

Lemma rom_of_wf words n len : Forall word words -> 0 <= n -> Z.of_nat (length words) + n = len ->
  Z.of_nat (length (rom_of words n)) = len /\ Forall word (rom_of words n).
Proof.
  intros Hw Hn <-. unfold rom_of. rewrite length_app, length_replicate, Nat2Z.inj_add, Z2Nat.id by done.
  split; [done|]. apply Forall_app. split; [done|by apply Forall_replicate].
Qed.
Lemma shipped_ram_wf : mem_wf shipped_ram.
Proof.
  split; [apply banks_wf_apart; repeat constructor; cbn; lia || done|].
  intros i b Hi [w Hu]. change (rom shipped_ram) with shipped_rom. unfold shipped_rom.
  destruct i as [|[|[|[|[|[|[|[|i]]]]]]]]; try discriminate Hi; injection Hi as <-; try by destruct Hu.
  1: exists (rom_of [0xE3A00102; 0xE5810210; 0xEAFFFFFE] 0x1FFFD).
  2: exists (rom_of [] 0x4000). 3,4: exists (rom_of [] 0x1000).
  all: split; [reflexivity|]; apply rom_of_wf; [|done|done].
  all: repeat (apply list.Forall_cons_2; [by compute|]); apply list.Forall_nil_2.
Qed.
Lemma shipped_sys_ok : well_typed false shipped_sys.
Proof.
  destruct run_sys_ok as [_ _ _ H4 H5 H6 H7]. split; try assumption.
  - split; [|apply typed_set_reg; [exact typed_run_core|by compute]].
    apply (wf_upd_core (fun _ => set_reg 1 0xFFFFF000 run_core)). apply wf_zero_io. unfold UART_INT_CYCLE. lia.
  - exact shipped_ram_wf.
  - by split.
Qed.

Lemma machine_is_type_sound_witness :
  (exists p' s', turns 12 0 (mkPipe 0 0 0) run_sys = Some (p', s') /\ well_typed true s') /\
  (exists p' s', turns 8 0 (mkPipe 0 0 0) shipped_sys = Some (p', s') /\ well_typed false s').
Proof.
  split.
  - destruct (machine_is_type_sound true 12 0 (mkPipe 0 0 0) run_sys run_sys_ok) as [Hs Ht].
    + by split; [|split].
    + destruct Ht as (p' & s' & E); [reflexivity|vm_compute; reflexivity|].
      exists p', s'. split; [exact E|]. exact (proj1 (Hs p' s' E)).
  - destruct (machine_is_type_sound false 8 0 (mkPipe 0 0 0) shipped_sys shipped_sys_ok) as [Hs _]; [by split; [|split]|].
    assert (bool_decide (is_Some (turns 8 0 (mkPipe 0 0 0) shipped_sys)) = true) as E by (vm_compute; reflexivity).
    apply bool_decide_eq_true_1 in E as [[p' s'] E]. exists p', s'. split; [exact E|]. exact (proj1 (Hs p' s' E)).
Defined.
