(* ===== verification/FlashIntel.v ===== *)
(** * An Intel StrataFlash pair (dev_flash_intel.c)

    Two 28F128J3A chips side by side: the command state machine for
    programming words or a buffer, erasing, locking, and the four read modes.
    The contents live in the bank of the memory map at the device's address.
    [None] is undefined behaviour: an address outside the memory banks (the
    result of [bank_ptr] is not checked) or beyond the lock bits. *)

From S2P Require Import Prelude Words ArmState Machine ArmSys ArmMem.

(** ** Constants (dev_flash_intel.h) *)
Definition INTEL28F128J3A_SIZE : Z := 0x1000000 * 2.
Definition INTEL_MANUFACTURER_CODE : Z := 0x0089.
Definition INTEL_28F128J3A_DEVICE_CODE : Z := 0x0018.
Definition INTEL_WRITEBUFFER_SIZE : Z := 0x10.
Definition INTEL_WRITEBUFFER_MASK : Z := 0xf.
Definition INTEL_QUERYTABLE_SIZE : Z := 0x47.
Definition FLASH_SECTOR_SIZE : Z := 0x40000.
Definition FLASH_SECTOR_MASK : Z := 0xfffc0000.
Definition FLASH_SECTOR_OFF : Z := 0x3ffff.
Definition FLASH_SECTOR_SHIFT : Z := 18.
Definition SECTOR_ADDR (x : Z) : Z := x >>> FLASH_SECTOR_SHIFT.
Definition WORD_SHIFT : Z := 2.
Definition WORD_ADDR (x : Z) : Z := x >>> WORD_SHIFT.
Definition BOTHCHIP (x : Z) : Z := ((x &&& 0xffff) <<< 16) ||| (x &&& 0xffff).

Definition WSM_READ_ARRAY : Z := 0xff.
Definition WSM_READ_ID : Z := 0x90.
Definition WSM_READ_STATUS : Z := 0x70.
Definition WSM_CLEAR_STATUS : Z := 0x50.
Definition WSM_READ_QUERY : Z := 0x98.
Definition WSM_WRITE_BUFFER : Z := 0xe8.
Definition WSM_PROGRAM : Z := 0x40.
Definition WSM_PROGRAM2 : Z := 0x10.
Definition WSM_BLOCK_ERASE : Z := 0x20.
Definition WSM_SUSPEND : Z := 0xB0.
Definition WSM_RESUME : Z := 0xD0.
Definition WSM_LOCK_ACCESS : Z := 0x60.
Definition WSM_CONFIRM : Z := 0xD0.
Definition WSM_READY : Z := 0x00.

(** ** State *)
Record flash_intel_io := mkFlash {
  lock : list Z; read_mode : Z; wsm_mode : Z; vpen : Z;
  program_latch_addr : Z; program_latch_data : Z; progbuf_latch_addr : Z; erase_latch_addr : Z;
  pb_count : Z; pb_loaded : Z; pb_start : Z; pb_buf : list Z;
  program_busy : bool; progbuf_busy : bool; erase_busy : bool; lock_busy : bool;
  program_suspended : bool; progbuf_suspended : bool; erase_suspended : bool;
  protection_error : bool; program_setlb_error : bool; erase_clearlb_error : bool; program_volt_error : bool
}.
#[export] Instance eta_flash : Eta flash_intel_io := fun f => mkFlash
  (lock f) (read_mode f) (wsm_mode f) (vpen f)
  (program_latch_addr f) (program_latch_data f) (progbuf_latch_addr f) (erase_latch_addr f)
  (pb_count f) (pb_loaded f) (pb_start f) (pb_buf f)
  (program_busy f) (progbuf_busy f) (erase_busy f) (lock_busy f)
  (program_suspended f) (progbuf_suspended f) (erase_suspended f)
  (protection_error f) (program_setlb_error f) (erase_clearlb_error f) (program_volt_error f).

(** [io->lock[addr >> 18]]: one entry for each of the 128 sectors. *)
Definition ISLOCKED (f : flash_intel_io) (x : Z) : option bool := truth <$> lock f !! Z.to_nat (SECTOR_ADDR x).
Definition DEVICE_SUSPENDED (f : flash_intel_io) : bool :=
  program_suspended f || progbuf_suspended f || erase_suspended f.
Definition ADDR_SUSPENDED (f : flash_intel_io) (x : Z) : bool :=
  (program_suspended f && (x =? program_latch_addr f)) ||
  (progbuf_suspended f && ((pb_start f <=? x) && (x <? add32 (pb_start f) (pb_count f)))) ||
  (erase_suspended f && ((x &&& FLASH_SECTOR_MASK) =? (erase_latch_addr f &&& FLASH_SECTOR_MASK))).

(** The memory of the device is not touched by a reset. *)
Definition flash_intel_reset (f : flash_intel_io) : flash_intel_io :=
  f <| lock := replicate (Z.to_nat (INTEL28F128J3A_SIZE / FLASH_SECTOR_SIZE)) 0 |>
    <| read_mode := WSM_READ_ARRAY |> <| wsm_mode := WSM_READY |>
    <| program_busy := false |> <| progbuf_busy := false |> <| erase_busy := false |> <| lock_busy := false |>
    <| program_suspended := false |> <| progbuf_suspended := false |> <| erase_suspended := false |>
    <| protection_error := false |> <| program_setlb_error := false |> <| erase_clearlb_error := false |>
    <| program_volt_error := false |> <| vpen := 1 |> <| pb_count := 0 |> <| pb_loaded := 0 |>.

(** The query table: the entries that are not 0 (both chips give the same). *)
Definition query_entries : list (Z * Z) :=
  [(0x00, 0x89); (0x01, 0x18); (0x02, 0x01); (0x10, 0x51); (0x11, 0x52); (0x12, 0x59); (0x13, 0x01); (0x15, 0x31);
   (0x1b, 0x27); (0x1c, 0x36); (0x1f, 0x07); (0x20, 0x07); (0x21, 0x0A); (0x23, 0x04); (0x24, 0x04); (0x25, 0x04);
   (0x27, 0x18); (0x28, 0x02); (0x2a, 0x05); (0x2c, 0x01); (0x2d, 0x7F); (0x30, 0x02); (0x31, 0x50); (0x32, 0x52);
   (0x33, 0x49); (0x34, 0x31); (0x35, 0x32); (0x36, 0xCE); (0x3a, 0x01); (0x3b, 0x01); (0x3c, 0x01); (0x3d, 0x33);
   (0x3f, 0x01); (0x40, 0x00); (0x41, 0x01); (0x42, 0x03); (0x43, 0x03); (0x44, 0x03)].
Definition init_querytable : list Z :=
  fold_left (fun q '(i, v) => wr q i (BOTHCHIP v)) query_entries (replicate (Z.to_nat INTEL_QUERYTABLE_SIZE) 0).

(** ** The array

    [global_mbp = bank_ptr (addr)] before every [real_read_word] and
    [real_write_word]. *)
Definition flash_real_read (e addr : Z) (r : mem_state_t) : option (Z * mem_state_t) :=
  '(o, r) ← bank_ptr addr r; i ← o; x ← real_read e Word i addr r; Some (x, r).
Definition flash_real_write (e addr data : Z) (r : mem_state_t) : option mem_state_t :=
  '(o, r) ← bank_ptr addr r; i ← o; real_write e Word i addr data r.
Definition flash_real_and (e addr data : Z) (r : mem_state_t) : option mem_state_t :=
  '(o, r) ← bank_ptr addr r; i ← o; x ← real_read e Word i addr r; real_write e Word i addr (x &&& data) r.

(** ** Reading *)

Definition status_register (f : flash_intel_io) : Z :=
  let ready := negb (program_busy f) && negb (progbuf_busy f) && negb (lock_busy f) && negb (erase_busy f) in
  BOTHCHIP ((c_bool ready <<< 7) ||| (c_bool (erase_suspended f) <<< 6) ||| (c_bool (erase_clearlb_error f) <<< 5)
    ||| (c_bool (program_setlb_error f) <<< 4) ||| (c_bool (program_volt_error f) <<< 3)
    ||| (c_bool (program_suspended f) <<< 2) ||| (c_bool (protection_error f) <<< 1)).

Definition flash_intel_read_word (e addr : Z) (f : flash_intel_io) (r : mem_state_t) : option (Z * mem_state_t) :=
  if read_mode f =? WSM_READ_ARRAY then flash_real_read e addr r
  else if read_mode f =? WSM_READ_ID then
    let temp := WORD_ADDR addr &&& 0x00000001 in
    if temp =? 0 then Some (BOTHCHIP INTEL_MANUFACTURER_CODE, r)
    else if temp =? 1 then Some (BOTHCHIP INTEL_28F128J3A_DEVICE_CODE, r)
    else if ((addr &&& FLASH_SECTOR_OFF) >>> WORD_SHIFT) =? 2
    then l ← ISLOCKED f addr; Some (BOTHCHIP (c_bool l &&& 0x1), r) else Some (0, r)
  else if read_mode f =? WSM_READ_STATUS then Some (status_register f, r)
  else if read_mode f =? WSM_READ_QUERY then
    let temp := WORD_ADDR (addr &&& 0x0000ffff) in
    Some (if temp <? INTEL_QUERYTABLE_SIZE then rd init_querytable temp else 0, r)
  else Some (0, r).

Definition flash_intel_read_byte (e addr : Z) (f : flash_intel_io) (r : mem_state_t) : option (Z * mem_state_t) :=
  '(temp, r) ← flash_intel_read_word e addr f r;
  Some ((temp >>> (((e * 3) ^^^ (addr &&& 3)) <<< 3)) &&& 0xff, r).
Definition flash_intel_read_halfword (e addr : Z) (f : flash_intel_io) (r : mem_state_t) : option (Z * mem_state_t) :=
  '(temp, r) ← flash_intel_read_word e addr f r;
  Some ((temp >>> (((e * 2) ^^^ (addr &&& 2)) <<< 3)) &&& 0xffff, r).

(** ** Commands *)

Definition init_wsm (data : Z) (f : flash_intel_io) : flash_intel_io :=
  let cmd := data &&& 0xff in
  if (cmd =? WSM_READ_ARRAY) || (cmd =? WSM_READ_ID) || (cmd =? WSM_READ_STATUS) || (cmd =? WSM_READ_QUERY)
  then f <| read_mode := cmd |>
  else if cmd =? WSM_CLEAR_STATUS then
    f <| protection_error := false |> <| program_setlb_error := false |> <| erase_clearlb_error := false |>
      <| program_volt_error := false |> <| read_mode := WSM_READ_ARRAY |>
  else if (cmd =? WSM_PROGRAM) || (cmd =? WSM_PROGRAM2) then f <| wsm_mode := WSM_PROGRAM |>
  else if cmd =? WSM_WRITE_BUFFER then
    f <| wsm_mode := WSM_WRITE_BUFFER |> <| read_mode := WSM_READ_STATUS |> <| pb_count := 0 |> <| pb_loaded := 0 |>
      <| pb_buf := replicate (Z.to_nat INTEL_WRITEBUFFER_SIZE) 0xffffffff |>
  else if cmd =? WSM_BLOCK_ERASE then f <| wsm_mode := WSM_BLOCK_ERASE |>
  else if cmd =? WSM_SUSPEND then
    if program_busy f then f <| program_suspended := true |>
    else if progbuf_busy f then f <| progbuf_suspended := true |>
    else if erase_busy f then f <| erase_suspended := true |> else f
  else if cmd =? WSM_RESUME then
    if program_suspended f then f <| program_suspended := false |>
    else if progbuf_suspended f then f <| progbuf_suspended := false |>
    else if erase_suspended f then f <| erase_suspended := false |> else f
  else if cmd =? WSM_LOCK_ACCESS then f <| wsm_mode := WSM_LOCK_ACCESS |>
  else f.

Definition ready (f : flash_intel_io) : flash_intel_io := f <| wsm_mode := WSM_READY |>.
(** A wrong command sequence. *)
Definition sequence_error (f : flash_intel_io) : flash_intel_io :=
  ready (f <| program_setlb_error := true |> <| erase_clearlb_error := true |>).

(** The count of a buffered write. *)
Definition buffer_count (addr data : Z) (f : flash_intel_io) : flash_intel_io :=
  let f := f <| pb_count := (data &&& 0xff) + 1 |> <| progbuf_latch_addr := addr |> in
  if INTEL_WRITEBUFFER_SIZE <? pb_count f then sequence_error f
  else if negb (SECTOR_ADDR addr =? SECTOR_ADDR (u32 (addr + pb_count f - 1))) then sequence_error f
  else f.
(** One word of the buffer. *)
Definition buffer_load (addr data : Z) (f : flash_intel_io) : flash_intel_io :=
  if negb (SECTOR_ADDR addr =? SECTOR_ADDR (progbuf_latch_addr f)) then sequence_error f
  else
    let f := if pb_loaded f =? 0 then f <| pb_start := addr |> else f in
    f <| pb_buf ::= fun b => wr b (WORD_ADDR addr &&& INTEL_WRITEBUFFER_MASK) data |> <| pb_loaded ::= fun n => add32 n 1 |>.

(** The buffer is programmed. *)
Definition program_buffer (e : Z) (f : flash_intel_io) (r : mem_state_t) : option mem_state_t :=
  for_range_opt (WORD_ADDR (pb_start f)) (WORD_ADDR (pb_start f) + INTEL_WRITEBUFFER_SIZE)
    (fun j r => flash_real_and e (shl32 j WORD_SHIFT) (rd (pb_buf f) (j &&& INTEL_WRITEBUFFER_MASK)) r) r.
Definition buffer_confirm (e data : Z) (f : flash_intel_io) (r : mem_state_t) :
    option (flash_intel_io * mem_state_t) :=
  if (data &&& 0xff) =? WSM_CONFIRM then
    let f := f <| progbuf_busy := true |> <| read_mode := WSM_READ_STATUS |> in
    locked ← ISLOCKED f (progbuf_latch_addr f);
    '(f, r) ←
      (if locked : bool then Some (f <| program_setlb_error := true |> <| protection_error := true |>, r)
       else if DEVICE_SUSPENDED f then Some (f <| program_setlb_error := true |>, r)
       else if negb (vpen f =? 1) then Some (f <| program_setlb_error := true |> <| program_volt_error := true |>, r)
       else r ← program_buffer e f r; Some (f, r));
    Some (ready f <| progbuf_busy := false |>, r)
  else Some (sequence_error f, r).

Definition write_program (e addr data : Z) (f : flash_intel_io) (r : mem_state_t) :
    option (flash_intel_io * mem_state_t) :=
  let f := f <| program_busy := true |> <| program_latch_addr := addr |> <| program_latch_data := data |>
             <| read_mode := WSM_READ_STATUS |> in
  locked ← ISLOCKED f addr;
  '(f, r) ←
    (if locked : bool then Some (f <| program_setlb_error := true |> <| protection_error := true |>, r)
     else if ADDR_SUSPENDED f addr then Some (f <| program_setlb_error := true |>, r)
     else if negb (vpen f =? 1) then Some (f <| program_setlb_error := true |> <| program_volt_error := true |>, r)
     else r ← flash_real_and e addr data r; Some (f, r));
  Some (ready (f <| program_busy := false |>), r).

Definition erase_sector (e latch : Z) (r : mem_state_t) : option mem_state_t :=
  for_range_opt 0 (WORD_ADDR FLASH_SECTOR_SIZE)
    (fun i r => flash_real_write e (add32 latch (i <<< WORD_SHIFT)) 0xffffffff r) r.
Definition write_erase (e addr data : Z) (f : flash_intel_io) (r : mem_state_t) :
    option (flash_intel_io * mem_state_t) :=
  if (data &&& 0xff) =? WSM_CONFIRM then
    let latch := addr &&& FLASH_SECTOR_MASK in
    let f := f <| erase_busy := true |> <| erase_latch_addr := latch |> <| read_mode := WSM_READ_STATUS |> in
    locked ← ISLOCKED f latch;
    '(f, r) ←
      (if locked : bool then Some (f <| erase_clearlb_error := true |> <| protection_error := true |>, r)
       else if DEVICE_SUSPENDED f then Some (f <| erase_clearlb_error := true |>, r)
       else if negb (vpen f =? 1) then Some (f <| erase_clearlb_error := true |> <| program_volt_error := true |>, r)
       else r ← erase_sector e latch r; Some (f, r));
    Some (ready (f <| erase_busy := false |>), r)
  else Some (ready f, r).

(** Setting one lock bit, or clearing all of them. *)
Definition write_lock (addr data : Z) (f : flash_intel_io) : option flash_intel_io :=
  if (data &&& 0xff) =? 0x01 then
    let f := f <| read_mode := WSM_READ_STATUS |> in
    f ← (if DEVICE_SUSPENDED f then Some (f <| program_setlb_error := true |>)
         else if negb (vpen f =? 1) then Some (f <| program_setlb_error := true |> <| program_volt_error := true |>)
         else if SECTOR_ADDR addr <? Z.of_nat (length (lock f))
         then Some (f <| lock ::= fun l => wr l (SECTOR_ADDR addr) 1 |>) else None);
    Some (ready (f <| lock_busy := false |>))
  else if (data &&& 0xff) =? WSM_CONFIRM then
    let f := f <| read_mode := WSM_READ_STATUS |> in
    let f := if DEVICE_SUSPENDED f then f <| erase_clearlb_error := true |>
             else if negb (vpen f =? 1) then f <| erase_clearlb_error := true |> <| program_volt_error := true |>
             else f <| lock ::= fun l => replicate (length l) 0 |> in
    Some (ready (f <| lock_busy := false |>))
  else Some (ready f).

Definition flash_intel_write_word (e addr data : Z) (f : flash_intel_io) (r : mem_state_t) :
    option (flash_intel_io * mem_state_t) :=
  if wsm_mode f =? WSM_READY then Some (init_wsm data f, r)
  else if wsm_mode f =? WSM_WRITE_BUFFER then
    if pb_count f =? 0 then Some (buffer_count addr data f, r)
    else if pb_loaded f <? pb_count f then Some (buffer_load addr data f, r)
    else buffer_confirm e data f r
  else if (wsm_mode f =? WSM_PROGRAM) || (wsm_mode f =? WSM_PROGRAM2) then write_program e addr data f r
  else if wsm_mode f =? WSM_BLOCK_ERASE then write_erase e addr data f r
  else if wsm_mode f =? WSM_LOCK_ACCESS then f ← write_lock addr data f; Some (f, r)
  else Some (f, r).
