(* ===== verification/FlashSpec.v ===== *)
(** * What the flash chips guarantee

    The contents of the chips are the words of one memory bank.  Programming
    can only clear bits, erasing sets a whole sector, and neither touches a
    locked sector, whatever is written to the chips. *)

From S2P Require Import Prelude Words ArmState Machine ArmSys ArmMem MemSpec FlashIntel.

(** ** The contents *)

(** Bank [i], which is [b], holds the words [ws]. *)
Record holds (i : nat) (b : mem_bank_t) (r : mem_state_t) (ws : list Z) : Prop := {
  holds_banks : banks_wf (mem_banks r);
  holds_bank : mem_banks r !! i = Some b;
  holds_rom : rom r !! i = Some ws;
  holds_len : Z.of_nat (length ws) = bk_len b / 4
}.
(** [r'] differs from [r] in the contents of bank [i] and the cached bank. *)
Definition only_bank (i : nat) (r r' : mem_state_t) : Prop :=
  mem_banks r' = mem_banks r /\ forall j, j <> i -> rom r' !! j = rom r !! j.

Lemma only_bank_refl i r : only_bank i r r.
Proof. done. Qed.
Lemma only_bank_trans i r1 r2 r3 : only_bank i r1 r2 -> only_bank i r2 r3 -> only_bank i r1 r3.
Proof. intros [E1 H1] [E2 H2]. split; [congruence|]. intros j Hj. by rewrite H2, H1. Qed.

Lemma list_alter_insert_eq {A} (g : A -> A) (l : list A) (k : nat) (x : A) : l !! k = Some x -> alter g k l = <[k := g x]> l.
Proof.
  intros Hx. apply list_eq. intros j. pose proof (lookup_lt_Some _ _ _ Hx). destruct (decide (j = k)) as [->|Hj].
  - by rewrite list_lookup_alter_eq, Hx, list_lookup_insert_eq.
  - by rewrite list_lookup_alter_ne, list_lookup_insert_ne.
Qed.

Section Bank.
Context (i : nat) (b : mem_bank_t).
Implicit Type r : mem_state_t.

Lemma holds_shape r ws addr : holds i b r ws -> in_bank b addr = true -> bank_shape b.
Proof. intros H Hin. apply (at_bank_ok (mem_banks r) addr i b); [apply H|]. split; [apply H|done]. Qed.

Lemma holds_ptr r ws addr : holds i b r ws -> word addr -> in_bank b addr = true ->
  exists r', bank_ptr addr r = Some (Some i, r') /\ holds i b r' ws /\ only_bank i r r'.
Proof.
  intros [H1 H2 H3 H4] Ha Hin. destruct (bank_ptr_found r addr i b H1 Ha) as [k E]; [by split|].
  exists (r <| mbp := k |>). by split.
Qed.

Lemma holds_word r ws addr : holds i b r ws -> word addr -> in_bank b addr = true ->
  exists x, ws !! rom_index b addr = Some x /\ rom_word r i addr = Some x.
Proof.
  intros H Ha Hin. destruct (rom_index_eq b addr (holds_shape _ _ _ H Hin) Hin Ha) as [E Hr].
  destruct (lookup_lt_is_Some_2 ws (rom_index b addr)) as [x Hx]; [rewrite E; pose proof (holds_len _ _ _ _ H); lia|].
  exists x. split; [done|]. unfold rom_word. rewrite (holds_bank _ _ _ _ H). cbn [mbind option_bind].
  by rewrite (holds_rom _ _ _ _ H).
Qed.

Lemma holds_set r ws addr v : holds i b r ws -> 
  holds i b (set_rom_word i addr v r) (<[rom_index b addr := v]> ws) /\ only_bank i r (set_rom_word i addr v r).
Proof.
  intros [H1 H2 H3 H4]. unfold set_rom_word. rewrite H2. split; [split|split].
  - exact H1.
  - exact H2.
  - upds. by rewrite list_lookup_alter_eq, H3.
  - by rewrite length_insert.
  - done.
  - intros j Hj. upds. by rewrite list_lookup_alter_ne.
Qed.

Lemma real_write_spec e r ws addr v : holds i b r ws -> word addr -> in_bank b addr = true ->
  exists r', flash_real_write e addr v r = Some r' /\ holds i b r' (<[rom_index b addr := v]> ws) /\ only_bank i r r'.
Proof.
  intros H Ha Hin. unfold flash_real_write. destruct (holds_ptr r ws addr H Ha Hin) as (r1 & -> & H1 & O1).
  cbn [mbind option_bind]. unfold real_write. destruct (holds_word r1 ws addr H1 Ha Hin) as (x & _ & ->).
  cbn [mbind option_bind lane_set]. destruct (holds_set r1 ws addr v H1) as [H2 O2].
  eexists. split; [done|]. split; [done|]. by apply (only_bank_trans i r r1).
Qed.

Lemma real_and_spec e r ws addr d : holds i b r ws -> word addr -> in_bank b addr = true ->
  exists r', flash_real_and e addr d r = Some r' /\
    holds i b r' (alter (fun x => x &&& d) (rom_index b addr) ws) /\ only_bank i r r'.
Proof.
  intros H Ha Hin. unfold flash_real_and. destruct (holds_ptr r ws addr H Ha Hin) as (r1 & -> & H1 & O1).
  cbn [mbind option_bind]. unfold real_read, real_write. destruct (holds_word r1 ws addr H1 Ha Hin) as (x & Hx & ->).
  cbn [mbind option_bind fmap option_fmap option_map lane_get lane_set].
  destruct (holds_set r1 ws addr (x &&& d) H1) as [H2 O2].
  eexists. split; [done|]. split; [|by apply (only_bank_trans i r r1)].
  replace (alter _ _ ws) with (<[rom_index b addr:=x &&& d]> ws); [done|].
  symmetry. exact (list_alter_insert_eq (fun x => x &&& d) _ _ _ Hx).
Qed.

Lemma real_read_spec e r ws addr : holds i b r ws -> word addr -> in_bank b addr = true ->
  exists x r', flash_real_read e addr r = Some (x, r') /\ ws !! rom_index b addr = Some x /\ holds i b r' ws /\ only_bank i r r'.
Proof.
  intros H Ha Hin. unfold flash_real_read. destruct (holds_ptr r ws addr H Ha Hin) as (r1 & -> & H1 & O1).
  cbn [mbind option_bind]. unfold real_read. destruct (holds_word r1 ws addr H1 Ha Hin) as (x & Hx & ->).
  cbn [mbind option_bind fmap option_fmap option_map lane_get]. by exists x, r1.
Qed.

(** ** Sectors *)

(** The device's bank is made of whole sectors, below 32 MB. *)
Record flash_bank : Prop := {
  fb_addr : bk_addr b mod FLASH_SECTOR_SIZE = 0;
  fb_len : bk_len b mod FLASH_SECTOR_SIZE = 0;
  fb_end : bk_addr b + bk_len b <= INTEL28F128J3A_SIZE
}.
(** The sector of the word at index [k]. *)
Definition sector_of (k : nat) : Z := SECTOR_ADDR (bk_addr b + 4 * Z.of_nat k).
(** Only words of the sector [s] changed, each as [R] allows. *)
Definition only_sector (s : Z) (R : Z -> Z -> Prop) (ws ws' : list Z) : Prop :=
  forall k x, ws !! k = Some x -> exists x', ws' !! k = Some x' /\ (x' = x \/ sector_of k = s /\ R x x').
(** Programming clears bits. *)
Definition cleared (x x' : Z) : Prop := x' &&& x = x'.

(** The words that a buffered program starting at [a] writes, sixteen whatever
    the count, are in one sector. *)
Definition buffer_fits (a : Z) : bool := SECTOR_ADDR (a + 4 * (INTEL_WRITEBUFFER_SIZE - 1)) =? SECTOR_ADDR a.

Lemma SECTOR_ADDR_div x : SECTOR_ADDR x = x / 262144.
Proof. unfold SECTOR_ADDR. by rewrite Z.shiftr_div_pow2. Qed.

Lemma cleared_land x d : cleared x (x &&& d).
Proof. unfold cleared. by rewrite <- Z.land_assoc, (Z.land_comm d), Z.land_assoc, Z.land_diag. Qed.
Lemma cleared_trans x y z : cleared x y -> cleared y z -> cleared x z.
Proof. unfold cleared. intros H1 H2. by rewrite <- H2, <- Z.land_assoc, H1. Qed.

Lemma only_sector_refl s R ws : only_sector s R ws ws.
Proof. intros k x Hx. exists x. by split; [|left]. Qed.

Lemma only_sector_trans s (R : Z -> Z -> Prop) ws1 ws2 ws3 :
  (forall x y z, R x y -> R y z -> R x z) ->
  only_sector s R ws1 ws2 -> only_sector s R ws2 ws3 -> only_sector s R ws1 ws3.
Proof.
  intros HR H1 H2 k x Hx. destruct (H1 k x Hx) as (y & Hy & C1), (H2 k y Hy) as (z & Hz & C2).
  exists z. split; [done|]. destruct C1 as [->|[E1 R1]], C2 as [->|[E2 R2]]; [by left|by right..|].
  right. split; [done|]. by apply (HR x y z).
Qed.

Lemma only_sector_set s (R : Z -> Z -> Prop) ws j x v :
  ws !! j = Some x -> sector_of j = s -> R x v -> only_sector s R ws (<[j := v]> ws).
Proof.
  intros Hj E HR k y Hk. destruct (decide (k = j)) as [->|Hne].
  - exists v. rewrite list_lookup_insert_eq by (by eapply lookup_lt_Some). split; [done|]. right.
    replace y with x by congruence. done.
  - exists y. rewrite list_lookup_insert_ne by done. by split; [|left].
Qed.

Section Whole.
Context (FB : flash_bank) (SH : bank_shape b).

Lemma flash_range addr : word addr -> in_bank b addr = true <-> bk_addr b <= addr < bk_addr b + bk_len b.
Proof. intros Ha. destruct SH. by apply in_bank_range. Qed.

Lemma sector_of_rom_index addr : word addr -> in_bank b addr = true -> sector_of (rom_index b addr) = SECTOR_ADDR addr.
Proof.
  intros Ha Hin. destruct (rom_index_eq b addr SH Hin Ha) as [-> Hr].
  unfold sector_of. rewrite Z2Nat.id by lia. rewrite !SECTOR_ADDR_div.
  destruct FB as [H1 _ _]. unfold FLASH_SECTOR_SIZE in H1. dlia.
Qed.

Lemma sector_range addr : word addr -> in_bank b addr = true -> 0 <= SECTOR_ADDR addr < 128.
Proof.
  intros Ha Hin. apply flash_range in Hin; [|done]. destruct FB as [_ _ H], SH.
  rewrite SECTOR_ADDR_div. unfold INTEL28F128J3A_SIZE in H. dlia.
Qed.

(** The whole sector of an address in the bank is in the bank. *)
Lemma sector_in_bank addr a : word addr -> in_bank b addr = true -> SECTOR_ADDR a = SECTOR_ADDR addr ->
  word a /\ in_bank b a = true.
Proof.
  rewrite !SECTOR_ADDR_div. intros Ha Hin E. apply flash_range in Hin; [|done].
  destruct FB as [H1 H2 H3], SH as [S1 _ S2 _ _]. unfold FLASH_SECTOR_SIZE, INTEL28F128J3A_SIZE in *.
  assert (bk_addr b <= a < bk_addr b + bk_len b) by dlia.
  assert (word a) by (unfold word in *; lia). split; [done|]. by apply flash_range.
Qed.

(** ** The two loops *)

Lemma ISLOCKED_rd f addr : length (lock f) = 128%nat -> word addr -> in_bank b addr = true ->
  ISLOCKED f addr = Some (truth (rd (lock f) (SECTOR_ADDR addr))).
Proof.
  intros HL Ha Hin. pose proof (sector_range addr Ha Hin) as Hr. unfold ISLOCKED, rd.
  destruct (lookup_lt_is_Some_2 (lock f) (Z.to_nat (SECTOR_ADDR addr))) as [x Hx]; [lia|].
  rewrite Hx. cbn [fmap option_fmap option_map]. rewrite nth_lookup, Hx. done.
Qed.

Lemma program_buffer_spec e f r ws : holds i b r ws -> word (pb_start f) -> in_bank b (pb_start f) = true ->
  buffer_fits (pb_start f) = true ->
  exists r' ws', program_buffer e f r = Some r' /\ holds i b r' ws' /\ only_bank i r r' /\
    only_sector (SECTOR_ADDR (pb_start f)) cleared ws ws'.
Proof.
  intros H Ha Hin Hm. apply Z.eqb_eq in Hm. rewrite !SECTOR_ADDR_div in Hm. unfold program_buffer.
  destruct (for_range_opt_inv (fun r' => exists ws', holds i b r' ws' /\ only_bank i r r' /\
      only_sector (SECTOR_ADDR (pb_start f)) cleared ws ws')
    (WORD_ADDR (pb_start f)) (WORD_ADDR (pb_start f) + INTEL_WRITEBUFFER_SIZE)
    (fun j r => flash_real_and e (shl32 j WORD_SHIFT) (rd (pb_buf f) (j &&& INTEL_WRITEBUFFER_MASK)) r) r)
    as (r' & E & ws' & Hr').
  - exists ws. split; [done|]. split; [done|]. apply only_sector_refl.
  - intros j x Hj (ws1 & H1 & O1 & S1).
    assert (shl32 j WORD_SHIFT = 4 * j /\ SECTOR_ADDR (4 * j) = SECTOR_ADDR (pb_start f)) as [Ej Es].
    { unfold WORD_ADDR, WORD_SHIFT, INTEL_WRITEBUFFER_SIZE, shl32 in *. rewrite Z.shiftr_div_pow2 in Hj by done.
      change (2 ^ 2) with 4 in Hj. rewrite Z.shiftl_mul_pow2 by done. change (2 ^ 2) with 4.
      rewrite !SECTOR_ADDR_div. unfold word in Ha. split; [|dlia]. rewrite u32_id; [lia|]. unfold word. dlia. }
    rewrite Ej. destruct (sector_in_bank (pb_start f) (4 * j) Ha Hin Es) as [Wj Ij].
    set (d := rd (pb_buf f) _). destruct (real_and_spec e x ws1 (4 * j) d H1 Wj Ij) as (r2 & E2 & H2 & O2).
    exists r2. split; [exact E2|]. eexists. split; [exact H2|]. split; [by apply (only_bank_trans i r x)|].
    apply (only_sector_trans _ _ _ _ _ cleared_trans S1).
    destruct (holds_word x ws1 (4 * j) H1 Wj Ij) as (y & Hy & _).
    rewrite (list_alter_insert_eq (fun x => x &&& d) _ _ _ Hy). apply (only_sector_set _ _ _ _ y); [done| |apply cleared_land].
    by rewrite sector_of_rom_index, Es.
  - exists r', ws'. done.
Qed.

Lemma sector_start addr : word addr -> addr &&& FLASH_SECTOR_MASK = 262144 * SECTOR_ADDR addr.
Proof.
  intros Ha. unfold SECTOR_ADDR, FLASH_SECTOR_SHIFT. rewrite Z.mul_comm. change 262144 with (2 ^ 18).
  rewrite <- Z.shiftl_mul_pow2 by done. apply word_ext; [by apply word_land_l| |].
  { rewrite Z.shiftl_mul_pow2, Z.shiftr_div_pow2 by done. change (2 ^ 18) with 262144. unfold word in *. dlia. }
  intros j Hj. rewrite Z.land_spec, testbit_shiftl, testbit_shiftr.
  assert (Z.testbit FLASH_SECTOR_MASK j = (18 <=? j)) as ->.
    { revert j Hj. apply (word_bits_cases (fun j => _ = (18 <=? j))). unfold bits32. by repeat constructor. }
    destruct (Z.leb_spec 18 j).
    + replace (j - 18 + 18) with j by lia. by rewrite !(proj2 (Z.leb_le 0 _)) by lia; rewrite andb_true_r.
    + rewrite (proj2 (Z.leb_gt 0 (j - 18))) by lia. by rewrite !andb_false_r.
Qed.

(** After the loop the words of the sector are all ones, the others as before. *)
Lemma erase_sector_spec e addr r ws : holds i b r ws -> word addr -> in_bank b addr = true ->
  exists r' ws', erase_sector e (addr &&& FLASH_SECTOR_MASK) r = Some r' /\ holds i b r' ws' /\ only_bank i r r' /\
    forall k x, ws !! k = Some x -> ws' !! k = Some (if sector_of k =? SECTOR_ADDR addr then 0xffffffff else x).
Proof.
  intros H Ha Hin. rewrite sector_start by done. set (s := SECTOR_ADDR addr). unfold erase_sector.
  pose proof (sector_range addr Ha Hin) as Hs. fold s in Hs.
  destruct (for_range_opt_ind (fun j r' => exists ws', holds i b r' ws' /\ only_bank i r r' /\ forall k x, ws !! k = Some x ->
      ws' !! k = Some (if (262144 * s <=? bk_addr b + 4 * Z.of_nat k) && (bk_addr b + 4 * Z.of_nat k <? 262144 * s + 4 * j)
                       then 0xffffffff else x))
    0 (WORD_ADDR FLASH_SECTOR_SIZE)
    (fun i r => flash_real_write e (add32 (262144 * s) (i <<< WORD_SHIFT)) 0xffffffff r) r) as (r' & E & ws' & H' & O' & C').
  - done.
  - exists ws. split; [done|]. split; [done|]. intros k x ->.
    destruct (Z.leb_spec (262144 * s) (bk_addr b + 4 * Z.of_nat k)); [|done]. by rewrite (proj2 (Z.ltb_ge _ _)) by lia.
  - intros j x Hj (ws1 & H1 & O1 & C1). change (WORD_ADDR FLASH_SECTOR_SIZE) with 65536 in Hj.
    unfold WORD_SHIFT. rewrite Z.shiftl_mul_pow2 by done. change (2 ^ 2) with 4.
    assert (add32 (262144 * s) (j * 4) = 262144 * s + 4 * j) as ->.
    { unfold add32. rewrite u32_id; [lia|]. unfold word. lia. }
    assert (SECTOR_ADDR (262144 * s + 4 * j) = SECTOR_ADDR addr) as Es. { fold s. rewrite SECTOR_ADDR_div. dlia. }
    destruct (sector_in_bank addr _ Ha Hin Es) as [Wj Ij].
    destruct (real_write_spec e x ws1 _ 0xffffffff H1 Wj Ij) as (r2 & -> & H2 & O2).
    eexists. split; [done|]. eexists. split; [exact H2|]. split; [by apply (only_bank_trans i r x)|]. 
    destruct (rom_index_eq b _ SH Ij Wj) as [Ei Hi]. set (q := 262144 * s + 4 * j) in *.
    pose proof (fb_addr FB) as F1. unfold FLASH_SECTOR_SIZE in F1.
    intros k y Hy. specialize (C1 k y Hy). destruct (decide (k = rom_index b q)) as [->|Hk].
    + rewrite list_lookup_insert_eq by (by eapply lookup_lt_Some). rewrite Ei.
      rewrite (proj2 (Z.leb_le _ _)), (proj2 (Z.ltb_lt _ _)); [done|..]; subst q; dlia.
    + rewrite list_lookup_insert_ne by done. rewrite C1.
      assert (Z.of_nat k <> (q - bk_addr b) / 4) by (rewrite Ei in Hk; lia).
      assert ((bk_addr b + 4 * Z.of_nat k <? 262144 * s + 4 * (j + 1)) = (bk_addr b + 4 * Z.of_nat k <? q)) as ->; [|done].
      apply Bool.eq_iff_eq_true. rewrite !Z.ltb_lt. subst q. dlia.
  - exists r', ws'. split; [done|]. split; [done|]. split; [done|]. intros k x Hx. rewrite (C' k x Hx).
    replace (sector_of k =? s) with
      ((262144 * s <=? bk_addr b + 4 * Z.of_nat k) && (bk_addr b + 4 * Z.of_nat k <? 262144 * s + 4 * WORD_ADDR FLASH_SECTOR_SIZE));
      [done|].
    change (WORD_ADDR FLASH_SECTOR_SIZE) with 65536. unfold sector_of. rewrite SECTOR_ADDR_div.
    apply Bool.eq_iff_eq_true. rewrite andb_true_iff, Z.leb_le, Z.ltb_lt, Z.eqb_eq. dlia.
Qed.
End Whole.
End Bank.
