(* ===== verification/FlashSafe.v ===== *)
(** * Sequences of writes to the flash chips

    The invariant of the command state machine, what one write can change in
    the contents of the chips, and the command sequences of a driver. *)

From S2P Require Import Prelude Words ArmState Machine ArmSys ArmMem MemSpec FlashIntel FlashSpec.

(** ** The state between two writes *)

(** Nothing is in progress: each command runs to its end in the write that
    starts it. *)
Definition quiet (f : flash_intel_io) : bool :=
  negb (program_busy f || progbuf_busy f || erase_busy f || lock_busy f || DEVICE_SUSPENDED f).

Record flash_ok (b : mem_bank_t) (f : flash_intel_io) : Prop := {
  fo_lock : length (lock f) = 128%nat;
  fo_quiet : quiet f = true;
  fo_count : 0 <= pb_count f;
  fo_loaded : wsm_mode f = WSM_WRITE_BUFFER -> pb_count f = 0 -> pb_loaded f = 0;
  fo_latch : wsm_mode f = WSM_WRITE_BUFFER -> pb_count f <> 0 ->
    word (progbuf_latch_addr f) /\ in_bank b (progbuf_latch_addr f) = true;
  fo_start : wsm_mode f = WSM_WRITE_BUFFER -> pb_count f <> 0 -> pb_loaded f <> 0 ->
    buffer_fits (pb_start f) = true /\ SECTOR_ADDR (pb_start f) = SECTOR_ADDR (progbuf_latch_addr f)
}.

(** A write inside the chips; the first data write of a buffered program
    leaves room for the whole buffer in its sector. *)
Definition proper (b : mem_bank_t) (f : flash_intel_io) (addr : Z) : bool :=
  (0 <=? addr) && (addr <? 4294967296) && in_bank b addr &&
  implb ((wsm_mode f =? WSM_WRITE_BUFFER) && negb (pb_count f =? 0) && (pb_loaded f =? 0)) (buffer_fits addr).
(** The write that clears every lock bit. *)
Definition clears_locks (f : flash_intel_io) (data : Z) : bool :=
  (wsm_mode f =? WSM_LOCK_ACCESS) && ((data &&& 0xff) =? WSM_CONFIRM).

(** A driver's writes, in order. *)
Fixpoint flash_writes (e : Z) (l : list (Z * Z)) (f : flash_intel_io) (r : mem_state_t) :
    option (flash_intel_io * mem_state_t) :=
  match l with
  | [] => Some (f, r)
  | (addr, data) :: l => '(f, r) ← flash_intel_write_word e addr data f r; flash_writes e l f r
  end.
(** Every write is proper and none clears the lock bits. *)
Fixpoint driver_ok (b : mem_bank_t) (e : Z) (l : list (Z * Z)) (f : flash_intel_io) (r : mem_state_t) : bool :=
  match l with
  | [] => true
  | (addr, data) :: l =>
      proper b f addr && negb (clears_locks f data) &&
      match flash_intel_write_word e addr data f r with Some (f, r) => driver_ok b e l f r | None => true end
  end.
(** Ready for a command, no error reported, reading the array. *)
Definition clean (f : flash_intel_io) : bool :=
  (wsm_mode f =? WSM_READY) && (read_mode f =? WSM_READ_ARRAY) && (vpen f =? 1) &&
  negb (protection_error f || program_setlb_error f || erase_clearlb_error f || program_volt_error f).
(** The writes of a command, the status it leaves, and the write that clears
    the status and goes back to reading the array. *)
Definition command (e : Z) (l : list (Z * Z)) (addr : Z) (f : flash_intel_io) (r : mem_state_t) :
    option (Z * flash_intel_io * mem_state_t) :=
  '(f, r) ← flash_writes e l f r; '(status, r) ← flash_intel_read_word e addr f r;
  '(f, r) ← flash_intel_write_word e addr WSM_CLEAR_STATUS f r; Some (status, f, r).

Section Step.
Context (i : nat) (b : mem_bank_t).

Definition locked (f : flash_intel_io) (s : Z) : bool := truth (rd (lock f) s).

(** A word is kept, or its sector is not locked and it lost bits or was erased. *)
Definition guarded (f : flash_intel_io) (ws ws' : list Z) : Prop :=
  forall k x, ws !! k = Some x -> exists x', ws' !! k = Some x' /\
    (x' = x \/ locked f (sector_of b k) = false /\ (cleared x x' \/ x' = 0xffffffff)).
Definition locks_kept (f f' : flash_intel_io) : Prop := forall s, locked f s = true -> locked f' s = true.

Lemma guarded_refl f ws : guarded f ws ws.
Proof. intros k x Hx. exists x. by split; [|left]. Qed.

Lemma guarded_sector f s (R : Z -> Z -> Prop) ws ws' : locked f s = false ->
  (forall x y, R x y -> cleared x y \/ y = 0xffffffff) -> only_sector b s R ws ws' -> guarded f ws ws'.
Proof.
  intros Hl HR H k x Hx. destruct (H k x Hx) as (y & Hy & [->|[E HRy]]); exists y || exists x; split; auto.
  right. split; [by rewrite E|auto].
Qed.

(** What one write may do. *)
Definition step_ok (f : flash_intel_io) (data : Z) (r : mem_state_t) (ws : list Z)
    (o : option (flash_intel_io * mem_state_t)) : Prop :=
  exists f' r' ws', o = Some (f', r') /\ flash_ok b f' /\ holds i b r' ws' /\ only_bank i r r' /\
    guarded f ws ws' /\ (clears_locks f data = false -> locks_kept f f').

(** A write that leaves the contents alone. *)
Lemma step_state f f' data r ws : holds i b r ws -> flash_ok b f' ->
  (clears_locks f data = false -> locks_kept f f') -> step_ok f data r ws (Some (f', r)).
Proof. intros H Hf Hl. exists f', r, ws. split_and!; [done..|apply guarded_refl|done]. Qed.

Lemma flash_ok_idle f : length (lock f) = 128%nat -> quiet f = true -> 0 <= pb_count f ->
  (wsm_mode f = WSM_WRITE_BUFFER -> pb_count f = 0 /\ pb_loaded f = 0) -> flash_ok b f.
Proof. intros H1 H2 H3 H4. split; [done..| | |]; intros Hm Hc; destruct (H4 Hm) as [E1 E2]; done. Qed.

Lemma quiet_flags f : quiet f = true ->
  program_busy f = false /\ progbuf_busy f = false /\ erase_busy f = false /\ lock_busy f = false /\
  program_suspended f = false /\ progbuf_suspended f = false /\ erase_suspended f = false.
Proof.
  unfold quiet, DEVICE_SUSPENDED. rewrite negb_true_iff, !orb_false_iff. tauto.
Qed.

Ltac flash_upds := unfold sequence_error, ready, quiet, DEVICE_SUSPENDED, ADDR_SUSPENDED in *; upds.
Ltac flash_cases := repeat match goal with
  | |- context [if ?c then _ else _] => no_if c; destruct c eqn:?
  end.
(** The flags are off. *)
Ltac flags_off H := destruct (quiet_flags _ H) as (?B1 & ?B2 & ?B3 & ?B4 & ?S1 & ?S2 & ?S3).
Ltac use_flags := repeat match goal with E : _ = false |- _ => rewrite E end; cbn [orb andb negb].

Lemma init_wsm_ok f data : flash_ok b f -> wsm_mode f = WSM_READY -> flash_ok b (init_wsm data f) /\ lock (init_wsm data f) = lock f.
Proof.
  intros [L Q C Z _ _] M. flags_off Q. unfold init_wsm. rewrite B1, B2, B3, S1, S2, S3.
  flash_cases; (split; [apply flash_ok_idle|]); flash_upds; try done; try (by use_flags); by rewrite M.
Qed.

Lemma sequence_error_ok f : length (lock f) = 128%nat -> quiet f = true -> 0 <= pb_count f -> flash_ok b (sequence_error f).
Proof. intros L Q C. flags_off Q. by apply flash_ok_idle; flash_upds; use_flags. Qed.

Lemma buffer_count_ok f addr data : flash_ok b f -> word addr -> in_bank b addr = true ->
  wsm_mode f = WSM_WRITE_BUFFER -> pb_count f = 0 ->
  flash_ok b (buffer_count addr data f) /\ lock (buffer_count addr data f) = lock f.
Proof.
  intros [L Q C Z _ _] Ha Hin M H0. pose proof (Z M H0) as Z0. flags_off Q. pose proof (land_le_r data 0xff ltac:(lia)).
  unfold buffer_count. flash_cases; (split; [|flash_upds; done]); try apply sequence_error_ok; flash_upds; try done;
    try (by use_flags); try lia.
  split; flash_upds; try done; try (by use_flags); lia.
Qed.

Lemma buffer_load_ok f addr data : flash_ok b f -> word addr -> in_bank b addr = true ->
  wsm_mode f = WSM_WRITE_BUFFER -> pb_count f <> 0 -> (pb_loaded f = 0 -> buffer_fits addr = true) ->
  flash_ok b (buffer_load addr data f) /\ lock (buffer_load addr data f) = lock f.
Proof.
  intros [L Q C Z La S] Ha Hin M H0 Hs. flags_off Q. unfold buffer_load.
  destruct (SECTOR_ADDR addr =? SECTOR_ADDR (progbuf_latch_addr f)) eqn:E; cbn [negb];
    [|split; [by apply sequence_error_ok|by flash_upds]].
  apply Z.eqb_eq in E. destruct (pb_loaded f =? 0) eqn:Z0; (split; [|by flash_upds]);
    (split; flash_upds; try done; try (by use_flags); auto).
  - intros _ _ _. split; [|done]. apply Hs. by apply Z.eqb_eq.
  - intros _ _ _. apply S; [done..|]. by apply Z.eqb_neq.
Qed.

(** A command that ends: the lock bits are as before. *)
Lemma command_end f f' : flash_ok b f -> lock f' = lock f -> pb_count f' = pb_count f -> wsm_mode f' = WSM_READY ->
  quiet f' = true -> flash_ok b f'.
Proof. intros [L Q C Z La S] E1 E2 E3 Hq. apply flash_ok_idle; [by rewrite E1|done|by rewrite E2|by rewrite E3]. Qed.
Lemma same_locks f f' : lock f' = lock f -> locks_kept f f'.
Proof. intros E s. unfold locked. by rewrite E. Qed.

Ltac ends Hf := apply step_state; [done|apply (command_end _ _ Hf); flash_upds; use_flags; done|intros _; apply same_locks; flash_upds; done].

Context (FB : flash_bank b) (SH : bank_shape b).

Lemma buffer_confirm_step e data f r ws : flash_ok b f -> holds i b r ws -> wsm_mode f = WSM_WRITE_BUFFER ->
  pb_count f <> 0 -> pb_loaded f <> 0 -> step_ok f data r ws (buffer_confirm e data f r).
Proof.
  intros Hf H M H0 H1. destruct (fo_latch _ _ Hf M H0) as [Wl Il]. destruct (fo_start _ _ Hf M H0 H1) as [Ms Es].
  pose proof (fo_quiet _ _ Hf) as Q. flags_off Q. unfold buffer_confirm.
  destruct (_ =? WSM_CONFIRM); [|ends Hf].
  set (g := f <| progbuf_busy := true |> <| read_mode := WSM_READ_STATUS |>).
  replace (progbuf_latch_addr g) with (progbuf_latch_addr f) by (unfold g; by flash_upds).
  rewrite (ISLOCKED_rd b FB SH g) by (try done; unfold g; upds; apply Hf). cbn [mbind option_bind].
  destruct (truth _) eqn:Hl; [unfold g; ends Hf|].
  replace (DEVICE_SUSPENDED g) with false by (unfold g; flash_upds; by use_flags).
  destruct (negb _); [unfold g; ends Hf|].
  destruct (sector_in_bank b FB SH _ _ Wl Il Es) as [Ws Is].
  destruct (program_buffer_spec i b FB SH e g r ws H) as (r' & ws' & -> & H' & O' & S'); try (unfold g; by upds).
  cbn [mbind option_bind]. eexists _, r', ws'. split; [done|]. split_and!; [|done|done| |].
  - apply (command_end _ _ Hf); unfold g; flash_upds; use_flags; done.
  - refine (guarded_sector _ _ cleared _ _ _ _ S'); [|by left].
    unfold locked. revert Hl. unfold g. upds. by rewrite Es.
  - intros _. apply same_locks. unfold g. by flash_upds.
Qed.

Lemma write_program_step e addr data f r ws : flash_ok b f -> holds i b r ws -> word addr -> in_bank b addr = true ->
  step_ok f data r ws (write_program e addr data f r).
Proof.
  intros Hf H Wa Ia. pose proof (fo_quiet _ _ Hf) as Q. flags_off Q. unfold write_program.
  set (g := f <| program_busy := true |> <| program_latch_addr := addr |> <| program_latch_data := data |>
              <| read_mode := WSM_READ_STATUS |>).
  rewrite (ISLOCKED_rd b FB SH g) by (try done; unfold g; upds; apply Hf). cbn [mbind option_bind].
  destruct (truth _) eqn:Hl; [unfold g; ends Hf|].
  replace (ADDR_SUSPENDED g addr) with false by (unfold g; flash_upds; by use_flags).
  destruct (negb _); [unfold g; ends Hf|].
  destruct (real_and_spec i b e r ws addr data H Wa Ia) as (r' & -> & H' & O').
  cbn [mbind option_bind]. eexists _, r', _. split; [done|]. split_and!; [|done|done| |].
  - apply (command_end _ _ Hf); unfold g; flash_upds; use_flags; done.
  - destruct (holds_word i b r ws addr H Wa Ia) as (y & Hy & _).
    rewrite (list_alter_insert_eq (fun x => x &&& data) _ _ _ Hy).
    apply (guarded_sector _ (SECTOR_ADDR addr) cleared); [|by left|].
    + unfold locked. revert Hl. unfold g. by upds.
    + apply (only_sector_set _ _ _ _ _ y); [done|by apply sector_of_rom_index|apply cleared_land].
  - intros _. apply same_locks. unfold g. by flash_upds.
Qed.

Lemma write_erase_step e addr data f r ws : flash_ok b f -> holds i b r ws -> word addr -> in_bank b addr = true ->
  step_ok f data r ws (write_erase e addr data f r).
Proof.
  intros Hf H Wa Ia. pose proof (fo_quiet _ _ Hf) as Q. flags_off Q. unfold write_erase.
  destruct (_ =? WSM_CONFIRM); [|ends Hf].
  assert (SECTOR_ADDR (addr &&& FLASH_SECTOR_MASK) = SECTOR_ADDR addr) as Es.
  { rewrite sector_start by done. rewrite (SECTOR_ADDR_div (_ * _)). dlia. }
  destruct (sector_in_bank b FB SH _ _ Wa Ia Es) as [Wl Il].
  set (l := addr &&& FLASH_SECTOR_MASK) in *.
  set (g := f <| erase_busy := true |> <| erase_latch_addr := l |> <| read_mode := WSM_READ_STATUS |>).
  rewrite (ISLOCKED_rd b FB SH g) by (try done; unfold g; upds; apply Hf). cbn [mbind option_bind].
  destruct (truth _) eqn:Hl; [unfold g; ends Hf|].
  replace (DEVICE_SUSPENDED g) with false by (unfold g; flash_upds; by use_flags).
  destruct (negb _); [unfold g; ends Hf|].
  destruct (erase_sector_spec i b FB SH e addr r ws H Wa Ia) as (r' & ws' & E & H' & O' & C').
  fold l in E. rewrite E. cbn [mbind option_bind]. eexists _, r', ws'. split; [done|]. split_and!; [|done|done| |].
  - apply (command_end _ _ Hf); unfold g; flash_upds; use_flags; done.
  - intros k x Hx. specialize (C' k x Hx). eexists. split; [exact C'|].
    destruct (Z.eqb_spec (sector_of b k) (SECTOR_ADDR addr)) as [Ek|]; [right|by left].
    split; [|by right]. unfold locked. rewrite Ek, <- Es. revert Hl. unfold g. by upds.
  - intros _. apply same_locks. unfold g. by flash_upds.
Qed.

Lemma set_lock_kept f f' s : length (lock f) = 128%nat -> 0 <= s < 128 -> lock f' = wr (lock f) s 1 -> locks_kept f f'.
Proof.
  intros L Hs E t. unfold locked. rewrite E. intros Ht. destruct (decide (Z.to_nat t = Z.to_nat s)) as [Et|Et].
  - replace (rd _ t) with (rd (wr (lock f) s 1) s) by (unfold rd; by rewrite Et). rewrite rd_wr_eq by lia. done.
  - destruct (Z.le_gt_cases 0 t); [rewrite rd_wr_ne by lia; done|]. revert Ht Et. unfold rd.
    replace (Z.to_nat t) with 0%nat by lia. unfold wr. intros Ht Et. rewrite nth_lookup, list_lookup_insert_ne by lia.
    by rewrite nth_lookup in Ht.
Qed.

Lemma write_lock_step addr data f r ws : flash_ok b f -> holds i b r ws -> word addr -> in_bank b addr = true ->
  wsm_mode f = WSM_LOCK_ACCESS ->
  step_ok f data r ws (f ← write_lock addr data f; Some (f, r)).
Proof.
  intros Hf H Wa Ia M. pose proof (fo_quiet _ _ Hf) as Q. flags_off Q. unfold write_lock.
  pose proof (fo_lock _ _ Hf) as L. pose proof (sector_range b FB SH addr Wa Ia) as Hs.
  destruct (_ =? 1).
  - set (g := f <| read_mode := WSM_READ_STATUS |>).
    replace (DEVICE_SUSPENDED g) with false by (unfold g; flash_upds; by use_flags).
    destruct (negb _); [unfold g; cbn [mbind option_bind]; ends Hf|].
    rewrite (proj2 (Z.ltb_lt _ _)) by (unfold g; upds; lia). cbn [mbind option_bind].
    apply step_state; [done| |].
    + apply flash_ok_idle; unfold g; flash_upds; use_flags; [by rewrite length_wr|done|apply Hf|done].
    + intros _. apply (set_lock_kept _ _ (SECTOR_ADDR addr)); [done..|]. unfold g. by flash_upds.
  - destruct (_ =? WSM_CONFIRM) eqn:Hc; [|cbn [mbind option_bind]; ends Hf].
    set (g := f <| read_mode := WSM_READ_STATUS |>).
    replace (DEVICE_SUSPENDED g) with false by (unfold g; flash_upds; by use_flags). cbn [mbind option_bind].
    apply step_state; [done| |unfold clears_locks; rewrite M, Hc; discriminate].
    destruct (negb _); apply flash_ok_idle; unfold g; flash_upds; use_flags; try done; try apply Hf.
    by rewrite length_replicate.
Qed.

Lemma proper_spec f addr : proper b f addr = true ->
  word addr /\ in_bank b addr = true /\
  (wsm_mode f = WSM_WRITE_BUFFER -> pb_count f <> 0 -> pb_loaded f = 0 -> buffer_fits addr = true).
Proof.
  unfold proper. rewrite !andb_true_iff, Z.leb_le, Z.ltb_lt. intros [[[H1 H2] H3] H4]. split; [by split|]. split; [done|].
  intros M H5 Z0. rewrite M, Z0, (proj2 (Z.eqb_neq _ _) H5) in H4. done.
Qed.

(** One write: it is never undefined, and no locked word changes. *)
Lemma write_word_step e addr data f r ws : flash_ok b f -> holds i b r ws -> proper b f addr = true ->
  step_ok f data r ws (flash_intel_write_word e addr data f r).
Proof.
  intros Hf H Hp. apply proper_spec in Hp as (Wa & Ia & Ha). unfold flash_intel_write_word.
  destruct (Z.eqb_spec (wsm_mode f) WSM_READY).
  { destruct (init_wsm_ok f data Hf) as [H1 H2]; [done|]. apply step_state; [done..|]. intros _. by apply same_locks. }
  destruct (Z.eqb_spec (wsm_mode f) WSM_WRITE_BUFFER).
  { destruct (Z.eqb_spec (pb_count f) 0).
    { destruct (buffer_count_ok f addr data) as [H1 H2]; [done..|]. apply step_state; [done..|]. intros _. by apply same_locks. }
    destruct (Z.ltb_spec (pb_loaded f) (pb_count f)).
    { destruct (buffer_load_ok f addr data) as [H1 H2]; [done..|by auto|].
      apply step_state; [done..|]. intros _. by apply same_locks. }
    apply buffer_confirm_step; try done. pose proof (fo_count _ _ Hf). lia. }
  destruct (_ || _); [by apply write_program_step|].
  destruct (Z.eqb_spec (wsm_mode f) WSM_BLOCK_ERASE); [by apply write_erase_step|].
  destruct (Z.eqb_spec (wsm_mode f) WSM_LOCK_ACCESS); [by apply write_lock_step|].
  apply step_state; [done..|]. intros _. by apply same_locks.
Qed.

(** C37: A locked sector survives any sequence of writes to the chips, of any
    length, commands broken off included, as long as no write clears the lock
    bits and each buffered program has the sixteen words from its first
    address in one sector ([buffer_fits]; the address need not be aligned).
    Such a sequence runs to its end without an access outside the memory banks
    or the lock bits, changes no other bank, keeps every word of the sector
    and keeps it locked.  The chips are whole sectors below 32 MB.

    The condition on buffers excludes behaviour of the code: it checks the lock
    bit of the first sector only and goes through sixteen words, so a buffer
    that crosses into a locked sector can program it
    ([buffer_enters_locked_sector]), and one that crosses the end of the
    chips uses a null pointer ([buffer_leaves_chips]). *)
Theorem locked_sector_survives e l f r ws k : flash_ok b f -> holds i b r ws -> locked f (sector_of b k) = true ->
  driver_ok b e l f r = true ->
  exists f' r' ws', flash_writes e l f r = Some (f', r') /\ flash_ok b f' /\ holds i b r' ws' /\ only_bank i r r' /\
    ws' !! k = ws !! k /\ locked f' (sector_of b k) = true.
Proof.
  revert f r ws. induction l as [|[addr data] l IH]; intros f r ws Hf H Hl Hd; [by exists f, r, ws|].
  cbn [driver_ok flash_writes] in *. rewrite !andb_true_iff, negb_true_iff in Hd. destruct Hd as [[Hp Hc] Hd].
  destruct (write_word_step e addr data f r ws Hf H Hp) as (f1 & r1 & ws1 & E & Hf1 & H1 & O1 & G1 & K1).
  rewrite E in *. cbn [mbind option_bind]. specialize (K1 Hc _ Hl).
  destruct (IH f1 r1 ws1 Hf1 H1 K1 Hd) as (f2 & r2 & ws2 & E2 & Hf2 & H2 & O2 & Ek & Hk).
  exists f2, r2, ws2. split_and!; [done..|by apply (only_bank_trans i r r1)| |done]. rewrite Ek.
  destruct (ws !! k) as [x|] eqn:Hx.
  - destruct (G1 k x Hx) as (y & -> & [->|[F _]]); [done|by rewrite Hl in F].
  - apply lookup_ge_None in Hx. apply lookup_ge_None.
    pose proof (holds_len _ _ _ _ H). pose proof (holds_len _ _ _ _ H1). lia.
Qed.

Lemma clean_spec f : clean f = true -> wsm_mode f = WSM_READY /\ read_mode f = WSM_READ_ARRAY /\ vpen f = 1 /\
  protection_error f = false /\ program_setlb_error f = false /\ erase_clearlb_error f = false /\ program_volt_error f = false.
Proof.
  unfold clean. rewrite !andb_true_iff, negb_true_iff, !orb_false_iff, !Z.eqb_eq. tauto.
Qed.


(** No error is reported and nothing is in progress. *)
Definition fit (f : flash_intel_io) : Prop :=
  vpen f = 1 /\ quiet f = true /\ length (lock f) = 128%nat /\
  protection_error f = false /\ program_setlb_error f = false /\ erase_clearlb_error f = false /\ program_volt_error f = false.

(** From a clean state the first write selects the command. *)
Lemma select_command e addr data f r m : flash_ok b f -> clean f = true -> init_wsm data f = f <| wsm_mode := m |> ->
  exists f1, flash_intel_write_word e addr data f r = Some (f1, r) /\
    wsm_mode f1 = m /\ fit f1 /\ lock f1 = lock f /\ pb_count f1 = pb_count f.
Proof.
  intros Hf Hc E. destruct (clean_spec f Hc) as (M & R & V & E1 & E2 & E3 & E4). exists (f <| wsm_mode := m |>).
  pose proof (fo_quiet _ _ Hf) as Q. flags_off Q. split_and!; [|by upds| |by upds|by upds].
  - unfold flash_intel_write_word. by rewrite M, E.
  - unfold fit. flash_upds. use_flags. split_and!; try done. apply Hf.
Qed.

(** The state a command leaves, with only the errors [pe], [se], [ee]. *)
Definition ended (f f' : flash_intel_io) (pe se ee : bool) : Prop :=
  wsm_mode f' = WSM_READY /\ read_mode f' = WSM_READ_STATUS /\ vpen f' = 1 /\ quiet f' = true /\
  pb_count f' = pb_count f /\
  protection_error f' = pe /\ program_setlb_error f' = se /\ erase_clearlb_error f' = ee /\ program_volt_error f' = false.
Definition final_status (pe se ee : bool) : Z :=
  BOTHCHIP (0x80 ||| (c_bool ee <<< 5) ||| (c_bool se <<< 4) ||| (c_bool pe <<< 1)).

(** Reading the status and clearing it. *)
Lemma command_tail e addr f f' r pe se ee l r' : flash_ok b f -> ended f f' pe se ee -> length (lock f') = 128%nat ->
  flash_writes e l f r = Some (f', r') ->
  exists f2, command e l addr f r = Some (final_status pe se ee, f2, r') /\ flash_ok b f2 /\ clean f2 = true /\ lock f2 = lock f'.
Proof.
  intros Hf (M & R & V & Q & P & E1 & E2 & E3 & E4) L E. flags_off Q. unfold command. rewrite E. cbn [mbind option_bind].
  unfold flash_intel_read_word. rewrite R. cbn -[status_register flash_intel_write_word].
  unfold flash_intel_write_word. rewrite M. cbn -[status_register init_wsm].
  assert (init_wsm WSM_CLEAR_STATUS f' = f' <| protection_error := false |> <| program_setlb_error := false |>
    <| erase_clearlb_error := false |> <| program_volt_error := false |> <| read_mode := WSM_READ_ARRAY |>) as E0 by done.
  exists (init_wsm WSM_CLEAR_STATUS f'). rewrite E0. split_and!.
  - do 3 f_equal. unfold status_register, final_status. rewrite B1, B2, B3, B4, S1, S3, E1, E2, E3, E4.
    by destruct pe, se, ee.
  - apply flash_ok_idle; flash_upds; use_flags; try done; rewrite ?P, ?M; [apply Hf|done].
  - unfold clean. upds. by rewrite M, V.
  - by upds.
Qed.

Lemma dispatch_program e addr d f r : wsm_mode f = WSM_PROGRAM ->
  flash_intel_write_word e addr d f r = write_program e addr d f r.
Proof. intros M. unfold flash_intel_write_word. by rewrite M. Qed.
Lemma dispatch_erase e addr d f r : wsm_mode f = WSM_BLOCK_ERASE ->
  flash_intel_write_word e addr d f r = write_erase e addr d f r.
Proof. intros M. unfold flash_intel_write_word. by rewrite M. Qed.
Lemma dispatch_lock e addr d f r : wsm_mode f = WSM_LOCK_ACCESS ->
  flash_intel_write_word e addr d f r = (f ← write_lock addr d f; Some (f, r)).
Proof. intros M. unfold flash_intel_write_word. by rewrite M. Qed.

Ltac ended_by := unfold ended; flash_upds; use_flags; split_and!; done.

Lemma write_program_run e addr d f r ws x : fit f -> holds i b r ws ->
  word addr -> in_bank b addr = true -> ws !! rom_index b addr = Some x ->
  exists f' r', write_program e addr d f r = Some (f', r') /\
    ended f f' (locked f (SECTOR_ADDR addr)) (locked f (SECTOR_ADDR addr)) false /\ lock f' = lock f /\
    holds i b r' (if locked f (SECTOR_ADDR addr) then ws else <[rom_index b addr := x &&& d]> ws) /\ only_bank i r r'.
Proof.
  intros (V & Q & L & E1 & E2 & E3 & E4) H Wa Ia Hx. flags_off Q. unfold write_program.
  set (g := f <| program_busy := true |> <| program_latch_addr := addr |> <| program_latch_data := d |>
              <| read_mode := WSM_READ_STATUS |>).
  rewrite (ISLOCKED_rd b FB SH g) by (try done; unfold g; by upds). cbn [mbind option_bind].
  replace (truth (rd (lock g) (SECTOR_ADDR addr))) with (locked f (SECTOR_ADDR addr)) by (unfold g; by upds).
  destruct (locked f _).
  - cbn [mbind option_bind]. eexists _, r. split; [done|]. unfold g. split_and!; [ended_by|by flash_upds|done|done].
  - replace (ADDR_SUSPENDED g addr) with false by (unfold g; flash_upds; by use_flags).
    replace (vpen g) with 1 by (unfold g; by upds). cbn [negb Z.eqb Pos.eqb].
    destruct (real_and_spec i b e r ws addr d H Wa Ia) as (r' & -> & H' & O'). cbn [mbind option_bind].
    eexists _, r'. split; [done|]. unfold g. split_and!; [ended_by|by flash_upds| |done].
    by rewrite (list_alter_insert_eq (fun x => x &&& d) _ _ _ Hx) in H'.
Qed.

Lemma write_erase_run e addr f r ws : fit f -> holds i b r ws -> word addr -> in_bank b addr = true ->
  exists f' r' ws', write_erase e addr WSM_CONFIRM f r = Some (f', r') /\
    ended f f' (locked f (SECTOR_ADDR addr)) false (locked f (SECTOR_ADDR addr)) /\ lock f' = lock f /\
    holds i b r' ws' /\ only_bank i r r' /\
    forall k x, ws !! k = Some x ->
      ws' !! k = Some (if negb (locked f (SECTOR_ADDR addr)) && (sector_of b k =? SECTOR_ADDR addr) then 0xffffffff else x).
Proof.
  intros (V & Q & L & E1 & E2 & E3 & E4) H Wa Ia. flags_off Q. unfold write_erase.
  change ((WSM_CONFIRM &&& 255) =? WSM_CONFIRM) with true. cbv iota zeta.
  assert (SECTOR_ADDR (addr &&& FLASH_SECTOR_MASK) = SECTOR_ADDR addr) as Es.
  { rewrite sector_start by done. rewrite (SECTOR_ADDR_div (_ * _)). dlia. }
  destruct (sector_in_bank b FB SH _ _ Wa Ia Es) as [Wl Il].
  set (l := addr &&& FLASH_SECTOR_MASK) in *.
  set (g := f <| erase_busy := true |> <| erase_latch_addr := l |> <| read_mode := WSM_READ_STATUS |>).
  rewrite (ISLOCKED_rd b FB SH g) by (try done; unfold g; by upds). cbn [mbind option_bind].
  replace (truth (rd (lock g) (SECTOR_ADDR l))) with (locked f (SECTOR_ADDR addr)) by (unfold g; upds; by rewrite Es).
  destruct (locked f _); cbn [negb andb].
  - cbn [mbind option_bind]. eexists _, r, ws. split; [done|]. unfold g. split_and!; [ended_by|by flash_upds|done..].
  - replace (DEVICE_SUSPENDED g) with false by (unfold g; flash_upds; by use_flags).
    replace (vpen g) with 1 by (unfold g; by upds). cbn [negb Z.eqb Pos.eqb].
    destruct (erase_sector_spec i b FB SH e addr r ws H Wa Ia) as (r' & ws' & E & H' & O' & C').
    fold l in E. rewrite E. cbn [mbind option_bind].
    eexists _, r', ws'. split; [done|]. unfold g. split_and!; [ended_by|by flash_upds|done..].
Qed.

Lemma write_lock_run addr f : fit f -> word addr -> in_bank b addr = true ->
  exists f', write_lock addr 1 f = Some f' /\ ended f f' false false false /\ lock f' = wr (lock f) (SECTOR_ADDR addr) 1.
Proof.
  intros (V & Q & L & E1 & E2 & E3 & E4) Wa Ia. flags_off Q. pose proof (sector_range b FB SH addr Wa Ia).
  unfold write_lock. change ((1 &&& 255) =? 1) with true. cbv iota zeta.
  set (g := f <| read_mode := WSM_READ_STATUS |>).
  replace (DEVICE_SUSPENDED g) with false by (unfold g; flash_upds; by use_flags).
  replace (vpen g) with 1 by (unfold g; by upds). cbn [negb Z.eqb Pos.eqb].
  rewrite (proj2 (Z.ltb_lt _ _)) by (unfold g; upds; lia). cbn [mbind option_bind].
  eexists. split; [done|]. unfold g. split; [ended_by|by flash_upds].
Qed.

(** A two-write command: selected, run, status read and cleared. *)
Lemma command_run e c addr d f r m (Q : mem_state_t -> Prop) l' pe se ee : flash_ok b f -> clean f = true ->
  init_wsm c f = f <| wsm_mode := m |> -> length l' = 128%nat ->
  (forall f1, wsm_mode f1 = m -> fit f1 -> lock f1 = lock f -> exists f' r',
     flash_intel_write_word e addr d f1 r = Some (f', r') /\ ended f1 f' pe se ee /\ lock f' = l' /\ Q r') ->
  exists f2 r', command e [(addr, c); (addr, d)] addr f r = Some (final_status pe se ee, f2, r') /\
    flash_ok b f2 /\ clean f2 = true /\ lock f2 = l' /\ Q r'.
Proof.
  intros Hf Hc Ei L Hrun. destruct (select_command e addr c f r m Hf Hc Ei) as (f1 & E1 & M1 & F1 & L1 & P1).
  destruct (Hrun f1 M1 F1 L1) as (f' & r' & E2 & H2 & <- & HQ).
  destruct (command_tail e addr f f' r pe se ee [(addr, c); (addr, d)] r') as (f2 & E & Hf2 & Hc2 & L2); [done| |done| |].
  - unfold ended in *. by rewrite <- P1.
  - cbn [flash_writes]. rewrite E1. cbn [mbind option_bind]. by rewrite E2.
  - by exists f2, r'.
Qed.

(** C38: The three commands of a driver, from a state with no error reported:
    programming leaves the old value and the new data anded, erasing leaves
    ones in the words of the sector and the other words as they were, and on a
    locked sector both change nothing and report the protection error, with
    the program or the erase error; locking sets the one lock bit.  The status
    says ready, and clearing it makes the chips read as memory again, so that
    a read gives the word and the next command starts as this one did. *)
Theorem flash_commands e addr d f r ws x : flash_ok b f -> clean f = true -> holds i b r ws ->
  word addr -> in_bank b addr = true -> ws !! rom_index b addr = Some x ->
  let s := SECTOR_ADDR addr in
  (exists r', flash_intel_read_word e addr f r = Some (x, r') /\ holds i b r' ws) /\
  (exists f' r', command e [(addr, WSM_PROGRAM); (addr, d)] addr f r =
       Some (if locked f s then 0x920092 else 0x800080, f', r') /\
     flash_ok b f' /\ clean f' = true /\ lock f' = lock f /\
     holds i b r' (if locked f s then ws else <[rom_index b addr := x &&& d]> ws) /\ only_bank i r r') /\
  (exists f' r', command e [(addr, WSM_BLOCK_ERASE); (addr, WSM_CONFIRM)] addr f r =
       Some (if locked f s then 0xA200A2 else 0x800080, f', r') /\
     flash_ok b f' /\ clean f' = true /\ lock f' = lock f /\
     exists ws', holds i b r' ws' /\ only_bank i r r' /\ forall k y, ws !! k = Some y ->
       ws' !! k = Some (if negb (locked f s) && (sector_of b k =? s) then 0xffffffff else y)) /\
  (exists f' r', command e [(addr, WSM_LOCK_ACCESS); (addr, 1)] addr f r = Some (0x800080, f', r') /\
     flash_ok b f' /\ clean f' = true /\ lock f' = wr (lock f) s 1 /\ r' = r).
Proof.
  intros Hf Hc H Wa Ia Hx s. destruct (clean_spec f Hc) as (_ & R & _). pose proof (fo_lock _ _ Hf) as L. split_and!.
  - unfold flash_intel_read_word. rewrite R. cbn [Z.eqb Pos.eqb WSM_READ_ARRAY].
    destruct (real_read_spec i b e r ws addr H Wa Ia) as (y & r' & E & Hy & H' & _). exists r'. split; [|done].
    simplify_eq. exact E.
  - destruct (command_run e WSM_PROGRAM addr d f r WSM_PROGRAM
      (fun r' => holds i b r' (if locked f s then ws else <[rom_index b addr := x &&& d]> ws) /\ only_bank i r r')
      (lock f) (locked f s) (locked f s) false) as (f2 & r' & E & HR); [done..| |].
    + intros f1 M F E. rewrite dispatch_program by done.
      replace (locked f s) with (locked f1 s) by (unfold locked; by rewrite E). rewrite <- E. by apply write_program_run.
    + exists f2, r'. split; [|done]. by destruct (locked f s).
  - destruct (command_run e WSM_BLOCK_ERASE addr WSM_CONFIRM f r WSM_BLOCK_ERASE
      (fun r' => exists ws', holds i b r' ws' /\ only_bank i r r' /\ forall k y, ws !! k = Some y ->
         ws' !! k = Some (if negb (locked f s) && (sector_of b k =? s) then 0xffffffff else y))
      (lock f) (locked f s) false (locked f s)) as (f2 & r' & E & HR); [done..| |].
    + intros f1 M F E. rewrite dispatch_erase by done.
      replace (locked f s) with (locked f1 s) by (unfold locked; by rewrite E). rewrite <- E.
      destruct (write_erase_run e addr f1 r ws F H Wa Ia) as (f' & r' & ws' & E1 & E2 & E3 & E4).
      exists f', r'. split_and!; try done. by exists ws'.
    + exists f2, r'. split; [|done]. by destruct (locked f s).
  - destruct (command_run e WSM_LOCK_ACCESS addr 1 f r WSM_LOCK_ACCESS (fun r' => r' = r)
      (wr (lock f) s 1) false false false) as (f2 & r' & E & HR); [done..|by rewrite length_wr| |].
    + intros f1 M F E. rewrite dispatch_lock by done.
      destruct (write_lock_run addr f1 F Wa Ia) as (f' & -> & E2 & E3). exists f', r. by rewrite E3, E.
    + by exists f2, r'.
Qed.
End Step.
