(* ===== verification/FlashBus.v ===== *)
(** * What the flash chips share

    The recorded bus cycles of the AMD and SST chips, the accesses of a chip
    to its contents, the dump of the contents to a file (skyeye_flash.c) and
    the dispatch of the flash banks over the configured devices
    (armflash.c).  [None] is undefined behaviour or a loop that does not
    end. *)

From S2P Require Import Prelude Words ArmState Machine ArmSys ArmMem.

(** ** Recorded bus cycles

    [io->cnt], [io->n_bus] and [io->bus[6]]: the write cycles since the last
    command, as pairs of offset and data; [n_bus] is where the next one is
    stored. *)
Record cmd_bus := mkBus { cnt : Z; n_bus : Z; bus : list (Z * Z) }.
#[export] Instance eta_bus : Eta cmd_bus := fun b => mkBus (cnt b) (n_bus b) (bus b).

Definition bus_at (b : cmd_bus) (n : Z) : Z * Z := nth (Z.to_nat n) (bus b) (0, 0).
Definition CMD_CHECK (b : cmd_bus) (n o v : Z) : bool := ((bus_at b n).1 =? o) && ((bus_at b n).2 =? v).
(** The label [reset]. *)
Definition bus_reset : cmd_bus := mkBus 0 0 (replicate 6 (0, 0)).
(** One more cycle, when there is room. *)
Definition bus_record (offset data : Z) (b : cmd_bus) : cmd_bus :=
  let b := b <| bus ::= fun l => wr l (n_bus b) (offset, data) |> <| n_bus ::= fun n => n + 1 |> in
  b <| cnt := n_bus b |>.

(** ** The contents

    [global_mbp = bank_ptr (addr)] before [real_read_] and [real_write_]. *)
Definition chip_read (e : Z) (w : width) (addr : Z) (r : mem_state_t) : option (Z * mem_state_t) :=
  '(o, r) ← bank_ptr addr r; i ← o; x ← real_read e w i addr r; Some (x, r).
Definition chip_write (e : Z) (w : width) (addr data : Z) (r : mem_state_t) : option mem_state_t :=
  '(o, r) ← bank_ptr addr r; i ← o; real_write e w i addr data r.

(** The number of turns of [for (addr = start; addr < end; addr += 4)]. *)
Definition loop_words (start stop : Z) : option Z :=
  if stop <=? start then Some 0
  else let n := (stop - start + 3) / 4 in
       if start + 4 * n <? 4294967296 then Some n else None.

Definition erase_words (e start stop : Z) (r : mem_state_t) : option mem_state_t :=
  n ← loop_words start stop;
  for_range_opt 0 n (fun k r => chip_write e Word (start + 4 * k) 0xffffffff r) r.
(** The erase commands: the range has to lie below the end of the chip. *)
Definition erase_range (e start stop chip_end : Z) (r : mem_state_t) : option mem_state_t :=
  if (start <? stop) && (stop <=? chip_end) then erase_words e start stop r else Some r.

(** ** The dump (skyeye_flash.c)

    The words of the chip as bytes of a file, in the order of a little-endian
    host. *)
Definition swap_word (x : Z) : Z :=
  ((x &&& 0xff) <<< 24) ||| (((x >>> 8) &&& 0xff) <<< 16) ||| (((x >>> 16) &&& 0xff) <<< 8) ||| ((x >>> 24) &&& 0xff).
Definition host_bytes (x : Z) : list Z := [x &&& 0xff; (x >>> 8) &&& 0xff; (x >>> 16) &&& 0xff; (x >>> 24) &&& 0xff].

Definition skyeye_flash_arm_read_word (e addr : Z) (r : mem_state_t) : option (option Z * mem_state_t) :=
  '(o, r) ← bank_ptr addr r;
  match o with
  | None => Some (None, r)
  | Some i => x ← real_read e Word i addr r; Some (Some (if e =? HIGH then swap_word x else x), r)
  end.

(** The result, the bytes of the file and the memory. *)
Fixpoint dump_words (n : nat) (e addr : Z) (r : mem_state_t) : option (Z * list Z * mem_state_t) :=
  match n with
  | O => Some (0, [], r)
  | S n =>
      '(o, r) ← skyeye_flash_arm_read_word e addr r;
      match o with
      | None => Some (-1, [], r)
      | Some x => '(res, bytes, r) ← dump_words n e (addr + 4) r; Some (res, host_bytes x ++ bytes, r)
      end
  end.
(** [named]: the file has a name; [fd]: the result of [open]. *)
Definition skyeye_flash_dump (named arm : bool) (fd e base size : Z) (r : mem_state_t) :
    option (Z * list Z * mem_state_t) :=
  if negb named || negb arm then Some (-1, [], r)
  else if fd =? -1 then Some (-1, [], r)
  else n ← loop_words base (add32 base size); dump_words (Z.to_nat n) e base r.

(** ** The dispatch (armflash.c) *)

Section Dispatch.
Context {M : Type}.

(** A read that no device answers returns no value. *)
Fixpoint flash_read (ds : list (device_desc M)) (w : width) (addr : Z) (m : M) : option (Z * M) :=
  match ds with
  | [] => None
  | d :: ds =>
      match dev_read d w with
      | None => flash_read ds w addr m
      | Some read =>
          if dev_covers d addr then
            '(r, data, m) ← read addr m;
            if negb (r =? ADDR_NOHIT) then Some (data &&& width_mask w, m) else flash_read ds w addr m
          else flash_read ds w addr m
      end
  end.
Fixpoint flash_write (ds : list (device_desc M)) (w : width) (addr data : Z) (m : M) : option M :=
  match ds with
  | [] => Some m
  | d :: ds =>
      match dev_write d w with
      | None => flash_write ds w addr data m
      | Some write =>
          if dev_covers d addr then
            '(r, m) ← write addr (data &&& width_mask w) m;
            if negb (r =? ADDR_NOHIT) then Some m else flash_write ds w addr data m
          else flash_write ds w addr data m
      end
  end.
End Dispatch.
