(* ===== verification/FlashAm29.v ===== *)
(** * The AMD flash chips (dev_flash_am29.c)

    Am29LV160 and Am29LV800, top and bottom boot, on a bus of bytes or of
    halfwords: unlock sequences, programming, erasing, the device
    identification and the query table.  The byte and the halfword functions
    differ in the unlock addresses and in the unit of the offsets. *)

From Stdlib Require Import Ascii String.
From S2P Require Import Prelude Words ArmState Machine ArmSys ArmMem FlashBus.
Import ListNotations.
Open Scope list_scope.

(** The functions [bautoselect] and [wautoselect] may point to. *)
Inductive autoselect_fn := am29lv160 | am29lv800.

(** [bcnt], [n_bbus], [bbus] in [bbus_], [wcnt], [n_wbus], [wbus] in
    [wbus_]. *)
Record flash_am29_io := mkAm29 {
  am29_type : string;
  bbus_ : cmd_bus; wbus_ : cmd_bus;
  query : option (list Z); max_query : Z;
  bautoselect : option autoselect_fn; wautoselect : option autoselect_fn;
  chip_size : Z; sector_size : Z;
  dump_cnt : Z; dump_flags : Z
}.
#[export] Instance eta_am29 : Eta flash_am29_io := fun f => mkAm29
  (am29_type f) (bbus_ f) (wbus_ f) (query f) (max_query f) (bautoselect f) (wautoselect f)
  (chip_size f) (sector_size f) (dump_cnt f) (dump_flags f).

(** The bus of a width ([Word] accesses have none of their own). *)
Definition bus_of (w : width) (f : flash_am29_io) : cmd_bus := match w with Byte => bbus_ f | _ => wbus_ f end.
Definition upd_bus (w : width) (g : cmd_bus -> cmd_bus) (f : flash_am29_io) : flash_am29_io :=
  match w with Byte => f <| bbus_ ::= g |> | _ => f <| wbus_ ::= g |> end.
Definition autoselect (w : width) (f : flash_am29_io) : option autoselect_fn :=
  match w with Byte => bautoselect f | Half => wautoselect f | Word => None end.

(** ** Commands (dev_flash_am29.h) *)
Definition unlock1 (w : width) : Z := match w with Byte => 0xaaa | _ => 0x555 end.
Definition unlock2 (w : width) : Z := match w with Byte => 0x555 | _ => 0x2aa end.
Definition query_at (w : width) : Z := match w with Byte => 0xaa | _ => 0x55 end.

Definition CMD_UNLOCKED (w : width) (v : Z) (b : cmd_bus) : bool :=
  (cnt b =? 3) && CMD_CHECK b 0 (unlock1 w) 0xaa && CMD_CHECK b 1 (unlock2 w) 0x55 && CMD_CHECK b 2 (unlock1 w) v.
Definition CMD_PROGRAM (w : width) : cmd_bus -> bool := CMD_UNLOCKED w 0xa0.
Definition CMD_AUTOSELECT (w : width) : cmd_bus -> bool := CMD_UNLOCKED w 0x90.
Definition CMD_UNLOCK_BYPASS (w : width) : cmd_bus -> bool := CMD_UNLOCKED w 0x20.
Definition CMD_ERASE (w : width) (b : cmd_bus) : bool :=
  (cnt b =? 5) && CMD_CHECK b 0 (unlock1 w) 0xaa && CMD_CHECK b 1 (unlock2 w) 0x55 && CMD_CHECK b 2 (unlock1 w) 0x80 &&
  CMD_CHECK b 3 (unlock1 w) 0xaa && CMD_CHECK b 4 (unlock2 w) 0x55.
Definition CMD_QUERY (w : width) (b : cmd_bus) : bool := (cnt b =? 1) && CMD_CHECK b 0 (query_at w) 0x98.
(** As the macro's operators bind. *)
Definition CMD_UNLOCK_BYPASS_PROGRAM_RESET (b : cmd_bus) : bool :=
  ((cnt b =? 2) && ((bus_at b 0).2 =? 0xa0)) || ((bus_at b 0).2 =? 0x90).

(** ** Reset and dump *)
Definition flash_am29_reset (f : flash_am29_io) : flash_am29_io :=
  f <| bbus_ := bus_reset |> <| wbus_ := bus_reset |> <| dump_cnt := 0xffff |> <| dump_flags := 0 |>.

(** [named]: a dump file is configured; [dumped]: the result of
    [skyeye_flash_dump]. *)
Definition flash_am29_update (named : bool) (dumped : Z) (f : flash_am29_io) : flash_am29_io :=
  if negb named then f
  else if (dump_flags f =? 0) || truth (dump_flags f &&& 2) then f
  else
    let f := f <| dump_cnt ::= fun n => n - 1 |> in
    if dump_cnt f =? 0 then
      if negb (dumped =? 0) then f <| dump_flags ::= fun x => x ||| 2 |>
      else f <| dump_cnt := 0xffff |> <| dump_flags := 0 |>
    else f.

(** ** Reading *)

Definition is_type (t : string) (f : flash_am29_io) : bool := String.prefix t (am29_type f).
Definition flash_am29_autoselect (w : width) (fn : autoselect_fn) (offset : Z) (f : flash_am29_io) : Z :=
  match w, fn with
  | Byte, am29lv160 =>
      match offset &&& 0xff with 0 => 0x1 | 2 => if is_type "Am29LV160T" f then 0xc4 else 0x49 | _ => 0 end
  | Byte, am29lv800 =>
      match offset &&& 0xff with 0 => 0x1 | 2 => if is_type "Am29LV800T" f then 0xda else 0x5b | _ => 0 end
  | _, am29lv160 =>
      match offset &&& 0xff with 0 => 0x1 | 1 => if is_type "Am29LV160T" f then 0x22c4 else 0x2249 | _ => 0 end
  | _, am29lv800 =>
      match offset &&& 0xff with 0 => 0x1 | 1 => if is_type "Am29LV800T" f then 0x22da else 0x225b | _ => 0 end
  end.

(** The entry of the query table: the byte bus has one in two addresses. *)
Definition query_entry (w : width) (offset : Z) (f : flash_am29_io) (q : list Z) : Z :=
  let k := match w with Byte => offset >>> 1 | _ => offset end in
  if k <? max_query f then rd q k &&& width_mask w else 0.

(** The offset of an address on the bus. *)
Definition bus_offset (w : width) (base addr : Z) : Z :=
  match w with Byte => sub32 addr base | _ => sub32 addr base >>> 1 end.

(** What a read gives while a command is recorded: [d0], the caller's
    uninitialised variable, when the command is none of the two. *)
Definition command_data (w : width) (offset d0 : Z) (f : flash_am29_io) : Z :=
  match autoselect w f with
  | Some fn =>
      if 0 <? cnt (bus_of w f) then
        let d := match query f with
                 | Some q => if CMD_QUERY w (bus_of w f) then query_entry w offset f q else d0
                 | None => d0
                 end in
        if CMD_AUTOSELECT w (bus_of w f) then flash_am29_autoselect w fn offset f else d
      else d0
  | None => d0
  end.
(** [flash_am29_read_byte] and [flash_am29_read_halfword]. *)
Definition flash_am29_read (w : width) (e base d0 addr : Z) (f : flash_am29_io) (r : mem_state_t) :
    option (Z * flash_am29_io * mem_state_t) :=
  let d := command_data w (bus_offset w base addr) d0 f in
  '(d, r) ← (if cnt (bus_of w f) =? 0 then chip_read e w addr r else Some (d, r));
  Some (d, upd_bus w (fun b => b <| n_bus := 0 |>) f, r).
Definition flash_am29_read_word (e addr : Z) (r : mem_state_t) : option (Z * mem_state_t) := chip_read e Word addr r.

(** ** Writing *)

Definition ADDR_HIT := 1.

Definition am29_program (w : width) (e addr data : Z) (f : flash_am29_io) (r : mem_state_t) :
    option (flash_am29_io * mem_state_t) :=
  r ← chip_write e w addr data r;
  Some (upd_bus w (fun _ => bus_reset) (f <| dump_flags ::= fun x => x ||| 1 |>), r).
Definition am29_erase (w : width) (e base addr data : Z) (f : flash_am29_io) (r : mem_state_t) :
    option (flash_am29_io * mem_state_t) :=
  let '(start, stop) :=
    if data =? 0x10 then (base, add32 base (chip_size f))
    else if data =? 0x30 then (addr, add32 addr (sector_size f)) else (0, 0) in
  r ← erase_range e start stop (add32 base (chip_size f)) r;
  Some (upd_bus w (fun _ => bus_reset) f, r).
(** A cycle that does not complete a command. *)
Definition am29_cycle (w : width) (offset data : Z) (b : cmd_bus) : cmd_bus :=
  let room := n_bus b <? 6 in
  let b := if room then bus_record offset data b else b in
  if room && (data =? 0xf0) then bus_reset
  else if CMD_UNLOCK_BYPASS w b || CMD_UNLOCK_BYPASS_PROGRAM_RESET b then bus_reset else b.

(** [flash_am29_write_byte] and [flash_am29_write_halfword]: whether the
    device answers, and the state. *)
Definition flash_am29_write (w : width) (e base addr data : Z) (f : flash_am29_io) (r : mem_state_t) :
    option (Z * flash_am29_io * mem_state_t) :=
  match autoselect w f with
  | None => Some (ADDR_NOHIT, f, r)
  | Some _ =>
      let b := bus_of w f in
      if (n_bus b =? 0) && ((data =? 0xb0) || (data =? 0x30)) then Some (ADDR_NOHIT, f, r)
      else if CMD_PROGRAM w b then '(f, r) ← am29_program w e addr data f r; Some (ADDR_HIT, f, r)
      else if CMD_ERASE w b then '(f, r) ← am29_erase w e base addr data f r; Some (ADDR_HIT, f, r)
      else Some (ADDR_HIT, upd_bus w (am29_cycle w (bus_offset w base addr) data) f, r)
  end.
Definition flash_am29_write_word (f : flash_am29_io) : Z * flash_am29_io := (ADDR_NOHIT, f).

(** ** Setup *)

Definition am29lv160_query : list Z :=
  replicate 16 0 ++
  [0x51; 0x52; 0x59; 2; 0; 0x40; 0; 0; 0; 0; 0;
   0x27; 0x36; 0; 0; 4; 0; 0xa; 0; 5; 0; 4; 0;
   0x15; 2; 0; 0; 0; 4; 0; 0; 0x40; 0; 1; 0; 0x20; 0; 0; 0; 0x80; 0; 0x1e; 0; 0; 1; 0; 0; 0;
   0x50; 0x52; 0x49; 0x31; 0x30; 0; 2; 1; 1; 4; 0; 0; 0].

(** [arm]: the architecture is "arm"; [size] is the size of the device's
    range. *)
Definition flash_am29_setup (arm : bool) (size : Z) (q : option (list Z)) (max_query : Z)
    (bauto wauto : option autoselect_fn) (chip sector : Z) (type : string) : option flash_am29_io :=
  if negb arm || (match q with Some _ => max_query <? 0x35 | None => false end) ||
     (match bauto, wauto with None, None => true | _, _ => false end) then None
  else
    let chip := if chip =? 0 then match q with Some q => shl32 1 (rd q 0x27) | None => chip end else chip in
    let sector := if sector =? 0 then
                    match q with Some q => chip / Z.max (shl32 (rd q 0x34) 8 ||| rd q 0x33) 1 | None => sector end
                  else sector in
    if negb (size =? chip) then None
    else Some (flash_am29_reset (mkAm29 type bus_reset bus_reset q max_query bauto wauto chip sector 0 0)).

(** The bus of a device type, from the end of its name. *)
Definition suffix (n : nat) (s : string) : string := String.substring (String.length s - n) n s.
Definition type_width (type : string) : option width :=
  if (12 <=? String.length type)%nat then
    if String.eqb (suffix 2 type) "-8" then Some Byte
    else if String.eqb (suffix 3 type) "-16" then Some Half else None
  else None.
Definition for_width (w0 w : width) (fn : autoselect_fn) : option autoselect_fn :=
  if decide (w = w0) then Some fn else None.

Definition flash_am29lv160_setup (arm : bool) (size : Z) (type : string) : option flash_am29_io :=
  w ← type_width type;
  flash_am29_setup arm size (Some am29lv160_query) 0x4d (for_width Byte w am29lv160) (for_width Half w am29lv160) 0 0 type.
Definition flash_am29lv800_setup (arm : bool) (size : Z) (type : string) : option flash_am29_io :=
  w ← type_width type;
  flash_am29_setup arm size None 0 (for_width Byte w am29lv800) (for_width Half w am29lv800) 0x100000 0x10000 type.
