(* ===== verification/FlashSst.v ===== *)
(** * The SST flash chips (dev_flash_sst39lvf160.c)

    SST39LF160 and SST39VF160 on a bus of halfwords: programming, erasing of
    the chip, of sectors and of blocks, identification and query. *)

From S2P Require Import Prelude Words ArmState Machine ArmSys ArmMem FlashBus FlashAm29.

Record flash_sst39lvf160_io := mkSst { sst_bus : cmd_bus; sst_dump_cnt : Z; sst_dump_flags : Z }.
#[export] Instance eta_sst : Eta flash_sst39lvf160_io := fun f => mkSst (sst_bus f) (sst_dump_cnt f) (sst_dump_flags f).

Definition SST_SIZE : Z := 0x200000.

(** ** Commands (dev_flash_sst39lvf160.h) *)
Definition SST_UNLOCKED (v : Z) (b : cmd_bus) : bool :=
  (cnt b =? 3) && CMD_CHECK b 0 0x5555 0xaa && CMD_CHECK b 1 0x2aaa 0x55 && CMD_CHECK b 2 0x5555 v.
Definition CMD_WORD_PROGRAM : cmd_bus -> bool := SST_UNLOCKED 0xa0.
Definition CMD_SOFTWARE_ID_ENTRY : cmd_bus -> bool := SST_UNLOCKED 0x90.
Definition CMD_CFI_QUERY_ENTRY : cmd_bus -> bool := SST_UNLOCKED 0x98.
Definition SST_ERASE (b : cmd_bus) : bool :=
  (cnt b =? 5) && CMD_CHECK b 0 0x5555 0xaa && CMD_CHECK b 1 0x2aaa 0x55 && CMD_CHECK b 2 0x5555 0x80 &&
  CMD_CHECK b 3 0x5555 0xaa && CMD_CHECK b 4 0x2aaa 0x55.
Definition CMD_QUERY_EXIT (b : cmd_bus) : bool :=
  ((cnt b =? 1) && ((bus_at b 0).2 =? 0xf0)) || SST_UNLOCKED 0xf0 b.

(** ** Reset and dump *)
Definition flash_sst39lvf160_reset : flash_sst39lvf160_io := mkSst bus_reset 0xffff 0.
Definition flash_sst39lvf160_update (named : bool) (dumped : Z) (f : flash_sst39lvf160_io) : flash_sst39lvf160_io :=
  if negb named then f
  else if (sst_dump_flags f =? 0) || truth (sst_dump_flags f &&& 2) then f
  else
    let f := f <| sst_dump_cnt ::= fun n => n - 1 |> in
    if sst_dump_cnt f =? 0 then
      if negb (dumped =? 0) then f <| sst_dump_flags ::= fun x => x ||| 2 |>
      else f <| sst_dump_cnt := 0xffff |> <| sst_dump_flags := 0 |>
    else f.

(** ** Reading *)

(** The query table; [lf]: the type is "SST39LF160". *)
Definition cfi_table (lf : bool) : list Z :=
  replicate 16 0 ++
  [0x51; 0x52; 0x59; 1; 7; 0; 0; 0; 0; 0; 0; if lf then 0x30 else 0x27; 0x36; 0; 0; 4; 0; 4; 6; 1; 0; 1; 1;
   0x15; 1; 0; 0; 0; 2; 0xff; 1; 0x10; 0; 0x1f; 0; 0; 1].
Definition sst_id (offset : Z) : Z := match offset with 0 => 0xbf | 1 => 0x2782 | _ => 0 end.
Definition sst_command_data (lf : bool) (offset d0 : Z) (b : cmd_bus) : Z :=
  let d := if CMD_SOFTWARE_ID_ENTRY b then sst_id offset else d0 in
  if CMD_CFI_QUERY_ENTRY b then rd (cfi_table lf) offset else d.

Definition flash_sst39lvf160_read_halfword (lf : bool) (e base d0 addr : Z) (f : flash_sst39lvf160_io) (r : mem_state_t) :
    option (Z * flash_sst39lvf160_io * mem_state_t) :=
  let d := sst_command_data lf (sub32 addr base >>> 1) d0 (sst_bus f) in
  '(d, r) ← (if cnt (sst_bus f) =? 0 then chip_read e Half addr r else Some (d, r));
  Some (d, f <| sst_bus ::= fun b => b <| n_bus := 0 |> |>, r).
Definition flash_sst39lvf160_read_byte (e addr : Z) (r : mem_state_t) : option (Z * mem_state_t) := chip_read e Byte addr r.
Definition flash_sst39lvf160_read_word (e addr : Z) (r : mem_state_t) : option (Z * mem_state_t) := chip_read e Word addr r.

(** ** Writing *)

Definition sst_program (e addr data : Z) (f : flash_sst39lvf160_io) (r : mem_state_t) :
    option (flash_sst39lvf160_io * mem_state_t) :=
  r ← chip_write e Half addr data r;
  Some (f <| sst_dump_flags ::= fun x => x ||| 1 |> <| sst_bus := bus_reset |>, r).
Definition sst_erase (e base addr data : Z) (f : flash_sst39lvf160_io) (r : mem_state_t) :
    option (flash_sst39lvf160_io * mem_state_t) :=
  let '(start, stop) :=
    if data =? 0x10 then (base, add32 base SST_SIZE)
    else if data =? 0x30 then (addr, add32 addr 0x1000)
    else if data =? 0x50 then (addr, add32 addr 0x10000) else (0, 0) in
  r ← erase_range e start stop (add32 base SST_SIZE) r;
  Some (f <| sst_bus := bus_reset |>, r).
Definition sst_cycle (offset data : Z) (b : cmd_bus) : cmd_bus :=
  if n_bus b <? 6 then
    let b := bus_record offset data b in if CMD_QUERY_EXIT b then bus_reset else b
  else b.
Definition flash_sst39lvf160_write_halfword (e base addr data : Z) (f : flash_sst39lvf160_io) (r : mem_state_t) :
    option (Z * flash_sst39lvf160_io * mem_state_t) :=
  if CMD_WORD_PROGRAM (sst_bus f) then '(f, r) ← sst_program e addr data f r; Some (ADDR_HIT, f, r)
  else if SST_ERASE (sst_bus f) then '(f, r) ← sst_erase e base addr data f r; Some (ADDR_HIT, f, r)
  else Some (ADDR_HIT, f <| sst_bus ::= sst_cycle (sub32 addr base >>> 1) data |>, r).
Definition flash_sst39lvf160_write_byte (f : flash_sst39lvf160_io) : Z * flash_sst39lvf160_io := (ADDR_NOHIT, f).
Definition flash_sst39lvf160_write_word (f : flash_sst39lvf160_io) : Z * flash_sst39lvf160_io := (ADDR_NOHIT, f).

Definition flash_sst39lvf160_setup (arm : bool) (size : Z) : option flash_sst39lvf160_io :=
  if negb arm || negb (size =? SST_SIZE) then None else Some flash_sst39lvf160_reset.
