(* ===== verification/FlashJedec.v ===== *)
(** * Unlock sequences

    A recorder of bus cycles as a finite automaton: which prefix of a known
    command the cycles since the last reset form.  The checks of the AMD and
    SST chips on their six recorded cycles ([CMD_CHECK]) are tests of its state. *)

From S2P Require Import Prelude Words ArmState Machine ArmSys ArmMem FlashBus.

(** ** The automaton

    Commands start with 0xaa at [cs_u1] and 0x55 at [cs_u2], then a third cycle at
    [cs_u1]; after 0x80 come the unlock cycles again.  [cs_single]: a first cycle
    that means something by itself. *)
Record cmdset := mkCmds { cs_u1 : Z; cs_u2 : Z; cs_third : Z -> bool; cs_single : Z * Z -> bool }.
Inductive phase :=
  Idle | Single | Unlock1 | Unlock2 | Third (d : Z) | Unlock3 | Unlock4 | Other (n : Z).
#[export] Instance phase_eq_dec : EqDecision phase.
Proof. solve_decision. Defined.

(** The number of cycles recorded. *)
Definition plen (p : phase) : Z :=
  match p with
  | Idle => 0 | Single => 1 | Unlock1 => 1 | Unlock2 => 2 | Third _ => 3 | Unlock3 => 4 | Unlock4 => 5 | Other n => n
  end.
Definition cycle_is (x : Z * Z) (o d : Z) : bool := (x.1 =? o) && (x.2 =? d).
Definition advance (c : cmdset) (p : phase) (x : Z * Z) : phase :=
  match p with
  | Idle => if cycle_is x (cs_u1 c) 0xaa then Unlock1 else if cs_single c x then Single else Other 1
  | Unlock1 => if cycle_is x (cs_u2 c) 0x55 then Unlock2 else Other 2
  | Unlock2 => if (x.1 =? cs_u1 c) && cs_third c x.2 then Third x.2 else Other 3
  | Third d => if (d =? 0x80) && cycle_is x (cs_u1 c) 0xaa then Unlock3 else Other 4
  | Unlock3 => if cycle_is x (cs_u2 c) 0x55 then Unlock4 else Other 5
  | p => Other (plen p + 1)
  end.

(** ** The recorded cycles *)

Section Record.
Context (c : cmdset) (third_80 : cs_third c 0x80 = true).
Implicit Type b : cmd_bus.

(** The first cycles of a record are those of the erase command. *)
Definition seq1 b : bool := CMD_CHECK b 0 (cs_u1 c) 0xaa.
Definition seq2 b : bool := seq1 b && CMD_CHECK b 1 (cs_u2 c) 0x55.
Definition seq3 d b : bool := seq2 b && CMD_CHECK b 2 (cs_u1 c) d.
Definition seq4 b : bool := seq3 0x80 b && CMD_CHECK b 3 (cs_u1 c) 0xaa.
Definition seq5 b : bool := seq4 b && CMD_CHECK b 4 (cs_u2 c) 0x55.

(** No known command is the record's first [n] cycles, nor begins with them. *)
Definition unknown b (n : Z) : Prop :=
  (n = 1 -> seq1 b = false /\ cs_single c (bus_at b 0) = false) /\ (n = 2 -> seq2 b = false) /\
  (n = 3 -> forall d, cs_third c d = true -> seq3 d b = false) /\
  (n = 4 -> seq4 b = false) /\ (n = 5 -> seq5 b = false).
Definition records b (p : phase) : Prop :=
  match p with
  | Idle => True
  | Single => seq1 b = false /\ cs_single c (bus_at b 0) = true
  | Unlock1 => seq1 b = true
  | Unlock2 => seq2 b = true
  | Third d => seq3 d b = true /\ cs_third c d = true
  | Unlock3 => seq4 b = true
  | Unlock4 => seq5 b = true
  | Other n => 1 <= n <= 6 /\ unknown b n
  end.

(** [unknown] at a given length. *)
Definition unknown_now b (n : Z) : Prop :=
  match n with
  | 1 => seq1 b = false /\ cs_single c (bus_at b 0) = false
  | 2 => seq2 b = false
  | 3 => forall d, cs_third c d = true -> seq3 d b = false
  | 4 => seq4 b = false
  | 5 => seq5 b = false
  | _ => True
  end.
Lemma unknown_at b n : 1 <= n <= 6 -> unknown_now b n -> 1 <= n <= 6 /\ unknown b n.
Proof. intros Hn H. split; [done|]. refine (conj _ (conj _ (conj _ (conj _ _)))); intros ->; exact H. Qed.

Lemma records_len b p : records b p -> 0 <= plen p <= 6.
Proof. destruct p; cbn [records plen]; lia. Qed.

(** *** One more cycle *)

Lemma bus_at_record o d b n : length (bus b) = 6%nat -> 0 <= n_bus b < 6 -> 0 <= n ->
  bus_at (bus_record o d b) n = if n =? n_bus b then (o, d) else bus_at b n.
Proof.
  intros Hl Hn H0. unfold bus_at, bus_record. cbv zeta. upds. destruct (Z.eqb_spec n (n_bus b)) as [->|Hne].
  - unfold wr. rewrite nth_lookup, list_lookup_insert_eq by lia. done.
  - unfold wr. rewrite !nth_lookup, list_lookup_insert_ne by lia. done.
Qed.
Lemma check_record o d b n v w : length (bus b) = 6%nat -> 0 <= n_bus b < 6 -> 0 <= n ->
  CMD_CHECK (bus_record o d b) n v w = if n =? n_bus b then cycle_is (o, d) v w else CMD_CHECK b n v w.
Proof. intros Hl Hn H0. unfold CMD_CHECK. rewrite bus_at_record by done. by destruct (n =? n_bus b). Qed.
Lemma cnt_record o d b : cnt (bus_record o d b) = n_bus b + 1.
Proof. unfold bus_record. cbv zeta. by upds. Qed.
Lemma n_bus_record o d b : n_bus (bus_record o d b) = n_bus b + 1.
Proof. unfold bus_record. cbv zeta. by upds. Qed.
Lemma length_record o d b : length (bus (bus_record o d b)) = length (bus b).
Proof. unfold bus_record. cbv zeta. upds. apply length_wr. Qed.

(** A sequence of the record with one more cycle, by the checks of the old
    record. *)
Local Ltac seqs Hc := cbn [records unknown_now] in *; unfold seq5, seq4, seq3, seq2, seq1 in *; rewrite ?Hc by lia; cbn [Z.eqb Pos.eqb].

Lemma records_advance o d b p : records b p -> length (bus b) = 6%nat -> n_bus b = plen p -> plen p < 6 ->
  records (bus_record o d b) (advance c p (o, d)) /\ plen (advance c p (o, d)) = plen p + 1.
Proof.
  intros H Hl Hn Hp. pose proof (records_len b p H) as Hr.
  assert (forall n v w, 0 <= n -> CMD_CHECK (bus_record o d b) n v w = if n =? plen p then cycle_is (o, d) v w else CMD_CHECK b n v w) as Hc.
  { intros n v w H0. rewrite <- Hn. apply check_record; [done|lia|done]. }
  assert (forall v w, CMD_CHECK (bus_record o d b) 0 v w = if 0 =? plen p then cycle_is (o, d) v w else CMD_CHECK b 0 v w) as C0 by (intros; by apply Hc).
  assert (bus_at (bus_record o d b) 0 = if 0 =? plen p then (o, d) else bus_at b 0) as B0.
  { rewrite <- Hn. apply bus_at_record; [done|lia|done]. }
  clear Hn. destruct p as [| | | |x| | |n]; cbn [advance records plen Z.eqb Pos.eqb] in *.
  - destruct (cycle_is _ _ _) eqn:E; [split; [by seqs Hc|done]|].
    destruct (cs_single c (o, d)) eqn:Es; (split; [|done]); cbn [records]; [split; [by seqs Hc|by rewrite B0]|].
    apply unknown_at; [lia|]. cbn [unknown_now]. rewrite B0. split; [by seqs Hc|done].
  - destruct H as [H1 H2]. change (1 + 1) with 2. split; [|done]. apply unknown_at; [lia|]. cbn [unknown_now]. seqs Hc. by rewrite H1.
  - destruct (cycle_is _ _ _) eqn:E; (split; [|done]); [by seqs Hc; rewrite H|].
    apply unknown_at; [lia|]. cbn [unknown_now]. seqs Hc. by rewrite H.
  - destruct ((_ =? _) && _) eqn:E; (split; [|done]).
    + apply andb_true_iff in E as [E1 E2]. split; [|done]. seqs Hc. rewrite H. unfold cycle_is; cbn [fst snd] in *. by rewrite E1, Z.eqb_refl.
    + apply unknown_at; [lia|]. cbn [unknown_now]. intros d' Hd'. seqs Hc. rewrite H. unfold cycle_is; cbn [fst snd] in *.
      destruct (o =? cs_u1 c); [|done]. destruct (Z.eqb_spec d d') as [->|]; [|done]. by rewrite Hd' in E.
  - destruct H as [H Hx]. destruct (_ && _) eqn:E; (split; [|done]).
    + apply andb_true_iff in E as [E1%Z.eqb_eq E2]. subst x. seqs Hc. by rewrite H.
    + apply unknown_at; [lia|]. seqs Hc. destruct (Z.eqb_spec x 0x80) as [->|Hne].
      * rewrite H. exact E.
      * unfold CMD_CHECK in *. apply andb_true_iff in H as [H1 H2]. rewrite H1.
        destruct (Z.eqb_spec (bus_at b 2).2 x) as [Ex|]; [|by rewrite andb_false_r in H2].
        destruct (Z.eqb_spec (bus_at b 2).2 128); [lia|]. by rewrite andb_false_r.
  - destruct (cycle_is _ _ _) eqn:E; (split; [|done]); [by seqs Hc; rewrite H|].
    apply unknown_at; [lia|]. seqs Hc. by rewrite H.
  - change (5 + 1) with 6. split; [|done]. by apply unknown_at; [lia|].
  - split; [|done]. destruct H as [Hn (U1 & U2 & U3 & U4 & U5)]. apply unknown_at; [lia|].
    assert (n = 1 \/ n = 2 \/ n = 3 \/ n = 4 \/ n = 5) as [-> |[-> |[-> |[-> | ->]]]] by lia;
      [change (1 + 1) with 2|change (2 + 1) with 3|change (3 + 1) with 4|change (4 + 1) with 5|change (5 + 1) with 6].
    + destruct (U1 eq_refl) as [H1 _]. seqs Hc. by rewrite H1.
    + specialize (U2 eq_refl). seqs Hc. intros d' _. seqs Hc. by rewrite U2.
    + specialize (U3 eq_refl 0x80 third_80). seqs Hc. by rewrite U3.
    + specialize (U4 eq_refl). seqs Hc. by rewrite U4.
    + done.
Qed.

(** *** The checks of the chips as tests of the phase *)

Lemma third_records v b p : cnt b = plen p -> records b p -> cs_third c v = true ->
  (cnt b =? 3) && seq3 v b = bool_decide (p = Third v).
Proof.
  intros Hc Hr Hv. rewrite Hc. destruct p as [| | | |d| | |n]; cbn [plen Z.eqb Pos.eqb andb]; try done.
  - cbn [records] in Hr. destruct Hr as [Hr _]. destruct (decide (d = v)) as [->|Hne].
    + by rewrite Hr, bool_decide_eq_true_2.
    + rewrite bool_decide_eq_false_2 by congruence. unfold seq3, CMD_CHECK in *.
      apply andb_true_iff in Hr as [Hr1 Hr2]. apply andb_true_iff in Hr2 as [Hr2 Hr3%Z.eqb_eq].
      rewrite Hr1, Hr2, Hr3. by destruct (Z.eqb_spec d v).
  - destruct Hr as [_ (_ & _ & U & _)]. destruct (Z.eqb_spec n 3) as [->|]; [|done]. cbn [andb].
    by rewrite (U eq_refl v Hv).
Qed.
Lemma erase_records b p : cnt b = plen p -> records b p -> (cnt b =? 5) && seq5 b = bool_decide (p = Unlock4).
Proof.
  intros Hc Hr. rewrite Hc. destruct p as [| | | |d| | |n]; cbn [plen Z.eqb Pos.eqb andb]; try done.
  destruct Hr as [_ (_ & _ & _ & _ & U)]. destruct (Z.eqb_spec n 5) as [->|]; [|done]. by rewrite (U eq_refl).
Qed.
End Record.

(** ** A bus

    The phase, the data of the first cycle, and whether a read came after the
    last cycle, so that the next one starts a new sequence. *)
Record side := mkSide { sd_phase : phase; sd_first : Z; sd_seen : bool }.
Definition side_idle : side := mkSide Idle 0 false.
(** The phase that the next cycle continues. *)
Definition side_now (s : side) : phase := if sd_seen s then Idle else sd_phase s.

Record bus_phase (c : cmdset) (b : cmd_bus) (s : side) : Prop := {
  bp_len : length (bus b) = 6%nat;
  bp_cnt : cnt b = plen (sd_phase s);
  bp_n : n_bus b = if sd_seen s then 0 else plen (sd_phase s);
  bp_rec : records c b (sd_phase s)
}.
Lemma bus_phase_reset c : bus_phase c bus_reset side_idle.
Proof. by split. Qed.
Lemma bus_phase_read c b s : bus_phase c b s -> bus_phase c (b <| n_bus := 0 |>) (mkSide (sd_phase s) (sd_first s) true).
Proof. intros [H1 H2 H3 H4]. by split. Qed.
Lemma bus_phase_now c b s : bus_phase c b s -> n_bus b = plen (side_now s) /\ records c b (side_now s).
Proof. intros [H1 H2 H3 H4]. rewrite H3. unfold side_now. by destruct (sd_seen s). Qed.
Lemma bus_phase_cycle c b s x first : cs_third c 0x80 = true -> bus_phase c b s -> plen (side_now s) < 6 ->
  bus_phase c (bus_record x.1 x.2 b) (mkSide (advance c (side_now s) x) first false) /\
  plen (advance c (side_now s) x) = plen (side_now s) + 1.
Proof.
  intros Ht H Hl. destruct (bus_phase_now c b s H) as [Hn Hr]. destruct x as [o d]. cbn [fst snd].
  destruct (records_advance c Ht o d b _ Hr (bp_len _ _ _ H) Hn Hl) as [Hr' Hl'].
  split; [|done]. split; cbn [sd_phase sd_seen].
  - rewrite length_record. apply H.
  - by rewrite cnt_record, Hn, Hl'.
  - by rewrite n_bus_record, Hn, Hl'.
  - exact Hr'.
Qed.
Lemma plen_Idle p c b : records c b p -> plen p = 0 -> p = Idle.
Proof. destruct p; cbn [plen]; try done. intros [Hn _]. lia. Qed.
