(* ===== verification/FlashAm29Spec.v ===== *)
(** * The AMD flash chips are command automata

    A reference chip: the phase of the unlock sequence of each bus, and the
    words of the contents.  The recorded cycles of dev_flash_am29.c implement
    it, whatever is read and written. *)

From S2P Require Import Prelude Words ArmState Machine ArmSys ArmMem MemSpec FlashBus FlashAm29 FlashJedec FlashIntel FlashSpec.

(** ** The reference *)

Definition am29_cmds (w : width) : cmdset := {|
  cs_u1 := unlock1 w; cs_u2 := unlock2 w;
  cs_third d := (d =? 0xa0) || (d =? 0x80) || (d =? 0x90) || (d =? 0x20);
  cs_single x := cycle_is x (query_at w) 0x98
|}.

(** One cycle on a bus. *)
Definition side_cycle (w : width) (x : Z * Z) (s : side) : side :=
  let p := if sd_seen s then Idle else sd_phase s in
  if plen p =? 6 then s
  else
    let p' := advance (am29_cmds w) p x in
    let first := if decide (p = Idle) then x.2 else sd_first s in
    if (x.2 =? 0xf0) || bool_decide (p' = Third 0x20) || ((plen p' =? 2) && (first =? 0xa0)) || (first =? 0x90)
    then side_idle else mkSide p' first false.

(** All ones from the word [lo], [n] words. *)
Definition fill (lo n : Z) (ws : list Z) : list Z :=
  imap (fun k x => if (lo <=? Z.of_nat k) && (Z.of_nat k <? lo + n) then 0xffffffff else x) ws.

Record am29_ref := mkRef { rf_byte : side; rf_half : side; rf_words : list Z }.
Definition rf_side (w : width) (c : am29_ref) : side := match w with Byte => rf_byte c | _ => rf_half c end.
Definition set_side (w : width) (s : side) (c : am29_ref) : am29_ref :=
  match w with Byte => mkRef s (rf_half c) (rf_words c) | _ => mkRef (rf_byte c) s (rf_words c) end.
Definition set_words (ws : list Z) (c : am29_ref) : am29_ref := mkRef (rf_byte c) (rf_half c) ws.

(** Accesses to the chip. *)
Inductive chip_op := chip_rd (w : width) (addr : Z) | chip_wr (w : width) (addr data : Z).

Section Reference.
(** The chip's type and tables, its first address, the endianness of the
    core, and the uninitialised variable of the callers. *)
Context (k : flash_am29_io) (base e d0 : Z).

Definition word_of (addr : Z) (c : am29_ref) : Z := nth (Z.to_nat ((addr - base) / 4)) (rf_words c) 0.
Definition ref_read (w : width) (addr : Z) (c : am29_ref) : Z * am29_ref :=
  let s := rf_side w c in
  match autoselect w k with
  | None => (lane_get e w addr (word_of addr c), c)
  | Some fn =>
      (match sd_phase s with
       | Idle => lane_get e w addr (word_of addr c)
       | Single => match query k with Some q => query_entry w (bus_offset w base addr) k q | None => d0 end
       | Third 0x90 => flash_am29_autoselect w fn (bus_offset w base addr) k
       | _ => d0
       end, set_side w (mkSide (sd_phase s) (sd_first s) true) c)
  end.

(** The erase command: the whole chip, or one sector's length from the
    address, if that lies in the chip. *)
Definition ref_erase (addr data : Z) (ws : list Z) : list Z :=
  if data =? 0x10 then fill 0 (chip_size k / 4) ws
  else if data =? 0x30 then
    if addr + sector_size k <=? base + chip_size k then fill ((addr - base) / 4) (sector_size k / 4) ws else ws
  else ws.
Definition ref_write (w : width) (addr data : Z) (c : am29_ref) : Z * am29_ref :=
  let s := rf_side w c in
  match autoselect w k with
  | None => (ADDR_NOHIT, c)
  | Some _ =>
      if (bool_decide (sd_phase s = Idle) || sd_seen s) && ((data =? 0xb0) || (data =? 0x30)) then (ADDR_NOHIT, c)
      else if decide (sd_phase s = Third 0xa0) then
        (ADDR_HIT, set_side w side_idle
          (set_words (alter (lane_set e w addr data) (Z.to_nat ((addr - base) / 4)) (rf_words c)) c))
      else if decide (sd_phase s = Unlock4) then
        (ADDR_HIT, set_side w side_idle (set_words (ref_erase addr data (rf_words c)) c))
      else (ADDR_HIT, set_side w (side_cycle w (bus_offset w base addr, data) s) c)
  end.

Definition ref_op (o : chip_op) (c : am29_ref) : Z * am29_ref :=
  match o with chip_rd w addr => ref_read w addr c | chip_wr w addr data => ref_write w addr data c end.
Fixpoint ref_run (os : list chip_op) (c : am29_ref) : list Z * am29_ref :=
  match os with
  | [] => ([], c)
  | o :: os => let '(x, c) := ref_op o c in let '(xs, c) := ref_run os c in (x :: xs, c)
  end.

(** The functions of the chip. *)
Definition am29_op (o : chip_op) (f : flash_am29_io) (r : mem_state_t) : option (Z * flash_am29_io * mem_state_t) :=
  match o with
  | chip_rd Word addr => '(x, r) ← flash_am29_read_word e addr r; Some (x, f, r)
  | chip_rd w addr => flash_am29_read w e base d0 addr f r
  | chip_wr Word addr data => let '(x, f) := flash_am29_write_word f in Some (x, f, r)
  | chip_wr w addr data => flash_am29_write w e base addr data f r
  end.
Fixpoint am29_run (os : list chip_op) (f : flash_am29_io) (r : mem_state_t) :
    option (list Z * flash_am29_io * mem_state_t) :=
  match os with
  | [] => Some ([], f, r)
  | o :: os =>
      '(x, f, r) ← am29_op o f r; '(xs, f, r) ← am29_run os f r; Some (x :: xs, f, r)
  end.
End Reference.

(** ** A bus *)

Record bus_rel (w : width) (b : cmd_bus) (s : side) : Prop := {
  br_phase : bus_phase (am29_cmds w) b s;
  br_first : sd_phase s <> Idle -> (bus_at b 0).2 = sd_first s;
  br_quirk : sd_phase s <> Idle -> sd_first s <> 0x90 /\ (2 <= plen (sd_phase s) -> sd_first s <> 0xa0)
}.

Lemma bus_rel_reset w : bus_rel w bus_reset side_idle.
Proof. split; [apply bus_phase_reset|done..]. Qed.
Lemma bus_rel_read w b s : bus_rel w b s -> bus_rel w (b <| n_bus := 0 |>) (mkSide (sd_phase s) (sd_first s) true).
Proof. intros [H1 H2 H3]. split; [by apply bus_phase_read|done..]. Qed.

Lemma unlocked_phase w v b s : bus_phase (am29_cmds w) b s -> cs_third (am29_cmds w) v = true ->
  CMD_UNLOCKED w v b = bool_decide (sd_phase s = Third v).
Proof.
  intros H Hv. rewrite <- (third_records (am29_cmds w) v b _ (bp_cnt _ _ _ H) (bp_rec _ _ _ H) Hv).
  unfold CMD_UNLOCKED, seq3, seq2, seq1. by rewrite !andb_assoc.
Qed.
Lemma erase_phase w b s : bus_phase (am29_cmds w) b s -> CMD_ERASE w b = bool_decide (sd_phase s = Unlock4).
Proof.
  intros H. rewrite <- (erase_records (am29_cmds w) b _ (bp_cnt _ _ _ H) (bp_rec _ _ _ H)).
  unfold CMD_ERASE, seq5, seq4, seq3, seq2, seq1. by rewrite !andb_assoc.
Qed.
Lemma query_phase w b s : bus_phase (am29_cmds w) b s -> CMD_QUERY w b = bool_decide (sd_phase s = Single).
Proof.
  intros H. assert (CMD_QUERY w b = (cnt b =? 1) && cs_single (am29_cmds w) (bus_at b 0)) as -> by done.
  pose proof (bp_rec _ _ _ H) as Hr. rewrite (bp_cnt _ _ _ H).
  destruct (sd_phase s) as [| | | |d| | |n]; cbn [plen Z.eqb Pos.eqb andb]; try done.
  - by destruct Hr as [_ ->].
  - cbn [records] in Hr. unfold seq1, CMD_CHECK in Hr. apply andb_true_iff in Hr as [_ Hr%Z.eqb_eq].
    cbn [cs_single am29_cmds]. unfold cycle_is. rewrite Hr. by rewrite andb_false_r.
  - destruct Hr as [_ (U & _)]. destruct (Z.eqb_spec n 1) as [->|]; [|done]. by destruct (U eq_refl) as [_ ->].
Qed.

(** The cycles of the chip are those of the automaton. *)
Lemma quirk_records b p first : cnt b = plen p -> (bus_at b 0).2 = first ->
  CMD_UNLOCK_BYPASS_PROGRAM_RESET b = ((plen p =? 2) && (first =? 0xa0)) || (first =? 0x90).
Proof. intros Hc <-. unfold CMD_UNLOCK_BYPASS_PROGRAM_RESET. by rewrite Hc. Qed.
Lemma cycle_rel w b s o d : bus_rel w b s -> bus_rel w (am29_cycle w o d b) (side_cycle w (o, d) s).
Proof.
  intros [H Hf Hq]. destruct (bus_phase_now _ _ _ H) as [Hn Hp]. unfold am29_cycle, side_cycle. cbv zeta. cbn [snd].
  fold (side_now s). pose proof (records_len _ _ _ Hp) as Hl. rewrite Hn. destruct (Z.eqb_spec (plen (side_now s)) 6) as [E6|E6].
  - assert (sd_seen s = false /\ sd_phase s = side_now s) as [Es Ep] by (unfold side_now in *; by destruct (sd_seen s)).
    rewrite E6. cbn [Z.ltb Z.compare Pos.compare Pos.compare_cont andb].
    assert (sd_phase s <> Idle) as Hi by (intros E; rewrite Ep in E; by rewrite E in E6).
    destruct (Hq Hi) as [Hq1 _]. unfold CMD_UNLOCK_BYPASS.
    rewrite (unlocked_phase w 0x20 b s H eq_refl), (quirk_records b _ (sd_first s) (bp_cnt _ _ _ H) (Hf Hi)), Ep, E6.
    rewrite bool_decide_eq_false_2 by (intros E; by rewrite E in E6). destruct (Z.eqb_spec (sd_first s) 0x90); [done|].
    cbn [orb andb Z.eqb Pos.eqb]. by split.
  - destruct (Z.ltb_spec (plen (side_now s)) 6); [|lia].
    set (p' := advance (am29_cmds w) (side_now s) (o, d)).
    set (first := if decide (side_now s = Idle) then d else sd_first s).
    destruct (bus_phase_cycle (am29_cmds w) b s (o, d) first eq_refl H ltac:(lia)) as [H' Hl']. fold p' in H', Hl'. cbn [fst snd] in H'.
    assert (side_now s <> Idle -> side_now s = sd_phase s) as Hnow by (unfold side_now; by destruct (sd_seen s)).
    assert ((bus_at (bus_record o d b) 0).2 = first) as Hf'.
    { rewrite bus_at_record by (first [apply H | lia]). rewrite Hn. unfold first. destruct (decide (side_now s = Idle)) as [->|Hi]; [done|].
      destruct (Z.eqb_spec 0 (plen (side_now s))) as [E0|]; [by destruct (Hi (plen_Idle _ _ _ Hp (eq_sym E0)))|].
      apply Hf. rewrite <- Hnow by done. done. }
    destruct (d =? 0xf0); cbn [andb orb]; [apply bus_rel_reset|].
    unfold CMD_UNLOCK_BYPASS. rewrite (unlocked_phase w 0x20 _ _ H' eq_refl), (quirk_records _ p' first (bp_cnt _ _ _ H') Hf').
    cbn [sd_phase]. rewrite <- orb_assoc. destruct (_ || _) eqn:Eq; [apply bus_rel_reset|].
    apply orb_false_iff in Eq as [_ [Q1 Q2]%orb_false_iff]. split; cbn [sd_phase sd_first sd_seen]; [done|done|].
    intros _. split; [lia|]. intros H2'. destruct (Z.eqb_spec (plen p') 2) as [E2|E2]; [cbn [andb] in Q1; lia|].
    assert (side_now s <> Idle) as Hi by (intros Ei; rewrite Ei in Hl'; cbn in Hl'; lia).
    unfold first. destruct (decide (side_now s = Idle)); [done|]. rewrite Hnow in * by done. apply Hq; [done|lia].
Qed.

(** ** The contents *)

Lemma lookup_fill lo n ws j : fill lo n ws !! j =
  (fun x => if (lo <=? Z.of_nat j) && (Z.of_nat j <? lo + n) then 0xffffffff else x) <$> ws !! j.
Proof. unfold fill. by rewrite list_lookup_imap. Qed.
Lemma fill_0 lo ws : fill lo 0 ws = ws.
Proof.
  apply list_eq. intros j. rewrite lookup_fill. destruct (ws !! j); [|done]. cbn.
  destruct (Z.leb_spec lo (Z.of_nat j)), (Z.ltb_spec (Z.of_nat j) (lo + 0)); try done. lia.
Qed.
Lemma fill_S lo n ws : 0 <= lo -> 0 <= n -> <[Z.to_nat (lo + n) := 0xffffffff]> (fill lo n ws) = fill lo (n + 1) ws.
Proof.
  intros Hlo Hn. apply list_eq. intros j. rewrite lookup_fill. destruct (decide (j = Z.to_nat (lo + n))) as [->|Hne].
  - destruct (ws !! Z.to_nat (lo + n)) as [x|] eqn:E.
    + rewrite list_lookup_insert_eq by (apply lookup_lt_Some in E; unfold fill; by rewrite length_imap). cbn.
      destruct (Z.leb_spec lo (Z.of_nat (Z.to_nat (lo + n)))), (Z.ltb_spec (Z.of_nat (Z.to_nat (lo + n))) (lo + (n + 1))); try lia. done.
    + rewrite list_insert_ge by (apply lookup_ge_None in E; unfold fill; by rewrite length_imap). by rewrite lookup_fill, E.
  - rewrite list_lookup_insert_ne by done. rewrite lookup_fill. destruct (ws !! j); [|done]. cbn. f_equal.
    destruct (Z.leb_spec lo (Z.of_nat j)), (Z.ltb_spec (Z.of_nat j) (lo + n)), (Z.ltb_spec (Z.of_nat j) (lo + (n + 1))); try done; lia.
Qed.
Lemma length_fill_words lo n ws : length (fill lo n ws) = length ws.
Proof. unfold fill. apply length_imap. Qed.

Section Contents.
Context (i : nat) (b : mem_bank_t) (shape : bank_shape b).
Implicit Type r : mem_state_t.

(** The index of a word of the bank. *)
Definition word_index (addr : Z) : nat := Z.to_nat ((addr - bk_addr b) / 4).
Lemma rom_word_index addr : word addr -> in_bank b addr = true -> rom_index b addr = word_index addr.
Proof. intros Ha Hin. by destruct (rom_index_eq b addr shape Hin Ha). Qed.

Lemma chip_read_spec e w r ws addr : holds i b r ws -> word addr -> in_bank b addr = true ->
  exists r', chip_read e w addr r = Some (lane_get e w addr (nth (word_index addr) ws 0), r') /\ holds i b r' ws.
Proof.
  intros H Ha Hin. unfold chip_read. destruct (holds_ptr i b r ws addr H Ha Hin) as (r1 & -> & H1 & _).
  cbn [mbind option_bind]. unfold real_read. destruct (holds_word i b r1 ws addr H1 Ha Hin) as (x & Hx & ->).
  rewrite rom_word_index in Hx by done. exists r1. by rewrite (nth_lookup_Some _ _ _ _ Hx).
Qed.
Lemma chip_write_spec e w r ws addr v : holds i b r ws -> word addr -> in_bank b addr = true ->
  exists r', chip_write e w addr v r = Some r' /\ holds i b r' (alter (lane_set e w addr v) (word_index addr) ws).
Proof.
  intros H Ha Hin. unfold chip_write. destruct (holds_ptr i b r ws addr H Ha Hin) as (r1 & -> & H1 & _).
  cbn [mbind option_bind]. unfold real_write. destruct (holds_word i b r1 ws addr H1 Ha Hin) as (x & Hx & ->).
  cbn [mbind option_bind]. eexists. split; [done|].
  destruct (holds_set i b r1 ws addr (lane_set e w addr v x) H1) as [H2 _].
  rewrite rom_word_index in Hx, H2 by done.
  by rewrite (list_alter_insert_eq (lane_set e w addr v) _ _ _ Hx).
Qed.

Lemma erase_words_spec e start stop r ws : holds i b r ws -> bk_addr b <= start < stop -> stop <= bk_addr b + bk_len b ->
  bk_addr b + bk_len b < 4294967296 -> (stop - start) mod 4 = 0 ->
  exists r', erase_words e start stop r = Some r' /\ holds i b r' (fill ((start - bk_addr b) / 4) ((stop - start) / 4) ws).
Proof.
  intros H Hs He Hb Hm. pose proof (bank_addr_word _ shape) as Ha0. unfold erase_words, loop_words.
  destruct (Z.leb_spec stop start) as [?|_]; [lia|]. cbv zeta.
  assert ((stop - start + 3) / 4 = (stop - start) / 4) as -> by dlia.
  assert (4 * ((stop - start) / 4) = stop - start) as E4 by dlia.
  destruct (Z.ltb_spec (start + 4 * ((stop - start) / 4)) 4294967296) as [_|?]; [|lia]. cbn [mbind option_bind].
  apply (for_range_opt_ind (fun k r => holds i b r (fill ((start - bk_addr b) / 4) k ws))); [dlia|by rewrite fill_0|].
  intros k r1 Hk H1.
  assert (word (start + 4 * k)) as Hw by (unfold word; lia).
  assert (in_bank b (start + 4 * k) = true) as Hin by (apply in_bank_range; [done..|lia]).
  destruct (chip_write_spec e Word r1 _ (start + 4 * k) 0xffffffff H1 Hw Hin) as (r2 & E & H2).
  exists r2. split; [done|]. rewrite <- fill_S by dlia.
  assert (word_index (start + 4 * k) = Z.to_nat ((start - bk_addr b) / 4 + k)) as Ei.
  { unfold word_index. f_equal. dlia. }
  rewrite Ei in H2. destruct (lookup_lt_is_Some_2 (fill ((start - bk_addr b) / 4) k ws) (Z.to_nat ((start - bk_addr b) / 4 + k))) as [x Hx].
  { rewrite length_fill_words. pose proof (holds_len _ _ _ _ H) as Hl. pose proof (bank_len_aligned _ shape) as Hla.
    pose proof (bank_addr_aligned _ shape) as Haa. clear - Hl Hla Haa Hs He Hk E4 Hm. dlia. }
  by rewrite (list_alter_insert_eq _ _ _ _ Hx) in H2.
Qed.
End Contents.

(** ** The chip *)

Section Chip.
Context (k : flash_am29_io) (i : nat) (b : mem_bank_t) (e d0 : Z).

(** The bank of the chip, and the sizes that [flash_am29_setup] computes. *)
Record chip_bank : Prop := {
  cb_shape : bank_shape b;
  cb_size : chip_size k = bk_len b;
  cb_end : bk_addr b + bk_len b < 4294967296;
  cb_sector : 0 < sector_size k < 4294967296 /\ sector_size k mod 4 = 0
}.
(** What no access changes. *)
Definition same_chip (f : flash_am29_io) : Prop :=
  am29_type f = am29_type k /\ query f = query k /\ max_query f = max_query k /\
  bautoselect f = bautoselect k /\ wautoselect f = wautoselect k /\
  chip_size f = chip_size k /\ sector_size f = sector_size k.
Record chip_rel (f : flash_am29_io) (r : mem_state_t) (c : am29_ref) : Prop := {
  cr_same : same_chip f;
  cr_bus w : w <> Word -> bus_rel w (bus_of w f) (rf_side w c);
  cr_off w : w <> Word -> autoselect w k = None -> sd_phase (rf_side w c) = Idle;
  cr_holds : holds i b r (rf_words c)
}.
(** An access in the chip. *)
Definition in_chip (o : chip_op) : Prop :=
  match o with chip_rd _ addr | chip_wr _ addr _ => word addr /\ in_bank b addr = true end.

Lemma same_autoselect w f : same_chip f -> autoselect w f = autoselect w k.
Proof. intros (_ & _ & _ & E1 & E2 & _). by destruct w. Qed.
Lemma same_id w fn off f : same_chip f -> flash_am29_autoselect w fn off f = flash_am29_autoselect w fn off k.
Proof. intros (E & _). unfold flash_am29_autoselect, is_type. by rewrite E. Qed.
Lemma same_query w off f q : same_chip f -> query_entry w off f q = query_entry w off k q.
Proof. intros (_ & _ & E & _). unfold query_entry. by rewrite E. Qed.
Lemma same_upd_bus w g f : same_chip f -> same_chip (upd_bus w g f).
Proof. by destruct w. Qed.
Lemma bus_of_upd w g f : w <> Word -> bus_of w (upd_bus w g f) = g (bus_of w f).
Proof. by destruct w. Qed.
Lemma bus_of_other w w' g f : w <> Word -> w' <> Word -> w' <> w -> bus_of w' (upd_bus w g f) = bus_of w' f.
Proof. by destruct w, w'. Qed.
Lemma rf_side_set w s c : rf_side w (set_side w s c) = s.
Proof. by destruct w. Qed.
Lemma rf_side_other w w' s c : w <> Word -> w' <> Word -> w' <> w -> rf_side w' (set_side w s c) = rf_side w' c.
Proof. by destruct w, w'. Qed.
Lemma rf_words_side w s c : rf_words (set_side w s c) = rf_words c.
Proof. by destruct w. Qed.
Lemma rf_side_words w ws c : rf_side w (set_words ws c) = rf_side w c.
Proof. by destruct w. Qed.

(** One bus changes, with the contents. *)
Lemma chip_rel_step w g f f' r r' s ws c : w <> Word -> chip_rel f r c ->
  f' = upd_bus w g f \/ (exists n, f' = upd_bus w g (f <| dump_flags := n |>)) ->
  bus_rel w (g (bus_of w f)) s -> (autoselect w k = None -> sd_phase s = Idle) -> holds i b r' ws ->
  chip_rel f' r' (set_side w s (set_words ws c)).
Proof.
  intros Hw [H1 H2 H3 H4] Hf Hb Ho Hh.
  assert (same_chip f' /\ forall w', w' <> Word -> bus_of w' f' = if decide (w' = w) then g (bus_of w f) else bus_of w' f) as [Hs Hbs].
  { destruct Hf as [->|[n ->]]; (split; [by apply same_upd_bus|]); intros w' Hw'; destruct (decide (w' = w)) as [->|].
    - by apply bus_of_upd.
    - by apply bus_of_other.
    - rewrite bus_of_upd by done. by destruct w.
    - rewrite bus_of_other by done. by destruct w'. }
  split; [done| | |by rewrite rf_words_side].
  - intros w' Hw'. rewrite Hbs by done. destruct (decide (w' = w)) as [->|]; [by rewrite rf_side_set|].
    rewrite rf_side_other, rf_side_words by done. by apply H2.
  - intros w' Hw' Hn. destruct (decide (w' = w)) as [->|]; [rewrite rf_side_set; by apply Ho|].
    rewrite rf_side_other, rf_side_words by done. by apply H3.
Qed.
Lemma chip_rel_bus w g f r r' s c : w <> Word -> chip_rel f r c -> bus_rel w (g (bus_of w f)) s ->
  (autoselect w k = None -> sd_phase s = Idle) -> holds i b r' (rf_words c) -> chip_rel (upd_bus w g f) r' (set_side w s c).
Proof.
  intros Hw H Hb Ho Hh. assert (set_words (rf_words c) c = c) as E by by destruct c.
  rewrite <- E. apply (chip_rel_step w g f (upd_bus w g f) r r' s (rf_words c) c); try done. by left.
Qed.
Lemma set_side_same w c : set_side w (rf_side w c) c = c.
Proof. by destruct w, c. Qed.

Lemma match_90 {A} d (x y : A) : (match d with 0x90 => x | _ => y end) = if d =? 0x90 then x else y.
Proof. destruct (Z.eqb_spec d 0x90) as [->|Hne]; [done|]. repeat case_match; congruence. Qed.

Lemma read_rel (shape : bank_shape b) w addr f r c : w <> Word -> chip_rel f r c -> word addr -> in_bank b addr = true ->
  exists f' r', flash_am29_read w e (bk_addr b) d0 addr f r = Some ((ref_read k (bk_addr b) e d0 w addr c).1, f', r') /\
    chip_rel f' r' (ref_read k (bk_addr b) e d0 w addr c).2.
Proof.
  intros Hw H Ha Hin. unfold flash_am29_read, ref_read. cbv zeta. pose proof (cr_bus _ _ _ H w Hw) as Hb.
  pose proof (cr_same _ _ _ H) as Hs. set (s := rf_side w c) in *.
  assert (exists r', (if cnt (bus_of w f) =? 0 then chip_read e w addr r
                      else Some (command_data w (bus_offset w (bk_addr b) addr) d0 f, r)) =
     Some (if decide (sd_phase s = Idle) then lane_get e w addr (word_of (bk_addr b) addr c)
           else command_data w (bus_offset w (bk_addr b) addr) d0 f, r') /\ holds i b r' (rf_words c)) as (r' & E & Hh).
  { rewrite (bp_cnt _ _ _ (br_phase _ _ _ Hb)). destruct (decide (sd_phase s = Idle)) as [->|Hne].
    - destruct (chip_read_spec i b shape e w r (rf_words c) addr (cr_holds _ _ _ H) Ha Hin) as (r' & E & Hh). by exists r'.
    - destruct (Z.eqb_spec (plen (sd_phase s)) 0) as [E0|]; [by destruct (Hne (plen_Idle _ _ _ (bp_rec _ _ _ (br_phase _ _ _ Hb)) E0))|].
      exists r. split; [done|apply (cr_holds _ _ _ H)]. }
  rewrite E. cbn [mbind option_bind]. exists (upd_bus w (fun b => b <| n_bus := 0 |>) f), r'.
  destruct (autoselect w k) as [fn|] eqn:Eo.
  - cbn [fst snd]. split.
    + do 3 f_equal. unfold command_data. rewrite same_autoselect by done. rewrite Eo.
      rewrite (bp_cnt _ _ _ (br_phase _ _ _ Hb)), (query_phase w _ s (br_phase _ _ _ Hb)).
      unfold CMD_AUTOSELECT. rewrite (unlocked_phase w 0x90 _ s (br_phase _ _ _ Hb) eq_refl).
      replace (query f) with (query k) by (symmetry; apply Hs).
      destruct (sd_phase s) as [| | | |d| | |n] eqn:Ep; cbn [plen]; try done.
      * destruct (decide _); [done|]. destruct (query k); [|done]. by rewrite same_query.
      * destruct (decide _); [done|]. by destruct (query k).
      * destruct (decide _); [done|]. by destruct (query k).
      * destruct (decide _); [done|]. rewrite match_90. destruct (Z.eqb_spec d 0x90) as [->|Hne].
        -- rewrite bool_decide_eq_true_2 by done. by rewrite same_id.
        -- rewrite bool_decide_eq_false_2 by congruence. by destruct (query k).
      * destruct (decide _); [done|]. by destruct (query k).
      * destruct (decide _); [done|]. by destruct (query k).
      * destruct (decide _); [done|]. rewrite bool_decide_eq_false_2 by done. destruct (0 <? n), (query k); done.
    + apply (chip_rel_bus w _ f r); [done..|by apply bus_rel_read|congruence|done].
  - pose proof (cr_off _ _ _ H w Hw Eo) as Hi. fold s in Hi. rewrite Hi. cbn [fst snd]. split; [done|].
    assert (chip_rel (upd_bus w (fun b => b <| n_bus := 0 |>) f) r' (set_side w s c)) as Hc; [|by unfold s in Hc; rewrite set_side_same in Hc].
    apply (chip_rel_bus w _ f r); [done..| |done|done].
    destruct Hb as [[B1 B2 B3 B4] B5 B6]. split; [split|..]; upds; try done. fold s. rewrite Hi. by destruct (sd_seen s).
Qed.

(** *** Writing *)

Lemma erase_rel (bk : chip_bank) w addr data f r ws : same_chip f -> holds i b r ws -> word addr -> in_bank b addr = true ->
  exists f' r', am29_erase w e (bk_addr b) addr data f r = Some (f', r') /\
    f' = upd_bus w (fun _ => bus_reset) f /\ holds i b r' (ref_erase k (bk_addr b) addr data ws).
Proof.
  intros Hs H Ha Hin. destruct bk as [shape Hsz Hend [Hsec Hsec4]].
  pose proof (bank_addr_word _ shape) as B0. pose proof (bank_len_pos _ shape) as B1. pose proof (bank_len_aligned _ shape) as B2.
  apply in_bank_range in Hin; [|done..]. assert (chip_size f = bk_len b) as E1 by (rewrite <- Hsz; apply Hs).
  assert (sector_size f = sector_size k) as E2 by apply Hs. unfold am29_erase, ref_erase. rewrite E1, E2, Hsz.
  assert (add32 (bk_addr b) (bk_len b) = bk_addr b + bk_len b) as Ee by (apply u32_id; unfold word; lia).
  rewrite Ee. unfold erase_range.
  assert (forall o ws', (exists r', o = Some r' /\ holds i b r' ws') -> exists f' r',
    (r' ← o; Some (upd_bus w (fun _ => bus_reset) f, r')) = Some (f', r') /\ f' = upd_bus w (fun _ => bus_reset) f /\ holds i b r' ws') as Hk.
  { intros o ws' (r' & -> & Hh). by exists (upd_bus w (fun _ => bus_reset) f), r'. }
  destruct (data =? 0x10).
  { apply Hk. destruct (Z.ltb_spec (bk_addr b) (bk_addr b + bk_len b)); [|lia].
    destruct (Z.leb_spec (bk_addr b + bk_len b) (bk_addr b + bk_len b)); [|lia]. cbn [andb].
    destruct (erase_words_spec i b shape e (bk_addr b) (bk_addr b + bk_len b) r ws) as (r' & E & Hh); [done|lia|lia|done| |].
    { replace (bk_addr b + bk_len b - bk_addr b) with (bk_len b) by lia. done. }
    exists r'. split; [done|]. replace (bk_addr b + bk_len b - bk_addr b) with (bk_len b) in Hh by lia.
    by rewrite Z.sub_diag in Hh. }
  destruct (data =? 0x30).
  { apply Hk. destruct (Z.leb_spec (addr + sector_size k) (bk_addr b + bk_len b)) as [Hle|Hgt].
    - assert (add32 addr (sector_size k) = addr + sector_size k) as Es by (apply u32_id; unfold word; lia).
      rewrite Es. destruct (Z.ltb_spec addr (addr + sector_size k)); [|lia].
      destruct (Z.leb_spec (addr + sector_size k) (bk_addr b + bk_len b)); [|lia]. cbn [andb].
      destruct (erase_words_spec i b shape e addr (addr + sector_size k) r ws) as (r' & E & Hh); [done|lia|lia|done| |].
      { replace (addr + sector_size k - addr) with (sector_size k) by lia. done. }
      exists r'. split; [done|]. by replace (addr + sector_size k - addr) with (sector_size k) in Hh by lia.
    - exists r. split; [|done]. unfold add32, u32. destruct Ha as [Ha1 Ha2].
      destruct (Z.ltb_spec addr ((addr + sector_size k) mod 4294967296)); cbn [andb]; [|done].
      destruct (Z.leb_spec ((addr + sector_size k) mod 4294967296) (bk_addr b + bk_len b)); [|done]. exfalso. dlia. }
  apply Hk. by exists r.
Qed.
Lemma write_rel (bk : chip_bank) w addr data f r c : w <> Word -> chip_rel f r c -> word addr -> in_bank b addr = true ->
  exists f' r', flash_am29_write w e (bk_addr b) addr data f r = Some ((ref_write k (bk_addr b) e w addr data c).1, f', r') /\
    chip_rel f' r' (ref_write k (bk_addr b) e w addr data c).2.
Proof.
  intros Hw H Ha Hin. unfold flash_am29_write, ref_write. cbv zeta. pose proof (cr_bus _ _ _ H w Hw) as Hb.
  rewrite (same_autoselect w f (cr_same _ _ _ H)). destruct (autoselect w k) as [fn|] eqn:Eo; [|by exists f, r].
  set (s := rf_side w c) in *.
  assert ((n_bus (bus_of w f) =? 0) = (bool_decide (sd_phase s = Idle) || sd_seen s)) as En.
  { rewrite (bp_n _ _ _ (br_phase _ _ _ Hb)). destruct (sd_seen s); [by rewrite orb_true_r|]. rewrite orb_false_r.
    destruct (Z.eqb_spec (plen (sd_phase s)) 0) as [E0|Hne].
    - rewrite bool_decide_eq_true_2; [done|]. by apply (plen_Idle _ _ _ (bp_rec _ _ _ (br_phase _ _ _ Hb))).
    - rewrite bool_decide_eq_false_2; [done|]. intros E. by rewrite E in Hne. }
  rewrite En. destruct (_ && _); [by exists f, r|].
  unfold CMD_PROGRAM. rewrite (unlocked_phase w 0xa0 _ s (br_phase _ _ _ Hb) eq_refl), (erase_phase w _ s (br_phase _ _ _ Hb)).
  destruct (decide (sd_phase s = Third 0xa0)) as [Ep|Hp].
  { rewrite bool_decide_eq_true_2 by done. unfold am29_program.
    destruct (chip_write_spec i b (cb_shape bk) e w r (rf_words c) addr data (cr_holds _ _ _ H) Ha Hin) as (r' & -> & Hh).
    cbn [mbind option_bind fst snd]. eexists _, _. split; [done|].
    eapply chip_rel_step; [done|exact H|right; by eexists|apply bus_rel_reset|done|done]. }
  rewrite bool_decide_eq_false_2 by done. destruct (decide (sd_phase s = Unlock4)) as [Eu|Hu].
  { rewrite bool_decide_eq_true_2 by done.
    destruct (erase_rel bk w addr data f r (rf_words c) (cr_same _ _ _ H) (cr_holds _ _ _ H) Ha Hin) as (f' & r' & -> & -> & Hh).
    cbn [mbind option_bind fst snd]. eexists _, _. split; [done|].
    eapply chip_rel_step; [done|exact H|by left|apply bus_rel_reset|done|done]. }
  rewrite bool_decide_eq_false_2 by done. cbn [fst snd]. eexists _, _. split; [done|].
  apply (chip_rel_bus w _ f r); [done..|by apply cycle_rel|congruence|apply (cr_holds _ _ _ H)].
Qed.

Lemma op_rel (bk : chip_bank) o f r c : in_chip o -> chip_rel f r c ->
  exists f' r', am29_op (bk_addr b) e d0 o f r = Some ((ref_op k (bk_addr b) e d0 o c).1, f', r') /\
    chip_rel f' r' (ref_op k (bk_addr b) e d0 o c).2.
Proof.
  intros Ho H. destruct o as [w addr|w addr data]; cbn [in_chip ref_op] in *; destruct Ho as [Ha Hin].
  - destruct (decide (w = Word)) as [->|Hw].
    + cbn [am29_op]. unfold flash_am29_read_word, ref_read. cbn [autoselect fst snd].
      destruct (chip_read_spec i b (cb_shape bk) e Word r (rf_words c) addr (cr_holds _ _ _ H) Ha Hin) as (r' & -> & Hh).
      exists f, r'. split; [done|]. destruct H as [H1 H2 H3 H4]. by split.
    + destruct (read_rel (cb_shape bk) w addr f r c Hw H Ha Hin) as (f' & r' & E & Hc). exists f', r'. split; [|done].
      by destruct w.
  - destruct (decide (w = Word)) as [->|Hw]; [by exists f, r|].
    destruct (write_rel bk w addr data f r c Hw H Ha Hin) as (f' & r' & E & Hc). exists f', r'. split; [|done]. by destruct w.
Qed.

Lemma run_rel (bk : chip_bank) os f r c : Forall in_chip os -> chip_rel f r c ->
  exists f' r', am29_run (bk_addr b) e d0 os f r = Some ((ref_run k (bk_addr b) e d0 os c).1, f', r') /\
    chip_rel f' r' (ref_run k (bk_addr b) e d0 os c).2.
Proof.
  intros HF. revert f r c. induction HF as [|o os Ho HF IH]; intros f r c H; cbn [am29_run ref_run]; [by exists f, r|].
  destruct (op_rel bk o f r c Ho H) as (f1 & r1 & -> & H1). cbn [mbind option_bind].
  destruct (ref_op k (bk_addr b) e d0 o c) as [x c1]. cbn [fst snd] in *.
  destruct (IH f1 r1 c1 H1) as (f2 & r2 & -> & H2). cbn [mbind option_bind].
  destruct (ref_run k (bk_addr b) e d0 os c1) as [xs c2]. by exists f2, r2.
Qed.

Lemma chip_rel_reset r ws : holds i b r ws -> chip_rel (flash_am29_reset k) r (mkRef side_idle side_idle ws).
Proof.
  intros H. split; [by repeat split| | |done].
  - intros w Hw. destruct w; try done; apply bus_rel_reset.
  - by intros [] Hw.
Qed.
End Chip.

(** C39: An AMD chip is a command automaton.  Whatever accesses of bytes,
    halfwords and words follow a reset, every read gives what the reference chip gives (the
    contents, the device codes or the query table), every write is answered as
    there, and the contents are those of the reference: they change only when a
    program or an erase command completes its three or five unlock cycles,
    in the addressed cell or in the erased range; everything else, reads in between
    included, changes the phase of the automaton only. *)
Theorem am29_implements_commands k i b e d0 os r ws :
  chip_bank k b -> holds i b r ws -> Forall (in_chip b) os ->
  exists f' r', am29_run (bk_addr b) e d0 os (flash_am29_reset k) r =
    Some ((ref_run k (bk_addr b) e d0 os (mkRef side_idle side_idle ws)).1, f', r') /\
    holds i b r' (rf_words (ref_run k (bk_addr b) e d0 os (mkRef side_idle side_idle ws)).2).
Proof.
  intros bk H HF. destruct (run_rel k i b e d0 bk os (flash_am29_reset k) r _ HF (chip_rel_reset k i b r ws H)) as (f' & r' & E & Hc).
  exists f', r'. split; [exact E|apply (cr_holds _ _ _ _ _ _ Hc)].
Qed.
