(* ===== verification/FlashSstSpec.v ===== *)
(** * The SST flash chips are command automata

    As FlashAm29Spec.v, for the one bus of dev_flash_sst39lvf160.c. *)

From S2P Require Import Prelude Words ArmState Machine ArmSys ArmMem MemSpec FlashBus FlashAm29 FlashSst FlashJedec FlashIntel FlashSpec FlashAm29Spec.

Definition sst_cmds : cmdset := {|
  cs_u1 := 0x5555; cs_u2 := 0x2aaa;
  cs_third d := (d =? 0xa0) || (d =? 0x80) || (d =? 0x90) || (d =? 0x98) || (d =? 0xf0);
  cs_single _ := false
|}.
Definition sst_side_cycle (x : Z * Z) (s : side) : side :=
  let p := side_now s in
  if plen p =? 6 then s
  else
    let p' := advance sst_cmds p x in
    if (bool_decide (p = Idle) && (x.2 =? 0xf0)) || bool_decide (p' = Third 0xf0) then side_idle else mkSide p' 0 false.

Lemma sst_unlocked v b s : bus_phase sst_cmds b s -> cs_third sst_cmds v = true ->
  SST_UNLOCKED v b = bool_decide (sd_phase s = Third v).
Proof.
  intros H Hv. rewrite <- (third_records sst_cmds v b _ (bp_cnt _ _ _ H) (bp_rec _ _ _ H) Hv).
  unfold SST_UNLOCKED, seq3, seq2, seq1. by rewrite !andb_assoc.
Qed.
Lemma sst_erase_phase b s : bus_phase sst_cmds b s -> SST_ERASE b = bool_decide (sd_phase s = Unlock4).
Proof.
  intros H. rewrite <- (erase_records sst_cmds b _ (bp_cnt _ _ _ H) (bp_rec _ _ _ H)).
  unfold SST_ERASE, seq5, seq4, seq3, seq2, seq1. by rewrite !andb_assoc.
Qed.
Lemma sst_cycle_phase o d b s : bus_phase sst_cmds b s -> bus_phase sst_cmds (sst_cycle o d b) (sst_side_cycle (o, d) s).
Proof.
  intros H. destruct (bus_phase_now _ _ _ H) as [Hn Hp]. unfold sst_cycle, sst_side_cycle. cbv zeta. cbn [snd].
  pose proof (records_len _ _ _ Hp) as Hl. rewrite Hn. destruct (Z.eqb_spec (plen (side_now s)) 6) as [E6|E6].
  - by rewrite E6.
  - destruct (Z.ltb_spec (plen (side_now s)) 6); [|lia].
    destruct (bus_phase_cycle sst_cmds b s (o, d) 0 eq_refl H ltac:(lia)) as [H' Hl']. cbn [fst snd] in H'.
    unfold CMD_QUERY_EXIT. rewrite (sst_unlocked 0xf0 _ _ H' eq_refl). rewrite (bp_cnt _ _ _ H'). cbn [sd_phase]. rewrite Hl'.
    assert ((plen (side_now s) + 1 =? 1) = bool_decide (side_now s = Idle)) as ->.
    { destruct (decide (side_now s = Idle)) as [->|Hi]; [done|]. rewrite bool_decide_eq_false_2 by done.
      destruct (Z.eqb_spec (plen (side_now s) + 1) 1); [|done]. destruct Hi. apply (plen_Idle _ _ _ Hp). lia. }
    destruct (decide (side_now s = Idle)) as [Ei|Hi].
    + rewrite bool_decide_eq_true_2 by done. rewrite bus_at_record by (first [apply H | lia]). rewrite Hn, Ei.
      cbn [plen Z.eqb andb snd]. destruct (_ || _); [apply bus_phase_reset|]. by rewrite Ei in H'.
    + rewrite bool_decide_eq_false_2 by done. cbn [andb orb]. destruct (bool_decide _); [apply bus_phase_reset|done].
Qed.

(** ** The chip *)

Section Chip.
Context (i : nat) (b : mem_bank_t) (e d0 : Z) (lf : bool).
Context (shape : bank_shape b) (size : bk_len b = SST_SIZE) (ends : bk_addr b + bk_len b < 4294967296).
Let base := bk_addr b.

Definition sst_ref_erase (addr data : Z) (ws : list Z) : list Z :=
  let n := if data =? 0x30 then 0x1000 else if data =? 0x50 then 0x10000 else 0 in
  if data =? 0x10 then fill 0 (SST_SIZE / 4) ws
  else if (0 <? n) && (addr + n <=? base + SST_SIZE) then fill ((addr - base) / 4) (n / 4) ws else ws.
Definition sst_ref_read (addr : Z) (s : side) (ws : list Z) : Z * side :=
  (if decide (sd_phase s = Idle) then lane_get e Half addr (nth (word_index b addr) ws 0)
   else if decide (sd_phase s = Third 0x98) then rd (cfi_table lf) (sub32 addr base >>> 1)
   else if decide (sd_phase s = Third 0x90) then sst_id (sub32 addr base >>> 1) else d0,
   mkSide (sd_phase s) (sd_first s) true).
Definition sst_ref_write (addr data : Z) (s : side) (ws : list Z) : side * list Z :=
  if decide (sd_phase s = Third 0xa0) then (side_idle, alter (lane_set e Half addr data) (word_index b addr) ws)
  else if decide (sd_phase s = Unlock4) then (side_idle, sst_ref_erase addr data ws)
  else (sst_side_cycle (sub32 addr base >>> 1, data) s, ws).

Lemma sst_read_ref addr f r s ws : bus_phase sst_cmds (sst_bus f) s -> holds i b r ws -> word addr -> in_bank b addr = true ->
  exists f' r', flash_sst39lvf160_read_halfword lf e base d0 addr f r = Some ((sst_ref_read addr s ws).1, f', r') /\
    bus_phase sst_cmds (sst_bus f') (sst_ref_read addr s ws).2 /\ holds i b r' ws.
Proof.
  intros Hb H Ha Hin. unfold flash_sst39lvf160_read_halfword, sst_ref_read. cbv zeta. cbn [fst snd].
  assert (bus_phase sst_cmds (sst_bus (f <| sst_bus ::= fun b => b <| n_bus := 0 |> |>)) (mkSide (sd_phase s) (sd_first s) true)) as Hb'.
  { upds. by apply bus_phase_read. }
  rewrite (bp_cnt _ _ _ Hb). destruct (decide (sd_phase s = Idle)) as [Ei|Hi].
  - destruct (chip_read_spec i b shape e Half r ws addr H Ha Hin) as (r' & E & Hh).
    assert ((plen (sd_phase s) =? 0) = true) as -> by by rewrite Ei. rewrite E.
    cbn [mbind option_bind]. eexists _, _. split; [done|by split].
  - destruct (Z.eqb_spec (plen (sd_phase s)) 0) as [E0|]; [by destruct (Hi (plen_Idle _ _ _ (bp_rec _ _ _ Hb) E0))|].
    cbn [mbind option_bind]. eexists _, _. split; [|by split]. do 3 f_equal. unfold sst_command_data.
    unfold CMD_SOFTWARE_ID_ENTRY, CMD_CFI_QUERY_ENTRY.
    rewrite (sst_unlocked 0x90 _ s Hb eq_refl), (sst_unlocked 0x98 _ s Hb eq_refl). cbv zeta.
    destruct (decide (sd_phase s = Third 0x98)) as [E8|N8]; [by rewrite bool_decide_eq_true_2|].
    rewrite (bool_decide_eq_false_2 _ N8). destruct (decide (sd_phase s = Third 0x90)) as [E9|N9];
      [by rewrite bool_decide_eq_true_2|by rewrite bool_decide_eq_false_2].
Qed.

Lemma sst_range addr n r ws : holds i b r ws -> base <= addr < base + SST_SIZE -> 0 <= n < 4294967296 -> n mod 4 = 0 ->
  exists r', erase_range e addr (add32 addr n) (add32 base SST_SIZE) r = Some r' /\
    holds i b r' (if (0 <? n) && (addr + n <=? base + SST_SIZE) then fill ((addr - base) / 4) (n / 4) ws else ws).
Proof.
  intros H Ha Hn Hm. pose proof (bank_addr_word _ shape) as B0. rewrite size in *.
  assert (add32 base SST_SIZE = base + SST_SIZE) as -> by (apply u32_id; unfold word, SST_SIZE in *; lia).
  unfold erase_range. destruct (Z.leb_spec (addr + n) (base + SST_SIZE)) as [Hle|Hgt].
  - assert (add32 addr n = addr + n) as -> by (apply u32_id; unfold word; lia).
    destruct (Z.ltb_spec 0 n) as [Hp|Hz]; cbn [andb].
    + destruct (Z.ltb_spec addr (addr + n)); [|lia]. destruct (Z.leb_spec (addr + n) (base + SST_SIZE)); [|lia]. cbn [andb].
      destruct (erase_words_spec i b shape e addr (addr + n) r ws) as (r' & E & Hh); rewrite ?size; try lia; [done| |].
      { replace (addr + n - addr) with n by lia. done. }
      exists r'. split; [done|]. by replace (addr + n - addr) with n in Hh by lia.
    + destruct (Z.ltb_spec addr (addr + n)); [lia|]. by exists r.
  - rewrite andb_false_r. exists r. split; [|done]. unfold add32, u32.
    destruct (Z.ltb_spec addr ((addr + n) mod 4294967296)); cbn [andb]; [|done].
    destruct (Z.leb_spec ((addr + n) mod 4294967296) (base + SST_SIZE)); [|done]. exfalso. unfold SST_SIZE in *. dlia.
Qed.
Lemma sst_erase_ref addr data f r ws : holds i b r ws -> word addr -> in_bank b addr = true ->
  exists f' r', sst_erase e base addr data f r = Some (f', r') /\ sst_bus f' = bus_reset /\
    holds i b r' (sst_ref_erase addr data ws).
Proof.
  intros H Ha Hin. apply in_bank_range in Hin; [|apply shape|done]. rewrite size in Hin.
  assert (base <= base < base + SST_SIZE) as Hbase by (unfold SST_SIZE; lia).
  unfold sst_erase, sst_ref_erase. cbv zeta.
  assert (forall o ws', (exists r', o = Some r' /\ holds i b r' ws') -> exists f' r',
    (r' ← o; Some (f <| sst_bus := bus_reset |>, r')) = Some (f', r') /\ sst_bus f' = bus_reset /\ holds i b r' ws') as Hk.
  { intros o ws' (r' & -> & Hh). by eexists _, r'. }
  destruct (data =? 0x10).
  { apply Hk. destruct (sst_range base SST_SIZE r ws H Hbase) as (r' & E & Hh); [done|done|].
    exists r'. split; [done|]. rewrite Z.leb_refl, Z.sub_diag in Hh. exact Hh. }
  destruct (data =? 0x30); [apply Hk; by apply sst_range|].
  destruct (data =? 0x50); [apply Hk; by apply sst_range|]. apply Hk. by exists r.
Qed.

(** A halfword written to the chip. *)
Lemma sst_implements_commands addr data f r s ws :
  bus_phase sst_cmds (sst_bus f) s -> holds i b r ws -> word addr -> in_bank b addr = true ->
  exists f' r', flash_sst39lvf160_write_halfword e base addr data f r = Some (ADDR_HIT, f', r') /\
    bus_phase sst_cmds (sst_bus f') (sst_ref_write addr data s ws).1 /\ holds i b r' (sst_ref_write addr data s ws).2.
Proof.
  intros Hb H Ha Hin. unfold flash_sst39lvf160_write_halfword, sst_ref_write, CMD_WORD_PROGRAM.
  rewrite (sst_unlocked 0xa0 _ s Hb eq_refl), (sst_erase_phase _ s Hb).
  destruct (decide (sd_phase s = Third 0xa0)) as [Ep|Np].
  { rewrite bool_decide_eq_true_2 by done. unfold sst_program.
    destruct (chip_write_spec i b shape e Half r ws addr data H Ha Hin) as (r' & -> & Hh).
    cbn [mbind option_bind fst snd]. eexists _, _. split; [done|]. split; [apply bus_phase_reset|done]. }
  rewrite (bool_decide_eq_false_2 _ Np). destruct (decide (sd_phase s = Unlock4)) as [Eu|Nu].
  { rewrite bool_decide_eq_true_2 by done. destruct (sst_erase_ref addr data f r ws H Ha Hin) as (f' & r' & -> & E & Hh).
    cbn [mbind option_bind fst snd]. eexists _, _. split; [done|]. split; [rewrite E; apply bus_phase_reset|done]. }
  rewrite (bool_decide_eq_false_2 _ Nu). cbn [fst snd]. eexists _, _. split; [done|]. split; [|done].
  upds. by apply sst_cycle_phase.
Qed.
End Chip.
