(* ===== verification/FlashDump.v ===== *)
(** * The dump of a flash chip

    The file that [skyeye_flash_dump] writes holds the bytes of the flat
    memory in the order of their addresses, whatever the endianness of the
    core. *)

From S2P Require Import Prelude Words Bits ArmState Machine ArmSys ArmMem MemSpec FlashBus.

Lemma testbit_byte x i : 0 <= i -> Z.testbit (x &&& 0xff) i = (i <? 8) && Z.testbit x i.
Proof. intros Hi. rewrite Z.land_spec, (testbit_ones 0xff 8) by done. rewrite andb_comm. by destruct (Z.leb_spec 0 i); [|lia]. Qed.

(** The byte [k] of a swapped word is the byte [3 - k]. *)
Lemma swap_word_byte x k : 0 <= k < 4 -> (swap_word x >>> (8 * k)) &&& 0xff = (x >>> (8 * (3 - k))) &&& 0xff.
Proof.
  intros Hk. apply Z.bits_inj'. intros i Hi. rewrite !testbit_byte by done. destruct (Z.ltb_spec i 8); [|done]. cbn [andb].
  unfold swap_word. rewrite !Z.shiftr_spec, !Z.lor_spec, !Z.shiftl_spec by lia.
  assert (forall y j, Z.testbit (y &&& 0xff) j = (0 <=? j) && (j <? 8) && Z.testbit y j) as Hb.
  { intros y j. destruct (Z.leb_spec 0 j); [rewrite testbit_byte by done; done|]. by rewrite Z.testbit_neg_r. }
  rewrite !Hb. assert (k = 0 \/ k = 1 \/ k = 2 \/ k = 3) as [-> |[-> |[-> | ->]]] by lia;
    repeat match goal with |- context [?a <=? ?b] => destruct (Z.leb_spec a b); try lia
                         | |- context [?a <? ?b] => destruct (Z.ltb_spec a b); try lia end; cbn [andb orb];
    rewrite ?orb_false_r, ?orb_false_l, ?Z.shiftr_spec by lia; f_equal; lia.
Qed.

Lemma host_bytes_flat e x a : bit e -> word x -> a mod 4 = 0 ->
  host_bytes (if e =? HIGH then swap_word x else x) = map (fun y => lane_get e Byte y x) (seqZ a 4).
Proof.
  intros He Hx Ha. do 4 rewrite seqZ_cons by lia. rewrite seqZ_nil by lia. cbn [map lane_get].
  rewrite !byte_offset_pos by done. unfold pos, host_bytes.
  replace (Z.succ a mod 4) with 1 by dlia. replace (Z.succ (Z.succ a) mod 4) with 2 by dlia.
  replace (Z.succ (Z.succ (Z.succ a)) mod 4) with 3 by dlia. rewrite Ha.
  destruct He as [-> | ->]; [by rewrite Z.shiftr_0_r|]. change (1 =? HIGH) with true. change (1 =? 0) with false. cbv iota.
  pose proof (swap_word_byte x 0 ltac:(lia)) as E0. rewrite Z.shiftr_0_r in E0. rewrite E0.
  pose proof (swap_word_byte x 1 ltac:(lia)) as E1. change (8 * 1) with 8 in E1. rewrite E1.
  pose proof (swap_word_byte x 2 ltac:(lia)) as E2. change (8 * 2) with 16 in E2. rewrite E2.
  pose proof (swap_word_byte x 3 ltac:(lia)) as E3. change (8 * 3) with 24 in E3. by rewrite E3.
Qed.

Lemma implements_ptr e r m k : implements e r m -> implements e (r <| mbp := k |>) m.
Proof. intros [[H1 H2] H3]. by split. Qed.

Section Dump.
Context (e : Z) (m : Z -> Z) (i : nat) (b : mem_bank_t).
Context (He : bit e) (Hrd : reads_rom b).
Implicit Type r : mem_state_t.

Lemma dump_words_flat n a r : implements e r m -> mem_banks r !! i = Some b -> a mod 4 = 0 ->
  bk_addr b <= a -> a + 4 * Z.of_nat n <= bk_addr b + bk_len b -> bank_shape b ->
  exists r', dump_words n e a r = Some (0, map m (seqZ a (4 * Z.of_nat n)), r').
Proof.
  revert a r. induction n as [|n IH]; intros a r H Hi Ha Hlo Hhi Hb; cbn [dump_words]; [by exists r|].
  assert (word a) as Hw by (destruct Hb; unfold word; lia).
  assert (in_bank b a = true) as Hin by (apply in_bank_range; [apply Hb|done|lia]).
  assert (at_bank (mem_banks r) a i b) as Hat by by split.
  unfold skyeye_flash_arm_read_word. destruct (bank_ptr_found r a i b (wf_banks _ (proj1 H)) Hw Hat) as [k ->].
  cbn [mbind option_bind]. pose proof (implements_ptr e r m k H) as H1. set (r1 := r <| mbp := k |>) in *.
  destruct (implements_word e r1 m a i b He H1 Hw Hat Hrd) as (x & Ex & Hx & Hm). unfold real_read. rewrite Ex.
  cbn [mbind option_bind fmap option_fmap option_map lane_get].
  destruct (IH (a + 4) r1 H1 Hi) as (r2 & E2); [dlia|lia|lia|done|]. rewrite E2. cbn [mbind option_bind].
  exists r2. do 2 f_equal. f_equal. rewrite (host_bytes_flat e x a He Hx Ha).
  replace (4 * Z.of_nat (S n)) with (4 + 4 * Z.of_nat n) by lia. rewrite seqZ_app, map_app by lia. f_equal.
  apply map_ext_in. intros y Hy%list_elem_of_In%elem_of_seqZ. symmetry. apply Hm. unfold same_word. dlia.
Qed.

(** The dump of a range of a bank. *)
Lemma skyeye_flash_dump_flat fd base size r : implements e r m -> mem_banks r !! i = Some b -> bank_shape b ->
  fd <> -1 -> base mod 4 = 0 -> size mod 4 = 0 -> 0 <= size -> bk_addr b <= base ->
  base + size <= bk_addr b + bk_len b -> base + size < 4294967296 ->
  exists r', skyeye_flash_dump true true fd e base size r = Some (0, map m (seqZ base size), r').
Proof.
  intros H Hi Hb Hfd Hbm Hsm Hs Hlo Hhi Hend. unfold skyeye_flash_dump. cbn [negb orb].
  destruct (Z.eqb_spec fd (-1)); [done|]. pose proof (bank_addr_word _ Hb).
  assert (add32 base size = base + size) as -> by (apply u32_id; unfold word; lia).
  assert (loop_words base (base + size) = Some (size / 4)) as ->.
  { unfold loop_words. destruct (Z.leb_spec (base + size) base); [by replace size with 0 by lia|]. cbv zeta.
    assert ((base + size - base + 3) / 4 = size / 4) as -> by dlia.
    destruct (Z.ltb_spec (base + 4 * (size / 4)) 4294967296); [done|dlia]. }
  cbn [mbind option_bind]. destruct (dump_words_flat (Z.to_nat (size / 4)) base r H Hi Hbm Hlo) as (r' & E); [dlia|done|].
  exists r'. rewrite E. do 4 f_equal. f_equal. dlia.
Qed.
End Dump.
