(* ===== verification/FlashWitness.v ===== *)
(** * Concrete commands to the flash chips

    The theorems of FlashSafe.v on a device of one sector, and a buffered
    write that leaves the chips.  A 1 MB Am29LV800 on a bus of halfwords:
    programming a cell and reading it back, and the device code; and what the
    macros of the unlock bypass commands do. *)

From Stdlib Require Import String.
From S2P Require Import Prelude Words ArmState Machine ArmSys ArmMem MemSpec FlashIntel FlashSpec FlashSafe FlashBus FlashAm29 FlashJedec FlashAm29Spec.

Definition flash_map (len : Z) : mem_bank_t := mkBank 0 len (fun _ => Some mem_real) (fun _ => Some mem_real).
Definition flash_end : mem_bank_t := mkBank 0 0 (fun _ => None) (fun _ => None).
Definition erased_words : list Z := replicate (Z.to_nat 65536) 0xffffffff.
Definition flash_ram : mem_state_t := mkMem [flash_map 0x40000; flash_end] [erased_words] None.
Definition flash0 : flash_intel_io := flash_intel_reset
  (mkFlash [] 0 0 0 0 0 0 0 0 0 0 [] false false false false false false false false false false false).

Lemma flash_ram_holds : holds 0 (flash_map 0x40000) flash_ram erased_words.
Proof.
  assert (forall addr i b, word addr -> at_bank (mem_banks flash_ram) addr i b -> i = 0%nat) as H0.
  { intros addr i b Ha [Hi Hin]. destruct i as [|[|i]]; [done| |discriminate Hi].
    injection Hi as <-. by rewrite in_bank_free in Hin. }
  split; [|done|done|by vm_compute].
  split.
  - exists [flash_map 0x40000], [flash_end]. split; [done|]. split; [|by repeat constructor].
    constructor; [|constructor]. split; simpl; lia || done.
  - intros addr i j b c Ha Hi Hj. by rewrite (H0 _ _ _ Ha Hi), (H0 _ _ _ Ha Hj).
Qed.

Lemma flash_map_bank : flash_bank (flash_map 0x40000).
Proof. by split. Qed.
Lemma flash_map_shape : bank_shape (flash_map 0x40000).
Proof. by split. Qed.
Lemma flash_reset_ok f : pb_count (flash_intel_reset f) = 0 /\ forall b, flash_ok b (flash_intel_reset f).
Proof. split; [done|]. intros b. by apply flash_ok_idle. Qed.

Definition flash1 : flash_intel_io := flash0 <| lock := wr (lock flash0) 0 1 |>.
Lemma flash1_ok b : flash_ok b flash1.
Proof. by apply flash_ok_idle. Qed.

(** A program command to the locked sector, a broken erase, and attempts to
    write through the buffer, the second one from an address that is not
    aligned. *)
Definition attack : list (Z * Z) :=
  [(0x10, WSM_PROGRAM); (0x10, 5); (0, WSM_BLOCK_ERASE); (0, 0); (0, WSM_CLEAR_STATUS);
   (0x40, WSM_WRITE_BUFFER); (0x40, 0); (0x40, 7); (0x40, WSM_CONFIRM);
   (0x8, WSM_WRITE_BUFFER); (0x8, 0); (0x8, 7); (0x8, WSM_CONFIRM)].
Lemma locked_sector_survives_witness :
  exists f' r' ws', flash_writes 0 attack flash1 flash_ram = Some (f', r') /\
    holds 0 (flash_map 0x40000) r' ws' /\ ws' !! 4%nat = Some 0xffffffff.
Proof.
  destruct (locked_sector_survives 0 (flash_map 0x40000) flash_map_bank flash_map_shape 0 attack
    flash1 flash_ram erased_words 4 (flash1_ok _) flash_ram_holds) as (f' & r' & ws' & E & _ & H & _ & Hk & _).
  - by vm_compute.
  - by vm_compute.
  - exists f', r', ws'. split; [exact E|]. split; [exact H|]. rewrite Hk. by vm_compute.
Defined.

Lemma flash_commands_witness :
  exists f' r', command 0 [(4, WSM_PROGRAM); (4, 0x12345678)] 4 flash0 flash_ram = Some (0x800080, f', r') /\
    holds 0 (flash_map 0x40000) r' (<[1%nat := 0x12345678]> erased_words).
Proof.
  destruct (flash_commands 0 (flash_map 0x40000) flash_map_bank flash_map_shape 0 4 0x12345678 flash0 flash_ram erased_words
    0xffffffff (proj2 (flash_reset_ok _) _) eq_refl flash_ram_holds) as (_ & (f' & r' & E & _ & _ & _ & H & _) & _).
  - by split.
  - by vm_compute.
  - by vm_compute.
  - exists f', r'. split; [exact E|exact H].
Defined.

(** The last word of the chips, written through the buffer: the loop over the
    buffer starts at the word, not at the start of its 64 bytes, and runs off
    the chips; [bank_ptr] returns the null pointer.  With an aligned start the
    same command is executed. *)
Definition buffered (addr : Z) : list (Z * Z) :=
  [(addr, WSM_WRITE_BUFFER); (addr, 0); (addr, 0); (addr, WSM_CONFIRM)].
Lemma buffer_leaves_chips :
  let r := mkMem [flash_map 0x40; flash_end] [replicate 16 0xffffffff] None in
  flash_writes 0 (buffered 0x3c) flash0 r = None /\ is_Some (flash_writes 0 (buffered 0) flash0 r).
Proof. split; [by vm_compute|]. vm_compute. by eexists. Qed.

(** Two sectors, the second one locked.  A buffered write of two words, the
    last word of the first sector and then the word at the start of the same 64
    bytes: the buffer is used from the first address on and wraps, so that the
    second word goes to the first word of the locked sector. *)
Lemma buffer_enters_locked_sector :
  let r := mkMem [flash_map 0x80000; flash_end] [replicate (Z.to_nat 131072) 0xffffffff] None in
  let f := flash0 <| lock := wr (lock flash0) 1 1 |> in
  let l := [(0x3fffc, WSM_WRITE_BUFFER); (0x3fffc, 1); (0x3fffc, 5); (0x3ffc0, 6); (0x3fffc, WSM_CONFIRM)] in
  buffer_fits 0x3fffc = false /\
  ('(f, r) ← flash_writes 0 l f r; ws ← rom r !! 0%nat;
   Some (rd (lock f) 1, ws !! Z.to_nat 65520, ws !! Z.to_nat 65535, ws !! Z.to_nat 65536)) =
  Some (1, Some 0xffffffff, Some 5, Some 6).
Proof. split; vm_compute; reflexivity. Qed.

(** ** An AMD chip *)
Open Scope list_scope.


Definition am29_words : list Z := replicate (Z.to_nat 262144) 0xffffffff.
Definition am29_ram : mem_state_t := mkMem [flash_map 0x100000; flash_end] [am29_words] None.
Definition am29_chip : flash_am29_io :=
  mkAm29 "Am29LV800T-16" bus_reset bus_reset None 0 None (Some am29lv800) 0x100000 0x10000 0xffff 0.

Lemma am29_chip_setup : flash_am29lv800_setup true 0x100000 "Am29LV800T-16" = Some am29_chip.
Proof. vm_compute. reflexivity. Qed.

Lemma am29_ram_holds : holds 0 (flash_map 0x100000) am29_ram am29_words.
Proof.
  assert (forall addr i b, word addr -> at_bank (mem_banks am29_ram) addr i b -> i = 0%nat) as H0.
  { intros addr i b Ha [Hi Hin]. destruct i as [|[|i]]; [done| |discriminate Hi].
    injection Hi as <-. by rewrite in_bank_free in Hin. }
  split; [|done|done|by vm_compute].
  split.
  - exists [flash_map 0x100000], [flash_end]. split; [done|]. split; [|by repeat constructor].
    constructor; [|constructor]. split; simpl; lia || done.
  - intros addr i j b c Ha Hi Hj. by rewrite (H0 _ _ _ Ha Hi), (H0 _ _ _ Ha Hj).
Qed.
Lemma am29_chip_bank : chip_bank am29_chip (flash_map 0x100000).
Proof. split; [split; done|done|done|done]. Qed.

(** The unlock cycles, with a read in between, and a halfword; the cell is read
    back; the identification of the device and the reset command. *)
Definition am29_session : list chip_op :=
  [chip_wr Half 0xaaa 0xaa; chip_wr Half 0x554 0x55; chip_wr Half 0xaaa 0xa0; chip_wr Half 0x102 0x1234;
   chip_rd Half 0x102; chip_wr Half 0xaaa 0xaa; chip_wr Half 0x554 0x55; chip_wr Half 0xaaa 0x90; chip_rd Half 2;
   chip_wr Half 0 0xf0; chip_rd Word 0x100].

Lemma am29_implements_commands_witness :
  exists f' r', am29_run 0 0 0 am29_session (flash_am29_reset am29_chip) am29_ram =
    Some ([1; 1; 1; 1; 0x1234; 1; 1; 1; 0x22da; 1; 0x1234ffff], f', r').
Proof.
  destruct (am29_implements_commands am29_chip 0 (flash_map 0x100000) 0 0 am29_session am29_ram am29_words
    am29_chip_bank am29_ram_holds) as (f' & r' & E & _).
  - repeat (apply list.Forall_cons_2; [split; [by compute|by vm_compute]|]). apply list.Forall_nil_2.
  - assert ((ref_run am29_chip 0 0 0 am29_session (mkRef side_idle side_idle am29_words)).1 =
      [1; 1; 1; 1; 0x1234; 1; 1; 1; 0x22da; 1; 0x1234ffff]) as El by (vm_compute; reflexivity).
    exists f', r'. exact (eq_trans E (f_equal (fun l => Some (l, f', r')) El)).
Defined.

(** [a && b || c] in the macro: any first cycle with the data 0x90 resets the
    recorded cycles, not only the two cycles of the unlock bypass reset. *)
Lemma bypass_reset_precedence :
  CMD_UNLOCK_BYPASS_PROGRAM_RESET (bus_record 0x123 0x90 bus_reset) = true /\ cnt (bus_record 0x123 0x90 bus_reset) = 1.
Proof. by vm_compute. Qed.
(** With six other cycles recorded, the reset command 0xf0 is not seen. *)
Lemma reset_command_lost :
  let garbage := fold_left (fun b k => am29_cycle Half k 1 b) [1; 2; 3; 4; 5; 6] bus_reset in
  am29_cycle Half 0 0xf0 garbage = garbage /\ cnt garbage = 6.
Proof. by vm_compute. Qed.
(** A sector is erased from the address of the last cycle on, over its end:
    the last word of the sector of words 0 to 0x3fff, and all but one of the
    next sector. *)
Lemma erase_ignores_sectors ws : ref_erase am29_chip 0 0xfffc 0x30 ws = fill 0x3fff 0x4000 ws.
Proof. reflexivity. Qed.
