(* ===== verification/MmuBuffers.v ===== *)
(** * mmu/wb.c, mmu/rb.c: the write buffer and the read buffer

    The write buffer is a circular buffer of writes to physical memory that
    have not been done yet; the read buffer (StrongARM) holds words that a
    program loads ahead by coprocessor instructions.  [mmu_wb_init] and
    [mmu_rb_init] take the contents of the fresh memory as an argument;
    [mmu_wb_exit] and [mmu_rb_exit] only free.  [None] is undefined behaviour,
    here or in an access to memory. *)

From S2P Require Import Prelude Words ArmState Machine ArmSys ArmMem Tlb.

(** [data] points to [wb_t->nb] bytes, of which [nb] are in use. *)
Record wb_entry_t := mkWbEntry { wb_pa : Z; wb_data : list Z; wb_len : Z }.
#[export] Instance eta_wb_entry : Eta wb_entry_t := fun e => mkWbEntry (wb_pa e) (wb_data e) (wb_len e).

Record wb_t := mkWb {
  wb_num : Z; wb_nb : Z; wb_first : Z; wb_last : Z; wb_used : Z; wb_entrys : list wb_entry_t
}.
#[export] Instance eta_wb : Eta wb_t := fun b =>
  mkWb (wb_num b) (wb_nb b) (wb_first b) (wb_last b) (wb_used b) (wb_entrys b).

(** [fresh i]: the entry [i] of the allocated array, with its buffer. *)
Definition mmu_wb_init (num nb : Z) (fresh : Z -> wb_entry_t) : wb_t :=
  mkWb num nb 0 0 0 (map fresh (seqZ 0 num)).

(** The next index of the circle. *)
Definition wb_next (b : wb_t) (i : Z) : Z := let i := i + 1 in if i =? wb_num b then 0 else i.

(** The first [n] bytes of a word where the host keeps it (little-endian). *)
Definition word_bytes (n data : Z) : list Z := map (fun k => (data >>> (8 * k)) &&& 0xff) (seqZ 0 n).

(** [memcpy (wb->data, data, i)] with the entry's address and length. *)
Definition wb_fill (pa i : Z) (data : list Z) (e : wb_entry_t) : wb_entry_t :=
  mkWbEntry pa (take (Z.to_nat i) data ++ drop (Z.to_nat i) (wb_data e)) i.

Section WriteBuf.
Context {M : Type} `{!Board M}.
Implicit Type s : system M.

(** The writes of one entry, and the removal of the last entry. *)
Definition wb_entry_out (e : wb_entry_t) s : option (system M) :=
  for_range_opt 0 (wb_len e) (fun i s =>
    d ← wb_data e !! Z.to_nat i; mem_write Byte (add32 (wb_pa e) i) d s) s.
Definition wb_clean_last (b : wb_t) s : option (wb_t * system M) :=
  e ← wb_entrys b !! Z.to_nat (wb_last b);
  s ← wb_entry_out e s;
  Some (b <| wb_last := wb_next b (wb_last b) |> <| wb_used ::= fun n => n - 1 |>, s).

(** A new entry with at most [nb] of the bytes. *)
Definition wb_push (pa : Z) (data : list Z) (b : wb_t) : option (Z * wb_t) :=
  e ← wb_entrys b !! Z.to_nat (wb_first b);
  let n := Z.of_nat (length data) in
  let i := if n <? wb_nb b then n else wb_nb b in
  Some (i, b <| wb_entrys ::= <[Z.to_nat (wb_first b) := wb_fill pa i data e]> |>
             <| wb_first := wb_next b (wb_first b) |> <| wb_used ::= fun n => n + 1 |>).

(** [while (n)]: one turn for each byte is enough, as long as an entry holds
    one. *)
Fixpoint wb_write_loop (fuel : nat) (pa : Z) (data : list Z) (b : wb_t) s : option (wb_t * system M) :=
  match data, fuel with
  | [], _ => Some (b, s)
  | _, O => None
  | _, S fuel =>
      '(b, s) ← (if wb_num b =? wb_used b then wb_clean_last b s else Some (b, s));
      '(i, b) ← wb_push pa data b;
      wb_write_loop fuel (add32 pa i) (drop (Z.to_nat i) data) b s
  end.
Definition mmu_wb_write_bytes (pa : Z) (data : list Z) (b : wb_t) s : option (wb_t * system M) :=
  wb_write_loop (length data) pa data b s.

(** [while (wb_t->used)]. *)
Fixpoint wb_drain_loop (fuel : nat) (b : wb_t) s : option (wb_t * system M) :=
  if wb_used b =? 0 then Some (b, s)
  else match fuel with
       | O => None
       | S fuel => '(b, s) ← wb_clean_last b s; wb_drain_loop fuel b s
       end.
Definition mmu_wb_drain_all (b : wb_t) s : option (wb_t * system M) := wb_drain_loop (Z.to_nat (wb_used b)) b s.
End WriteBuf.

(** ** The read buffer *)

(** [type]: [RB_INVALID], [RB_1], [RB_4], [RB_8] are 0 to 3. *)
Record rb_entry_t := mkRb { rb_data : list Z; rb_va : Z; rb_type : Z; rb_fault : fault_t }.
#[export] Instance eta_rb_entry : Eta rb_entry_t := fun e => mkRb (rb_data e) (rb_va e) (rb_type e) (rb_fault e).
Record rb_t := mkRbs { rb_num : Z; rb_entrys : list rb_entry_t }.
#[export] Instance eta_rb : Eta rb_t := fun b => mkRbs (rb_num b) (rb_entrys b).

Definition rb_masks (type : Z) : Z :=
  if type =? 1 then 4 else if type =? 2 then 16 else if type =? 3 then 32 else 0.

Definition mmu_rb_init (num : Z) (fresh : Z -> rb_entry_t) : rb_t :=
  mkRbs num (map (fun i => (fresh i) <| rb_type := 0 |> <| rb_fault := NO_FAULT |>) (seqZ 0 num)).

Definition rb_hit (va : Z) (e : rb_entry_t) : bool :=
  truth (rb_type e) && (rb_va e <=? va) && (va <? add32 (rb_va e) (rb_masks (rb_type e))).
Definition mmu_rb_search (va : Z) (b : rb_t) : option rb_entry_t :=
  snd <$> list_find (fun e => rb_hit va e = true) (take (Z.to_nat (rb_num b)) (rb_entrys b)).

Definition mmu_rb_invalidate_entry (i : Z) (b : rb_t) : rb_t :=
  b <| rb_entrys ::= alter (fun e => e <| rb_type := 0 |>) (Z.to_nat i) |>.
Definition mmu_rb_invalidate_all (b : rb_t) : rb_t := for_range 0 (rb_num b) mmu_rb_invalidate_entry b.

(** The entries that overlap the words to be loaded. *)
Definition rb_overlaps (va type : Z) (e : rb_entry_t) : bool :=
  truth (rb_type e) &&
  (Z.max va (rb_va e) <? Z.min (add32 va (rb_masks type)) (add32 (rb_va e) (rb_masks (rb_type e)))).

Section ReadBuf.
Context {M : Type} `{!Board M}.
Implicit Type s : system M.

(** The words at the physical address [pa]. *)
Definition rb_fill (type pa i_rb : Z) (b : rb_t) s : option (rb_t * system M) :=
  for_range_opt 0 (rb_masks type / 4) (fun i '(b, s) =>
    '(d, s) ← mem_read Word (add32 pa (4 * i)) s;
    Some (b <| rb_entrys ::= alter (fun e => e <| rb_data ::= fun l => wr l i d |>) (Z.to_nat i_rb) |>, s)) (b, s).

(** [t] is the data translation buffer.  The address of the new entry is never
    set. *)
Definition mmu_rb_load (i_rb type va : Z) (t : tlb_t) (b : rb_t) s : option (rb_t * tlb_t * system M) :=
  let va := va &&~ (rb_masks type - 1) in
  let b := for_range 0 (rb_num b) (fun i b =>
    b <| rb_entrys ::= alter (fun e => if rb_overlaps va type e then e <| rb_type := 0 |> else e) (Z.to_nat i) |>) b in
  let b := b <| rb_entrys ::= alter (fun e => e <| rb_type := type |>) (Z.to_nat i_rb) |> in
  let fault (f : fault_t) (b : rb_t) := b <| rb_entrys ::= alter (fun e => e <| rb_fault := f |>) (Z.to_nat i_rb) |> in
  '(r, t, s) ← translate va t s;
  match r with
  | inl f => Some (fault f b, t, s)
  | inr e =>
      '(f, s) ← check_access va e true s;
      if decide (f = NO_FAULT) then
        '(b, s) ← rb_fill type (tlb_va_to_pa e va) i_rb (fault NO_FAULT b) s; Some (b, t, s)
      else Some (fault f b, t, s)
  end.
End ReadBuf.
