(* ===== verification/Harvard.v ===== *)
(** * What the cached MMUs share

    sa_mmu.c, arm920t_mmu.c and arm926ejs_mmu.c repeat the same functions over
    their own buffers and caches: an instruction cache, a data side with a
    write-back cache, and a write buffer.  The functions are written once,
    over an interface to the parts; the files of the three MMUs give the
    parts and what differs.  [None] is undefined behaviour in an access to a
    cache, a buffer or memory, or a failed assertion. *)

From S2P Require Import Prelude Words ArmState Machine ArmSys ArmMem Tlb Cache Arm7100 MmuBuffers.

(** More bits of the control register. *)
Definition CONTROL_DATA_CACHE := 4.
Definition CONTROL_WRITE_BUFFER := 8.

Definition MMU_CACHE_OPS := 7.
Definition MMU_TLB_OPS := 8.
Definition MMU_CACHE_LOCKDOWN := 9.
Definition MMU_TLB_LOCKDOWN := 10.
Definition MMU_PID := 13.

(** The flags of a translation (tlb.h). *)
Definition tlb_c_flag (e : tlb_entry_t) : bool := truth (te_perms e &&& 0x8).
Definition tlb_b_flag (e : tlb_entry_t) : bool := truth (te_perms e &&& 0x4).

(** The word of an address in its line (cache.h). *)
Definition va_cache_index (va : Z) (c : cache_t) : Z := (va &&& (c_width c - 1)) >>> 2.

(** ** The parts

    The translation buffers of instructions and data may be the same one. *)
Class Harvard (P : Type) := {
  instr_tlb : P -> tlb_t;  set_instr_tlb : tlb_t -> P -> P;
  data_tlb : P -> tlb_t;   set_data_tlb : tlb_t -> P -> P;
  instr_cache : P -> cache_t; set_instr_cache : cache_t -> P -> P;
  data_cache : P -> cache_t;  set_data_cache : cache_t -> P -> P;
  write_buffer : P -> wb_t;   set_write_buffer : wb_t -> P -> P
}.

Section Harvard.
Context {M : Type} `{!Board M}.
Implicit Type s : system M.

Definition mmu_pid_va_map s (va : Z) : Z :=
  if truth (va &&& 0xfe000000) then va else va ||| (process_id s &&& 0xfe000000).

(** Translation and access check: the entry, or a fault. *)
Definition translate_checked (va : Z) (read : bool) (t : tlb_t) s : option ((fault_t + tlb_entry_t) * tlb_t * system M) :=
  '(r, t, s) ← translate va t s;
  match r with
  | inl f => Some (inl f, t, s)
  | inr e =>
      '(f, s) ← check_access va e read s;
      Some (if decide (f = NO_FAULT) then inr e else inl f, t, s)
  end.

(** A word of the line [q]. *)
Definition cache_word (va : Z) (q : Z * Z) (c : cache_t) : option Z :=
  l ← cache_line c q; line_data l !! Z.to_nat (va_cache_index va c).
(** The label [datatrans]: the byte or halfword of the word that was read. *)
Definition datatrans (w : width) (real_va data : Z) s : Z := lane_get (bigendSig (cpu s)) w real_va data.
Definition cache_read (w : width) (va real_va : Z) (q : Z * Z) (c : cache_t) s : option Z :=
  x ← cache_word va q c; Some (datatrans w real_va x s).

Definition update_cache (w : width) (va data : Z) (q : Z * Z) (c : cache_t) (real_va : Z) s : option cache_t :=
  let index := va_cache_index va c in
  temp ← cache_word va q c;
  let v := lane_set (bigendSig (cpu s)) w real_va data temp in
  Some (upd_line q (fun l => l <| line_data ::= fun a => wr a index v |>
    <| tag ::= fun t => t ||| (if index <? c_width c >>> 3 then TAG_FIRST_HALF_DIRTY else TAG_LAST_HALF_DIRTY) |>) c).

(** The physical address of a byte or halfword in the word at [pa]. *)
Definition sub_addr (w : width) (pa real_va : Z) : Z :=
  match w with Byte => pa ||| (real_va &&& 3) | Half => pa ||| (real_va &&& 2) | Word => pa end.
Definition width_bytes (w : width) : Z := match w with Byte => 1 | Half => 2 | Word => 4 end.

(** A write that is not to a cache: [b] is the entry's flag. *)
Definition write_miss (w : width) (e : tlb_entry_t) (va real_va data : Z) (b : wb_t) s : option (wb_t * system M) :=
  let pa := tlb_va_to_pa e va in
  if tlb_b_flag e then
    if control_on s CONTROL_WRITE_BUFFER
    then mmu_wb_write_bytes (sub_addr w pa real_va) (word_bytes (width_bytes w) data) b s
    else s ← mem_write w (sub_addr w pa real_va) data s; Some (b, s)
  else
    '(b, s) ← mmu_wb_drain_all b s;
    s ← mem_write w (sub_addr w pa real_va) data s; Some (b, s).

(** ** The functions over the parts *)

Section Parts.
Context {P : Type} `{!Harvard P}.
Implicit Type p : P.

(** [*_mmu_load_instr]. *)
Definition hv_load_instr (va : Z) p s : option ((fault_t + Z) * P * system M) :=
  let va := mmu_pid_va_map s va in
  let enabled := control_on s CONTROL_MMU in
  if enabled && truth (va &&& 3) && control_on s CONTROL_ALIGN_FAULT then Some (inl ALIGNMENT_FAULT, p, s)
  else
    let va := if enabled then va &&~ 3 else va in
    '(r, p, s) ← (if enabled then
                    '(r, t, s) ← translate_checked va true (instr_tlb p) s;
                    Some (match r with inl f => inl f | inr e => inr (tlb_c_flag e, tlb_va_to_pa e va) end, set_instr_tlb t p, s)
                  else Some (inr (true, va), p, s));
    match r with
    | inl f => Some (inl f, p, s)
    | inr (c, pa) =>
        o ← mmu_cache_search (instr_cache p) va;
        match o with
        | Some q => v ← cache_word va q (instr_cache p); Some (inr v, p, s)
        | None =>
            if c : bool then
              '(q, ic, s) ← mmu_cache_alloc va pa (instr_cache p) s;
              v ← cache_word va q ic; Some (inr v, set_instr_cache ic p, s)
            else '(v, s) ← mem_read Word pa s; Some (inr v, p, s)
        end
    end.

(** The part of a read that does not find the address in a cache: [d0] is the
    caller's uninitialised variable, which a read of the region
    0xe0000000-0xe7ffffff returns. *)
Definition read_miss (w : width) (d0 : Z) (e : tlb_entry_t) (va real_va : Z) p s : option (Z * P * system M) :=
  let pa := tlb_va_to_pa e va in
  if (0xe0000000 <=? pa) && (pa <? 0xe8000000) then
    if tlb_c_flag e then
      '(c, s) ← mmu_cache_soft_flush pa (data_cache p) s; Some (d0, set_data_cache c p, s)
    else Some (d0, p, s)
  else
    '(p, s) ← (if tlb_b_flag e
               then '(b, s) ← mmu_wb_drain_all (write_buffer p) s; Some (set_write_buffer b p, s)
               else Some (p, s));
    if tlb_c_flag e && control_on s CONTROL_DATA_CACHE then
      '(q, c, s) ← mmu_cache_alloc va pa (data_cache p) s;
      v ← cache_read w va real_va q c s; Some (v, set_data_cache c p, s)
    else '(v, s) ← mem_read w (sub_addr w pa real_va) s; Some (v, p, s).

(** [*_mmu_read]. *)
Definition hv_read (w : width) (d0 va : Z) p s : option ((fault_t + Z) * P * system M) :=
  let va := mmu_pid_va_map s va in
  let real_va := va in
  if negb (control_on s CONTROL_MMU) then '(v, s) ← mem_read w va s; Some (inr v, p, s)
  else if misaligned w va s then Some (inl ALIGNMENT_FAULT, p, s)
  else
    let va := va &&~ 3 in
    '(r, t, s) ← translate_checked va true (data_tlb p) s;
    let p := set_data_tlb t p in
    match r with
    | inl f => Some (inl f, p, s)
    | inr e =>
        o ← mmu_cache_search (data_cache p) va;
        match o with
        | Some q => v ← cache_read w va real_va q (data_cache p) s; Some (inr v, p, s)
        | None => '(v, p, s) ← read_miss w d0 e va real_va p s; Some (inr v, p, s)
        end
    end.

(** The line of the instruction cache that holds the address of a write is
    updated before anything else. *)
Definition write_instr_cache (w : width) (va data : Z) p s : option P :=
  o ← mmu_cache_search (instr_cache p) va;
  match o with
  | Some q => c ← update_cache w va data q (instr_cache p) va s; Some (set_instr_cache c p)
  | None => Some p
  end.

(** [*_mmu_write]. *)
Definition hv_write (w : width) (va data : Z) p s : option (fault_t * P * system M) :=
  let va := mmu_pid_va_map s va in
  let real_va := va in
  p ← write_instr_cache w va data p s;
  if negb (control_on s CONTROL_MMU) then s ← mem_write w va data s; Some (NO_FAULT, p, s)
  else if misaligned w va s then Some (ALIGNMENT_FAULT, p, s)
  else
    let va := va &&~ 3 in
    '(r, t, s) ← translate_checked va false (data_tlb p) s;
    let p := set_data_tlb t p in
    match r with
    | inl f => Some (f, p, s)
    | inr e =>
        o ← mmu_cache_search (data_cache p) va;
        match o with
        | Some q => c ← update_cache w va data q (data_cache p) real_va s; Some (NO_FAULT, set_data_cache c p, s)
        | None =>
            '(b, s) ← write_miss w e va real_va data (write_buffer p) s; Some (NO_FAULT, set_write_buffer b p, s)
        end
    end.

(** [*_mmu_v2p_dbct]: the physical address of an instruction. *)
Definition hv_v2p_dbct (va : Z) p s : option ((fault_t + Z) * P * system M) :=
  let va := mmu_pid_va_map s va in
  if negb (control_on s CONTROL_MMU) then Some (inr va, p, s)
  else if truth (va &&& 3) && control_on s CONTROL_ALIGN_FAULT then Some (inl ALIGNMENT_FAULT, p, s)
  else
    let va := va &&~ 3 in
    '(r, t, s) ← translate_checked va true (instr_tlb p) s;
    Some (match r with inl f => inl f | inr e => inr (tlb_va_to_pa e va) end, set_instr_tlb t p, s).

(** ** Cache operations of the coprocessor *)
Definition on_instr_cache (f : cache_t -> system M -> option (cache_t * system M)) p s : option (P * system M) :=
  '(c, s) ← f (instr_cache p) s; Some (set_instr_cache c p, s).
Definition on_data_cache (f : cache_t -> system M -> option (cache_t * system M)) p s : option (P * system M) :=
  '(c, s) ← f (data_cache p) s; Some (set_data_cache c p, s).
Definition on_write_buffer (f : wb_t -> system M -> option (wb_t * system M)) p s : option (P * system M) :=
  '(b, s) ← f (write_buffer p) s; Some (set_write_buffer b p, s).
End Parts.
End Harvard.
