(* ===== verification/Arm9Mmu.v ===== *)
(** * mmu/arm920t_mmu.c, mmu/arm926ejs_mmu.c: the ARM920T and the ARM926EJ-S

    In the ARM926EJ-S one translation buffer serves instructions and data;
    its buffer of locked entries is allocated but never used. *)

From S2P Require Import Prelude Words ArmState Machine ArmSys ArmMem Tlb Cache Arm7100 MmuBuffers Harvard.

Record arm920t_mmu_t := mk920 {
  i_tlb920 : tlb_t; i_cache920 : cache_t; d_tlb920 : tlb_t; d_cache920 : cache_t; wb920 : wb_t
}.
#[export] Instance eta_920 : Eta arm920t_mmu_t := fun p =>
  mk920 (i_tlb920 p) (i_cache920 p) (d_tlb920 p) (d_cache920 p) (wb920 p).
#[export] Instance harvard_920 : Harvard arm920t_mmu_t := {|
  instr_tlb := i_tlb920; set_instr_tlb t p := p <| i_tlb920 := t |>;
  data_tlb := d_tlb920; set_data_tlb t p := p <| d_tlb920 := t |>;
  instr_cache := i_cache920; set_instr_cache c p := p <| i_cache920 := c |>;
  data_cache := d_cache920; set_data_cache c p := p <| d_cache920 := c |>;
  write_buffer := wb920; set_write_buffer b p := p <| wb920 := b |>
|}.

Section Arm920t.
Context {M : Type} `{!Board M}.
Implicit Types (s : system M) (p : arm920t_mmu_t).

(** The contents of the fresh memory are arguments; that an allocation fails
    is not modelled. *)
Definition arm920t_mmu_init (fresh_i_entry : Z -> tlb_entry_t) (fresh_i_line : Z -> Z -> cache_line_t)
    (fresh_d_entry : Z -> tlb_entry_t) (fresh_d_line : Z -> Z -> cache_line_t) (fresh_wb : Z -> wb_entry_t) s :
    arm920t_mmu_t * system M :=
  (mk920 (mmu_tlb_init 64 fresh_i_entry) (mmu_cache_init 32 64 8 CACHE_WRITE_BACK fresh_i_line)
         (mmu_tlb_init 64 fresh_d_entry) (mmu_cache_init 32 64 8 CACHE_WRITE_BACK fresh_d_line)
         (mmu_wb_init 8 8 fresh_wb),
   (upd_cpu (fun c => c <| mmu_control := 0x70 |> <| mmu_fault_status := 0 |> <| mmu_fault_address := 0 |>) s)
     <| translation_table_base := 0xDEADC0DE |> <| domain_access_control := 0xDEADC0DE |> <| process_id := 0 |>).

Definition arm920t_mmu_load_instr (va : Z) p s : option ((fault_t + Z) * arm920t_mmu_t * system M) := hv_load_instr va p s.
Definition arm920t_mmu_read (w : width) (d0 va : Z) p s : option ((fault_t + Z) * arm920t_mmu_t * system M) :=
  hv_read w d0 va p s.
Definition arm920t_mmu_write (w : width) (va data : Z) p s : option (fault_t * arm920t_mmu_t * system M) :=
  hv_write w va data p s.
Definition arm920t_mmu_v2p_dbct (va : Z) p s : option ((fault_t + Z) * arm920t_mmu_t * system M) := hv_v2p_dbct va p s.

(** [d0]: the uninitialised [data]. *)
Definition arm920t_mmu_mrc (d0 instr : Z) s : Z :=
  let c := creg instr in
  let OPC_2 := BITS instr 5 7 &&& 0x7 in
  if c =? MMU_ID then if OPC_2 =? 0 then cpu_val s else if OPC_2 =? 1 then 0x0D172172 else d0
  else if c =? MMU_CONTROL then (mmu_control (cpu s) ||| 0x78) &&& 0xFFFFF3FF
  else if c =? MMU_TRANSLATION_TABLE_BASE then translation_table_base s
  else if c =? MMU_DOMAIN_ACCESS_CONTROL then domain_access_control s
  else if c =? MMU_FAULT_STATUS then if OPC_2 =? 0 then mmu_fault_status (cpu s) else d0
  else if c =? MMU_FAULT_ADDRESS then mmu_fault_address (cpu s)
  else 0.

Definition arm920t_mmu_cache_ops (instr value : Z) p s : option (arm920t_mmu_t * system M) :=
  let CRm := BITS instr 0 3 in
  let OPC_2 := BITS instr 5 7 in
  if (OPC_2 =? 0) && (CRm =? 7) then
    '(p, s) ← on_instr_cache mmu_cache_invalidate_all p s; on_data_cache mmu_cache_invalidate_all p s
  else if (OPC_2 =? 0) && (CRm =? 5) then on_instr_cache mmu_cache_invalidate_all p s
  else if (OPC_2 =? 1) && (CRm =? 5) then on_instr_cache (mmu_cache_invalidate value) p s
  else if (OPC_2 =? 1) && (CRm =? 13) then Some (p, s)
  else if (OPC_2 =? 0) && (CRm =? 6) then on_data_cache mmu_cache_invalidate_all p s
  else if (OPC_2 =? 1) && (CRm =? 6) then on_data_cache (mmu_cache_invalidate value) p s
  else if (OPC_2 =? 1) && (CRm =? 0xa) then on_data_cache (mmu_cache_clean value) p s
  else if (OPC_2 =? 1) && (CRm =? 14) then
    '(p, s) ← on_data_cache (mmu_cache_clean value) p s; on_data_cache (mmu_cache_invalidate value) p s
  else if (OPC_2 =? 2) && (CRm =? 0xa) then on_data_cache (mmu_cache_clean_by_index value) p s
  else if (OPC_2 =? 2) && (CRm =? 14) then
    '(p, s) ← on_data_cache (mmu_cache_clean_by_index value) p s; on_data_cache (mmu_cache_invalidate_by_index value) p s
  else if (OPC_2 =? 4) && (CRm =? 0xa) then on_write_buffer mmu_wb_drain_all p s
  else Some (p, s).

Definition arm920t_mmu_tlb_ops (instr value : Z) p : arm920t_mmu_t :=
  let CRm := BITS instr 0 3 in
  let OPC_2 := BITS instr 5 7 in
  if (OPC_2 =? 0) && (CRm =? 7) then p <| i_tlb920 ::= mmu_tlb_invalidate_all |> <| d_tlb920 ::= mmu_tlb_invalidate_all |>
  else if (OPC_2 =? 0) && (CRm =? 5) then p <| i_tlb920 ::= mmu_tlb_invalidate_all |>
  else if (OPC_2 =? 1) && (CRm =? 5) then p <| i_tlb920 ::= fun t => mmu_tlb_invalidate_entry t value |>
  else if (OPC_2 =? 0) && (CRm =? 6) then p <| d_tlb920 ::= mmu_tlb_invalidate_all |>
  else if (OPC_2 =? 1) && (CRm =? 6) then p <| d_tlb920 ::= fun t => mmu_tlb_invalidate_entry t value |>
  else p.

Definition arm920t_mmu_mcr (instr value : Z) p s : option (arm920t_mmu_t * system M) :=
  let c := creg instr in
  let OPC_2 := BITS instr 5 7 &&& 0x7 in
  if negb (armv4 s) then Some (p, s)
  else if c =? MMU_CONTROL then Some (p, upd_cpu (fun k => k <| mmu_control := (value ||| 0x78) &&& 0xFFFFF3FF |>) s)
  else if c =? MMU_TRANSLATION_TABLE_BASE then Some (p, s <| translation_table_base := value &&& 0xFFFFC000 |>)
  else if c =? MMU_DOMAIN_ACCESS_CONTROL then Some (p, s <| domain_access_control := value |>)
  else if c =? MMU_FAULT_STATUS then
    Some (p, if OPC_2 =? 0 then upd_cpu (fun k => k <| mmu_fault_status := value &&& 0xFF |>) s else s)
  else if c =? MMU_FAULT_ADDRESS then Some (p, upd_cpu (fun k => k <| mmu_fault_address := value |>) s)
  else if c =? MMU_CACHE_OPS then arm920t_mmu_cache_ops instr value p s
  else if c =? MMU_TLB_OPS then Some (arm920t_mmu_tlb_ops instr value p, s)
  else if c =? MMU_PID then Some (p, s <| process_id := value &&& 0xfe000000 |>)
  else Some (p, s).
End Arm920t.

(** ** The ARM926EJ-S *)

(** [tlb_locked_down] is a field of [mmu_state_t]. *)
Record arm926ejs_mmu_t := mk926 {
  main_tlb926 : tlb_t; lockdown_tlb926 : tlb_t; i_cache926 : cache_t; d_cache926 : cache_t; wb926 : wb_t;
  tlb_locked_down : Z
}.
#[export] Instance eta_926 : Eta arm926ejs_mmu_t := fun p =>
  mk926 (main_tlb926 p) (lockdown_tlb926 p) (i_cache926 p) (d_cache926 p) (wb926 p) (tlb_locked_down p).
#[export] Instance harvard_926 : Harvard arm926ejs_mmu_t := {|
  instr_tlb := main_tlb926; set_instr_tlb t p := p <| main_tlb926 := t |>;
  data_tlb := main_tlb926; set_data_tlb t p := p <| main_tlb926 := t |>;
  instr_cache := i_cache926; set_instr_cache c p := p <| i_cache926 := c |>;
  data_cache := d_cache926; set_data_cache c p := p <| d_cache926 := c |>;
  write_buffer := wb926; set_write_buffer b p := p <| wb926 := b |>
|}.

Section Arm926ejs.
Context {M : Type} `{!Board M}.
Implicit Types (s : system M) (p : arm926ejs_mmu_t).

(** The contents of the fresh memory are arguments; that an allocation fails
    is not modelled. *)
Definition arm926ejs_mmu_init (fresh_entry : Z -> tlb_entry_t) (fresh_i_line : Z -> Z -> cache_line_t)
    (fresh_lockdown : Z -> tlb_entry_t) (fresh_d_line : Z -> Z -> cache_line_t) (fresh_wb : Z -> wb_entry_t)
    (locked_down : Z) s : arm926ejs_mmu_t * system M :=
  (mk926 (mmu_tlb_init 64 fresh_entry) (mmu_tlb_init 8 fresh_lockdown)
         (mmu_cache_init 32 4 64 CACHE_WRITE_BACK fresh_i_line) (mmu_cache_init 32 4 32 CACHE_WRITE_BACK fresh_d_line)
         (mmu_wb_init 8 8 fresh_wb) locked_down,
   (upd_cpu (fun c => c <| mmu_control := 0x50078 |> <| mmu_fault_status := 0 |> <| mmu_fault_address := 0 |>) s)
     <| translation_table_base := 0 |> <| domain_access_control := 0xDEADC0DE |> <| process_id := 0 |>).

Definition arm926ejs_mmu_load_instr (va : Z) p s : option ((fault_t + Z) * arm926ejs_mmu_t * system M) :=
  hv_load_instr va p s.
Definition arm926ejs_mmu_read (w : width) (d0 va : Z) p s : option ((fault_t + Z) * arm926ejs_mmu_t * system M) :=
  hv_read w d0 va p s.
Definition arm926ejs_mmu_write (w : width) (va data : Z) p s : option (fault_t * arm926ejs_mmu_t * system M) :=
  hv_write w va data p s.
Definition arm926ejs_mmu_v2p_dbct (va : Z) p s : option ((fault_t + Z) * arm926ejs_mmu_t * system M) :=
  hv_v2p_dbct va p s.

(** [d0]: the uninitialised [data]. *)
Definition arm926ejs_mmu_mrc (d0 instr : Z) p s : Z :=
  let c := creg instr in
  let OPC_2 := BITS instr 5 7 &&& 0x7 in
  if c =? MMU_ID then
    if OPC_2 =? 0 then cpu_val s else if OPC_2 =? 1 then 0x1D0D2112 else if OPC_2 =? 2 then 0 else d0
  else if c =? MMU_CONTROL then (mmu_control (cpu s) ||| 0x50078) &&& 0x0005F3FF
  else if c =? MMU_TRANSLATION_TABLE_BASE then translation_table_base s &&& 0xFFFFC000
  else if c =? MMU_DOMAIN_ACCESS_CONTROL then domain_access_control s
  else if c =? MMU_FAULT_STATUS then if OPC_2 =? 0 then mmu_fault_status (cpu s) &&& 0x0FF else d0
  else if c =? MMU_FAULT_ADDRESS then mmu_fault_address (cpu s)
  else if c =? MMU_CACHE_OPS then d0
  else if c =? MMU_TLB_LOCKDOWN then tlb_locked_down p
  else 0.

Definition arm926ejs_mmu_cache_ops (instr value : Z) p s : option (arm926ejs_mmu_t * system M) :=
  let CRm := BITS instr 0 3 in
  let OPC_2 := BITS instr 5 7 in
  if (OPC_2 =? 0) && (CRm =? 7) then
    '(p, s) ← on_instr_cache mmu_cache_invalidate_all p s; on_data_cache mmu_cache_invalidate_all p s
  else if (OPC_2 =? 0) && (CRm =? 5) then on_instr_cache mmu_cache_invalidate_all p s
  else if (OPC_2 =? 1) && (CRm =? 5) then on_instr_cache (mmu_cache_invalidate value) p s
  else if (OPC_2 =? 2) && (CRm =? 5) then on_instr_cache (mmu_cache_invalidate_by_index value) p s
  else if (OPC_2 =? 1) && (CRm =? 13) then Some (p, s)
  else if (OPC_2 =? 0) && (CRm =? 6) then on_data_cache mmu_cache_invalidate_all p s
  else if (OPC_2 =? 1) && (CRm =? 6) then on_data_cache (mmu_cache_invalidate value) p s
  else if (OPC_2 =? 2) && (CRm =? 6) then on_data_cache (mmu_cache_invalidate_by_index value) p s
  else if (OPC_2 =? 1) && (CRm =? 0xa) then on_data_cache (mmu_cache_clean value) p s
  else if (OPC_2 =? 1) && (CRm =? 14) then
    '(p, s) ← on_data_cache (mmu_cache_clean value) p s; on_data_cache (mmu_cache_invalidate value) p s
  else if (OPC_2 =? 2) && (CRm =? 0xa) then on_data_cache (mmu_cache_clean_by_index value) p s
  else if (OPC_2 =? 2) && (CRm =? 14) then
    '(p, s) ← on_data_cache (mmu_cache_clean_by_index value) p s; on_data_cache (mmu_cache_invalidate_by_index value) p s
  else if (OPC_2 =? 4) && (CRm =? 0xa) then on_write_buffer mmu_wb_drain_all p s
  else Some (p, s).

(** As the operators bind: the register 5 or 6 invalidates the whole buffer
    whatever the operation. *)
Definition arm926ejs_mmu_tlb_ops (instr value : Z) p : arm926ejs_mmu_t :=
  let CRm := BITS instr 0 3 in
  let OPC_2 := BITS instr 5 7 in
  if ((OPC_2 =? 0) && (CRm =? 7)) || (CRm =? 6) || (CRm =? 5) then p <| main_tlb926 ::= mmu_tlb_invalidate_all |>
  else if (OPC_2 =? 1) && ((CRm =? 5) || (CRm =? 7) || (CRm =? 6))
  then p <| main_tlb926 ::= fun t => mmu_tlb_invalidate_entry t value |>
  else p.

Definition arm926ejs_mmu_mcr (instr value : Z) p s : option (arm926ejs_mmu_t * system M) :=
  let c := creg instr in
  let OPC_2 := BITS instr 5 7 &&& 0x7 in
  if c =? MMU_CONTROL then Some (p, upd_cpu (fun k => k <| mmu_control := (value ||| 0x50078) &&& 0x0005F3FF |>) s)
  else if c =? MMU_TRANSLATION_TABLE_BASE then Some (p, s <| translation_table_base := value &&& 0xFFFFC000 |>)
  else if c =? MMU_DOMAIN_ACCESS_CONTROL then Some (p, s <| domain_access_control := value |>)
  else if c =? MMU_FAULT_STATUS then
    Some (p, if OPC_2 =? 0 then upd_cpu (fun k => k <| mmu_fault_status := value &&& 0xFF |>) s else s)
  else if c =? MMU_FAULT_ADDRESS then Some (p, upd_cpu (fun k => k <| mmu_fault_address := value |>) s)
  else if c =? MMU_CACHE_OPS then arm926ejs_mmu_cache_ops instr value p s
  else if c =? MMU_TLB_OPS then Some (arm926ejs_mmu_tlb_ops instr value p, s)
  else if c =? MMU_TLB_LOCKDOWN then Some (p <| tlb_locked_down := value |>, s)
  else if c =? MMU_PID then Some (p, s <| process_id := value &&& 0xfe000000 |>)
  else Some (p, s).
End Arm926ejs.
