(* ===== verification/StrongArm.v ===== *)
(** * mmu/sa_mmu.c: the memory system of the StrongARM

    Two data caches, the main one for pages that are buffered and the mini one
    for the others, and a read buffer in front of them. *)

From S2P Require Import Prelude Words ArmState Machine ArmSys ArmMem Tlb Cache Arm7100 MmuBuffers Harvard.

Definition MMU_SA_RB_OPS := 9.

Record sa_mmu_t := mkSa {
  sa_i_tlb : tlb_t; sa_i_cache : cache_t; sa_d_tlb : tlb_t; main_d_cache : cache_t; mini_d_cache : cache_t;
  sa_rb : rb_t; sa_wb : wb_t
}.
#[export] Instance eta_sa : Eta sa_mmu_t := fun p =>
  mkSa (sa_i_tlb p) (sa_i_cache p) (sa_d_tlb p) (main_d_cache p) (mini_d_cache p) (sa_rb p) (sa_wb p).
#[export] Instance harvard_sa : Harvard sa_mmu_t := {|
  instr_tlb := sa_i_tlb; set_instr_tlb t p := p <| sa_i_tlb := t |>;
  data_tlb := sa_d_tlb; set_data_tlb t p := p <| sa_d_tlb := t |>;
  instr_cache := sa_i_cache; set_instr_cache c p := p <| sa_i_cache := c |>;
  data_cache := main_d_cache; set_data_cache c p := p <| main_d_cache := c |>;
  write_buffer := sa_wb; set_write_buffer b p := p <| sa_wb := b |>
|}.

Section StrongArm.
Context {M : Type} `{!Board M}.
Implicit Types (s : system M) (p : sa_mmu_t).

(** The contents of the fresh memory are arguments; that an allocation fails
    is not modelled. *)
Definition sa_mmu_init (fresh_i_entry : Z -> tlb_entry_t) (fresh_i_line : Z -> Z -> cache_line_t)
    (fresh_d_entry : Z -> tlb_entry_t) (fresh_main fresh_mini : Z -> Z -> cache_line_t)
    (fresh_rb : Z -> rb_entry_t) (fresh_wb : Z -> wb_entry_t) s : sa_mmu_t * system M :=
  (mkSa (mmu_tlb_init 32 fresh_i_entry) (mmu_cache_init 32 32 16 CACHE_WRITE_BACK fresh_i_line)
        (mmu_tlb_init 32 fresh_d_entry) (mmu_cache_init 32 32 8 CACHE_WRITE_BACK fresh_main)
        (mmu_cache_init 32 2 8 CACHE_WRITE_BACK fresh_mini) (mmu_rb_init 4 fresh_rb) (mmu_wb_init 8 16 fresh_wb),
   (upd_cpu (fun c => c <| mmu_control := 0x70 |> <| mmu_fault_status := 0 |> <| mmu_fault_address := 0 |>) s)
     <| translation_table_base := 0xDEADC0DE |> <| domain_access_control := 0xDEADC0DE |> <| process_id := 0 |>).

Definition sa_mmu_load_instr (va : Z) p s : option ((fault_t + Z) * sa_mmu_t * system M) := hv_load_instr va p s.
Definition sa_mmu_v2p_dbct (va : Z) p s : option ((fault_t + Z) * sa_mmu_t * system M) := hv_v2p_dbct va p s.

(** ** Reading *)

(** The data cache of a page. *)
Definition sa_cache (b : bool) p : cache_t := if b then main_d_cache p else mini_d_cache p.
Definition set_sa_cache (b : bool) (c : cache_t) p : sa_mmu_t :=
  if b then p <| main_d_cache := c |> else p <| mini_d_cache := c |>.

(** The two data caches, main first. *)
Definition sa_search (va : Z) p : option (option (bool * (Z * Z))) :=
  main ← mmu_cache_search (main_d_cache p) va;
  match main with
  | Some q => Some (Some (true, q))
  | None => mini ← mmu_cache_search (mini_d_cache p) va; Some (q ← mini; Some (false, q))
  end.

Definition sa_read_miss (w : width) (d0 : Z) (e : tlb_entry_t) (va real_va : Z) p s : option (Z * sa_mmu_t * system M) :=
  let pa := tlb_va_to_pa e va in
  let b := tlb_b_flag e in
  if (0xe0000000 <=? pa) && (pa <? 0xe8000000) then
    if tlb_c_flag e then
      '(c, s) ← mmu_cache_soft_flush pa (sa_cache b p) s; Some (d0, set_sa_cache b c p, s)
    else Some (d0, p, s)
  else
    '(p, s) ← (if b then '(wb, s) ← mmu_wb_drain_all (sa_wb p) s; Some (p <| sa_wb := wb |>, s) else Some (p, s));
    if tlb_c_flag e && control_on s CONTROL_DATA_CACHE then
      '(q, c, s) ← mmu_cache_alloc va pa (sa_cache b p) s;
      v ← cache_read w va real_va q c s; Some (v, set_sa_cache b c p, s)
    else '(v, s) ← mem_read w (sub_addr w pa real_va) s; Some (v, p, s).

(** What the read buffer holds for the address, or its fault. *)
Definition rb_word (va : Z) (e : rb_entry_t) : option Z :=
  rb_data e !! Z.to_nat ((va &&& (rb_masks (rb_type e) - 1)) >>> 2).

Definition sa_mmu_read (w : width) (d0 va : Z) p s : option ((fault_t + Z) * sa_mmu_t * system M) :=
  let va := mmu_pid_va_map s va in
  let real_va := va in
  if negb (control_on s CONTROL_MMU) then '(v, s) ← mem_read w va s; Some (inr v, p, s)
  else if misaligned w va s then Some (inl ALIGNMENT_FAULT, p, s)
  else
    let va := va &&~ 3 in
    '(r, t, s) ← translate_checked va true (sa_d_tlb p) s;
    let p := p <| sa_d_tlb := t |> in
    match r with
    | inl f => Some (inl f, p, s)
    | inr e =>
        match mmu_rb_search va (sa_rb p) with
        | Some b =>
            if decide (rb_fault b = NO_FAULT)
            then x ← rb_word va b; Some (inr (datatrans w real_va x s), p, s)
            else Some (inl (rb_fault b), p, s)
        | None =>
            o ← sa_search va p;
            match o with
            | Some (b, q) => v ← cache_read w va real_va q (sa_cache b p) s; Some (inr v, p, s)
            | None => '(v, p, s) ← sa_read_miss w d0 e va real_va p s; Some (inr v, p, s)
            end
        end
    end.

(** ** Writing *)
Definition sa_mmu_write (w : width) (va data : Z) p s : option (fault_t * sa_mmu_t * system M) :=
  let va := mmu_pid_va_map s va in
  let real_va := va in
  p ← write_instr_cache w va data p s;
  if negb (control_on s CONTROL_MMU) then s ← mem_write w va data s; Some (NO_FAULT, p, s)
  else if misaligned w va s then Some (ALIGNMENT_FAULT, p, s)
  else
    let va := va &&~ 3 in
    '(r, t, s) ← translate_checked va false (sa_d_tlb p) s;
    let p := p <| sa_d_tlb := t |> in
    match r with
    | inl f => Some (f, p, s)
    | inr e =>
        o ← sa_search va p;
        match o with
        | Some (b, q) =>
            c ← update_cache w va data q (sa_cache b p) real_va s; Some (NO_FAULT, set_sa_cache b c p, s)
        | None =>
            '(wb, s) ← write_miss w e va real_va data (sa_wb p) s; Some (NO_FAULT, p <| sa_wb := wb |>, s)
        end
    end.

(** ** Coprocessor 15 *)

Definition sa_mmu_mrc (instr : Z) s : Z :=
  let c := creg instr in
  if c =? MMU_ID then cpu_val s
  else if c =? MMU_CONTROL then mmu_control (cpu s)
  else if c =? MMU_TRANSLATION_TABLE_BASE then translation_table_base s
  else if c =? MMU_DOMAIN_ACCESS_CONTROL then domain_access_control s
  else if c =? MMU_FAULT_STATUS then mmu_fault_status (cpu s)
  else if c =? MMU_FAULT_ADDRESS then mmu_fault_address (cpu s)
  else 0.

(** An operation on both data caches. *)
Definition on_data_caches (f : cache_t -> system M -> option (cache_t * system M)) p s : option (sa_mmu_t * system M) :=
  '(c, s) ← f (main_d_cache p) s; '(d, s) ← f (mini_d_cache p) s;
  Some (p <| main_d_cache := c |> <| mini_d_cache := d |>, s).

Definition sa_mmu_cache_ops (instr value : Z) p s : option (sa_mmu_t * system M) :=
  let CRm := BITS instr 0 3 in
  let OPC_2 := BITS instr 5 7 in
  if (OPC_2 =? 0) && (CRm =? 7) then
    '(p, s) ← on_instr_cache mmu_cache_invalidate_all p s; on_data_caches mmu_cache_invalidate_all p s
  else if (OPC_2 =? 0) && (CRm =? 5) then on_instr_cache mmu_cache_invalidate_all p s
  else if (OPC_2 =? 0) && (CRm =? 6) then on_data_caches mmu_cache_invalidate_all p s
  else if (OPC_2 =? 1) && (CRm =? 6) then on_data_caches (mmu_cache_invalidate value) p s
  else if (OPC_2 =? 1) && (CRm =? 0xa) then on_data_caches (mmu_cache_clean value) p s
  else if (OPC_2 =? 4) && (CRm =? 0xa) then on_write_buffer mmu_wb_drain_all p s
  else Some (p, s).

Definition sa_mmu_tlb_ops (instr value : Z) p : sa_mmu_t :=
  let CRm := BITS instr 0 3 in
  let OPC_2 := BITS instr 5 7 in
  if (OPC_2 =? 0) && (CRm =? 7) then p <| sa_i_tlb ::= mmu_tlb_invalidate_all |> <| sa_d_tlb ::= mmu_tlb_invalidate_all |>
  else if (OPC_2 =? 0) && (CRm =? 5) then p <| sa_i_tlb ::= mmu_tlb_invalidate_all |>
  else if (OPC_2 =? 0) && (CRm =? 6) then p <| sa_d_tlb ::= mmu_tlb_invalidate_all |>
  else if (OPC_2 =? 1) && (CRm =? 6) then p <| sa_d_tlb ::= fun t => mmu_tlb_invalidate_entry t value |>
  else p.

Definition sa_mmu_rb_ops (instr value : Z) p s : option (sa_mmu_t * system M) :=
  let CRm := BITS instr 0 3 in
  let OPC_2 := BITS instr 5 7 in
  if (OPC_2 =? 0) && (CRm =? 0) then Some (p <| sa_rb ::= mmu_rb_invalidate_all |>, s)
  else if OPC_2 =? 2 then
    let idx := CRm &&& 3 in
    let type := ((CRm >>> 2) &&& 3) + 1 in
    if (idx <? 4) && (type <? 4) then
      '(b, t, s) ← mmu_rb_load idx type value (sa_d_tlb p) (sa_rb p) s; Some (p <| sa_rb := b |> <| sa_d_tlb := t |>, s)
    else Some (p, s)
  else if (OPC_2 =? 1) && (CRm <? 4) then Some (p <| sa_rb ::= mmu_rb_invalidate_entry CRm |>, s)
  else Some (p, s).

Definition sa_mmu_mcr (instr value : Z) p s : option (sa_mmu_t * system M) :=
  let c := creg instr in
  if negb (armv4 s) then Some (p, s)
  else if c =? MMU_CONTROL then Some (p, upd_cpu (fun k => k <| mmu_control := (value ||| 0x70) &&& 0xFFFD |>) s)
  else if c =? MMU_TRANSLATION_TABLE_BASE then Some (p, s <| translation_table_base := value &&& 0xFFFFC000 |>)
  else if c =? MMU_DOMAIN_ACCESS_CONTROL then Some (p, s <| domain_access_control := value |>)
  else if c =? MMU_FAULT_STATUS then Some (p, upd_cpu (fun k => k <| mmu_fault_status := value &&& 0xFF |>) s)
  else if c =? MMU_FAULT_ADDRESS then Some (p, upd_cpu (fun k => k <| mmu_fault_address := value |>) s)
  else if c =? MMU_CACHE_OPS then sa_mmu_cache_ops instr value p s
  else if c =? MMU_TLB_OPS then Some (sa_mmu_tlb_ops instr value p, s)
  else if c =? MMU_SA_RB_OPS then sa_mmu_rb_ops instr value p s
  else if c =? MMU_PID then Some (p, s <| process_id := value &&& 0x7e000000 |>)
  else Some (p, s).
End StrongArm.
