(* ===== verification/WbSpec.v ===== *)
(** * The write buffer is a queue of bytes

    The circular buffer holds the writes that memory has not seen yet, oldest
    first; [mmu_wb_write_bytes] appends to them, doing the oldest ones when
    there is no room, and [mmu_wb_drain_all] does them all. *)

From S2P Require Import Prelude Words Bits ArmState Machine ArmSys ArmMem MemSpec MmuBuffers.

(** ** The queue *)

(** A store is a byte and where it goes. *)
Definition stores (pa : Z) (data : list Z) : list (Z * Z) := imap (fun k d => (add32 pa (Z.of_nat k), d)) data.
Definition entry_stores (e : wb_entry_t) : list (Z * Z) := stores (wb_pa e) (take (Z.to_nat (wb_len e)) (wb_data e)).

(** The entry at the distance [k] from the oldest one. *)
Definition wb_index (b : wb_t) (k : Z) : Z := (wb_last b + k) mod wb_num b.
Definition nth_stores (b : wb_t) (k : Z) : list (Z * Z) :=
  default [] (entry_stores <$> wb_entrys b !! Z.to_nat (wb_index b k)).
Definition pending (b : wb_t) : list (Z * Z) := concat (map (nth_stores b) (seqZ 0 (wb_used b))).

Record wb_wf (b : wb_t) : Prop := {
  wf_num : 0 < wb_num b;
  wf_nb : 0 < wb_nb b;
  wf_entrys : Z.of_nat (length (wb_entrys b)) = wb_num b;
  wf_used : 0 <= wb_used b <= wb_num b;
  wf_last : 0 <= wb_last b < wb_num b;
  wf_first : wb_first b = wb_index b (wb_used b);
  wf_data : Forall (fun e => Z.of_nat (length (wb_data e)) = wb_nb b) (wb_entrys b);
  wf_len k : 0 <= k < wb_used b -> forall e, wb_entrys b !! Z.to_nat (wb_index b k) = Some e -> 0 <= wb_len e <= wb_nb b
}.

Lemma wb_wf_init num nb fresh : 0 < num -> 0 < nb -> (forall i, Z.of_nat (length (wb_data (fresh i))) = nb) ->
  wb_wf (mmu_wb_init num nb fresh) /\ pending (mmu_wb_init num nb fresh) = [].
Proof.
  intros Hn Hb Hf. split; [|done]. split; cbn [mmu_wb_init wb_num wb_nb wb_first wb_last wb_used wb_entrys]; try lia.
  - rewrite length_map, length_seqZ. lia.
  - unfold wb_index. cbn. symmetry. apply Z.mod_small. lia.
  - apply list.Forall_forall. intros e (i & -> & _)%list_elem_of_fmap. apply Hf.
Qed.

Lemma wb_index_range b k : wb_wf b -> 0 <= wb_index b k < wb_num b.
Proof. intros H. apply Z.mod_pos_bound, H. Qed.
Lemma wb_entry_there b i : wb_wf b -> 0 <= i < wb_num b ->
  exists e, wb_entrys b !! Z.to_nat i = Some e /\ Z.of_nat (length (wb_data e)) = wb_nb b.
Proof.
  intros H Hi. destruct (lookup_lt_is_Some_2 (wb_entrys b) (Z.to_nat i)) as [e He].
  { pose proof (wf_entrys b H). lia. }
  exists e. split; [done|]. pose proof (wf_data b H) as HF. rewrite Forall_lookup in HF. by eapply HF.
Qed.

(** The successor of an index. *)
Lemma wb_next_index b k : wb_wf b -> wb_next b (wb_index b k) = wb_index b (k + 1).
Proof.
  intros H. pose proof (wb_index_range b k H). pose proof (wf_num b H). unfold wb_next, wb_index in *. cbv zeta.
  replace (wb_last b + (k + 1)) with (wb_last b + k + 1) by lia.
  rewrite <- (Zplus_mod_idemp_l (wb_last b + k)). set (i := (wb_last b + k) mod wb_num b) in *.
  destruct (Z.eqb_spec (i + 1) (wb_num b)) as [->|]; [by rewrite Z.mod_same by lia|]. by rewrite Z.mod_small by lia.
Qed.
Lemma wb_index_0 b : wb_wf b -> wb_index b 0 = wb_last b.
Proof. intros H. unfold wb_index. rewrite Z.add_0_r. apply Z.mod_small, H. Qed.
(** Different distances, different entries. *)
Lemma wb_index_inj b j k : wb_wf b -> 0 <= j < wb_num b -> 0 <= k < wb_num b -> wb_index b j = wb_index b k -> j = k.
Proof.
  intros H Hj Hk E. unfold wb_index in E. pose proof (wf_num b H).
  pose proof (Z.div_mod (wb_last b + j) (wb_num b) ltac:(lia)). pose proof (Z.div_mod (wb_last b + k) (wb_num b) ltac:(lia)).
  rewrite E in *. set (q := (wb_last b + j) / wb_num b) in *. set (q' := (wb_last b + k) / wb_num b) in *.
  destruct (Z.lt_trichotomy q q') as [|[->|]]; nia.
Qed.

Lemma pending_empty b : wb_used b = 0 -> pending b = [].
Proof. unfold pending. by intros ->. Qed.

(** ** The operations on the queue *)

(** [b'] is [b] without its oldest entry. *)
Definition popped (b : wb_t) : wb_t :=
  b <| wb_last := wb_next b (wb_last b) |> <| wb_used ::= fun n => n - 1 |>.
Lemma wb_next_last b : wb_wf b -> wb_next b (wb_last b) = wb_index b 1.
Proof. intros H. pose proof (wb_next_index b 0 H) as E. by rewrite wb_index_0 in E. Qed.
Lemma popped_index b k : wb_wf b -> wb_index (popped b) k = wb_index b (k + 1).
Proof.
  intros H. unfold popped. rewrite wb_next_last by done. unfold wb_index at 1. upds. unfold wb_index. rewrite Zplus_mod_idemp_l. f_equal. lia.
Qed.
Lemma popped_wf b : wb_wf b -> 0 < wb_used b -> wb_wf (popped b).
Proof.
  intros H Hu. pose proof (popped_index b) as Hi. pose proof (wb_index_range b 1 H) as Hr.
  pose proof (wb_next_last b H) as En.
  split; try (unfold popped; upds; apply H).
  - unfold popped. upds. pose proof (wf_used b H). lia.
  - unfold popped. upds. by rewrite En.
  - rewrite Hi by done. unfold popped. upds. rewrite (wf_first b H). f_equal. lia.
  - intros k Hk e. rewrite Hi by done. apply (wf_len b H). revert Hk. unfold popped. upds. lia.
Qed.
Lemma pending_popped b : wb_wf b -> 0 < wb_used b -> pending b = nth_stores b 0 ++ pending (popped b).
Proof.
  intros H Hu. unfold pending. rewrite seqZ_cons by lia. cbn [map concat]. f_equal.
  assert (wb_used (popped b) = Z.pred (wb_used b)) as -> by (unfold popped; upds; lia).
  change (map (nth_stores b) (seqZ (Z.succ 0) (Z.pred (wb_used b)))) with (nth_stores b <$> seqZ (1 + 0) (Z.pred (wb_used b))).
  rewrite <- fmap_add_seqZ.
  rewrite <- list_fmap_compose. f_equal. apply list_fmap_ext. intros i k _. unfold compose, nth_stores.
  rewrite (popped_index b k H), (Z.add_comm 1 k). done.
Qed.

(** [b'] is [b] with one more entry. *)
Definition pushed (e : wb_entry_t) (b : wb_t) : wb_t :=
  b <| wb_entrys ::= <[Z.to_nat (wb_first b) := e]> |> <| wb_first := wb_next b (wb_first b) |> <| wb_used ::= fun n => n + 1 |>.
Lemma pushed_index e b k : wb_index (pushed e b) k = wb_index b k.
Proof. unfold pushed, wb_index. by upds. Qed.
Lemma pushed_lookup e b k : wb_wf b -> wb_used b < wb_num b -> 0 <= k <= wb_used b ->
  wb_entrys (pushed e b) !! Z.to_nat (wb_index b k) = if decide (k = wb_used b) then Some e else wb_entrys b !! Z.to_nat (wb_index b k).
Proof.
  intros H Hu Hk. unfold pushed. upds. rewrite (wf_first b H). pose proof (wb_index_range b k H). pose proof (wb_index_range b (wb_used b) H).
  destruct (decide (k = wb_used b)) as [->|Hne].
  - apply list_lookup_insert_eq. pose proof (wf_entrys b H). lia.
  - apply list_lookup_insert_ne. intros E%Z2Nat.inj; [|lia..]. apply Hne. pose proof (wf_used b H).
    apply (wb_index_inj b k (wb_used b) H); [lia|lia|done].
Qed.
Lemma pushed_wf e b : wb_wf b -> wb_used b < wb_num b -> Z.of_nat (length (wb_data e)) = wb_nb b -> 0 <= wb_len e <= wb_nb b ->
  wb_wf (pushed e b).
Proof.
  intros H Hu Hd Hl. pose proof (pushed_lookup e b) as Hp. pose proof (wb_next_index b (wb_used b) H) as Hn.
  split; rewrite ?pushed_index; try (unfold pushed; upds; apply H).
  - unfold pushed. upds. rewrite length_insert. apply H.
  - unfold pushed. upds. pose proof (wf_used b H). lia.
  - unfold pushed. upds. by rewrite (wf_first b H), Hn.
  - unfold pushed. upds. apply Forall_insert; [apply H|done].
  - intros k Hk f. assert (0 <= k <= wb_used b) as Hk' by (revert Hk; unfold pushed; upds; lia).
    rewrite pushed_index, Hp by done. assert (wb_nb (pushed e b) = wb_nb b) as -> by (unfold pushed; by upds).
    destruct (decide (k = wb_used b)); [intros [= <-]; done|]. apply (wf_len b H). lia.
Qed.
Lemma pending_pushed e b : wb_wf b -> wb_used b < wb_num b -> pending (pushed e b) = pending b ++ entry_stores e.
Proof.
  intros H Hu. unfold pending. assert (wb_used (pushed e b) = wb_used b + 1) as -> by (unfold pushed; by upds).
  pose proof (wf_used b H). rewrite seqZ_app by lia. rewrite map_app, concat_app. cbn. f_equal.
  - f_equal. apply list_fmap_ext. intros i k Hk%list_elem_of_lookup_2%elem_of_seqZ. unfold nth_stores.
    rewrite pushed_index, pushed_lookup by (done || lia). by rewrite decide_False by lia.
  - rewrite Z.add_0_l, seqZ_cons, seqZ_nil by lia. cbn [map concat]. rewrite app_nil_r. unfold nth_stores. rewrite pushed_index, pushed_lookup by (done || lia). by rewrite decide_True.
Qed.

(** ** The effect on memory *)

(** Memory after the stores of a queue. *)
Definition drained (e : Z) (q : list (Z * Z)) (m : Z -> Z) : Z -> Z :=
  fold_left (fun m '(a, d) => flat_write e Byte a d m) q m.
Lemma drained_app e q q' m : drained e (q ++ q') m = drained e q' (drained e q m).
Proof. apply fold_left_app. Qed.

(** Addresses of plain memory, and stores that go there. *)
Definition ram_at (bs : list mem_bank_t) (a : Z) : Prop :=
  word a /\ exists i b, at_bank bs a i b /\ reads_rom b /\ writes_rom b.
Definition store_ok (bs : list mem_bank_t) (x : Z * Z) : Prop := ram_at bs x.1 /\ word x.2.

Lemma lookup_stores pa data k : stores pa data !! k = (fun d => (add32 pa (Z.of_nat k), d)) <$> data !! k.
Proof. unfold stores. by rewrite list_lookup_imap. Qed.
Lemma stores_app pa data data' : word pa ->
  stores pa (data ++ data') = stores pa data ++ stores (add32 pa (Z.of_nat (length data))) data'.
Proof.
  intros Hp. unfold stores. rewrite imap_app. f_equal. apply list_eq. intros k. rewrite !list_lookup_imap.
  destruct (data' !! k); [|done]. cbn. do 2 f_equal. unfold add32. rewrite u32_add_l. f_equal. lia.
Qed.

Section Memory.
Context {M : Type} `{!Board M}.
Implicit Type s : system M.

Lemma mem_write_ram w a v s e m : bigendSig (cpu s) = e -> bit e -> implements e (ram s) m ->
  ram_at (mem_banks (ram s)) a -> word v ->
  exists s', mem_write w a v s = Some s' /\ same_but_ram s s' /\ implements e (ram s') (flat_write e w a v m).
Proof.
  intros He Hb Him (Ha & i & b & Hi & Hr & Hw) Hv.
  destruct (mem_write_flat e m w a v s i b) as (s' & E & Hs & Him'); try done; [by left|].
  exists s'. do 2 (split; [done|]). unfold is_ram in Him'. rewrite (find_at_bank _ a i b (wf_banks _ (proj1 Him)) Ha Hi), Hw in Him'.
  by rewrite bool_decide_eq_true_2 in Him'.
Qed.

Context (e : Z) (e_bit : bit e).

(** The state [s'] is [s] with other contents, which implement [m']. *)
Definition now_holds s s' (m' : Z -> Z) : Prop := same_but_ram s s' /\ implements e (ram s') m'.
Lemma now_holds_trans s s1 s2 m1 m2 : now_holds s s1 m1 -> now_holds s1 s2 m2 -> now_holds s s2 m2.
Proof. intros [H1 _] [H2 H]. split; [by apply (same_but_ram_trans s s1)|done]. Qed.
Lemma same_endian s s' : same_but_ram s s' -> bigendSig (cpu s') = bigendSig (cpu s).
Proof. intros H. by rewrite (same_but_ram_cpu s s' H). Qed.

Lemma entry_out en s m : bigendSig (cpu s) = e -> implements e (ram s) m ->
  0 <= wb_len en <= Z.of_nat (length (wb_data en)) -> Forall (store_ok (mem_banks (ram s))) (entry_stores en) ->
  exists s', wb_entry_out en s = Some s' /\ now_holds s s' (drained e (entry_stores en) m).
Proof.
  intros He Him Hl HF. unfold wb_entry_out.
  destruct (for_range_opt_ind (fun i s' => now_holds s s' (drained e (take (Z.to_nat i) (entry_stores en)) m))
    0 (wb_len en) (fun i s => d ← wb_data en !! Z.to_nat i; mem_write Byte (add32 (wb_pa en) i) d s) s) as (s' & -> & H').
  - lia.
  - split; [apply same_but_ram_refl|exact Him].
  - intros i s1 Hi [Hs1 Him1].
    destruct (lookup_lt_is_Some_2 (wb_data en) (Z.to_nat i)) as [d Hd]; [lia|].
    assert (entry_stores en !! Z.to_nat i = Some (add32 (wb_pa en) i, d)) as El.
    { unfold entry_stores. rewrite lookup_stores, lookup_take_lt, Hd by lia. cbn. by rewrite Z2Nat.id by lia. }
    rewrite Hd. cbn [mbind option_bind]. rewrite Forall_lookup in HF. destruct (HF _ _ El) as [Hr Hw]; cbn [fst snd] in *.
    destruct (mem_write_ram Byte (add32 (wb_pa en) i) d s1 e _ ltac:(by rewrite (same_endian s s1)) e_bit Him1) as (s2 & -> & Hs2 & Him2);
      [by destruct Hs1 as [_ ->]|done|].
    exists s2. split; [done|]. split; [by apply (same_but_ram_trans s s1)|].
    replace (Z.to_nat (i + 1)) with (S (Z.to_nat i)) by lia. rewrite (take_S_r _ _ _ El), drained_app. done.
  - exists s'. split; [done|]. rewrite take_ge in H'; [done|].
    unfold entry_stores, stores. rewrite length_imap, length_take. lia.
Qed.

Lemma oldest_entry b : wb_wf b -> 0 < wb_used b ->
  exists en, wb_entrys b !! Z.to_nat (wb_last b) = Some en /\ nth_stores b 0 = entry_stores en /\
    0 <= wb_len en <= Z.of_nat (length (wb_data en)).
Proof.
  intros H Hu. destruct (wb_entry_there b (wb_last b) H (wf_last b H)) as (en & E & Hd). exists en. split; [done|].
  split; [by unfold nth_stores; rewrite wb_index_0, E by done|]. rewrite Hd. apply (wf_len b H 0); [lia|]. by rewrite wb_index_0.
Qed.

Lemma clean_last b s m : wb_wf b -> 0 < wb_used b -> bigendSig (cpu s) = e -> implements e (ram s) m ->
  Forall (store_ok (mem_banks (ram s))) (pending b) ->
  exists s', wb_clean_last b s = Some (popped b, s') /\ now_holds s s' (drained e (nth_stores b 0) m).
Proof.
  intros H Hu He Him HF. destruct (oldest_entry b H Hu) as (en & E & En & Hl).
  rewrite pending_popped, En in HF by done. apply Forall_app in HF as [HF _].
  unfold wb_clean_last. rewrite E. cbn [mbind option_bind].
  destruct (entry_out en s m He Him Hl HF) as (s' & -> & Hs). cbn [mbind option_bind]. exists s'. by rewrite En.
Qed.

Lemma drain_loop n b s m : wb_wf b -> wb_used b = Z.of_nat n -> bigendSig (cpu s) = e -> implements e (ram s) m ->
  Forall (store_ok (mem_banks (ram s))) (pending b) ->
  exists b' s', wb_drain_loop n b s = Some (b', s') /\ now_holds s s' (drained e (pending b) m) /\
    wb_wf b' /\ pending b' = [] /\ wb_nb b' = wb_nb b.
Proof.
  revert b s m. induction n as [|n IH]; intros b s m H Hu He Him HF; cbn [wb_drain_loop].
  - rewrite Hu. cbn [Z.eqb Z.of_nat]. exists b, s. rewrite pending_empty by done. repeat (split; [done|]).
    split; [split; [apply same_but_ram_refl|done]|]. done.
  - destruct (Z.eqb_spec (wb_used b) 0); [lia|].
    destruct (clean_last b s m H ltac:(lia) He Him HF) as (s1 & -> & Hs1). cbn [mbind option_bind].
    destruct (IH (popped b) s1 (drained e (nth_stores b 0) m)) as (b' & s' & -> & Hs' & H').
    + apply popped_wf; [done|lia].
    + unfold popped. upds. lia.
    + rewrite (same_endian s s1); [done|apply Hs1].
    + apply Hs1.
    + destruct Hs1 as [[_ ->] _]. rewrite pending_popped in HF by (done || lia). by apply Forall_app in HF as [_ HF].
    + exists b', s'. split; [done|]. rewrite (pending_popped b), drained_app by (done || lia).
      split; [by apply (now_holds_trans s s1 _ _ _ Hs1)|done].
Qed.

(** Appending. *)
Lemma push_spec pa data b : wb_wf b -> wb_used b < wb_num b -> data <> [] ->
  exists i b', wb_push pa data b = Some (i, b') /\ wb_wf b' /\ 0 < i <= Z.of_nat (length data) /\
    pending b' = pending b ++ stores pa (take (Z.to_nat i) data).
Proof.
  intros H Hu Hd. pose proof (wb_index_range b (wb_used b) H) as Hf. rewrite <- (wf_first b H) in Hf.
  destruct (wb_entry_there b _ H Hf) as (en & E & Hl). unfold wb_push. rewrite E. cbn [mbind option_bind].
  assert (0 < length data)%nat as Hn by (destruct data; [done|simpl; lia]). pose proof (wf_nb b H) as Hb.
  set (i := if Z.of_nat (length data) <? wb_nb b then Z.of_nat (length data) else wb_nb b).
  assert (0 < i <= Z.of_nat (length data) /\ i <= wb_nb b) as [Hi Hi'] by (unfold i; destruct (Z.ltb_spec (Z.of_nat (length data)) (wb_nb b)); lia).
  exists i, (pushed (wb_fill pa i data en) b). split; [done|].
  assert (length (take (Z.to_nat i) data) = Z.to_nat i) as Ht by (rewrite length_take; lia).
  split; [|split; [done|]].
  - apply pushed_wf; [done|done| |cbn [wb_fill wb_len]; lia]. cbn [wb_fill wb_data]. rewrite length_app, length_drop. lia.
  - rewrite pending_pushed by done. f_equal. unfold entry_stores. cbn [wb_fill wb_pa wb_data wb_len].
    f_equal. by rewrite <- Ht at 1; rewrite take_app_length.
Qed.

(** The buffer after making room for one entry. *)
Lemma make_room b s m : wb_wf b -> bigendSig (cpu s) = e -> implements e (ram s) m ->
  Forall (store_ok (mem_banks (ram s))) (pending b) ->
  exists b' s' out, (if wb_num b =? wb_used b then wb_clean_last b s else Some (b, s)) = Some (b', s') /\
    now_holds s s' (drained e out m) /\ wb_wf b' /\ wb_used b' < wb_num b' /\ pending b = out ++ pending b'.
Proof.
  intros H He Him HF. pose proof (wf_num b H). pose proof (wf_used b H). destruct (Z.eqb_spec (wb_num b) (wb_used b)) as [E|E].
  - destruct (clean_last b s m H ltac:(lia) He Him HF) as (s' & -> & Hs). exists (popped b), s', (nth_stores b 0).
    split; [done|]. split; [done|]. split; [apply popped_wf; [done|lia]|]. split; [unfold popped; upds; lia|]. apply pending_popped; [done|lia].
  - exists b, s, []. split; [done|]. split; [split; [apply same_but_ram_refl|done]|]. split; [done|]. split; [lia|done].
Qed.

Lemma write_loop n pa data b s m : (length data <= n)%nat -> wb_wf b -> word pa -> bigendSig (cpu s) = e -> implements e (ram s) m ->
  Forall (store_ok (mem_banks (ram s))) (pending b) -> Forall (store_ok (mem_banks (ram s))) (stores pa data) ->
  exists b' s' out, wb_write_loop n pa data b s = Some (b', s') /\ now_holds s s' (drained e out m) /\ wb_wf b' /\
    pending b ++ stores pa data = out ++ pending b'.
Proof.
  revert pa data b s m. induction n as [|n IH]; intros pa data b s m Hn H Hp He Him HF HF'; destruct data as [|d data];
    cbn [wb_write_loop]; try (cbn [length] in Hn; lia);
    try (exists b, s, []; split; [done|]; split; [split; [apply same_but_ram_refl|done]|]; by rewrite app_nil_r).
  destruct (make_room b s m H He Him HF) as (b1 & s1 & out & -> & Hs1 & H1 & Hu & Ep). cbn [mbind option_bind].
  destruct (push_spec pa (d :: data) b1 H1 Hu ltac:(done)) as (i & b2 & -> & H2 & Hi & Ep2). cbn [mbind option_bind].
  set (l := d :: data) in *. assert (mem_banks (ram s1) = mem_banks (ram s)) as Eb by apply Hs1.
  assert (stores pa l = stores pa (take (Z.to_nat i) l) ++ stores (add32 pa i) (drop (Z.to_nat i) l)) as El.
  { rewrite <- (take_drop (Z.to_nat i) l) at 1. rewrite stores_app by done. rewrite length_take. do 3 f_equal. lia. }
  rewrite El in HF'. apply Forall_app in HF' as [HFa HFb].
  rewrite Ep in HF. apply Forall_app in HF as [_ HF].
  destruct (IH (add32 pa i) (drop (Z.to_nat i) l) b2 s1 (drained e out m)) as (b' & s' & out' & -> & Hs' & H' & Ep').
  - rewrite length_drop. lia.
  - done.
  - apply word_add32.
  - by rewrite (same_endian s s1) by apply Hs1.
  - apply Hs1.
  - rewrite Eb, Ep2. by apply Forall_app.
  - by rewrite Eb.
  - exists b', s', (out ++ out'). split; [done|]. rewrite drained_app.
    split; [by apply (now_holds_trans s s1 _ _ _ Hs1)|]. split; [done|]. by rewrite Ep, El, <- !app_assoc, <- Ep', Ep2, <- !app_assoc.
Qed.
End Memory.
