(* ===== verification/CacheLines.v ===== *)
(** * The lines of a write-back cache

    Where [upd_line] and the loops of cache.c read and write, and what writing
    a line back leaves in memory. *)

From S2P Require Import Prelude Words Bits ArmState Machine ArmSys ArmMem MemSpec Cache MmuBuffers WbSpec Harvard.

(** The line [j] of the set [i]. *)
Definition cline (c : cache_t) (i j : nat) : option cache_line_t := set ← sets c !! i; lines_of set !! j.
Lemma cache_line_cline c p : cache_line c p = cline c (Z.to_nat p.1) (Z.to_nat p.2).
Proof. done. Qed.

Definition is_ptr (p : Z * Z) (i j : nat) : Prop := i = Z.to_nat p.1 /\ j = Z.to_nat p.2.
#[export] Instance is_ptr_dec p i j : Decision (is_ptr p i j).
Proof. unfold is_ptr. apply _. Defined.

Lemma cline_upd p f c i j : cline (upd_line p f c) i j = (if decide (is_ptr p i j) then f <$> cline c i j else cline c i j).
Proof.
  unfold cline, upd_line. upds. destruct (decide (is_ptr p i j)) as [[-> ->]|Hne].
  - rewrite list_lookup_alter_eq. destruct (sets c !! Z.to_nat p.1); [|done]. cbn. upds. by rewrite list_lookup_alter_eq.
  - destruct (decide (i = Z.to_nat p.1)) as [->|]; [|by rewrite list_lookup_alter_ne].
    rewrite list_lookup_alter_eq. destruct (sets c !! Z.to_nat p.1); [|done]. cbn. upds.
    rewrite list_lookup_alter_ne; [done|]. intros <-. by apply Hne.
Qed.
Lemma cline_cycle k i0 c i j : cline (c <| sets ::= alter (fun set => set <| set_cycle := k |>) i0 |>) i j = cline c i j.
Proof.
  unfold cline. upds. destruct (decide (i = i0)) as [->|]; [|by rewrite list_lookup_alter_ne].
  rewrite list_lookup_alter_eq. by destruct (sets c !! i0).
Qed.

(** ** Shape *)

Definition line_shape (l : cache_line_t) : Prop := length (line_data l) = 8%nat /\ Forall word (line_data l).
Definition set_shape (c : cache_t) (set : cache_set_t) : Prop :=
  Z.of_nat (length (lines_of set)) = c_way c /\ 0 <= set_cycle set < c_way c /\ Forall line_shape (lines_of set).
Record dc_wf (c : cache_t) : Prop := {
  dc_width : c_width c = 32;
  dc_mode : c_w_mode c = CACHE_WRITE_BACK;
  dc_pos : 0 < c_set c;
  dc_sets : Z.of_nat (length (sets c)) = c_set c;
  dc_shapes : Forall (set_shape c) (sets c)
}.

Lemma dc_wf_init way set fresh : 0 < set -> 0 < way -> (forall i j, line_shape (fresh i j)) ->
  dc_wf (mmu_cache_init 32 way set CACHE_WRITE_BACK fresh).
Proof.
  intros Hs Hw Hf. split; cbn [mmu_cache_init c_width c_w_mode c_set sets]; try done; [rewrite length_map, length_seqZ; lia|].
  apply list.Forall_forall. intros x (i & -> & _)%list_elem_of_fmap. split; [|split]; cbn [lines_of set_cycle c_way mmu_cache_init].
  - rewrite length_map, length_seqZ. lia.
  - lia.
  - apply list.Forall_forall. intros l (j & -> & _)%list_elem_of_fmap. apply (Hf i j).
Qed.

Lemma dc_set_range va c : dc_wf c -> 0 <= va_cache_set va c < c_set c.
Proof.
  intros [_ _ H _ _]. unfold va_cache_set. pose proof (land_le_r (va / c_width c) (c_set c - 1) ltac:(lia)). lia.
Qed.
Lemma dc_set_there c i : dc_wf c -> 0 <= i < c_set c -> exists set, sets c !! Z.to_nat i = Some set /\ set_shape c set.
Proof.
  intros [_ _ _ Hl HF] Hi. destruct (lookup_lt_is_Some_2 (sets c) (Z.to_nat i)) as [set E]; [lia|].
  exists set. split; [done|]. rewrite Forall_lookup in HF. by eapply HF.
Qed.
Lemma dc_line_shape c i j l : dc_wf c -> cline c i j = Some l -> line_shape l.
Proof.
  intros H. unfold cline. destruct (sets c !! i) as [set|] eqn:E; [|done]. cbn [mbind option_bind]. intros El.
  pose proof (dc_shapes c H) as HF. rewrite Forall_lookup in HF. destruct (HF _ _ E) as (_ & _ & HL).
  rewrite Forall_lookup in HL. by eapply HL.
Qed.
Lemma cline_range c i j l : dc_wf c -> cline c i j = Some l -> Z.of_nat i < c_set c /\ Z.of_nat j < c_way c.
Proof.
  intros H. unfold cline. destruct (sets c !! i) as [set|] eqn:E; [|done]. cbn [mbind option_bind]. intros El%lookup_lt_Some.
  pose proof (dc_shapes c H) as HF. rewrite Forall_lookup in HF. destruct (HF _ _ E) as (Hl & _).
  apply lookup_lt_Some in E. pose proof (dc_sets c H). lia.
Qed.
Lemma dc_line_there c p : dc_wf c -> 0 <= p.1 < c_set c -> 0 <= p.2 < c_way c -> exists l, cache_line c p = Some l.
Proof.
  intros H H1 H2. destruct (dc_set_there c p.1 H H1) as (set & E & Hl & _). unfold cache_line. rewrite E. cbn [mbind option_bind].
  destruct (lookup_lt_is_Some_2 (lines_of set) (Z.to_nat p.2)) as [l ->]; [lia|by exists l].
Qed.
Lemma dc_wf_upd p f c : dc_wf c -> (forall l, line_shape l -> line_shape (f l)) -> dc_wf (upd_line p f c).
Proof.
  intros [H1 H2 H3 H4 H5] Hf. unfold upd_line. split; upds; try done; [by rewrite length_alter|].
  apply Forall_alter; [done|]. intros set _ (L1 & L2 & L3). split; [|split]; upds; [by rewrite length_alter|done|].
  apply Forall_alter; [done|]. intros l _. apply Hf.
Qed.
Lemma dc_wf_cycle k i c : dc_wf c -> 0 <= k < c_way c -> dc_wf (c <| sets ::= alter (fun set => set <| set_cycle := k |>) i |>).
Proof.
  intros [H1 H2 H3 H4 H5] Hk. split; upds; try done; [by rewrite length_alter|].
  apply Forall_alter; [done|]. intros set _ (L1 & L2 & L3). by split; [|split]; upds.
Qed.

(** ** Tags *)

Definition valid (l : cache_line_t) : bool := Z.testbit (tag l) 0.
(** The half [h] of the line differs from memory. *)
Definition dirty (l : cache_line_t) (h : Z) : bool := Z.testbit (tag l) (1 + h).

Lemma valid_flag l : truth (tag l &&& TAG_VALID_FLAG) = valid l.
Proof. unfold valid. by apply (truth_land_pow2 _ 0). Qed.
Lemma valid_zero l : (tag l &&& 1 =? 0) = negb (valid l).
Proof. rewrite <- valid_flag. unfold truth, TAG_VALID_FLAG. by destruct (_ =? 0). Qed.

Lemma dirty_flags t : t &&& (TAG_FIRST_HALF_DIRTY ||| TAG_LAST_HALF_DIRTY) =
  (if Z.testbit t 1 then 2 else 0) + (if Z.testbit t 2 then 4 else 0).
Proof.
  change (TAG_FIRST_HALF_DIRTY ||| TAG_LAST_HALF_DIRTY) with 6.
  assert (t &&& 6 = (t mod 8) &&& 6) as -> by (change 8 with (2 ^ 3); rewrite <- Z.land_ones by done; by rewrite <- Z.land_assoc).
  rewrite <- (Z.mod_pow2_bits_low t 3 1), <- (Z.mod_pow2_bits_low t 3 2) by lia. change (2 ^ 3) with 8.
  pose proof (Z.mod_pos_bound t 8 ltac:(lia)). set (x := t mod 8) in *. clearbody x.
  assert (x = 0 \/ x = 1 \/ x = 2 \/ x = 3 \/ x = 4 \/ x = 5 \/ x = 6 \/ x = 7) as Hx by lia.
  by repeat (destruct Hx as [->|Hx]; [done|]); subst x.
Qed.

(** Which words [mmu_cache_write_back] writes. *)
Lemma dirty_words_spec c l : c_width c = 32 ->
  dirty_words c l = match dirty l 0, dirty l 1 with
                    | false, false => None
                    | true, false => Some (4, 0)
                    | false, true => Some (4, 4)
                    | true, true => Some (8, 0)
                    end.
Proof.
  intros Hw. unfold dirty_words. rewrite Hw. cbv zeta. rewrite dirty_flags. unfold dirty. change (1 + 0) with 1. change (1 + 1) with 2.
  by destruct (Z.testbit (tag l) 1), (Z.testbit (tag l) 2).
Qed.
Lemma dirty_clean t f l : tag l = t &&~ (TAG_FIRST_HALF_DIRTY ||| TAG_LAST_HALF_DIRTY) -> 0 <= f <= 1 -> dirty l f = false.
Proof.
  intros E Hf. unfold dirty. rewrite E, Z.ldiff_spec. assert (f = 0 \/ f = 1) as [->| ->] by lia; apply andb_false_r.
Qed.
Lemma valid_clean t l : tag l = t &&~ (TAG_FIRST_HALF_DIRTY ||| TAG_LAST_HALF_DIRTY) -> valid l = Z.testbit t 0.
Proof. intros E. unfold valid. rewrite E, Z.ldiff_spec. apply andb_true_r. Qed.

(** The address in a tag, which the flags do not touch. *)
Lemma align_bits (c : cache_t) x y : c_width c = 32 -> (forall i, 5 <= i -> Z.testbit x i = Z.testbit y i) ->
  va_cache_align x c = va_cache_align y c.
Proof.
  intros Hw H. unfold va_cache_align. rewrite Hw. change (32 - 1) with (Z.ones 5). apply Z.bits_inj'. intros i Hi.
  rewrite !Z.ldiff_spec, !(testbit_ones (Z.ones 5) 5) by done. destruct (Z.ltb_spec i 5).
  - rewrite (proj2 (Z.leb_le 0 i)) by done. by rewrite !andb_false_r.
  - by rewrite H.
Qed.
Lemma align_mod c x : c_width c = 32 -> va_cache_align x c = x - x mod 32.
Proof.
  intros Hw. unfold va_cache_align. rewrite Hw. change (32 - 1) with (Z.ones 5).
  rewrite Z.ldiff_ones_r, Z.shiftl_mul_pow2, Z.shiftr_div_pow2 by lia. change (2 ^ 5) with 32. dlia.
Qed.

(** ** Bytes *)

(** The byte of a line at a physical address, by the address in the line. *)
Definition line_byte (e : Z) (l : cache_line_t) (x : Z) : Z := lane (nth (Z.to_nat (x mod 32 / 4)) (line_data l) 0) (pos e x).
Definition in_line (l : cache_line_t) (x : Z) : Prop := x / 32 = line_pa l / 32.
#[export] Instance in_line_dec l x : Decision (in_line l x).
Proof. unfold in_line. apply _. Defined.
Definition dirty_at (l : cache_line_t) (x : Z) : bool := dirty l (x mod 32 / 16).

Lemma line_word_at l k : line_shape l -> 0 <= k < 8 ->
  exists d, line_data l !! Z.to_nat k = Some d /\ word d /\ nth (Z.to_nat k) (line_data l) 0 = d.
Proof.
  intros [Hl HF] Hk. destruct (lookup_lt_is_Some_2 (line_data l) (Z.to_nat k)) as [d E]; [lia|].
  exists d. split; [done|]. split; [rewrite Forall_lookup in HF; by eapply HF|]. by apply nth_lookup_Some.
Qed.

(** The lane of a word that is written to memory. *)
Lemma flat_write_word e a d m x : a mod 4 = 0 -> flat_write e Word a d m x = if decide (same_word x a) then lane d (pos e x) else m x.
Proof.
  intros Ha. unfold flat_write, align. cbn [size]. rewrite Ha, Z.sub_0_r. unfold same_word.
  destruct (decide (x / 4 = a / 4)) as [E|E].
  - rewrite (proj2 (Z.leb_le a x)), (proj2 (Z.ltb_lt x (a + 4))) by dlia. cbn [andb]. unfold lane, pos, lane_no. do 3 f_equal.
    cbn [size]. destruct (e =? 0); dlia.
  - destruct (Z.leb_spec a x), (Z.ltb_spec x (a + 4)); try done. exfalso. apply E. dlia.
Qed.

(** ** Searching *)

Lemma line_hit_spec c va l : line_hit c va l = valid l && (va_cache_align va c =? va_cache_align (tag l) c).
Proof. unfold line_hit. by rewrite valid_flag. Qed.

Lemma cache_search_spec c va : dc_wf c -> exists o, mmu_cache_search c va = Some o /\
  match o with
  | Some q => q.1 = va_cache_set va c /\ 0 <= q.2 < c_way c /\
      exists l, cache_line c q = Some l /\ valid l = true /\ va_cache_align va c = va_cache_align (tag l) c
  | None => forall j l, cline c (Z.to_nat (va_cache_set va c)) j = Some l -> valid l = true ->
      va_cache_align va c <> va_cache_align (tag l) c
  end.
Proof.
  intros H. unfold mmu_cache_search. cbv zeta. destruct (dc_set_there c _ H (dc_set_range va c H)) as (set & E & Hl & _).
  rewrite E. cbn [mbind option_bind]. eexists. split; [reflexivity|].
  destruct (list_find _ _) as [[j l]|] eqn:Ef; cbn [fmap option_fmap option_map].
  - apply list_find_Some in Ef as (Ej & Eh & _). rewrite line_hit_spec in Eh. apply andb_true_iff in Eh as [Ev Ea%Z.eqb_eq].
    apply lookup_take_Some in Ej as [Ej Hj]. cbn [fst snd]. split; [done|]. split; [lia|]. exists l.
    split; [|done]. unfold cache_line. cbn [fst snd]. rewrite E. cbn [mbind option_bind]. by rewrite Nat2Z.id.
  - apply list_find_None in Ef. rewrite Forall_lookup in Ef. intros j l. unfold cline. rewrite E. cbn [mbind option_bind].
    intros El Hv Ha. apply (Ef j l).
    + rewrite take_ge by lia. done.
    + by rewrite line_hit_spec, Hv, Ha, Z.eqb_refl.
Qed.

(** ** Memory *)

Section Memory.
Context {M : Type} `{!Board M}.
Implicit Type s : system M.
Context (e : Z) (e_bit : bit e).

(** [s'] is [s] with other contents of memory, [m'], which is [f] everywhere. *)
Definition becomes s s' (f : Z -> Z) : Prop := exists m, now_holds e s s' m /\ forall x, m x = f x.

(** A run of words from memory address [a] on. *)
Lemma write_words (a n : Z) (data : Z -> Z) s m (body : Z -> system M -> option (system M)) :
  bigendSig (cpu s) = e -> implements e (ram s) m -> a mod 4 = 0 -> 0 <= n ->
  (forall i, 0 <= i < n -> word (a + 4 * i) /\ word (data i) /\ ram_at (mem_banks (ram s)) (a + 4 * i)) ->
  (forall i s, 0 <= i < n -> body i s = mem_write Word (a + 4 * i) (data i) s) ->
  exists s', for_range_opt 0 n body s = Some s' /\
    becomes s s' (fun x => if (a <=? x) && (x <? a + 4 * n) then lane (data ((x - a) / 4)) (pos e x) else m x).
Proof.
  intros He Him Ha Hn Hok Hbody.
  apply (for_range_opt_ind (fun i s' => becomes s s'
    (fun x => if (a <=? x) && (x <? a + 4 * i) then lane (data ((x - a) / 4)) (pos e x) else m x))); [done|..].
  - exists m. split; [split; [apply same_but_ram_refl|done]|]. intros x.
    destruct (Z.leb_spec a x), (Z.ltb_spec x (a + 4 * 0)); try done. lia.
  - intros i s1 Hi (m1 & [Hs1 Him1] & Hm1). destruct (Hok i Hi) as (Hw & Hd & Hr). rewrite Hbody by done.
    destruct (mem_write_ram Word (a + 4 * i) (data i) s1 e m1 ltac:(by rewrite (same_endian s s1)) e_bit Him1) as (s2 & -> & Hs2 & Him2);
      [by destruct Hs1 as [_ ->]|done|].
    exists s2. split; [done|]. eexists. split; [split; [by apply (same_but_ram_trans s s1)|exact Him2]|].
    intros x. rewrite flat_write_word, Hm1 by dlia. unfold same_word. destruct (decide (x / 4 = (a + 4 * i) / 4)) as [E|E].
    + rewrite (proj2 (Z.leb_le a x)), (proj2 (Z.ltb_lt x _)) by dlia. cbn [andb]. do 2 f_equal. dlia.
    + destruct (Z.leb_spec a x), (Z.ltb_spec x (a + 4 * i)), (Z.ltb_spec x (a + 4 * (i + 1))); try done; exfalso; [lia|].
      apply E. dlia.
Qed.

(** A line that may be written back: its address is a line in plain memory. *)
Definition line_home (bs : list mem_bank_t) (l : cache_line_t) : Prop :=
  line_pa l mod 32 = 0 /\ forall x, in_line l x -> ram_at bs x.

Definition cleaned (l : cache_line_t) : cache_line_t :=
  l <| tag ::= fun t => t &&~ (TAG_FIRST_HALF_DIRTY ||| TAG_LAST_HALF_DIRTY) |>.

Lemma write_back_line c p l s m nw first : dc_wf c -> cache_line c p = Some l -> line_home (mem_banks (ram s)) l ->
  bigendSig (cpu s) = e -> implements e (ram s) m ->
  (first, nw) = (0, 4) \/ (first, nw) = (4, 4) \/ (first, nw) = (0, 8) ->
  exists s', for_range_opt 0 nw (fun i s =>
      d ← line_data l !! Z.to_nat (first + i); mem_write Word (add32 (add32 (line_pa l) (first <<< 2)) (4 * i)) d s) s = Some s' /\
    becomes s s' (fun x => if (line_pa l + 4 * first <=? x) && (x <? line_pa l + 4 * (first + nw)) then line_byte e l x else m x).
Proof.
  intros H Hl [Ha Hr] He Him Hn.
  assert (Hnw : 0 <= first /\ 0 < nw /\ first + nw <= 8) by (destruct Hn as [[= -> ->]|[[= -> ->]|[= -> ->]]]; lia).
  pose proof (dc_line_shape c _ _ l H Hl) as Hsh. set (pa := line_pa l) in *.
  assert (Hblk : forall k, 0 <= k < 32 -> word (pa + k)).
  { intros k Hk. destruct (Hr (pa + k)) as [Hw _]; [unfold in_line; fold pa; dlia|done]. }
  pose proof (Hblk 0 ltac:(lia)) as Hp0. pose proof (Hblk 31 ltac:(lia)) as Hp31. unfold word in Hp0, Hp31.
  assert (Ef : first <<< 2 = 4 * first) by (rewrite Z.shiftl_mul_pow2 by done; change (2 ^ 2) with 4; lia).
  rewrite Ef. assert (add32 pa (4 * first) = pa + 4 * first) as -> by (apply u32_id; unfold word; lia).
  destruct (write_words (pa + 4 * first) nw (fun i => nth (Z.to_nat (first + i)) (line_data l) 0) s m
    (fun i s => d ← line_data l !! Z.to_nat (first + i); mem_write Word (add32 (pa + 4 * first) (4 * i)) d s))
    as (s' & -> & m' & Hs' & Hm'); [done|done|dlia|lia|..].
  - intros i Hi. assert (in_line l (pa + 4 * first + 4 * i)) as Hin by (unfold in_line; fold pa; dlia).
    destruct (line_word_at l (first + i) Hsh ltac:(lia)) as (d & _ & Hd & ->). split; [apply (Hr _ Hin)|]. split; [done|by apply Hr].
  - intros i s1 Hi. destruct (line_word_at l (first + i) Hsh ltac:(lia)) as (d & -> & Hd & ->). cbn [mbind option_bind].
    f_equal. apply u32_id. unfold word. lia.
  - exists s'. split; [done|]. exists m'. split; [done|]. intros x. rewrite Hm'.
    replace (pa + 4 * first + 4 * nw) with (pa + 4 * (first + nw)) by lia.
    destruct (_ && _) eqn:E; [|done]. apply andb_true_iff in E as [E1%Z.leb_le E2%Z.ltb_lt].
    unfold line_byte. do 3 f_equal. dlia.
Qed.

Lemma write_back_spec c p l s m : dc_wf c -> cache_line c p = Some l -> (valid l = true -> line_home (mem_banks (ram s)) l) ->
  bigendSig (cpu s) = e -> implements e (ram s) m ->
  exists c' s', mmu_cache_write_back p c s = Some (c', s') /\
    becomes s s' (fun x => if valid l && bool_decide (in_line l x) && dirty_at l x then line_byte e l x else m x) /\
    ((c' = c /\ (valid l = true -> dirty l 0 = false /\ dirty l 1 = false)) \/ (valid l = true /\ c' = upd_line p cleaned c)).
Proof.
  intros H Hl Hh He Him. unfold mmu_cache_write_back. rewrite Hl. cbn [mbind option_bind]. rewrite valid_zero.
  assert (Hsame : forall P : Prop, (valid l = true -> dirty l 0 = false /\ dirty l 1 = false) -> P ->
    becomes s s (fun x => if valid l && bool_decide (in_line l x) && dirty_at l x then line_byte e l x else m x) /\ P).
  { intros P Hd HP. split; [|done]. exists m. split; [split; [apply same_but_ram_refl|done]|]. intros x.
    destruct (valid l); [|done]. destruct (Hd eq_refl) as [H0 H1]. unfold dirty_at.
    assert (x mod 32 / 16 = 0 \/ x mod 32 / 16 = 1) as [->| ->] by dlia; by rewrite ?H0, ?H1, andb_false_r. }
  destruct (valid l) eqn:Hv; cbn [negb].
  2:{ exists c, s. split; [done|]. by apply Hsame; [|left]. }
  specialize (Hh eq_refl). rewrite (dirty_words_spec c l (dc_width c H)).
  destruct (dirty l 0) eqn:H0, (dirty l 1) eqn:H1;
    [destruct (write_back_line c p l s m 8 0 H Hl Hh He Him) as (s' & -> & Hs'); [by right; right|]
    |destruct (write_back_line c p l s m 4 0 H Hl Hh He Him) as (s' & -> & Hs'); [by left|]
    |destruct (write_back_line c p l s m 4 4 H Hl Hh He Him) as (s' & -> & Hs'); [by right; left|]
    |exists c, s; split; [done|]; by apply Hsame; [|left]];
    cbn [mbind option_bind]; exists (upd_line p cleaned c), s'; (split; [done|]); (split; [|by right]);
    destruct Hs' as (m' & Hs' & Hm'); exists m'; (split; [done|]); intros x; rewrite Hm'; clear Hm';
    destruct Hh as [Ha _]; unfold dirty_at; cbn [andb].
  - assert (x mod 32 / 16 = 0 \/ x mod 32 / 16 = 1) as [->| ->] by dlia; rewrite ?H0, ?H1, andb_true_r; unfold in_line;
      case_bool_decide as E; destruct (_ && _) eqn:E'; try done; exfalso; dlia.
  - assert (x mod 32 / 16 = 0 \/ x mod 32 / 16 = 1) as [E| E] by dlia; rewrite E, ?H0, ?H1, ?andb_true_r, ?andb_false_r; unfold in_line;
      try case_bool_decide as E0; destruct (_ && _) eqn:E'; try done; exfalso; dlia.
  - assert (x mod 32 / 16 = 0 \/ x mod 32 / 16 = 1) as [E| E] by dlia; rewrite E, ?H0, ?H1, ?andb_true_r, ?andb_false_r; unfold in_line;
      try case_bool_decide as E0; destruct (_ && _) eqn:E'; try done; exfalso; dlia.
Qed.

Lemma upd_line_twice p f g c : upd_line p f (upd_line p g c) = upd_line p (fun l => f (g l)) c.
Proof.
  destruct c as [w y n md ss]. unfold upd_line, upd. simpl. f_equal. rewrite list_alter_alter_eq.
  apply list_alter_ext; [|done]. intros [ls k] _. unfold compose. simpl. f_equal. rewrite list_alter_alter_eq. done.
Qed.

(** Reading a line. *)
Lemma fill_line_spec pa p c s m : dc_wf c -> cache_line c p <> None -> bigendSig (cpu s) = e -> implements e (ram s) m ->
  pa mod 32 = 0 -> (forall x, x / 32 = pa / 32 -> ram_at (mem_banks (ram s)) x /\ remap s x = x) ->
  exists F s', fill_line pa p c s = Some (upd_line p (fun l => l <| line_data ::= F |>) c, s') /\ now_holds e s s' m /\
    forall a, length a = 8%nat -> length (F a) = 8%nat /\
      forall k, 0 <= k < 8 -> F a !! Z.to_nat k = Some (flat_read e Word m (pa + 4 * k)).
Proof.
  intros H Hl He Him Ha Hr. unfold fill_line. rewrite (dc_width c H). change (32 >>> 2) with 8.
  destruct (for_range_opt_ind (fun i '(c', s') => now_holds e s s' m /\
      exists F, c' = upd_line p (fun l => l <| line_data ::= F |>) c /\ forall a, length a = 8%nat -> length (F a) = 8%nat /\
        forall k, 0 <= k < i -> F a !! Z.to_nat k = Some (flat_read e Word m (pa + 4 * k)))
    0 8 (fun i '(c, s) => '(d, s) ← mem_read Word (add32 pa (4 * i)) s;
      l ← cache_line c p; _ ← line_data l !! Z.to_nat i;
      Some (upd_line p (fun l => l <| line_data ::= fun a => wr a i d |>) c, s)) (c, s)) as ([c' s'] & -> & Hs & F & -> & HF).
  - lia.
  - split; [split; [apply same_but_ram_refl|done]|]. exists (fun a => a). split; [|intros a Hla; split; [done|lia]].
    destruct c as [w y n md ss]. unfold upd_line, upd. simpl. f_equal. symmetry. apply list_alter_id. intros [ls k]. simpl. f_equal.
    apply list_alter_id. by intros [].
  - intros i [c1 s1] Hi [Hs1 (F & -> & HF)].
    assert (pa + 4 * i = add32 pa (4 * i)) as <-.
    { symmetry. apply u32_id. destruct (Hr pa eq_refl) as [[[? ?] _] _].
      destruct (Hr (pa + 4 * i)) as [[Hw _] _]; [dlia|done]. }
    destruct (Hr (pa + 4 * i)) as [(Hw & i' & b & Hb & Hb1 & Hb2) Hrm]; [dlia|].
    destruct (mem_read_flat e m Word (pa + 4 * i) s1) as (s2 & -> & Hs2 & Him2); try done; try apply Hs1.
    { rewrite (same_endian s s1); [done|apply Hs1]. }
    { unfold remap. rewrite (same_but_ram_cpu s s1) by apply Hs1. exact Hrm. }
    { destruct Hs1 as [[_ ->] _]. by exists i', b. }
    cbn [mbind option_bind]. rewrite cache_line_cline, cline_upd, decide_True by done. rewrite <- cache_line_cline.
    destruct (cache_line c p) as [l|] eqn:El; [|done]. cbn [fmap option_fmap option_map mbind option_bind].
    pose proof (dc_line_shape c _ _ l H El) as [Hl8 _]. destruct (HF (line_data l) Hl8) as [HF8 _].
    destruct (lookup_lt_is_Some_2 (F (line_data l)) (Z.to_nat i)) as [y Hy]; [lia|].
    change (line_data (l <| line_data ::= F |>)) with (F (line_data l)). rewrite Hy. cbn [mbind option_bind].
    eexists. split; [reflexivity|]. split; [split; [apply (same_but_ram_trans s s1); [apply Hs1|done]|done]|].
    exists (fun a => wr (F a) i (flat_read e Word m (pa + 4 * i))). split; [by rewrite upd_line_twice|].
    intros a Ha8. destruct (HF a Ha8) as [HFa HFk]. split; [by rewrite length_wr|]. intros k Hk. unfold wr.
    destruct (decide (k = i)) as [->|Hne]; [apply list_lookup_insert_eq; lia|].
    rewrite list_lookup_insert_ne by (intros E; apply Hne; lia). apply HFk. lia.
  - exists F, s'. by repeat (split; [done|]).
Qed.
End Memory.
