(* ===== verification/Coherence.v ===== *)
(** * A write-back cache and a write buffer in front of memory

    What a program sees through them: the bytes of the valid lines, elsewhere
    the memory with the pending writes done.  The relation [cohere] says
    which memory that is; this file shows what evicting, filling and writing
    lines and draining the buffer do to it.  Translation is a parameter. *)

From S2P Require Import Prelude Words Bits ArmState Machine ArmSys ArmMem MemSpec Cache MmuBuffers WbSpec Harvard CacheLines.

(** What a virtual address means: a physical address and the two flags. *)
Record page := mkPage { pg_pa : Z; pg_c : bool; pg_b : bool }.
Definition page_add (g : page) (k : Z) : page := mkPage (pg_pa g + k) (pg_c g) (pg_b g).

(** The virtual addresses [V] that a program uses: whole lines, translated
    alike within a line, to plain memory, and no memory under two
    addresses. *)
Record data_space (tr : Z -> option page) (V : Z -> Prop) (bs : list mem_bank_t) : Prop := {
  ds_word va : V va -> word va;
  ds_lines va va' : V va -> va' / 32 = va / 32 -> V va';
  ds_line va va' g : V va -> tr va = Some g -> va' / 32 = va / 32 -> tr va' = Some (page_add g (va' - va));
  ds_offset va g : V va -> tr va = Some g -> pg_pa g mod 32 = va mod 32;
  ds_ram va g x : V va -> tr va = Some g -> x / 32 = pg_pa g / 32 -> ram_at bs x;
  ds_inj va va' g g' : V va -> V va' -> tr va = Some g -> tr va' = Some g' ->
    pg_pa g / 32 = pg_pa g' / 32 -> va / 32 = va' / 32
}.

(** ** Memory behind a queue of stores *)

Lemma flat_write_byte e a d m x : flat_write e Byte a d m x = if x =? a then d &&& 0xff else m x.
Proof.
  unfold flat_write, align, lane_no. cbn [size]. rewrite Z.mod_1_r, Z.sub_0_r. destruct (Z.eqb_spec x a) as [->|].
  - rewrite (proj2 (Z.leb_le a a)), (proj2 (Z.ltb_lt a (a + 1))) by lia. cbn [andb].
    replace (if e =? 0 then a - a else 1 - 1 - (a - a)) with 0 by (destruct (e =? 0); lia). by rewrite Z.shiftr_0_r.
  - destruct (Z.leb_spec a x), (Z.ltb_spec x (a + 1)); try done. lia.
Qed.
Lemma flat_write_other e w a d m x : ~ same_word x a -> flat_write e w a d m x = m x.
Proof.
  intros Hne. unfold flat_write. destruct (_ && _) eqn:E; [|done]. exfalso. apply Hne.
  unfold same_word, align in *. destruct w; cbn [size] in *; dlia.
Qed.
Lemma flat_write_local e w a d m m' x : m x = m' x -> flat_write e w a d m x = flat_write e w a d m' x.
Proof. intros E. unfold flat_write. by rewrite E. Qed.
Lemma drained_local e q m m' x : m x = m' x -> drained e q m x = drained e q m' x.
Proof.
  revert m m'. induction q as [|[a d] q IH]; intros m m' H; [done|]. cbn [drained fold_left]. apply IH.
  by rewrite !flat_write_byte, H.
Qed.
Lemma drained_outside e q m x : x ∉ q.*1 -> drained e q m x = m x.
Proof.
  revert m. induction q as [|[a d] q IH]; intros m H; [done|]. cbn [drained fold_left fmap list_fmap fst] in *.
  apply not_elem_of_cons in H as [H1 H2]. unfold drained in IH. rewrite IH by done. rewrite flat_write_byte.
  by destruct (Z.eqb_spec x a).
Qed.
Lemma fmap_fst_app (q q' : list (Z * Z)) : (q ++ q').*1 = q.*1 ++ q'.*1.
Proof. apply fmap_app. Qed.

Definition clean (l : cache_line_t) : Prop := dirty l 0 = false /\ dirty l 1 = false.
Lemma clean_at l x : clean l -> dirty_at l x = false.
Proof. intros [H0 H1]. unfold dirty_at. assert (x mod 32 / 16 = 0 \/ x mod 32 / 16 = 1) as [->| ->] by dlia; done. Qed.

Section Coherence.
Context {M : Type} `{!Board M}.
Implicit Type s : system M.
Context (e : Z) (e_bit : bit e) (tr : Z -> option page) (V : Z -> Prop) (bs : list mem_bank_t) (DS : data_space tr V bs).

(** ** The relation *)

Definition pend_ok (x : Z * Z) : Prop :=
  word x.2 /\ exists va g, V va /\ tr va = Some g /\ pg_b g = true /\ x.1 / 32 = pg_pa g / 32.

(** A valid line of the set [i]. *)
Record line_ok (c : cache_t) (q : list (Z * Z)) (m v : Z -> Z) (i : nat) (l : cache_line_t) : Prop := {
  lo_home : exists va b, V va /\ va mod 32 = 0 /\ va_cache_align (tag l) c = va /\
    Z.to_nat (va_cache_set va c) = i /\ tr va = Some (mkPage (line_pa l) true b);
  lo_byte x : in_line l x -> line_byte e l x = v x;
  lo_clean x : in_line l x -> dirty_at l x = false -> m x = v x;
  lo_pending x : in_line l x -> x ∉ q.*1
}.
Definition uncovered (c : cache_t) (x : Z) : Prop :=
  forall i j l, cline c i j = Some l -> valid l = true -> ~ in_line l x.

Record cohere (c : cache_t) (q : list (Z * Z)) (m v : Z -> Z) : Prop := {
  co_wf : dc_wf c;
  co_lines i j l : cline c i j = Some l -> valid l = true -> line_ok c q m v i l;
  co_unique i j l i' j' l' : cline c i j = Some l -> cline c i' j' = Some l' -> valid l = true -> valid l' = true ->
    line_pa l / 32 = line_pa l' / 32 -> i = i' /\ j = j';
  co_rest x : uncovered c x -> drained e q m x = v x;
  co_pending : Forall pend_ok q
}.

(** The state of the rest of the system. *)
Record here s (m : Z -> Z) : Prop := {
  he_endian : bigendSig (cpu s) = e;
  he_mem : implements e (ram s) m;
  he_banks : mem_banks (ram s) = bs;
  he_remap va g x : V va -> tr va = Some g -> x / 32 = pg_pa g / 32 -> remap s x = x
}.
Lemma here_step s s' m m' : here s m -> now_holds e s s' m' -> here s' m'.
Proof.
  intros [H1 H2 H3 H4] [Hs Him]. split; [by rewrite (same_endian s s')|done|by destruct Hs as [_ ->]|].
  intros va g x Hv Hg Hx. unfold remap. rewrite (same_but_ram_cpu s s' Hs). by apply (H4 va g x).
Qed.

Lemma page_line_pa va g : V va -> tr va = Some g -> va mod 32 = 0 -> pg_pa g mod 32 = 0.
Proof. intros Hv Hg Ha. by rewrite (ds_offset _ _ _ DS va g). Qed.
Lemma line_home_ok c q m v i l : line_ok c q m v i l -> line_home bs l.
Proof.
  intros H. destruct (lo_home _ _ _ _ _ _ H) as (va & b & Hv & Ha & _ & _ & Hg).
  split; [by apply (page_line_pa va _ Hv Hg)|]. intros x Hx. by apply (ds_ram _ _ _ DS va _ x Hv Hg).
Qed.

(** A pending store outside the lines of [c] goes to plain memory. *)
Lemma pending_stores_ok q : Forall pend_ok q -> Forall (store_ok bs) q.
Proof.
  rewrite !list.Forall_forall. intros HF [a d] Hx. destruct (HF _ Hx) as (Hd & va & g & Hv & Hg & _ & Ha).
  split; [by apply (ds_ram _ _ _ DS va g)|done].
Qed.

(** ** Writing a line back *)

Lemma cleaned_same l : line_pa (cleaned l) = line_pa l /\ line_data (cleaned l) = line_data l /\
  valid (cleaned l) = valid l /\ clean (cleaned l).
Proof.
  do 2 (split; [done|]). split; [by apply (valid_clean (tag l))|].
  by split; apply (dirty_clean (tag l)).
Qed.
Lemma cleaned_align c l : c_width c = 32 -> va_cache_align (tag (cleaned l)) c = va_cache_align (tag l) c.
Proof.
  intros Hw. apply align_bits; [done|]. intros i Hi. unfold cleaned. upds. rewrite Z.ldiff_spec.
  change (TAG_FIRST_HALF_DIRTY ||| TAG_LAST_HALF_DIRTY) with 6.
  rewrite (Z.bits_above_log2 6 i) by (first [lia | change (Z.log2 6) with 2; lia]). apply andb_true_r.
Qed.
Lemma line_byte_data l l' x : line_data l' = line_data l -> line_byte e l' x = line_byte e l x.
Proof. unfold line_byte. by intros ->. Qed.

(** Lines that differ only in the dirty flags of the line at [p]. *)
Record cleans (p : Z * Z) (c c' : cache_t) : Prop := {
  cl_wf : dc_wf c';
  cl_same : c_set c' = c_set c /\ c_width c' = c_width c /\ c_way c' = c_way c;
  cl_line i j l' : cline c' i j = Some l' -> exists l, cline c i j = Some l /\
    line_pa l' = line_pa l /\ line_data l' = line_data l /\ valid l' = valid l /\
    va_cache_align (tag l') c = va_cache_align (tag l) c /\ (l' = l \/ (is_ptr p i j /\ clean l'));
  cl_back i j l : cline c i j = Some l -> exists l', cline c' i j = Some l' /\ valid l' = valid l /\ line_pa l' = line_pa l
}.
Lemma cleans_refl p c : dc_wf c -> cleans p c c.
Proof.
  intros H. split; [done|done|intros i j l El; exists l; repeat split; auto|intros i j l El; by exists l].
Qed.
Lemma cleans_upd p c : dc_wf c -> cleans p c (upd_line p cleaned c).
Proof.
  intros H. split.
  - apply dc_wf_upd; [done|]. intros l Hl. unfold line_shape. by destruct (cleaned_same l) as (_ & -> & _).
  - done.
  - intros i j l'. rewrite cline_upd. destruct (decide (is_ptr p i j)) as [Hp|]; [|intros El; exists l'; repeat split; auto].
    intros (l & El & ->)%fmap_Some. exists l. destruct (cleaned_same l) as (-> & -> & -> & Hc). repeat (split; [done|]).
    split; [apply cleaned_align, H|]. by right.
  - intros i j l El. rewrite cline_upd, El. destruct (decide (is_ptr p i j)); [|by exists l].
    exists (cleaned l). destruct (cleaned_same l) as (-> & _ & -> & _). done.
Qed.

(** Memory that took over the dirty bytes of the line. *)
Lemma written_coherent c c' q m m' v p l : cohere c q m v -> cleans p c c' -> cache_line c p = Some l ->
  (forall x, m' x = if valid l && bool_decide (in_line l x) && dirty_at l x then line_byte e l x else m x) ->
  cohere c' q m' v.
Proof.
  intros H [Hwf [Eset [Ewid Eway]] Hline Hback] Hl Hm'.
  assert (Hok : valid l = true -> line_ok c q m v (Z.to_nat p.1) l) by (intros Hv; by apply (co_lines _ _ _ _ H _ (Z.to_nat p.2))).
  assert (Hset : forall va, va_cache_set va c' = va_cache_set va c) by (intros va; unfold va_cache_set; by rewrite Ewid, Eset).
  assert (Hal : forall x, va_cache_align x c' = va_cache_align x c) by (intros x; unfold va_cache_align; by rewrite Ewid).
  assert (Hout : forall x, (valid l = true -> ~ in_line l x) -> m' x = m x).
  { intros x Hx. rewrite Hm'. destruct (valid l); [|done]. rewrite bool_decide_eq_false_2 by (by apply Hx). done. }
  assert (Hin : forall x, valid l = true -> in_line l x -> m' x = v x).
  { intros x Hv Hx. rewrite Hm', Hv, bool_decide_eq_true_2 by done. cbn [andb]. specialize (Hok Hv).
    destruct (dirty_at l x) eqn:Ed; [by apply (lo_byte _ _ _ _ _ _ Hok)|by apply (lo_clean _ _ _ _ _ _ Hok)]. }
  split; [done| | | |apply H].
  - intros i j l' El' Hvl'. destruct (Hline i j l' El') as (l0 & El0 & Epa & Edat & Ev & Ea & Hor).
    assert (Hv0 : valid l0 = true) by congruence. pose proof (co_lines _ _ _ _ H i j l0 El0 Hv0) as [Hh Hby Hcn Hp].
    assert (Hil : forall x, in_line l' x <-> in_line l0 x) by (intros x; unfold in_line; by rewrite Epa).
    split.
    + destruct Hh as (va & b & Hh). exists va, b. rewrite Hal, Hset, Ea, Epa. done.
    + intros x Hx. rewrite (line_byte_data l0 l' x Edat). by apply Hby, Hil.
    + intros x Hx Hd. apply Hil in Hx. destruct (decide (valid l = true /\ in_line l x)) as [[Hv Hlx]|Hno]; [by apply Hin|].
      rewrite Hout by (intros Hv Hlx; by apply Hno). apply Hcn; [done|]. destruct Hor as [->|[[-> ->] _]]; [done|].
      rewrite <- cache_line_cline, Hl in El0. injection El0 as <-. exfalso. by apply Hno.
    + intros x Hx. by apply Hp, Hil.
  - intros i j l1 i' j' l2 E1 E2 V1 V2 Epa.
    destruct (Hline _ _ _ E1) as (k1 & F1 & P1 & _ & W1 & _). destruct (Hline _ _ _ E2) as (k2 & F2 & P2 & _ & W2 & _).
    apply (co_unique _ _ _ _ H i j k1 i' j' k2 F1 F2); congruence.
  - intros x Hx. assert (uncovered c x) as Hx0.
    { intros i j l0 El0 Hv0 Hi0. destruct (Hback _ _ l0 El0) as (l' & El' & Ev' & Ep').
      apply (Hx _ _ l' El'); [congruence|]. unfold in_line. by rewrite Ep'. }
    rewrite <- (co_rest _ _ _ _ H x Hx0). apply drained_local, Hout. intros Hv. by apply (Hx0 _ _ l Hl).
Qed.

Lemma evict c q m v s p l : cohere c q m v -> here s m -> cache_line c p = Some l ->
  exists c' s' m', mmu_cache_write_back p c s = Some (c', s') /\ now_holds e s s' m' /\ here s' m' /\
    cohere c' q m' v /\ cleans p c c' /\ (forall l', cache_line c' p = Some l' -> valid l' = true -> clean l').
Proof.
  intros H Hs Hl. pose proof (he_banks s m Hs) as Hb.
  destruct (write_back_spec e e_bit c p l s m (co_wf _ _ _ _ H) Hl) as (c' & s' & E & (m' & Hs' & Hm') & Hc).
  { intros Hv. rewrite Hb. apply (line_home_ok c q m v (Z.to_nat p.1)). by apply (co_lines _ _ _ _ H _ (Z.to_nat p.2)). }
  { apply Hs. }
  { apply Hs. }
  assert (Hcl : cleans p c c').
  { destruct Hc as [[-> _]|[_ ->]]; [apply cleans_refl|apply cleans_upd]; apply H. }
  exists c', s', m'. split; [done|]. split; [done|]. split; [by apply (here_step s s' m)|].
  split; [by apply (written_coherent c c' q m m' v p l)|]. split; [done|].
  intros l' Hl' Hv'. destruct Hc as [[-> Hd]|[_ ->]].
  - rewrite Hl in Hl'. injection Hl' as <-. by destruct (Hd Hv').
  - rewrite cache_line_cline, cline_upd, decide_True in Hl' by done. rewrite <- cache_line_cline, Hl in Hl'.
    injection Hl' as <-. apply cleaned_same.
Qed.

(** ** Replacing a clean line *)

Lemma line_ok_same c c' q m v i l : c_set c' = c_set c -> c_width c' = c_width c -> line_ok c q m v i l -> line_ok c' q m v i l.
Proof.
  intros E1 E2 [H1 H2 H3 H4]. split; try done. destruct H1 as (va & b & H). exists va, b.
  unfold va_cache_align, va_cache_set in *. by rewrite E1, E2.
Qed.

(** What may take the place of the line at [p]. *)
Definition newcomer (c : cache_t) (q : list (Z * Z)) (m v : Z -> Z) (p : Z * Z) (l : cache_line_t) : Prop :=
  valid l = true -> line_ok c q m v (Z.to_nat p.1) l /\
    forall i j k, cline c i j = Some k -> valid k = true -> ~ is_ptr p i j -> line_pa k / 32 <> line_pa l / 32.

Lemma put_line c q m v p f l : cohere c q m v -> cache_line c p = Some l -> (valid l = true -> clean l) ->
  (forall k, line_shape k -> line_shape (f k)) -> newcomer c q m v p (f l) -> cohere (upd_line p f c) q m v.
Proof.
  intros H Hl Hcl Hf Hnew. rewrite cache_line_cline in Hl.
  assert (Hlk : forall i j k, cline (upd_line p f c) i j = Some k ->
    (is_ptr p i j /\ k = f l) \/ (~ is_ptr p i j /\ cline c i j = Some k)).
  { intros i j k. rewrite cline_upd. destruct (decide (is_ptr p i j)) as [[-> ->]|Hne]; [|by right].
    rewrite Hl. cbn. intros [= <-]. by left. }
  split.
  - by apply dc_wf_upd; [apply H|].
  - intros i j k Hk Hv. apply (line_ok_same c); [done..|]. destruct (Hlk i j k Hk) as [[[-> ->] ->]|[_ Hk']]; [by apply Hnew|].
    by apply (co_lines _ _ _ _ H i j).
  - intros i j k i' j' k' Hk Hk' Hv Hv' E.
    destruct (Hlk i j k Hk) as [[[-> ->] ->]|[Hne Hc]], (Hlk i' j' k' Hk') as [[[-> ->] ->]|[Hne' Hc']].
    + done.
    + destruct (Hnew Hv) as [_ Hn]. by destruct (Hn i' j' k' Hc' Hv' Hne').
    + destruct (Hnew Hv') as [_ Hn]. by destruct (Hn i j k Hc Hv Hne).
    + by apply (co_unique _ _ _ _ H i j k i' j' k').
  - intros x Hx. destruct (decide (valid l = true /\ in_line l x)) as [[Hv Hin]|Hno].
    + destruct (co_lines _ _ _ _ H _ _ l Hl Hv) as [_ _ Hc Hp]. rewrite drained_outside by by apply Hp.
      apply Hc; [done|]. by apply clean_at, Hcl.
    + apply (co_rest _ _ _ _ H). intros i j k Hk Hv Hin. destruct (decide (is_ptr p i j)) as [[-> ->]|Hne].
      * rewrite Hl in Hk. injection Hk as <-. by apply Hno.
      * apply (Hx i j k); [|done|done]. by rewrite cline_upd, decide_False.
  - apply H.
Qed.

Lemma coherent_cycle c q m v k i : cohere c q m v -> 0 <= k < c_way c ->
  cohere (c <| sets ::= alter (fun set => set <| set_cycle := k |>) i |>) q m v.
Proof.
  intros H Hk. set (c' := c <| sets ::= _ |>). assert (forall i j, cline c' i j = cline c i j) as Hc by (intros; apply cline_cycle).
  split.
  - by apply dc_wf_cycle; [apply H|].
  - intros a b l. rewrite Hc. intros Hl Hv. apply (line_ok_same c); [done..|]. by apply (co_lines _ _ _ _ H a b).
  - intros a b l a' b' l'. rewrite !Hc. apply H.
  - intros x Hx. apply (co_rest _ _ _ _ H). intros a b l. rewrite <- Hc. apply Hx.
  - apply H.
Qed.

(** Invalidating a line. *)
Lemma invalid_tag l : valid (l <| tag := 0 |>) = false.
Proof. done. Qed.
Lemma invalidate_coherent c q m v s p l : cohere c q m v -> here s m -> cache_line c p = Some l ->
  exists c' s' m', invalidate_line p c s = Some (c', s') /\ now_holds e s s' m' /\ here s' m' /\ cohere c' q m' v /\
    c_set c' = c_set c /\ c_way c' = c_way c /\
    forall i j l', cline c' i j = Some l' -> valid l' = true -> ~ is_ptr p i j /\ exists k, cline c i j = Some k /\ valid k = true.
Proof.
  intros H Hs Hl. destruct (evict c q m v s p l H Hs Hl) as (c1 & s' & m' & E & Hn & Hh & Hc & Hcl & Hclean).
  unfold invalidate_line. rewrite E. cbn [mbind option_bind]. eexists _, s', m'. split; [done|]. do 2 (split; [done|]).
  destruct (cl_back _ _ _ Hcl _ _ l Hl) as (l' & Hl' & _).
  split; [|destruct (cl_same _ _ _ Hcl) as (E1 & _ & E3); do 2 (split; [done|])].
  - apply (put_line c1 q m' v p _ l'); [done|done|by apply Hclean|by intros k Hk|]. intros Hv. by rewrite invalid_tag in Hv.
  - intros i j k. rewrite cline_upd. destruct (decide (is_ptr p i j)) as [|Hne].
    + intros (x & _ & ->)%fmap_Some Hv. by rewrite invalid_tag in Hv.
    + intros Hk Hv. split; [done|]. destruct (cl_line _ _ _ Hcl i j k Hk) as (k0 & Hk0 & _ & _ & Ev & _). exists k0. by rewrite <- Ev.
Qed.

(** Invalidating all lines, from the set [i] and the way [j] on. *)
Definition flushed_to (c : cache_t) (i j : Z) : Prop :=
  forall a b l, cline c a b = Some l -> valid l = true -> ~ (Z.of_nat a < i \/ (Z.of_nat a = i /\ Z.of_nat b < j)).
Definition flushing (c0 : cache_t) q v s0 (i j : Z) '(c, s) : Prop :=
  exists m, now_holds e s0 s m /\ here s m /\ cohere c q m v /\ c_set c = c_set c0 /\ c_way c = c_way c0 /\ flushed_to c i j.

Lemma flush_line c0 q v s0 i j c s : 0 <= i < c_set c0 -> 0 <= j < c_way c0 -> flushing c0 q v s0 i j (c, s) ->
  exists cs, invalidate_line (i, j) c s = Some cs /\ flushing c0 q v s0 i (j + 1) cs.
Proof.
  intros Hi Hj (m & Hn & Hh & Hc & E1 & E2 & Hf).
  destruct (dc_line_there c (i, j) (co_wf _ _ _ _ Hc)) as [l Hl]; [cbn [fst]; lia|cbn [snd]; lia|].
  destruct (invalidate_coherent c q m v s (i, j) l Hc Hh Hl) as (c' & s' & m' & -> & Hn' & Hh' & Hc' & E1' & E2' & Hv).
  eexists. split; [done|]. exists m'. split; [by apply (now_holds_trans e s0 s s' m)|]. do 2 (split; [done|]).
  split; [congruence|]. split; [congruence|]. intros a b k Hk Hkv. destruct (Hv a b k Hk Hkv) as (Hne & k0 & Hk0 & Hv0).
  pose proof (Hf a b k0 Hk0 Hv0). unfold is_ptr in Hne. cbn [fst snd] in Hne. lia.
Qed.
Lemma flush_coherent c q m v s : cohere c q m v -> here s m ->
  exists c' s' m', mmu_cache_invalidate_all c s = Some (c', s') /\ now_holds e s s' m' /\ here s' m' /\ cohere c' q m' v /\
    forall i j l, cline c' i j = Some l -> valid l = false.
Proof.
  intros H Hs. pose proof (co_wf _ _ _ _ H) as Hwf. unfold mmu_cache_invalidate_all.
  destruct (for_range_opt_ind (fun i => flushing c q v s i 0) 0 (c_set c)
    (fun i cs => for_range_opt 0 (c_way c) (fun j '(c, s) => invalidate_line (i, j) c s) cs) (c, s)) as ([c' s'] & -> & Hf).
  - pose proof (dc_pos c Hwf). lia.
  - exists m. split; [split; [apply same_but_ram_refl|apply Hs]|]. do 4 (split; [done|]). intros a b l _ _. lia.
  - intros i cs Hi Hcs. destruct (dc_set_there c i Hwf Hi) as (? & _ & _ & Hway & _).
    destruct (for_range_opt_ind (flushing c q v s i) 0 (c_way c) (fun j '(c, s) => invalidate_line (i, j) c s) cs) as ([c1 s1] & -> & Hf).
    + lia.
    + done.
    + intros j [c1 s1] Hj Hf. by apply (flush_line c).
    + eexists. split; [done|]. destruct Hf as (m1 & Hn & Hh & Hc & E1 & E2 & Hf). exists m1. do 5 (split; [done|]).
      intros a b l Hl Hv. pose proof (Hf a b l Hl Hv). pose proof (cline_range c1 a b l (co_wf _ _ _ _ Hc) Hl). lia.
  - destruct Hf as (m' & Hn & Hh & Hc & E1 & _ & Hf). exists c', s', m'. do 4 (split; [done|]).
    intros i j l Hl. destruct (valid l) eqn:Hv; [|done]. destruct (Hf i j l Hl Hv). left.
    rewrite <- E1. by apply (cline_range c' i j l (co_wf _ _ _ _ Hc)).
Qed.
(** Memory is what the program sees when there is nothing in front of it. *)
Lemma nothing_in_front c m v : cohere c [] m v -> (forall i j l, cline c i j = Some l -> valid l = false) -> forall x, m x = v x.
Proof. intros H Hi x. apply (co_rest _ _ _ _ H). intros i j l Hl Hv. by rewrite (Hi i j l Hl) in Hv. Qed.

(** An empty cache and an empty buffer. *)
Lemma cohere_start c m : dc_wf c -> (forall i j l, cline c i j = Some l -> valid l = false) -> cohere c [] m m.
Proof.
  intros H Hi. split; [done|..|done|apply list.Forall_nil_2].
  - intros i j l Hl Hv. by rewrite (Hi i j l Hl) in Hv.
  - intros i j l i' j' l' Hl _ Hv. by rewrite (Hi i j l Hl) in Hv.
Qed.

(** ** Draining the buffer *)

Lemma drain_coherent c b m v s : cohere c (pending b) m v -> here s m -> wb_wf b ->
  exists b' s' m', mmu_wb_drain_all b s = Some (b', s') /\ now_holds e s s' m' /\ here s' m' /\ cohere c [] m' v /\
    wb_wf b' /\ pending b' = [].
Proof.
  intros H Hs Hb. unfold mmu_wb_drain_all.
  destruct (drain_loop e e_bit (Z.to_nat (wb_used b)) b s m Hb) as (b' & s' & E & Hn & Hb' & Hp & _).
  - pose proof (wf_used b Hb). lia.
  - apply Hs.
  - apply Hs.
  - rewrite (he_banks s m Hs). by apply pending_stores_ok, H.
  - exists b', s', (drained e (pending b) m). split; [done|]. split; [done|]. split; [by apply (here_step s s' m)|].
    split; [|done]. split; [apply H| |apply H|apply H|apply list.Forall_nil_2].
    intros i j l Hl Hv. destruct (co_lines _ _ _ _ H i j l Hl Hv) as [H1 H2 H3 H4]. split; [done|done| |intros x _; apply not_elem_of_nil].
    intros x Hx Hd. rewrite drained_outside by by apply H4. by apply H3.
Qed.

(** ** Hits and misses *)

Lemma align_set va va' c : c_width c = 32 -> va / 32 = va' / 32 ->
  va_cache_align va c = va_cache_align va' c /\ va_cache_set va c = va_cache_set va' c.
Proof. intros Hw E. rewrite !align_mod by done. unfold va_cache_set. rewrite Hw, E. split; [dlia|done]. Qed.

(** The line that holds an address, and the absence of one. *)
Definition holds_va (c : cache_t) (p : Z * Z) (g : page) (l : cache_line_t) : Prop :=
  cache_line c p = Some l /\ valid l = true /\ pg_c g = true /\ in_line l (pg_pa g).
Definition no_line (c : cache_t) (pa : Z) : Prop :=
  forall i j l, cline c i j = Some l -> valid l = true -> line_pa l / 32 <> pa / 32.

Lemma search_coherent c q m v va g : cohere c q m v -> V va -> tr va = Some g ->
  exists o, mmu_cache_search c va = Some o /\
    match o with Some p => exists l, holds_va c p g l | None => no_line c (pg_pa g) end.
Proof.
  intros H Hv Hg. destruct (cache_search_spec c va (co_wf _ _ _ _ H)) as (o & E & Ho). exists o. split; [done|].
  pose proof (dc_width c (co_wf _ _ _ _ H)) as Hw. destruct o as [p|].
  - destruct Ho as (Hp1 & Hp2 & l & El & Hvl & Ea). exists l. split; [done|]. split; [done|].
    destruct (lo_home _ _ _ _ _ _ (co_lines _ _ _ _ H _ _ l El Hvl)) as (va0 & b & Hv0 & Ha0 & Et & _ & Hg0).
    rewrite Et, align_mod in Ea by done.
    pose proof (ds_line _ _ _ DS va0 va _ Hv0 Hg0 ltac:(dlia)) as Eg. rewrite Hg in Eg. injection Eg as ->. split; [done|].
    pose proof (page_line_pa va0 _ Hv0 Hg0 Ha0) as Hpa. cbn [pg_pa page_add] in *. unfold in_line. dlia.
  - intros i j l El Hvl Hpa. destruct (lo_home _ _ _ _ _ _ (co_lines _ _ _ _ H i j l El Hvl)) as (va0 & b & Hv0 & Ha0 & Et & Ei & Hg0).
    pose proof (ds_inj _ _ _ DS va0 va _ g Hv0 Hv Hg0 Hg Hpa) as Eva. destruct (align_set va0 va c Hw Eva) as [Eal Eset].
    apply (Ho j l); [by rewrite <- Eset, Ei|done|]. rewrite <- Eal, Et, align_mod by done. lia.
Qed.

(** ** Filling a line *)

Lemma flat_word_lane r m a y : implements e r m -> ram_at (mem_banks r) a -> same_word y a ->
  lane (flat_read e Word m a) (pos e y) = m y /\ word (flat_read e Word m a).
Proof.
  intros Him (Ha & i & b & Hi & Hr & _) Hy.
  destruct (implements_word e r m a i b e_bit Him Ha Hi Hr) as (x & _ & Hx & Hm).
  rewrite <- (lane_get_flat e Word a x m e_bit Hx Hm). split; [|done]. by rewrite (Hm y Hy), lane_get_Byte.
Qed.

Lemma va_tag va c : c_width c = 32 -> va_cache_align (va_cache_align va c ||| TAG_VALID_FLAG) c = va_cache_align va c.
Proof.
  intros Hw. rewrite (align_bits c _ (va_cache_align va c) Hw).
  - rewrite !align_mod by done. dlia.
  - intros i Hi. rewrite Z.lor_spec. unfold TAG_VALID_FLAG.
    rewrite (Z.bits_above_log2 1 i) by (first [lia | change (Z.log2 1) with 0; lia]). apply orb_false_r.
Qed.
Lemma valid_tag x l : valid (l <| tag := x ||| TAG_VALID_FLAG |>) = true.
Proof. unfold valid. upds. rewrite Z.lor_spec. apply orb_true_r. Qed.

(** The line that a fill leaves. *)
Definition filled (va pa : Z) (F : list Z -> list Z) (l : cache_line_t) : cache_line_t :=
  (l <| line_data ::= F |>) <| tag := va ||| TAG_VALID_FLAG |> <| line_pa := pa |>.

Lemma filled_newcomer c q m v r p va g F l : cohere c q m v -> implements e r m -> mem_banks r = bs ->
  V va -> tr va = Some g -> pg_c g = true -> no_line c (pg_pa g) -> (forall x, x / 32 = pg_pa g / 32 -> x ∉ q.*1) ->
  p.1 = va_cache_set va c -> length (line_data l) = 8%nat ->
  (forall k, 0 <= k < 8 -> F (line_data l) !! Z.to_nat k = Some (flat_read e Word m (va_cache_align (pg_pa g) c + 4 * k))) ->
  newcomer c q m v p (filled (va_cache_align va c) (va_cache_align (pg_pa g) c) F l).
Proof.
  intros H Him Hb Hv Hg Hcf Hno Hq Hp Hl HF _. pose proof (dc_width c (co_wf _ _ _ _ H)) as Hw.
  pose proof (ds_offset _ _ _ DS va g Hv Hg) as Hoff. set (pa := pg_pa g) in *.
  assert (Hpa : va_cache_align pa c = pa - pa mod 32) by by apply align_mod.
  set (l' := filled _ _ _ _). assert (Hin : forall x, in_line l' x <-> x / 32 = pa / 32).
  { intros x. unfold in_line, l', filled. upds. rewrite Hpa. split; intros; dlia. }
  assert (Hm : forall x, x / 32 = pa / 32 -> m x = v x).
  { intros x Hx. rewrite <- (co_rest _ _ _ _ H x); [by rewrite drained_outside by by apply Hq|].
    intros i j k Hk Hkv Hi. apply (Hno i j k Hk Hkv). unfold in_line in Hi. congruence. }
  split.
  - split.
    + exists (va_cache_align va c), (pg_b g). pose proof (align_mod c va Hw) as Ea.
      split; [apply (ds_lines _ _ _ DS va); [done|rewrite Ea; dlia]|]. split; [rewrite Ea; dlia|].
      split; [by apply va_tag|]. split; [rewrite Hp; f_equal; apply align_set; [done|rewrite Ea; dlia]|].
      rewrite (ds_line _ _ _ DS va _ g Hv Hg) by (rewrite Ea; dlia). unfold page_add, l', filled. upds. rewrite Hcf, Hpa, Ea.
      do 2 f_equal. fold pa. lia.
    + intros x Hx%Hin. rewrite <- Hm by done. unfold line_byte. assert (0 <= x mod 32 / 4 < 8) as Hk by dlia.
      change (line_data l') with (F (line_data l)). rewrite (nth_lookup_Some _ _ _ _ (HF _ Hk)), Hpa.
      apply (flat_word_lane r); [done| |unfold same_word; dlia]. rewrite Hb. apply (ds_ram _ _ _ DS va g); [done..|]. fold pa. dlia.
    + intros x Hx%Hin _. by apply Hm.
    + intros x Hx%Hin. by apply Hq.
  - intros i j k Hk Hkv _ E. apply (Hno i j k Hk Hkv). rewrite E. unfold l', filled. upds. rewrite Hpa. dlia.
Qed.

Lemma no_line_cleans p c c' pa : cleans p c c' -> no_line c pa -> no_line c' pa.
Proof.
  intros Hc H i j l' Hl' Hv'. destruct (cl_line _ _ _ Hc i j l' Hl') as (l & Hl & -> & _ & Ev & _). apply (H i j l Hl). congruence.
Qed.

(** The victim of an allocation, written back if it is valid. *)
Lemma victim_out c q m v s p l : cohere c q m v -> here s m -> cache_line c p = Some l ->
  exists c' s' m', (if truth (tag l &&& TAG_VALID_FLAG) then mmu_cache_write_back p c s else Some (c, s)) = Some (c', s') /\
    now_holds e s s' m' /\ here s' m' /\ cohere c' q m' v /\ cleans p c c' /\
    exists l', cache_line c' p = Some l' /\ (valid l' = true -> clean l').
Proof.
  intros H Hs Hl. rewrite valid_flag. destruct (valid l) eqn:Hv.
  - destruct (evict c q m v s p l H Hs Hl) as (c' & s' & m' & E & Hn & Hh & Hc & Hcl & Hclean). exists c', s', m'.
    do 5 (split; [done|]). destruct (cl_back _ _ _ Hcl _ _ l Hl) as (l' & Hl' & _). exists l'. split; [done|]. by apply Hclean.
  - exists c, s, m. split; [done|]. split; [split; [apply same_but_ram_refl|apply Hs]|]. do 2 (split; [done|]).
    split; [by apply cleans_refl; apply H|]. exists l. split; [done|]. congruence.
Qed.

Lemma alloc_coherent c q m v va g s : cohere c q m v -> here s m -> V va -> tr va = Some g -> pg_c g = true ->
  no_line c (pg_pa g) -> (forall x, x / 32 = pg_pa g / 32 -> x ∉ q.*1) ->
  exists p c' s' m' l, mmu_cache_alloc va (pg_pa g) c s = Some (p, c', s') /\ now_holds e s s' m' /\ here s' m' /\
    cohere c' q m' v /\ holds_va c' p g l /\ c_way c' = c_way c.
Proof.
  intros H Hs Hv Hg Hcf Hno Hq. pose proof (co_wf _ _ _ _ H) as Hwf. pose proof (dc_width c Hwf) as Hw.
  unfold mmu_cache_alloc. cbv zeta. set (va0 := va_cache_align va c). set (pa0 := va_cache_align (pg_pa g) c).
  assert (va_cache_set va0 c = va_cache_set va c) as Eset by (apply align_set; [done|unfold va0; rewrite align_mod by done; dlia]).
  rewrite Eset. destruct (dc_set_there c _ Hwf (dc_set_range va c Hwf)) as (set & Es & Hls & Hcy & _). rewrite Es. cbn [mbind option_bind].
  set (p := (va_cache_set va c, set_cycle set)).
  destruct (dc_line_there c p Hwf) as [l Hl]; [by apply dc_set_range|done|]. rewrite Hl. cbn [mbind option_bind].
  set (k := if set_cycle set + 1 =? c_way c then 0 else set_cycle set + 1).
  assert (0 <= k < c_way c) as Hk by (unfold k; destruct (Z.eqb_spec (set_cycle set + 1) (c_way c)); lia).
  set (c1 := c <| sets ::= alter (fun set => set <| set_cycle := k |>) (Z.to_nat (va_cache_set va c)) |>).
  assert (cohere c1 q m v) as H1 by by apply coherent_cycle. change (c_w_mode c1) with (c_w_mode c). rewrite (dc_mode c Hwf), decide_True by done.
  assert (no_line c1 (pg_pa g)) as Hno1 by (intros i j l1; unfold c1; rewrite cline_cycle; apply Hno).
  assert (cache_line c1 p = Some l) as Hl1 by (rewrite cache_line_cline; unfold c1; rewrite cline_cycle; exact Hl).
  destruct (victim_out c1 q m v s p l H1 Hs Hl1) as (c2 & s2 & m2 & -> & Hn2 & Hh2 & H2 & Hcl & l2 & Hl2 & Hclean). cbn [mbind option_bind].
  destruct (cl_same _ _ _ Hcl) as (Ecs & Ecw & Ecy).
  assert (va_cache_set va c2 = va_cache_set va c) as Eset2 by (unfold va_cache_set; by rewrite Ecw, Ecs).
  assert (forall x, va_cache_align x c2 = va_cache_align x c) as Eal by (intros x; unfold va_cache_align; by rewrite Ecw).
  assert (forall x, x / 32 = pa0 / 32 -> x / 32 = pg_pa g / 32) as Hblk by (intros x; unfold pa0; rewrite align_mod by done; intros; dlia).
  destruct (fill_line_spec e e_bit pa0 p c2 s2 m2 (co_wf _ _ _ _ H2)) as (F & s3 & -> & Hn3 & HF);
    [by rewrite Hl2|apply Hh2|apply Hh2|unfold pa0; rewrite align_mod by done; dlia|..].
  { intros x Hx%Hblk. rewrite (he_banks _ _ Hh2). split; [by apply (ds_ram _ _ _ DS va g)|by apply (he_remap _ _ Hh2 va g)]. }
  cbn [mbind option_bind]. rewrite upd_line_twice.
  pose proof (dc_line_shape c2 _ _ l2 (co_wf _ _ _ _ H2) Hl2) as [Hl8 _]. destruct (HF _ Hl8) as [_ HFl].
  assert (newcomer c2 q m2 v p (filled va0 pa0 F l2)) as Hnew.
  { unfold va0, pa0. rewrite <- !Eal. apply (filled_newcomer c2 q m2 v (ram s2)); try done; try apply Hh2.
    - by apply (no_line_cleans p c1).
    - by rewrite Eal. }
  exists p, (upd_line p (filled va0 pa0 F) c2), s3, m2, (filled va0 pa0 F l2). split; [done|].
  split; [by apply (now_holds_trans e s s2 s3 m2)|]. split; [by apply (here_step s2 s3 m2)|].
  split; [|split; [|exact Ecy]].
  - apply (put_line c2 q m2 v p _ l2); [done..| |exact Hnew]. intros k' [Hk8 _]. destruct (HF _ Hk8) as [HF8 HFk].
    split; [exact HF8|]. apply list.Forall_forall. intros x [j Hj]%list_elem_of_lookup_1.
    assert (0 <= Z.of_nat j < 8) as Hj8 by (apply lookup_lt_Some in Hj; change (line_data (filled va0 pa0 F k')) with (F (line_data k')) in Hj; lia).
    specialize (HFk _ Hj8). rewrite Nat2Z.id in HFk. change (line_data (filled va0 pa0 F k')) with (F (line_data k')) in Hj.
    rewrite HFk in Hj. injection Hj as <-. apply (flat_word_lane (ram s2) m2 _ (pa0 + 4 * Z.of_nat j)); [apply Hh2| |done].
    rewrite (he_banks _ _ Hh2). apply (ds_ram _ _ _ DS va g); [done..|]. apply Hblk. unfold pa0. rewrite align_mod by done. dlia.
  - split; [|split; [apply valid_tag|split; [done|]]].
    + rewrite cache_line_cline, cline_upd, decide_True by done. rewrite <- cache_line_cline, Hl2. done.
    + unfold in_line, filled. upds. unfold pa0. rewrite align_mod by done. dlia.
Qed.

(** ** Accesses through a line

    [va] is the address of a word, [real_va] the address of the access in
    it. *)

Lemma lane_get_mod w a b x : a mod 4 = b mod 4 -> lane_get e w a x = lane_get e w b x.
Proof. intros E. unfold lane_get, byte_offset, half_offset. by rewrite !land_3, !land_2, E. Qed.
Lemma lane_set_mod w a b d x : a mod 4 = b mod 4 -> lane_set e w a d x = lane_set e w b d x.
Proof. intros E. unfold lane_set, byte_offset, half_offset. by rewrite !land_3, !land_2, E. Qed.

(** The physical address of the access. *)
Definition real_pa (g : page) (real_va : Z) : Z := pg_pa g + real_va mod 4.

Section Access.
Context (va real_va : Z) (g : page) (Hva : va = real_va - real_va mod 4) (Hv : V va) (Hg : tr va = Some g).

Lemma real_pa_word : real_pa g real_va / 32 = pg_pa g / 32 /\ real_pa g real_va mod 4 = real_va mod 4 /\
  real_pa g real_va mod 32 / 4 = va mod 32 / 4 /\ pg_pa g mod 4 = 0 /\ real_pa g real_va / 4 = pg_pa g / 4.
Proof. pose proof (ds_offset _ _ _ DS va g Hv Hg). unfold real_pa. rewrite Hva in *. repeat split; dlia. Qed.

Lemma line_word_of c q m v p l : cohere c q m v -> holds_va c p g l ->
  exists x, line_data l !! Z.to_nat (va_cache_index va c) = Some x /\ word x /\ va_cache_index va c = va mod 32 / 4 /\
    forall y, same_word y (real_pa g real_va) -> in_line l y /\ y mod 32 / 4 = va mod 32 / 4 /\ v y = lane x (pos e y).
Proof.
  intros H (El & Hvl & _ & Hin). pose proof (co_wf _ _ _ _ H) as Hwf. destruct real_pa_word as (E1 & E2 & E3 & E4 & E5).
  assert (va_cache_index va c = va mod 32 / 4) as Ei.
  { unfold va_cache_index. rewrite (dc_width c Hwf). change (32 - 1) with (Z.ones 5). rewrite Z.land_ones, Z.shiftr_div_pow2 by done. done. }
  destruct (line_word_at l (va mod 32 / 4) (dc_line_shape c _ _ l Hwf El) ltac:(dlia)) as (x & Ex & Hx & En).
  exists x. rewrite Ei. split; [done|]. split; [done|]. split; [done|]. intros y Hy. unfold same_word in Hy.
  assert (in_line l y) as Hyl by (unfold in_line in *; dlia). assert (y mod 32 / 4 = va mod 32 / 4) as Hyk by dlia.
  split; [done|]. split; [done|]. destruct (co_lines _ _ _ _ H _ _ l El Hvl) as [_ Hb _ _].
  rewrite <- (Hb y Hyl). unfold line_byte. by rewrite Hyk, En.
Qed.

Lemma cache_read_coherent w c q m v p l s : cohere c q m v -> here s m -> holds_va c p g l ->
  cache_read w va real_va p c s = Some (flat_read e w v (real_pa g real_va)).
Proof.
  intros H Hs Hl. destruct (line_word_of c q m v p l H Hl) as (x & Ex & Hx & _ & Hy). destruct Hl as (El & _).
  unfold cache_read, cache_word, datatrans. rewrite El. cbn [mbind option_bind]. rewrite Ex. cbn [mbind option_bind]. f_equal.
  rewrite (he_endian _ _ Hs). destruct real_pa_word as (_ & E2 & _). rewrite (lane_get_mod w real_va (real_pa g real_va)) by done.
  apply lane_get_flat; [done|done|]. intros y Hsw. destruct (Hy y Hsw) as (_ & _ & ->). by rewrite lane_get_Byte.
Qed.

(** The line after a write. *)
Definition written (w : width) (data : Z) (x : Z) (l : cache_line_t) : cache_line_t :=
  l <| line_data ::= fun a => wr a (va mod 32 / 4) (lane_set e w real_va data x) |>
    <| tag ::= fun t => t ||| (if va mod 32 / 4 <? 4 then TAG_FIRST_HALF_DIRTY else TAG_LAST_HALF_DIRTY) |>.

Lemma written_flags w data x l : valid (written w data x l) = valid l /\
  forall h, 0 <= h <= 1 -> dirty (written w data x l) h = dirty l h || (h =? va mod 32 / 16).
Proof.
  unfold valid, dirty, written. upds. rewrite Z.lor_spec. split.
  - destruct (_ <? 4); by rewrite orb_false_r.
  - intros h Hh. rewrite Z.lor_spec. f_equal. destruct (Z.ltb_spec (va mod 32 / 4) 4).
    + assert (va mod 32 / 16 = 0) as -> by dlia. by assert (h = 0 \/ h = 1) as [->| ->] by lia.
    + assert (va mod 32 / 16 = 1) as -> by dlia. by assert (h = 0 \/ h = 1) as [->| ->] by lia.
Qed.
Lemma written_align w data x l c : c_width c = 32 -> va_cache_align (tag (written w data x l)) c = va_cache_align (tag l) c.
Proof.
  intros Hw. apply align_bits; [done|]. intros i Hi. unfold written. upds. rewrite Z.lor_spec.
  destruct (_ <? 4); [rewrite (Z.bits_above_log2 TAG_FIRST_HALF_DIRTY i)|rewrite (Z.bits_above_log2 TAG_LAST_HALF_DIRTY i)];
    try apply orb_false_r; try done; [change (Z.log2 TAG_FIRST_HALF_DIRTY) with 1|change (Z.log2 TAG_LAST_HALF_DIRTY) with 2]; lia.
Qed.

Lemma cline_upd_cases p f c l i j k : cache_line c p = Some l -> cline (upd_line p f c) i j = Some k ->
  (is_ptr p i j /\ k = f l) \/ (~ is_ptr p i j /\ cline c i j = Some k).
Proof.
  rewrite cache_line_cline, cline_upd. intros Hl. destruct (decide (is_ptr p i j)) as [[-> ->]|Hne]; [|by right].
  rewrite Hl. cbn. intros [= <-]. by left.
Qed.

(** The line that was written, for the memory after the write. *)
Lemma written_ok w data x c q m v i l : line_ok c q m v i l -> c_width c = 32 -> word data -> word x ->
  line_shape l -> in_line l (real_pa g real_va) -> line_data l !! Z.to_nat (va mod 32 / 4) = Some x ->
  line_ok c q m (flat_write e w (real_pa g real_va) data v) i (written w data x l).
Proof.
  intros [Hh Hb Hc Hp] Hw Hd Hx [Hl8 _] Hin Ex. destruct real_pa_word as (E1 & E2 & E3 & E4 & E5). set (A := real_pa g real_va) in *.
  assert (Hsw : forall y, in_line l y -> (same_word y A <-> y mod 32 / 4 = va mod 32 / 4)).
  { intros y Hy. unfold same_word, in_line in *. rewrite <- E3. split; intros; dlia. }
  split.
  - destruct Hh as (va0 & b & H1 & H2 & H3 & H4 & H5). exists va0, b. rewrite written_align by done. done.
  - intros y Hy. change (in_line l y) in Hy. unfold line_byte, written. upds. unfold wr.
    destruct (decide (y mod 32 / 4 = va mod 32 / 4)) as [E|E].
    + rewrite E, nth_lookup, list_lookup_insert_eq by (assert (0 <= va mod 32 / 4 < 8) by dlia; lia). cbn [default id from_option].
      rewrite (lane_set_mod w real_va A) by done. rewrite lane_set_flat by (try done; by apply Hsw).
      apply flat_write_local. rewrite <- (Hb y Hy). unfold line_byte. by rewrite E, (nth_lookup_Some _ _ _ _ Ex).
    + rewrite nth_lookup, list_lookup_insert_ne, <- nth_lookup by (intros E'; apply E; dlia).
      rewrite flat_write_other by (rewrite Hsw; done). by apply Hb.
  - intros y Hy. change (in_line l y) in Hy. destruct (written_flags w data x l) as [_ Hdf]. unfold dirty_at. rewrite Hdf by dlia.
    intros [Hd1 Hd2%Z.eqb_neq]%orb_false_iff. rewrite flat_write_other; [by apply Hc|]. rewrite Hsw by done. intros E. apply Hd2. dlia.
  - exact Hp.
Qed.

Lemma update_coherent w c q m v data p l s : cohere c q m v -> here s m -> holds_va c p g l -> word data ->
  exists c', update_cache w va data p c real_va s = Some c' /\ cohere c' q m (flat_write e w (real_pa g real_va) data v).
Proof.
  intros H Hs Hl Hd. pose proof (co_wf _ _ _ _ H) as Hwf. destruct (line_word_of c q m v p l H Hl) as (x & Ex & Hx & Ei & Hy).
  destruct real_pa_word as (E1 & E2 & E3 & E4 & E5). destruct Hl as (El & Hvl & _ & Hin).
  unfold update_cache, cache_word. cbv zeta. rewrite El. cbn [mbind option_bind]. rewrite Ex. cbn [mbind option_bind].
  rewrite (he_endian _ _ Hs), (dc_width c Hwf), Ei. change (32 >>> 3) with 4. rewrite Ei in Ex.
  exists (upd_line p (written w data x) c). split; [done|]. set (A := real_pa g real_va) in *.
  assert (HinA : in_line l A) by (unfold in_line in *; congruence).
  assert (Hother : forall i j k y, cline c i j = Some k -> valid k = true -> ~ is_ptr p i j -> in_line k y -> ~ same_word y A).
  { intros i j k y Hk Hkv Hne Hyk Hsw. apply Hne.
    apply (co_unique _ _ _ _ H i j k _ _ l Hk El Hkv Hvl). unfold in_line, same_word in *. dlia. }
  destruct (written_flags w data x l) as [Hval _].
  split.
  - apply dc_wf_upd; [done|]. intros k [Hk8 HkF]. split; unfold written; upds; [by rewrite length_wr|].
    apply Forall_wr; [done|]. by apply word_lane_set.
  - intros i j k Hk Hkv. apply (line_ok_same c); [done..|].
    destruct (cline_upd_cases p _ c l i j k El Hk) as [[[-> ->] ->]|[Hne Hk']].
    + apply written_ok; try done; [by apply (co_lines _ _ _ _ H _ (Z.to_nat p.2))|apply Hwf|by apply (dc_line_shape c _ _ l Hwf El)].
    + destruct (co_lines _ _ _ _ H i j k Hk' Hkv) as [H1 H2 H3 H4]. split; try done.
      * intros y Hyk. rewrite flat_write_other by by apply (Hother i j k). by apply H2.
      * intros y Hyk Hdk. rewrite flat_write_other by by apply (Hother i j k). by apply H3.
  - intros i j k i' j' k' Hk Hk' Hkv Hkv' E.
    assert (forall i j k, cline (upd_line p (written w data x) c) i j = Some k -> valid k = true ->
      exists k0, cline c i j = Some k0 /\ valid k0 = true /\ line_pa k0 = line_pa k) as Hold.
    { intros a b k0 Hk0 Hv0. destruct (cline_upd_cases p _ c l a b k0 El Hk0) as [[[-> ->] ->]|[_ Hc]]; [|by exists k0].
      exists l. split; [done|]. by rewrite Hval in Hv0. }
    destruct (Hold i j k Hk Hkv) as (k1 & F1 & V1 & P1). destruct (Hold i' j' k' Hk' Hkv') as (k2 & F2 & V2 & P2).
    apply (co_unique _ _ _ _ H i j k1 i' j' k2 F1 F2 V1 V2). congruence.
  - intros y Hyu. assert (uncovered c y) as Hyc.
    { intros i j k Hk Hkv Hyk. destruct (decide (is_ptr p i j)) as [[-> ->]|Hne].
      - rewrite cache_line_cline in El. rewrite El in Hk. injection Hk as <-.
        apply (Hyu (Z.to_nat p.1) (Z.to_nat p.2) (written w data x l)); [|congruence|done]. rewrite cline_upd, decide_True, El by done. done.
      - apply (Hyu i j k); [|done|done]. by rewrite cline_upd, decide_False. }
    rewrite flat_write_other; [by apply (co_rest _ _ _ _ H)|]. intros Hsw. apply (Hyc _ _ l El Hvl). by apply Hy.
  - apply H.
Qed.
(** ** Accesses past the cache *)

Lemma flat_read_ext w a m m' : (forall y, same_word y a -> m y = m' y) -> flat_read e w m a = flat_read e w m' a.
Proof.
  intros H. unfold flat_read. apply foldr_lanes. intros k Hk%elem_of_seqZ. apply H. apply pos_lane_no. lia.
Qed.
Lemma align_same w a : align w (align w a) = align w a.
Proof. unfold align. destruct w; cbn [size]; dlia. Qed.
Lemma flat_read_align w a m : flat_read e w m (align w a) = flat_read e w m a.
Proof. unfold flat_read. by rewrite align_same. Qed.
Lemma flat_write_align w a d m : flat_write e w (align w a) d m = flat_write e w a d m.
Proof. unfold flat_write. by rewrite align_same. Qed.

(** The address that the code computes. *)
Lemma sub_addr_align w : sub_addr w (pg_pa g) real_va = align w (real_pa g real_va).
Proof.
  destruct real_pa_word as (_ & _ & _ & E4 & _). unfold sub_addr, align, real_pa.
  assert (forall k, 0 <= k < 4 -> pg_pa g ||| k = pg_pa g + k) as Hor.
  { intros k Hk. assert (pg_pa g = (pg_pa g / 4) <<< 2) as -> by (rewrite Z.shiftl_mul_pow2 by done; change (2 ^ 2) with 4; dlia).
    symmetry. apply add_lor_shift; [done|exact Hk]. }
  destruct w; cbn [size].
  - rewrite land_3, Hor, Z.mod_1_r by dlia. lia.
  - rewrite land_2, Hor by dlia. dlia.
  - dlia.
Qed.

Lemma block_ram x : x / 32 = pg_pa g / 32 -> ram_at bs x.
Proof. by apply (ds_ram _ _ _ DS va g). Qed.
Lemma align_block w x : align w (real_pa g real_va) <= x < align w (real_pa g real_va) + size w ->
  x / 32 = pg_pa g / 32 /\ same_word x (real_pa g real_va).
Proof. destruct real_pa_word as (E1 & E2 & _). unfold align, same_word. destruct w; cbn [size]; intros; split; dlia. Qed.

Lemma uncovered_block c x : no_line c (pg_pa g) -> x / 32 = pg_pa g / 32 -> uncovered c x.
Proof. intros Hno Hx i j l Hl Hvl Hin. apply (Hno i j l Hl Hvl). unfold in_line in Hin. congruence. Qed.
Lemma same_word_block x : same_word x (real_pa g real_va) -> x / 32 = pg_pa g / 32.
Proof. destruct real_pa_word as (E1 & _). unfold same_word. intros. dlia. Qed.

Lemma direct_read_coherent w c q m v s : cohere c q m v -> here s m -> no_line c (pg_pa g) ->
  (forall x, x / 32 = pg_pa g / 32 -> x ∉ q.*1) ->
  exists s', mem_read w (sub_addr w (pg_pa g) real_va) s = Some (flat_read e w v (real_pa g real_va), s') /\ now_holds e s s' m.
Proof.
  intros H Hs Hno Hq. rewrite sub_addr_align. set (A := real_pa g real_va).
  destruct (align_block w (align w A)) as [Hb _]; [destruct w; cbn [size]; fold A; lia|].
  destruct (block_ram _ Hb) as (Hw & i & b & Hi & Hr & _).
  destruct (mem_read_flat e m w (align w A) s) as (s' & -> & Hs1 & Him'); try done; try apply Hs.
  { by apply (he_remap _ _ Hs va g). }
  { rewrite (he_banks _ _ Hs). by exists i, b. }
  exists s'. split; [|done]. do 2 f_equal. rewrite flat_read_align. apply flat_read_ext. intros y Hy%same_word_block.
  rewrite <- (co_rest _ _ _ _ H y) by by apply uncovered_block. by rewrite drained_outside by by apply Hq.
Qed.

(** Memory and queue after a write that no line holds: [m'] and [q'] are as
    before on the other lines, and together see the write. *)
Lemma miss_coherent w c q q' m m' v data : cohere c q m v -> no_line c (pg_pa g) ->
  (forall x, x / 32 <> pg_pa g / 32 -> (x ∉ q.*1) -> (x ∉ q'.*1) /\ m' x = m x) ->
  (forall x, drained e q' m' x = flat_write e w (real_pa g real_va) data (drained e q m) x) ->
  Forall pend_ok q' -> cohere c q' m' (flat_write e w (real_pa g real_va) data v).
Proof.
  intros H Hno Hout Hdr Hp. split; [apply H| |apply H| |done].
  - intros i j l Hl Hv'. destruct (co_lines _ _ _ _ H i j l Hl Hv') as [H1 H2 H3 H4].
    assert (forall x, in_line l x -> x / 32 <> pg_pa g / 32) as Hx by (intros x Hi E; apply (Hno i j l Hl Hv'); unfold in_line in Hi; congruence).
    assert (forall x, in_line l x -> ~ same_word x (real_pa g real_va)) as Hsw by (intros x Hi E; by apply (Hx x Hi), same_word_block).
    split; [done|..].
    + intros x Hi. rewrite flat_write_other by by apply Hsw. by apply H2.
    + intros x Hi Hd. rewrite flat_write_other by by apply Hsw. destruct (Hout x (Hx x Hi) (H4 x Hi)) as [_ ->]. by apply H3.
    + intros x Hi. by destruct (Hout x (Hx x Hi) (H4 x Hi)).
  - intros x Hx. rewrite Hdr. apply flat_write_local. by apply (co_rest _ _ _ _ H).
Qed.

Lemma direct_write_coherent w c m v data s : cohere c [] m v -> here s m -> no_line c (pg_pa g) -> word data ->
  exists s' m', mem_write w (sub_addr w (pg_pa g) real_va) data s = Some s' /\ now_holds e s s' m' /\ here s' m' /\
    cohere c [] m' (flat_write e w (real_pa g real_va) data v).
Proof.
  intros H Hs Hno Hd. rewrite sub_addr_align. set (A := real_pa g real_va).
  destruct (align_block w (align w A)) as [Hb _]; [destruct w; cbn [size]; fold A; lia|].
  destruct (mem_write_ram w (align w A) data s e m) as (s' & -> & Hs1 & Him'); try done; try apply Hs.
  { rewrite (he_banks _ _ Hs). by apply block_ram. }
  rewrite flat_write_align in Him'. exists s', (flat_write e w A data m). split; [done|]. split; [done|].
  split; [by apply (here_step s s' m)|]. apply (miss_coherent w c [] [] m); try done.
  intros x Hx _. split; [apply not_elem_of_nil|]. apply flat_write_other. intros E. by apply Hx, same_word_block.
Qed.

(** *** The write buffer *)

Lemma land_byte_twice x : (x &&& 0xff) &&& 0xff = x &&& 0xff.
Proof. by rewrite <- Z.land_assoc. Qed.

(** The bytes of a write in the order of a little-endian host are those of a
    little-endian core. *)
Lemma stores_flat w a data m x : e = 0 -> a mod size w = 0 -> (forall k, 0 <= k < size w -> word (a + k)) ->
  drained e (stores a (word_bytes (width_bytes w) data)) m x = flat_write e w a data m x.
Proof.
  intros He Ha Hw.
  assert (forall k, 0 <= k < size w -> add32 a k = a + k) as Hadd by (intros k Hk; by apply u32_id, Hw).
  assert (forall k, 0 <= k < size w -> lane_no e w k = k) as Hl by (intros k Hk; unfold lane_no; by rewrite He).
  unfold flat_write, align. rewrite Ha, Z.sub_0_r. unfold stores, word_bytes.
  destruct w; cbn [width_bytes size] in *;
    [change (seqZ 0 1) with [0]|change (seqZ 0 2) with [0; 1]|change (seqZ 0 4) with [0; 1; 2; 3]];
    cbn [map imap drained fold_left compose];
    try change (Z.of_nat 3) with 3; try change (Z.of_nat 2) with 2; try change (Z.of_nat 1) with 1; change (Z.of_nat 0) with 0;
    rewrite !flat_write_byte, ?Hadd, ?land_byte_twice by lia.
  - destruct (Z.leb_spec a x), (Z.ltb_spec x (a + 1)), (Z.eqb_spec x (a + 0)); cbn [andb]; try lia; try done.
    rewrite Hl by lia. do 2 f_equal. lia.
  - destruct (Z.leb_spec a x), (Z.ltb_spec x (a + 2)), (Z.eqb_spec x (a + 1)), (Z.eqb_spec x (a + 0)); cbn [andb]; try lia; try done;
      rewrite Hl by lia; do 2 f_equal; lia.
  - destruct (Z.leb_spec a x), (Z.ltb_spec x (a + 4)), (Z.eqb_spec x (a + 3)), (Z.eqb_spec x (a + 2)), (Z.eqb_spec x (a + 1)), (Z.eqb_spec x (a + 0));
      cbn [andb]; try lia; try done; rewrite Hl by lia; do 2 f_equal; lia.
Qed.

Lemma stores_in a data n x : x ∈ stores a (word_bytes n data) -> (exists k, 0 <= k < n /\ x.1 = add32 a k) /\ word x.2.
Proof.
  intros [j Hj]%list_elem_of_lookup_1. rewrite lookup_stores in Hj. apply fmap_Some in Hj as (d & Hd & ->). cbn [fst snd].
  unfold word_bytes in Hd. apply list_lookup_fmap_Some in Hd as (k & -> & Hk). apply lookup_seqZ in Hk as [-> Hk].
  split; [exists (Z.of_nat j); split; [lia|done]|]. apply word_land_r. by compute.
Qed.

Lemma buffered_coherent w c b m v data s : cohere c (pending b) m v -> here s m -> no_line c (pg_pa g) -> wb_wf b ->
  pg_b g = true -> e = 0 ->
  exists b' s' m', mmu_wb_write_bytes (sub_addr w (pg_pa g) real_va) (word_bytes (width_bytes w) data) b s = Some (b', s') /\
    now_holds e s s' m' /\ here s' m' /\ wb_wf b' /\ cohere c (pending b') m' (flat_write e w (real_pa g real_va) data v).
Proof.
  intros H Hs Hno Hb Hbf He0. rewrite sub_addr_align. set (A := real_pa g real_va). set (a := align w A).
  assert (Hblk : forall k, 0 <= k < size w -> (a + k) / 32 = pg_pa g / 32 /\ word (a + k)).
  { intros k Hk. destruct (align_block w (a + k)) as [Hk1 _]; [unfold a; fold A; lia|]. split; [done|]. by apply block_ram. }
  assert (Hws : width_bytes w = size w) by by destruct w. set (data' := word_bytes (width_bytes w) data).
  assert (Hst : forall x, x ∈ stores a data' -> x.1 / 32 = pg_pa g / 32 /\ word x.2).
  { intros x Hx. destruct (stores_in a data _ x Hx) as [(k & Hk & ->) Hw2]. rewrite Hws in Hk. destruct (Hblk k Hk) as [Hk1 Hk2].
    unfold add32. by rewrite u32_id. }
  assert (Hpend : Forall pend_ok (pending b ++ stores a data')).
  { apply Forall_app. split; [apply H|]. apply list.Forall_forall. intros x Hx. destruct (Hst x Hx) as [H1 H2]. split; [done|]. by exists va, g. }
  assert (word a) as Haw by (destruct (Hblk 0) as [_ Hw0]; [destruct w; cbn [size]; lia|by rewrite Z.add_0_r in Hw0]).
  pose proof (pending_stores_ok _ Hpend) as Hok. rewrite <- (he_banks _ _ Hs) in Hok. apply Forall_app in Hok as [Hok1 Hok2].
  destruct (write_loop e e_bit (length data') a data' b s m) as (b' & s' & out & E & Hn & Hb' & Eq); try done; try apply Hs.
  exists b', s', (drained e out m). unfold mmu_wb_write_bytes. split; [exact E|]. split; [done|].
  split; [by apply (here_step s s' m)|]. split; [done|]. rewrite Eq in Hpend. apply Forall_app in Hpend as [_ Hp'].
  apply (miss_coherent w c (pending b) (pending b') m); try done.
  - intros x Hx Hq. assert (x ∉ (out ++ pending b').*1) as Hno'.
    { rewrite <- Eq, fmap_app. intros [Hin|Hin]%elem_of_app; [done|]. apply list_elem_of_fmap in Hin as (y & -> & Hy). by apply Hx, Hst. }
    rewrite fmap_app in Hno'. apply not_elem_of_app in Hno' as [Ho Hp]. split; [done|]. by apply drained_outside.
  - intros x. rewrite <- drained_app, <- Eq, drained_app. unfold data'. rewrite stores_flat.
    + unfold a. by rewrite flat_write_align.
    + done.
    + unfold a, align. destruct w; cbn [size]; dlia.
    + intros k Hk. by apply Hblk.
Qed.
End Access.

End Coherence.
