(* ===== verification/DataSide.v ===== *)
(** * The data side of the cached MMUs is transparent

    What a program reads through the translation buffer, the write-back cache
    and the write buffer is a flat memory: the reference below, in which a
    write changes the bytes at its physical address and nothing else has an
    effect.  For the MMUs of Arm9Mmu.v. *)

From S2P Require Import Prelude Words Bits ArmState Machine ArmSys ArmMem MemSpec Tlb TlbSpec Cache Arm7100 MmuSpec MmuBuffers WbSpec Harvard Arm9Mmu CacheLines Coherence.

(** ** The interface of the parts, with its laws *)

Class HarvardLaws (P : Type) `{!Harvard P} := {
  data_tlb_tlb t (p : P) : data_tlb (set_data_tlb t p) = t;
  data_cache_tlb t (p : P) : data_cache (set_data_tlb t p) = data_cache p;
  write_buffer_tlb t (p : P) : write_buffer (set_data_tlb t p) = write_buffer p;
  instr_cache_tlb t (p : P) : instr_cache (set_data_tlb t p) = instr_cache p;
  data_tlb_dc c (p : P) : data_tlb (set_data_cache c p) = data_tlb p;
  data_cache_dc c (p : P) : data_cache (set_data_cache c p) = c;
  write_buffer_dc c (p : P) : write_buffer (set_data_cache c p) = write_buffer p;
  instr_cache_dc c (p : P) : instr_cache (set_data_cache c p) = instr_cache p;
  data_tlb_wb b (p : P) : data_tlb (set_write_buffer b p) = data_tlb p;
  data_cache_wb b (p : P) : data_cache (set_write_buffer b p) = data_cache p;
  write_buffer_wb b (p : P) : write_buffer (set_write_buffer b p) = b;
  instr_cache_wb b (p : P) : instr_cache (set_write_buffer b p) = instr_cache p;
  data_tlb_ic c (p : P) : data_tlb (set_instr_cache c p) = data_tlb p;
  data_cache_ic c (p : P) : data_cache (set_instr_cache c p) = data_cache p;
  write_buffer_ic c (p : P) : write_buffer (set_instr_cache c p) = write_buffer p;
  instr_cache_ic c (p : P) : instr_cache (set_instr_cache c p) = c
}.
Ltac parts := rewrite ?data_tlb_tlb, ?data_cache_tlb, ?write_buffer_tlb, ?instr_cache_tlb, ?data_tlb_dc, ?data_cache_dc,
  ?write_buffer_dc, ?instr_cache_dc, ?data_tlb_wb, ?data_cache_wb, ?write_buffer_wb, ?instr_cache_wb,
  ?data_tlb_ic, ?data_cache_ic, ?write_buffer_ic, ?instr_cache_ic.

(** ** Translation within a line *)

Lemma quot_1024 va va' : va / 1024 = va' / 1024 ->
  va / 4096 = va' / 4096 /\ va / 16384 = va' / 16384 /\ va / 65536 = va' / 65536 /\ va / 1048576 = va' / 1048576 /\
  va / 4294967296 = va' / 4294967296.
Proof. intros. repeat split; dlia. Qed.
Lemma ref_walk_same rd xs ttb va va' : va / 1024 = va' / 1024 -> ref_walk rd xs ttb va = ref_walk rd xs ttb va'.
Proof.
  intros E. destruct (quot_1024 va va' E) as (E1 & E2 & E3 & E4 & E5).
  assert (forall base perms d m, ref_entry va base perms d m = ref_entry va' base perms d m) as Hent.
  { intros. unfold ref_entry, page_base. by destruct m; cbn [page_size]; rewrite ?E, ?E1, ?E3, ?E4, ?E5. }
  assert (ref_l1 ttb va = ref_l1 ttb va') as El by (unfold ref_l1; by rewrite E4).
  assert (forall d, ref_coarse d va = ref_coarse d va' /\ ref_fine d va = ref_fine d va') as Hl2.
  { intros d. unfold ref_coarse, ref_fine. by rewrite E1, E. }
  unfold ref_walk. cbv zeta. rewrite El. destruct (Hl2 (rd (ref_l1 ttb va'))) as [-> ->].
  destruct (ref_page false xs _), (ref_page true xs _); by rewrite ?Hent.
Qed.
Lemma ref_check_same c d mode en va va' read : va / 1024 = va' / 1024 ->
  ref_check c d mode en va read = ref_check c d mode en va' read.
Proof.
  intros E. destruct (quot_1024 va va' E) as (E1 & E2 & E3 & E4 & E5). unfold ref_check.
  assert (ref_ap en va = ref_ap en va') as ->; [|done]. unfold ref_ap. destruct (te_mapping en); try done; do 4 f_equal; dlia.
Qed.
Lemma line_page va va' : va / 32 = va' / 32 -> va / 1024 = va' / 1024.
Proof. intros. dlia. Qed.

(** Physical addresses within a line. *)
Lemma ref_pa_line rd xs ttb va va' en : (forall a, word (rd a)) -> ref_walk rd xs ttb va = inr en -> word va -> va' / 32 = va / 32 ->
  ref_pa en va' = ref_pa en va + (va' - va) /\ ref_pa en va mod 32 = va mod 32.
Proof.
  intros Hr Hw Hv E. destruct (ref_walk_phys rd xs ttb va en Hr Hw) as (_ & Hb & _).
  destruct (ref_walk_entry rd xs ttb va en Hv Hw) as (_ & Hm & _). unfold ref_pa, page_base in *.
  set (ph := te_phys_addr en) in *. clearbody ph. destruct (te_mapping en); try done; cbn [page_size] in *; split; dlia.
Qed.

(** ** The system during the accesses *)

Section DataSide.
Context {M : Type} `{!Board M} {P : Type} `{!Harvard P} `{!HarvardLaws P}.
Implicit Types (s : system M) (p : P).

(** The state at the beginning and the memory then. *)
Context (s0 : system M) (m0 : Z -> Z).
Local Abbreviation e := (bigendSig (cpu s0)).
Local Abbreviation bs := (mem_banks (ram s0)).
Definition walk0 : Z -> (fault_t * option Z) + tlb_entry_t := sys_walk s0 m0.
Definition page_of (va : Z) : option page :=
  match walk0 va with inl _ => None | inr en => Some (mkPage (ref_pa en va) (tlb_c_flag en) (tlb_b_flag en)) end.

(** The memory under the addresses [V]. *)
Definition data_at (V : Z -> Prop) (x : Z) : Prop := exists va g, V va /\ page_of va = Some g /\ x / 32 = pg_pa g / 32.

(** The addresses a program uses, [V], and what is asked of the tables and
    the memory map: whole lines; plain memory that is not mapped twice; the
    translation tables are not in that memory, and are consistent. *)
Record data_setting (V : Z -> Prop) : Prop := {
  st_word va : V va -> word va;
  st_lines va va' : V va -> va' / 32 = va / 32 -> V va';
  st_ram va g x : V va -> page_of va = Some g -> x / 32 = pg_pa g / 32 ->
    ram_at bs x /\ remap s0 x = x /\ ~ 0xe0000000 <= x < 0xe8000000;
  st_inj va va' g g' : V va -> V va' -> page_of va = Some g -> page_of va' = Some g' ->
    pg_pa g / 32 = pg_pa g' / 32 -> va / 32 = va' / 32;
  st_bytes a : 0 <= m0 a < 256;
  st_endian : e = 0;
  st_ttb : word (translation_table_base s0);
  st_mmu : Z.testbit (mmu_control (cpu s0)) 0 = true;
  st_buffer : Z.testbit (mmu_control (cpu s0)) 3 = true;
  st_pages : pages_consistent walk0;
  st_tables m : (forall x, ~ data_at V x -> m x = m0 x) -> forall va, word va -> sys_walk s0 m va = walk0 va /\ tables_ok s0 m va
}.

Lemma data_space_of V : data_setting V -> data_space page_of V bs.
Proof.
  intros H. assert (Hr : forall a, word (flat_read e Word m0 a)) by (apply flat_read_word, H).
  assert (Hpg : forall va g, V va -> page_of va = Some g ->
    exists en, walk0 va = inr en /\ g = mkPage (ref_pa en va) (tlb_c_flag en) (tlb_b_flag en)).
  { intros va g Hv. unfold page_of. destruct (walk0 va) as [|en]; [done|]. intros [= <-]. by exists en. }
  split.
  - apply H.
  - apply H.
  - intros va va' g Hv Hg E. destruct (Hpg va g Hv Hg) as (en & Ew & ->).
    destruct (ref_pa_line _ _ _ va va' en Hr Ew (st_word V H va Hv) E) as [Ep _].
    unfold page_of, page_add. cbn [pg_pa pg_c pg_b]. rewrite <- Ep.
    by rewrite (ref_walk_same _ _ _ va' va (line_page va' va E) : walk0 va' = walk0 va), Ew.
  - intros va g Hv Hg. destruct (Hpg va g Hv Hg) as (en & Ew & ->). cbn [pg_pa].
    by apply (ref_pa_line _ _ _ va va en Hr Ew (st_word V H va Hv)).
  - intros va g x Hv Hg Hx. by apply (st_ram V H va g x).
  - apply H.
Qed.

(** What the accesses change of the system: the last domain and the contents
    of memory. *)
Definition data_step s : Prop := exists d r, s = (set_last_domain d s0) <| ram := r |> /\ mem_banks r = bs.
Lemma data_step_refl : data_step s0.
Proof. exists (mmu_last_domain (cpu s0)), (ram s0). rewrite set_last_domain_same. split; [by destruct s0|done]. Qed.
Lemma data_step_ram s s' : data_step s -> same_but_ram s s' -> data_step s'.
Proof. intros (d & r & -> & Hr) [E Eb]. exists d, (ram s'). split; [by rewrite E|]. by rewrite Eb. Qed.
Lemma data_step_domain s d : data_step s -> data_step (set_last_domain d s).
Proof.
  intros (d' & r & -> & Hr). exists d, r. split; [|done]. unfold set_last_domain, upd_cpu, upd. simpl.
  by rewrite set_bcore_twice, bcore_set.
Qed.
Lemma data_step_facts s : data_step s ->
  mmu_control (cpu s) = mmu_control (cpu s0) /\ domain_access_control s = domain_access_control s0 /\
  Mode (cpu s) = Mode (cpu s0) /\ bigendSig (cpu s) = e /\ process_id s = process_id s0 /\ mem_banks (ram s) = bs /\
  (forall a, remap s a = remap s0 a) /\ (forall m, sys_walk s m = sys_walk s0 m) /\
  translation_table_base s = translation_table_base s0.
Proof.
  intros (d & r & -> & Hb). unfold sys_walk, remap, set_last_domain, cpu, upd_cpu. upds. rewrite bcore_set. upds.
  repeat split; try done.
Qed.
Lemma data_step_tables s m va : data_step s -> tables_ok s0 m va -> tables_ok s m va.
Proof.
  intros H (H1 & H2 & H3 & H4). destruct (data_step_facts s H) as (_ & _ & _ & Ee & _ & Eb & Er & _ & Et).
  assert (forall a, table_ok s0 a -> table_ok s a) as Ht by (intros a (? & ? & ?); unfold table_ok; by rewrite Er, Eb).
  unfold tables_ok. cbv zeta. rewrite Ee, Et. split; [by apply Ht|]. split; [done|].
  split; intros Hk; [destruct (H3 Hk)|destruct (H4 Hk)]; (split; [by apply Ht|done]).
Qed.

(** ** The invariant of the parts *)

Context (V : Z -> Prop) (DV : data_setting V).

Lemma e_bit : bit e.
Proof. left. apply (st_endian V DV). Qed.
Lemma space : data_space page_of V bs.
Proof. by apply data_space_of. Qed.
Lemma page_of_walk va g : page_of va = Some g -> exists en, walk0 va = inr en /\ g = mkPage (ref_pa en va) (tlb_c_flag en) (tlb_b_flag en).
Proof. unfold page_of. destruct (walk0 va) as [|en]; [done|]. intros [= <-]. by exists en. Qed.

(** The parts hold the program's memory [v] in front of the memory [m]. *)
Record data_inv (t : tlb_t) (ic dc : cache_t) (b : wb_t) s (v m : Z -> Z) : Prop := {
  di_step : data_step s;
  di_mem : implements e (ram s) m;
  di_cohere : cohere e page_of V dc (pending b) m v;
  di_wb : wb_wf b;
  di_instr : dc_wf ic;
  di_tlb : tlb_ok walk0 t;
  di_rest x : ~ data_at V x -> v x = m0 x
}.

Lemma data_step_here s m : data_step s -> implements e (ram s) m -> here e page_of V bs s m.
Proof.
  intros H Him. destruct (data_step_facts s H) as (_ & _ & _ & He & _ & Hb & Hr & _). split; try done.
  intros va g x Hv Hg Hx. rewrite Hr. by apply (st_ram V DV va g x).
Qed.
Lemma data_step_now s s' m' : data_step s -> now_holds e s s' m' -> data_step s' /\ implements e (ram s') m'.
Proof. intros H [Hs Him]. split; [by apply (data_step_ram s s')|done]. Qed.

(** Elsewhere memory is as it was, so that the tables are. *)
Lemma inv_memory t ic dc b s v m x : data_inv t ic dc b s v m -> ~ data_at V x -> m x = m0 x.
Proof.
  intros H Hx. rewrite <- (di_rest _ _ _ _ _ _ _ H x Hx). pose proof (di_cohere _ _ _ _ _ _ _ H) as Hc.
  rewrite <- (co_rest _ _ _ _ _ _ _ Hc x).
  - rewrite drained_outside; [done|]. intros ((a & d) & -> & Hin)%list_elem_of_fmap. apply Hx.
    pose proof (co_pending _ _ _ _ _ _ _ Hc) as HF. rewrite list.Forall_forall in HF.
    destruct (HF _ Hin) as (_ & va & g & Hv & Hg & _ & Hd). by exists va, g.
  - intros i j l Hl Hv Hi. apply Hx.
    destruct (lo_home _ _ _ _ _ _ _ _ _ (co_lines _ _ _ _ _ _ _ Hc i j l Hl Hv)) as (va & bf & Hva & _ & _ & _ & Hg).
    by exists va, (mkPage (line_pa l) true bf).
Qed.
Lemma inv_walk t ic dc b s v m va : data_inv t ic dc b s v m -> word va -> sys_walk s m va = walk0 va /\ tables_ok s m va.
Proof.
  intros H Hv. destruct (st_tables V DV m (fun x => inv_memory _ _ _ _ _ _ _ x H) va Hv) as [E Ht].
  pose proof (di_step _ _ _ _ _ _ _ H) as Hs. destruct (data_step_facts s Hs) as (_ & _ & _ & _ & _ & _ & _ & Ew & _).
  rewrite Ew. split; [done|by apply data_step_tables].
Qed.

(** ** Translation *)

(** The translation of an address and its check. *)
Definition checked (va : Z) (read : bool) : fault_t + tlb_entry_t :=
  match walk0 va with
  | inl (f, _) => inl f
  | inr en =>
      match ref_check (mmu_control (cpu s0)) (domain_access_control s0) (Mode (cpu s0)) en va read with
      | Some f => inl f
      | None => inr en
      end
  end.

Lemma translate_checked_ref va read t ic dc b s v m : data_inv t ic dc b s v m -> word va ->
  exists t' s', translate_checked va read t s = Some (checked va read, t', s') /\ data_inv t' ic dc b s' v m.
Proof.
  intros H Hv. pose proof (di_step _ _ _ _ _ _ _ H) as Hst. destruct (data_step_facts s Hst) as (Ec & Ed & Em & He & _ & _ & _ & _ & Et).
  assert (Hw : forall va, word va -> sys_walk s m va = walk0 va) by (intros; by eapply inv_walk).
  destruct (translate_walk va t s m) as (t' & s' & E & Ht' & Him' & s1 & Hs1 & Es').
  - rewrite He. apply e_bit.
  - rewrite He. apply H.
  - done.
  - rewrite Et. apply (st_ttb V DV).
  - by eapply inv_walk.
  - by apply (pages_consistent_ext walk0); [|apply (st_pages V DV)].
  - by apply (tlb_ok_ext walk0); [|apply H].
  - rewrite He in Him'. assert (Hst' : data_step s') by (subst s'; by apply data_step_domain, (data_step_ram s)).
    assert (Ht : tlb_ok walk0 t') by (apply (tlb_ok_ext (sys_walk s m)); [intros; symmetry; by apply Hw|done]).
    rewrite Hw in E by done. unfold translate_checked, checked. rewrite E. cbn [mbind option_bind].
    destruct (walk0 va) as [[f o]|en] eqn:Ew; cbn [walk_result].
    + exists t', s'. split; [done|]. by destruct H; split.
    + destruct (ref_walk_entry _ _ _ va en Hv Ew) as (_ & Hm & _).
      destruct (ref_walk_phys _ _ _ va en (flat_read_word _ m0 (st_bytes V DV)) Ew) as (_ & _ & Hd).
      rewrite check_access_ref by done. cbn [mbind option_bind].
      destruct (data_step_facts s' Hst') as (-> & -> & -> & _).
      exists t', (set_last_domain (te_domain en) s'). split.
      * destruct (ref_check _ _ _ en va read) as [f|] eqn:Er; cbn [default id from_option]; [|done].
        by rewrite decide_False by by eapply ref_check_fault.
      * destruct H; split; try done. by apply data_step_domain.
Qed.

(** ** Reads *)

Definition parts_inv p s (v m : Z -> Z) : Prop := data_inv (data_tlb p) (instr_cache p) (data_cache p) (write_buffer p) s v m.

Lemma page_pa va en g : V va -> walk0 va = inr en -> page_of va = Some g ->
  g = mkPage (tlb_va_to_pa en va) (tlb_c_flag en) (tlb_b_flag en) /\ tlb_va_to_pa en va = ref_pa en va.
Proof.
  intros Hv Hw Hg. pose proof (st_word V DV va Hv) as Hword.
  destruct (ref_walk_entry _ _ _ va en Hword Hw) as (_ & Hm & _).
  destruct (ref_walk_phys _ _ _ va en (flat_read_word _ m0 (st_bytes V DV)) Hw) as (Hp & Hb & _).
  rewrite tlb_va_to_pa_ref by done. split; [|done]. unfold page_of in Hg. rewrite Hw in Hg. by injection Hg as <-.
Qed.

(** A page that is not buffered has no pending stores. *)
Lemma not_pending dc q m v va g : cohere e page_of V dc q m v -> V va -> page_of va = Some g -> pg_b g = false ->
  forall x, x / 32 = pg_pa g / 32 -> x ∉ q.*1.
Proof.
  intros H Hv Hg Hb x Hx ((a & d) & -> & Hin)%list_elem_of_fmap. cbn [fst] in *.
  pose proof (co_pending _ _ _ _ _ _ _ H) as HF. rewrite list.Forall_forall in HF.
  destruct (HF _ Hin) as (_ & va' & g' & Hv' & Hg' & Hb' & Hd). cbn [fst] in *.
  pose proof (ds_inj _ _ _ space va va' g g' Hv Hv' Hg Hg' ltac:(lia)) as E.
  pose proof (ds_line _ _ _ space va va' g Hv Hg ltac:(lia)) as E'. rewrite Hg' in E'. injection E' as ->.
  unfold page_add in Hb'. cbn [pg_b] in Hb'. congruence.
Qed.

(** The drain before a read of a buffered page. *)
Lemma read_drain p s v m va g : parts_inv p s v m -> V va -> page_of va = Some g ->
  exists p' s' m', (if pg_b g then '(b, s) ← mmu_wb_drain_all (write_buffer p) s; Some (set_write_buffer b p, s)
                    else Some (p, s)) = Some (p', s') /\ parts_inv p' s' v m' /\ data_cache p' = data_cache p /\
    forall x, x / 32 = pg_pa g / 32 -> x ∉ (pending (write_buffer p')).*1.
Proof.
  intros H Hv Hg. destruct (pg_b g) eqn:Hb.
  - destruct H as [Hst Him Hc Hwb Hic Ht Hrest].
    destruct (drain_coherent e e_bit page_of V bs space _ _ m v s Hc (data_step_here s m Hst Him) Hwb)
      as (b' & s' & m' & -> & Hn & _ & Hc' & Hwb' & Hp). cbn [mbind option_bind].
    destruct (data_step_now s s' m' Hst Hn) as [Hst' Him'].
    exists (set_write_buffer b' p), s', m'. split; [done|]. unfold parts_inv. parts. rewrite Hp. split; [|split; [done|]].
    + split; try done. by rewrite Hp.
    + intros x _. apply not_elem_of_nil.
  - exists p, s, m. do 3 (split; [done|]). by apply (not_pending _ _ m v va g (di_cohere _ _ _ _ _ _ _ H)).
Qed.

Lemma read_miss_ref w d0 en va real_va p s v m g : parts_inv p s v m -> V va -> va = real_va - real_va mod 4 ->
  walk0 va = inr en -> page_of va = Some g -> no_line (data_cache p) (pg_pa g) ->
  exists p' s' m', read_miss w d0 en va real_va p s = Some (flat_read e w v (real_pa g real_va), p', s') /\ parts_inv p' s' v m'.
Proof.
  intros H Hv Hva Hw Hg Hno. destruct (page_pa va en g Hv Hw Hg) as [Eg _]. unfold read_miss. cbv zeta.
  destruct (st_ram V DV va g (pg_pa g) Hv Hg eq_refl) as (_ & _ & Hregion).
  assert (tlb_va_to_pa en va = pg_pa g /\ tlb_c_flag en = pg_c g /\ tlb_b_flag en = pg_b g) as (-> & -> & ->) by by subst g.
  assert ((0xe0000000 <=? pg_pa g) && (pg_pa g <? 0xe8000000) = false) as ->.
  { apply andb_false_iff. destruct (Z.leb_spec 0xe0000000 (pg_pa g)), (Z.ltb_spec (pg_pa g) 0xe8000000); auto. lia. }
  destruct (read_drain p s v m va g H Hv Hg) as (p1 & s1 & m1 & -> & H1 & Ecache & Hq). cbn [mbind option_bind].
  rewrite <- Ecache in Hno. clear H. destruct H1 as [Hst Him Hc Hwb Hic Ht Hrest]. pose proof (data_step_here s1 m1 Hst Him) as Hh.
  destruct (pg_c g && control_on s1 CONTROL_DATA_CACHE) eqn:Ec.
  - apply andb_true_iff in Ec as [Hcf _].
    destruct (alloc_coherent e e_bit page_of V bs space _ _ m1 v va g s1 Hc Hh Hv Hg Hcf Hno Hq)
      as (q & c' & s2 & m2 & l & -> & Hn & Hh2 & Hc2 & Hl & _). cbn [mbind option_bind].
    destruct (data_step_now s1 s2 m2 Hst Hn) as [Hst' Him'].
    rewrite (cache_read_coherent e e_bit page_of V bs space va real_va g Hva Hv Hg w c' _ m2 v q l s2 Hc2 Hh2 Hl).
    cbn [mbind option_bind]. exists (set_data_cache c' p1), s2, m2. split; [done|]. unfold parts_inv. by parts; split.
  - destruct (direct_read_coherent e e_bit page_of V bs space va real_va g Hva Hv Hg w _ _ m1 v s1 Hc Hh Hno Hq) as (s2 & -> & Hn).
    cbn [mbind option_bind]. destruct (data_step_now s1 s2 m1 Hst Hn) as [Hst' Him'].
    exists p1, s2, m1. split; [done|]. by split.
Qed.

(** The aligned address. *)
Lemma aligned va : va &&~ 3 = va - va mod 4.
Proof. change 3 with (Z.ones 2). rewrite Z.ldiff_ones_r, Z.shiftl_mul_pow2, Z.shiftr_div_pow2 by done. change (2 ^ 2) with 4. dlia. Qed.

(** The reference's translation of an access, by the translation of the
    aligned address. *)
Lemma virtual_checked w read va : ref_misaligned s0 w va = false ->
  virtual s0 m0 w read va = match checked (va &&~ 3) read with inl f => inl f | inr en => inr (ref_pa en va) end.
Proof.
  intros Ha. assert (va / 1024 = (va &&~ 3) / 1024) as E by (rewrite aligned; dlia).
  unfold virtual, checked, walk0. rewrite Ha. change (sys_walk s0 m0) with walk0.
  rewrite <- (ref_walk_same _ _ _ va (va &&~ 3) E : walk0 va = walk0 (va &&~ 3)).
  destruct (walk0 va) as [[f o]|en]; [done|]. rewrite <- (ref_check_same _ _ _ en va (va &&~ 3) read E).
  by destruct (ref_check _ _ _ en va read).
Qed.
Lemma checked_walk va read en : checked va read = inr en -> walk0 va = inr en.
Proof. unfold checked. destruct (walk0 va) as [[f o]|e']; [done|]. destruct (ref_check _ _ _ e' va read); [done|]. by intros [= ->]. Qed.

(** Bits of the control register. *)
Lemma step_control s k n : data_step s -> 0 <= n -> k = 2 ^ n -> control_on s k = Z.testbit (mmu_control (cpu s0)) n.
Proof.
  intros H Hn ->. destruct (data_step_facts s H) as (Ec & _). unfold control_on. rewrite Ec. by apply truth_land_pow2.
Qed.
Lemma step_misaligned w va s : data_step s -> misaligned w va s = ref_misaligned s0 w va.
Proof. intros H. rewrite misaligned_ref. unfold ref_misaligned. by destruct (data_step_facts s H) as (-> & _). Qed.
Lemma step_pid va s : data_step s -> mmu_pid_va_map s va = mmu_pid_va_map s0 va.
Proof. intros H. unfold mmu_pid_va_map. by destruct (data_step_facts s H) as (_ & _ & _ & _ & -> & _). Qed.

(** What the accesses have in common: the address of the word, its page and
    the place of the access in it. *)
Lemma access_page va en : V va -> walk0 (va &&~ 3) = inr en ->
  exists g, V (va &&~ 3) /\ va &&~ 3 = va - va mod 4 /\ page_of (va &&~ 3) = Some g /\ real_pa g va = ref_pa en va.
Proof.
  intros Hv Hw. pose proof (aligned va) as Ea. assert (Hv' : V (va &&~ 3)) by (apply (st_lines V DV va); [done|rewrite Ea; dlia]).
  exists (mkPage (ref_pa en (va &&~ 3)) (tlb_c_flag en) (tlb_b_flag en)). split; [done|]. split; [done|].
  split; [unfold page_of; by rewrite Hw|]. unfold real_pa. cbn [pg_pa].
  destruct (ref_pa_line _ _ _ (va &&~ 3) va en (flat_read_word _ m0 (st_bytes V DV)) Hw (st_word V DV _ Hv')) as [-> _]; [rewrite Ea; dlia|].
  rewrite Ea. lia.
Qed.

Lemma hv_read_ref w d0 va p s v m : parts_inv p s v m -> V (mmu_pid_va_map s0 va) ->
  exists p' s' m', hv_read w d0 va p s = Some (match virtual s0 m0 w true (mmu_pid_va_map s0 va) with
      | inl f => inl f | inr pa => inr (flat_read e w v pa) end, p', s') /\ parts_inv p' s' v m'.
Proof.
  intros H Hv. pose proof (di_step _ _ _ _ _ _ _ H) as Hst. unfold hv_read. cbv zeta. rewrite (step_pid va s Hst).
  set (a := mmu_pid_va_map s0 va) in *. rewrite (step_control s CONTROL_MMU 0), (st_mmu V DV), (step_misaligned w a s) by done. cbn [negb].
  destruct (ref_misaligned s0 w a) eqn:Ea.
  { exists p, s, m. split; [|done]. unfold virtual. by rewrite Ea. }
  rewrite virtual_checked by done.
  destruct (translate_checked_ref (a &&~ 3) true _ _ _ _ s v m H) as (t' & s1 & -> & H1).
  { apply (st_word V DV), (st_lines V DV a); [done|rewrite aligned; dlia]. }
  cbn [mbind option_bind]. destruct (checked (a &&~ 3) true) as [f|en] eqn:Ech.
  { exists (set_data_tlb t' p), s1, m. split; [done|]. unfold parts_inv. by parts. }
  pose proof (checked_walk _ _ _ Ech) as Hw. destruct (access_page a en Hv Hw) as (g & Hv' & Ea' & Hg & <-).
  set (p1 := set_data_tlb t' p). assert (Hp1 : parts_inv p1 s1 v m) by (unfold parts_inv, p1; by parts).
  pose proof (di_cohere _ _ _ _ _ _ _ Hp1) as Hc. pose proof (data_step_here s1 m (di_step _ _ _ _ _ _ _ Hp1) (di_mem _ _ _ _ _ _ _ Hp1)) as Hh.
  destruct (search_coherent e page_of V bs space _ _ m v (a &&~ 3) g Hc Hv' Hg) as (o & -> & Ho). cbn [mbind option_bind].
  destruct o as [q|].
  - destruct Ho as (l & Hl).
    rewrite (cache_read_coherent e e_bit page_of V bs space (a &&~ 3) a g Ea' Hv' Hg w _ _ m v q l s1 Hc Hh Hl).
    cbn [mbind option_bind]. by exists p1, s1, m.
  - destruct (read_miss_ref w d0 en (a &&~ 3) a p1 s1 v m g Hp1 Hv' Ea' Hw Hg Ho) as (p2 & s2 & m2 & -> & H2).
    cbn [mbind option_bind]. by exists p2, s2, m2.
Qed.

(** ** Writes *)

Lemma update_cache_shape w va data q c real_va s l : dc_wf c -> bigendSig (cpu s) = e -> word data -> cache_line c q = Some l ->
  exists c', update_cache w va data q c real_va s = Some c' /\ dc_wf c'.
Proof.
  intros Hwf He Hd Hl. assert (Hi : 0 <= va_cache_index va c < 8).
  { unfold va_cache_index. rewrite (dc_width c Hwf). change (32 - 1) with (Z.ones 5). rewrite Z.land_ones, Z.shiftr_div_pow2 by done.
    change (2 ^ 5) with 32. change (2 ^ 2) with 4. dlia. }
  destruct (line_word_at l _ (dc_line_shape c _ _ l Hwf Hl) Hi) as (x & Ex & Hx & _).
  unfold update_cache, cache_word. cbv zeta. rewrite Hl. cbn [mbind option_bind]. rewrite Ex. cbn [mbind option_bind].
  eexists. split; [done|]. apply dc_wf_upd; [done|]. intros k [Hk HF]. split; upds; [by rewrite length_wr|].
  apply Forall_wr; [done|]. rewrite He. apply word_lane_set; [apply e_bit|done..].
Qed.

Lemma write_instr_ref w va data p s v m : parts_inv p s v m -> word data ->
  exists p', write_instr_cache w va data p s = Some p' /\ parts_inv p' s v m.
Proof.
  intros H Hd. pose proof (di_instr _ _ _ _ _ _ _ H) as Hic. unfold write_instr_cache.
  destruct (cache_search_spec _ va Hic) as (o & -> & Ho). cbn [mbind option_bind]. destruct o as [q|]; [|by exists p].
  destruct Ho as (_ & _ & l & Hl & _). destruct (data_step_facts s (di_step _ _ _ _ _ _ _ H)) as (_ & _ & _ & He & _).
  destruct (update_cache_shape w va data q _ va s l Hic He Hd Hl) as (c' & -> & Hc'). cbn [mbind option_bind].
  eexists. split; [done|]. unfold parts_inv. parts. by destruct H; split.
Qed.

Lemma flat_rest w va g data v x : V va -> page_of (va &&~ 3) = Some g -> ~ data_at V x -> flat_write e w (real_pa g va) data v x = v x.
Proof.
  intros Hv Hg Hx. pose proof (aligned va) as Ea. assert (Hv' : V (va &&~ 3)) by (apply (st_lines V DV va); [done|rewrite Ea; dlia]).
  apply flat_write_other. intros Hsw. apply Hx. exists (va &&~ 3), g. do 2 (split; [done|]).
  by apply (same_word_block page_of V bs space (va &&~ 3) va g).
Qed.

Lemma write_miss_ref w en va data p s v m g : parts_inv p s v m -> V va -> walk0 (va &&~ 3) = inr en -> page_of (va &&~ 3) = Some g ->
  V (va &&~ 3) -> va &&~ 3 = va - va mod 4 -> no_line (data_cache p) (pg_pa g) -> word data ->
  exists b' s' m', write_miss w en (va &&~ 3) va data (write_buffer p) s = Some (b', s') /\
    parts_inv (set_write_buffer b' p) s' (flat_write e w (real_pa g va) data v) m'.
Proof.
  intros H Hv Hw Hg Hv' Ea Hno Hd. destruct (page_pa (va &&~ 3) en g Hv' Hw Hg) as [Eg _]. unfold write_miss. cbv zeta.
  assert (tlb_va_to_pa en (va &&~ 3) = pg_pa g /\ tlb_b_flag en = pg_b g) as (-> & ->) by by subst g.
  destruct H as [Hst Him Hc Hwb Hic Ht Hrest]. pose proof (data_step_here s m Hst Him) as Hh.
  assert (Hrest' : forall x, ~ data_at V x -> flat_write e w (real_pa g va) data v x = m0 x).
  { intros x Hx. rewrite (flat_rest w va g data v x) by done. by apply Hrest. }
  rewrite (step_control s CONTROL_WRITE_BUFFER 3), (st_buffer V DV) by done. destruct (pg_b g) eqn:Eb.
  - destruct (buffered_coherent e e_bit page_of V bs space (va &&~ 3) va g Ea Hv' Hg w _ _ m v data s Hc Hh Hno Hwb Eb (st_endian V DV))
      as (b' & s' & m' & -> & Hn & _ & Hwb' & Hc'). destruct (data_step_now s s' m' Hst Hn) as [Hst' Him'].
    exists b', s', m'. split; [done|]. unfold parts_inv. parts. by split.
  - destruct (drain_coherent e e_bit page_of V bs space _ _ m v s Hc Hh Hwb) as (b1 & s1 & m1 & -> & Hn1 & Hh1 & Hc1 & Hwb1 & Hp1).
    cbn [mbind option_bind]. destruct (data_step_now s s1 m1 Hst Hn1) as [Hst1 _].
    destruct (direct_write_coherent e e_bit page_of V bs space (va &&~ 3) va g Ea Hv' Hg w _ m1 v data s1 Hc1 Hh1 Hno Hd)
      as (s2 & m2 & -> & Hn2 & _ & Hc2). cbn [mbind option_bind]. destruct (data_step_now s1 s2 m2 Hst1 Hn2) as [Hst2 Him2].
    exists b1, s2, m2. split; [done|]. unfold parts_inv. parts. split; try done. by rewrite Hp1.
Qed.

Lemma hv_write_ref w va data p s v m : parts_inv p s v m -> V (mmu_pid_va_map s0 va) -> word data ->
  let r := virtual s0 m0 w false (mmu_pid_va_map s0 va) in
  exists p' s' m', hv_write w va data p s = Some (match r with inl f => f | inr _ => NO_FAULT end, p', s') /\
    parts_inv p' s' (match r with inl _ => v | inr pa => flat_write e w pa data v end) m'.
Proof.
  intros H Hv Hd r. subst r. pose proof (di_step _ _ _ _ _ _ _ H) as Hst. unfold hv_write. cbv zeta. rewrite (step_pid va s Hst).
  set (a := mmu_pid_va_map s0 va) in *. destruct (write_instr_ref w a data p s v m H Hd) as (p0 & -> & H0). cbn [mbind option_bind].
  clear H. rewrite (step_control s CONTROL_MMU 0), (st_mmu V DV), (step_misaligned w a s) by done. cbn [negb].
  destruct (ref_misaligned s0 w a) eqn:Ea.
  { exists p0, s, m. unfold virtual. by rewrite Ea. }
  rewrite virtual_checked by done.
  destruct (translate_checked_ref (a &&~ 3) false _ _ _ _ s v m H0) as (t' & s1 & -> & H1).
  { apply (st_word V DV), (st_lines V DV a); [done|rewrite aligned; dlia]. }
  cbn [mbind option_bind]. destruct (checked (a &&~ 3) false) as [f|en] eqn:Ech.
  { exists (set_data_tlb t' p0), s1, m. split; [done|]. unfold parts_inv. by parts. }
  pose proof (checked_walk _ _ _ Ech) as Hw. destruct (access_page a en Hv Hw) as (g & Hv' & Ea' & Hg & <-).
  set (p1 := set_data_tlb t' p0). assert (Hp1 : parts_inv p1 s1 v m) by (unfold parts_inv, p1; by parts).
  pose proof (di_cohere _ _ _ _ _ _ _ Hp1) as Hc. pose proof (data_step_here s1 m (di_step _ _ _ _ _ _ _ Hp1) (di_mem _ _ _ _ _ _ _ Hp1)) as Hh.
  destruct (search_coherent e page_of V bs space _ _ m v (a &&~ 3) g Hc Hv' Hg) as (o & -> & Ho). cbn [mbind option_bind].
  destruct o as [q|].
  - destruct Ho as (l & Hl).
    destruct (update_coherent e e_bit page_of V bs space (a &&~ 3) a g Ea' Hv' Hg w _ _ m v data q l s1 Hc Hh Hl Hd) as (c' & -> & Hc').
    cbn [mbind option_bind]. exists (set_data_cache c' p1), s1, m. split; [done|]. unfold parts_inv. parts.
    destruct Hp1; split; try done. intros x Hx. rewrite (flat_rest w a g data v x) by done. auto.
  - destruct (write_miss_ref w en a data p1 s1 v m g Hp1 Hv Hw Hg Hv' Ea' Ho Hd) as (b' & s2 & m2 & -> & H2).
    cbn [mbind option_bind]. by exists (set_write_buffer b' p1), s2, m2.
Qed.

(** ** Cache and buffer maintenance *)

Lemma clean_ref a p s v m : parts_inv p s v m ->
  exists p' s' m', on_data_cache (mmu_cache_clean a) p s = Some (p', s') /\ parts_inv p' s' v m'.
Proof.
  intros [Hst Him Hc Hwb Hic Ht Hrest]. unfold on_data_cache, mmu_cache_clean.
  destruct (cache_search_spec _ a (co_wf _ _ _ _ _ _ _ Hc)) as (o & -> & Ho). cbn [mbind option_bind]. destruct o as [q|].
  - destruct Ho as (_ & _ & l & Hl & _).
    destruct (evict e e_bit page_of V bs space _ _ m v s q l Hc (data_step_here s m Hst Him) Hl) as (c' & s' & m' & -> & Hn & _ & Hc' & _).
    cbn [mbind option_bind]. destruct (data_step_now s s' m' Hst Hn) as [Hst' Him'].
    exists (set_data_cache c' p), s', m'. split; [done|]. unfold parts_inv. by parts; split.
  - exists (set_data_cache (data_cache p) p), s, m. split; [done|]. unfold parts_inv. by parts; split.
Qed.
Lemma invalidate_ref a p s v m : parts_inv p s v m ->
  exists p' s' m', on_data_cache (mmu_cache_invalidate a) p s = Some (p', s') /\ parts_inv p' s' v m'.
Proof.
  intros [Hst Him Hc Hwb Hic Ht Hrest]. unfold on_data_cache, mmu_cache_invalidate.
  destruct (cache_search_spec _ a (co_wf _ _ _ _ _ _ _ Hc)) as (o & -> & Ho). cbn [mbind option_bind]. destruct o as [q|].
  - destruct Ho as (_ & _ & l & Hl & _).
    destruct (invalidate_coherent e e_bit page_of V bs space _ _ m v s q l Hc (data_step_here s m Hst Him) Hl)
      as (c' & s' & m' & -> & Hn & _ & Hc' & _).
    cbn [mbind option_bind]. destruct (data_step_now s s' m' Hst Hn) as [Hst' Him'].
    exists (set_data_cache c' p), s', m'. split; [done|]. unfold parts_inv. by parts; split.
  - exists (set_data_cache (data_cache p) p), s, m. split; [done|]. unfold parts_inv. by parts; split.
Qed.
Definition empty_cache (c : cache_t) : Prop := forall i j l, cline c i j = Some l -> valid l = false.
Lemma flush_ref p s v m : parts_inv p s v m ->
  exists p' s' m', on_data_cache mmu_cache_invalidate_all p s = Some (p', s') /\ parts_inv p' s' v m' /\ empty_cache (data_cache p').
Proof.
  intros [Hst Him Hc Hwb Hic Ht Hrest]. unfold on_data_cache.
  destruct (flush_coherent e e_bit page_of V bs space _ _ m v s Hc (data_step_here s m Hst Him)) as (c' & s' & m' & -> & Hn & _ & Hc' & He).
  cbn [mbind option_bind]. destruct (data_step_now s s' m' Hst Hn) as [Hst' Him'].
  exists (set_data_cache c' p), s', m'. split; [done|]. unfold parts_inv. parts. split; [by split|]. exact He.
Qed.
Lemma drain_ref p s v m : parts_inv p s v m ->
  exists p' s' m', on_write_buffer mmu_wb_drain_all p s = Some (p', s') /\ parts_inv p' s' v m' /\
    data_cache p' = data_cache p /\ pending (write_buffer p') = [].
Proof.
  intros [Hst Him Hc Hwb Hic Ht Hrest]. unfold on_write_buffer.
  destruct (drain_coherent e e_bit page_of V bs space _ _ m v s Hc (data_step_here s m Hst Him) Hwb) as (b' & s' & m' & -> & Hn & _ & Hc' & Hwb' & Hp).
  cbn [mbind option_bind]. destruct (data_step_now s s' m' Hst Hn) as [Hst' Him'].
  exists (set_write_buffer b' p), s', m'. split; [done|]. unfold parts_inv. parts. split; [|done]. split; try done. by rewrite Hp.
Qed.

(** ** Runs *)

Inductive data_op :=
| DRead (w : width) (va : Z) | DWrite (w : width) (va data : Z)
| DClean (va : Z) | DInvalidate (va : Z) | DFlush | DDrain.
Inductive outcome := Got (r : fault_t + Z) | Wrote (f : fault_t) | Done.

Definition data_do (d0 : Z) (o : data_op) p s : option (outcome * P * system M) :=
  match o with
  | DRead w va => '(r, p, s) ← hv_read w d0 va p s; Some (Got r, p, s)
  | DWrite w va d => '(f, p, s) ← hv_write w va d p s; Some (Wrote f, p, s)
  | DClean va => '(p, s) ← on_data_cache (mmu_cache_clean va) p s; Some (Done, p, s)
  | DInvalidate va => '(p, s) ← on_data_cache (mmu_cache_invalidate va) p s; Some (Done, p, s)
  | DFlush => '(p, s) ← on_data_cache mmu_cache_invalidate_all p s; Some (Done, p, s)
  | DDrain => '(p, s) ← on_write_buffer mmu_wb_drain_all p s; Some (Done, p, s)
  end.
Fixpoint data_run (d0 : Z) (l : list data_op) p s : option (list outcome * P * system M) :=
  match l with
  | [] => Some ([], p, s)
  | o :: l => '(x, p, s) ← data_do d0 o p s; '(xs, p, s) ← data_run d0 l p s; Some (x :: xs, p, s)
  end.

(** The reference: a flat memory. *)
Definition flat_do (o : data_op) (v : Z -> Z) : outcome * (Z -> Z) :=
  match o with
  | DRead w va =>
      (Got match virtual s0 m0 w true (mmu_pid_va_map s0 va) with inl f => inl f | inr pa => inr (flat_read e w v pa) end, v)
  | DWrite w va d =>
      match virtual s0 m0 w false (mmu_pid_va_map s0 va) with
      | inl f => (Wrote f, v)
      | inr pa => (Wrote NO_FAULT, flat_write e w pa d v)
      end
  | _ => (Done, v)
  end.
Fixpoint flat_data (l : list data_op) (v : Z -> Z) : list outcome * (Z -> Z) :=
  match l with
  | [] => ([], v)
  | o :: l => let '(x, v) := flat_do o v in let '(xs, v) := flat_data l v in (x :: xs, v)
  end.

Definition op_ok (o : data_op) : Prop :=
  match o with
  | DRead _ va => V (mmu_pid_va_map s0 va)
  | DWrite _ va d => V (mmu_pid_va_map s0 va) /\ word d
  | _ => True
  end.

Lemma data_do_ref d0 o p s v m : parts_inv p s v m -> op_ok o ->
  exists p' s' m', data_do d0 o p s = Some ((flat_do o v).1, p', s') /\ parts_inv p' s' (flat_do o v).2 m'.
Proof.
  intros H Ho. destruct o; cbn [data_do flat_do op_ok fst snd] in *.
  - destruct (hv_read_ref w d0 va p s v m H Ho) as (p' & s' & m' & -> & H'). cbn [mbind option_bind]. by exists p', s', m'.
  - destruct Ho as [Hv Hd]. destruct (hv_write_ref w va data p s v m H Hv Hd) as (p' & s' & m' & -> & H'). cbn [mbind option_bind].
    exists p', s', m'. by destruct (virtual _ _ _ _ _).
  - destruct (clean_ref va p s v m H) as (p' & s' & m' & -> & H'). cbn [mbind option_bind]. by exists p', s', m'.
  - destruct (invalidate_ref va p s v m H) as (p' & s' & m' & -> & H'). cbn [mbind option_bind]. by exists p', s', m'.
  - destruct (flush_ref p s v m H) as (p' & s' & m' & -> & H' & _). cbn [mbind option_bind]. by exists p', s', m'.
  - destruct (drain_ref p s v m H) as (p' & s' & m' & -> & H' & _). cbn [mbind option_bind]. by exists p', s', m'.
Qed.
Lemma data_run_ref d0 l p s v m : parts_inv p s v m -> Forall op_ok l ->
  exists p' s' m', data_run d0 l p s = Some ((flat_data l v).1, p', s') /\ parts_inv p' s' (flat_data l v).2 m'.
Proof.
  intros H HF. revert p s v m H. induction HF as [|o l Ho _ IH]; intros p s v m H; cbn [data_run flat_data]; [by exists p, s, m|].
  destruct (data_do_ref d0 o p s v m H Ho) as (p1 & s1 & m1 & -> & H1). cbn [mbind option_bind].
  destruct (flat_do o v) as [x v1]. cbn [fst snd] in *. destruct (IH p1 s1 v1 m1 H1) as (p2 & s2 & m2 & -> & H2). cbn [mbind option_bind].
  exists p2, s2, m2. by destruct (flat_data l v1) as [xs v2].
Qed.

(** The parts with nothing in them. *)
Record data_idle p : Prop := {
  idle_cache : dc_wf (data_cache p);
  idle_lines : empty_cache (data_cache p);
  idle_buffer : wb_wf (write_buffer p) /\ pending (write_buffer p) = [];
  idle_instr : dc_wf (instr_cache p);
  idle_tlb : tlb_ok walk0 (data_tlb p)
}.
Lemma idle_inv p : data_idle p -> implements e (ram s0) m0 -> parts_inv p s0 m0 m0.
Proof.
  intros [H1 H2 [H3 H4] H5 H6] Him. split; try done; [apply data_step_refl|]. rewrite H4. by apply cohere_start.
Qed.

Lemma implements_same r m m' : (forall x, m x = m' x) -> implements e r m -> implements e r m'.
Proof. intros E [H1 H2]. split; [done|]. intros a Ha Hr. rewrite <- E. by apply H2. Qed.

(** The flush that makes memory itself the program's memory. *)
Lemma flush_drain_ref d0 p s v m : parts_inv p s v m ->
  exists p' s', data_run d0 [DFlush; DDrain] p s = Some ([Done; Done], p', s') /\ implements e (ram s') v.
Proof.
  intros H. destruct (flush_ref p s v m H) as (p1 & s1 & m1 & E1 & H1 & He).
  destruct (drain_ref p1 s1 v m1 H1) as (p2 & s2 & m2 & E2 & H2 & Ec & Hp). exists p2, s2. split.
  - cbn [data_run data_do]. rewrite E1. cbn [mbind option_bind]. rewrite E2. done.
  - apply (implements_same _ m2); [|apply H2]. pose proof (di_cohere _ _ _ _ _ _ _ H2) as Hc. rewrite Hp in Hc.
    refine (nothing_in_front _ _ _ _ _ _ Hc _). by rewrite Ec.
Qed.
Lemma data_run_app d0 l l' p s : data_run d0 (l ++ l') p s =
  '(xs, p, s) ← data_run d0 l p s; '(ys, p, s) ← data_run d0 l' p s; Some (xs ++ ys, p, s).
Proof.
  revert p s. induction l as [|o l IH]; intros p s; cbn [data_run app].
  - cbn [mbind option_bind]. by destruct (data_run d0 l' p s) as [[[ys p'] s']|].
  - destruct (data_do d0 o p s) as [[[x p1] s1]|]; [|done]. cbn [mbind option_bind]. rewrite IH.
    destruct (data_run d0 l p1 s1) as [[[xs p2] s2]|]; [|done]. cbn [mbind option_bind].
    by destruct (data_run d0 l' p2 s2) as [[[ys p3] s3]|].
Qed.
End DataSide.

(** C6: The data side of a cached MMU (ARM920T, ARM926EJ-S) is transparent: in
    any sequence of reads, writes and cache or buffer operations, started
    with an empty cache and buffer, each access gives the value or the fault
    that the architecture's virtual memory gives over a flat memory, in
    which a write changes its bytes at once.  Memory itself, behind the
    cache and the buffer, is that flat memory after the cache is invalidated
    and the buffer drained.  No access reaches undefined behaviour.  The
    program uses plain memory, mapped once and apart from the tables, on a
    little-endian core with the write buffer on. *)
Theorem data_side_transparent {M} `{!Board M} {P} `{!Harvard P} `{!HarvardLaws P} (s : system M) (p : P) m V d0 l :
  let e := bigendSig (cpu s) in
  data_setting s m V -> implements e (ram s) m -> data_idle s m p -> Forall (op_ok s V) l ->
  let '(xs, v) := flat_data s m l m in
  (exists p' s', data_run d0 l p s = Some (xs, p', s')) /\
  exists p' s', data_run d0 (l ++ [DFlush; DDrain]) p s = Some (xs ++ [Done; Done], p', s') /\ implements e (ram s') v.
Proof.
  intros e DV Him Hidle Hl. destruct (flat_data s m l m) as [xs v] eqn:Ef.
  destruct (data_run_ref s m V DV d0 l p s m m (idle_inv s m V p Hidle Him) Hl) as (p1 & s1 & m1 & E1 & H1).
  rewrite Ef in E1, H1. cbn [fst snd] in *. split; [by exists p1, s1|].
  destruct (flush_drain_ref s m V DV d0 p1 s1 v m1 H1) as (p2 & s2 & E2 & H2). exists p2, s2.
  split; [|done]. rewrite data_run_app, E1. cbn [mbind option_bind]. by rewrite E2.
Qed.

(** ** The two MMUs *)

#[export] Instance harvard_laws_920 : HarvardLaws arm920t_mmu_t.
Proof. by split; intros; destruct p. Qed.
#[export] Instance harvard_laws_926 : HarvardLaws arm926ejs_mmu_t.
Proof. by split; intros; destruct p. Qed.

Section Init.
Context {M : Type} `{!Board M}.
Implicit Type s : system M.

(** A cache, a buffer and a translation buffer as they are allocated. *)
Lemma init_cache_empty way set mode fresh : empty_cache (mmu_cache_init 32 way set mode fresh).
Proof.
  intros i j l. unfold cline, mmu_cache_init. cbn [sets].
  destruct (_ !! i) as [x|] eqn:E; [|done]. cbn [mbind option_bind]. apply list_lookup_fmap_Some in E as (k & -> & _).
  cbn [lines_of]. intros (k' & -> & _)%list_lookup_fmap_Some. done.
Qed.

(** The fresh memory of a line is eight words. *)
Lemma arm920t_init_idle s m fi fil fd fdl fwb :
  (forall i j, line_shape (fil i j)) -> (forall i j, line_shape (fdl i j)) -> (forall i, Z.of_nat (length (wb_data (fwb i))) = 8) ->
  data_idle s m (arm920t_mmu_init fi fil fd fdl fwb s).1.
Proof.
  intros H1 H2 H3. unfold arm920t_mmu_init.
  split; cbn [fst data_cache harvard_920 d_cache920 write_buffer wb920 instr_cache i_cache920 data_tlb d_tlb920].
  - by apply dc_wf_init.
  - apply init_cache_empty.
  - by apply wb_wf_init.
  - by apply dc_wf_init.
  - apply tlb_init_ok. done.
Qed.
Lemma arm926ejs_init_idle s m fe fil fl fdl fwb k :
  (forall i j, line_shape (fil i j)) -> (forall i j, line_shape (fdl i j)) -> (forall i, Z.of_nat (length (wb_data (fwb i))) = 8) ->
  data_idle s m (arm926ejs_mmu_init fe fil fl fdl fwb k s).1.
Proof.
  intros H1 H2 H3. unfold arm926ejs_mmu_init.
  split; cbn [fst data_cache harvard_926 d_cache926 write_buffer wb926 instr_cache i_cache926 data_tlb main_tlb926].
  - by apply dc_wf_init.
  - apply init_cache_empty.
  - by apply wb_wf_init.
  - by apply dc_wf_init.
  - apply tlb_init_ok. done.
Qed.
End Init.
