(* ===== verification/DataWitness.v ===== *)
(** * A run of the ARM920T's data side

    The board of SysWitness.v with sections that are cached and buffered; the
    program uses the upper half of the RAM. *)

From S2P Require Import Prelude Words Bits ArmState ArmBanks ArmInit UartDev Machine LpcState LpcIo LpcWitness LpcBoard ArmSys ArmMem MemSpec Tlb TlbSpec Cache Arm7100 MmuSpec SysWitness MmuBuffers WbSpec Harvard Arm9Mmu CacheLines Coherence DataSide.

Definition section1 : Z := 0xC0E.
Definition data0 : system (machine lines) := sys_of section1 0xF 1.
Definition half0 (va : Z) : Prop := 0x4000 <= va < 0x8000.
Lemma section1_word : word section1.
Proof. unfold section1, word. lia. Qed.

Definition entry1 (va : Z) : tlb_entry_t := ref_entry va section1 0xC0C section1 TLB_SECTION.
Lemma walk1 m va : word va -> (forall x, x < 0x4000 -> m x = bytes_of section1 x) ->
  sys_walk data0 m va = inr (entry1 va) /\ tables_ok data0 m va.
Proof.
  intros Hv Hm. destruct (table_word_of section1 0xF 1 va section1_word Hv) as [Ht Hd].
  assert (flat_read 0 Word m (ref_l1 0 va) = section1) as E.
  { rewrite <- Hd. apply flat_read_ext. intros y Hy. apply Hm. unfold same_word, ref_l1, word in *. dlia. }
  unfold sys_walk, ref_walk, tables_ok. change (translation_table_base _) with 0. change (bigendSig _) with 0. rewrite E.
  split; [done|]. split; [exact Ht|]. split; [apply section1_word|]. split; intros H; by discriminate H.
Qed.
Lemma walk1_start va : word va -> walk0 data0 (bytes_of section1) va = inr (entry1 va).
Proof. intros Hv. by apply walk1. Qed.
Lemma page1 va : word va -> page_of data0 (bytes_of section1) va = Some (mkPage (va mod 1048576) true true).
Proof. intros Hv. unfold page_of. rewrite walk1_start by done. done. Qed.

Lemma setting1 : data_setting data0 (bytes_of section1) half0.
Proof.
  assert (Hw : forall va, half0 va -> word va) by (unfold half0, word; lia).
  assert (Hpa : forall va g, half0 va -> page_of data0 (bytes_of section1) va = Some g -> pg_pa g = va).
  { intros va g Hv. rewrite page1 by by apply Hw. intros [= <-]. cbn [pg_pa]. unfold half0 in Hv. dlia. }
  split.
  - done.
  - unfold half0. intros. dlia.
  - intros va g x Hv Hg. rewrite (Hpa va g Hv Hg). unfold half0 in Hv. intros E. split; [|split; [done|dlia]].
    split; [unfold word; dlia|]. exists 0%nat, (map_M 0 0x8000). split; [apply ram_plain; dlia|]. by split.
  - intros va va' g g' Hv Hv' Hg Hg'. by rewrite (Hpa va g Hv Hg), (Hpa va' g' Hv' Hg').
  - apply bytes_of_range.
  - done.
  - unfold word. simpl. lia.
  - done.
  - done.
  - intros va va' e Hv Hv'. rewrite !walk1_start by done. intros [= <-] Hp. f_equal.
    unfold entry1, ref_entry in *. cbn [te_mapping te_virt_addr] in Hp. by rewrite Hp.
  - intros m Hm va Hv. rewrite walk1_start by done. apply walk1; [done|]. intros x Hx. apply Hm.
    intros (a & g & Ha & Hg & E). rewrite (Hpa a g Ha Hg) in E. unfold half0 in Ha. dlia.
Qed.

Definition fresh_line1 (i j : Z) : cache_line_t := mkLine 0 0 (replicate 8 0).
Definition parts1 : arm920t_mmu_t :=
  (arm920t_mmu_init (fun _ => mkEntry 0 0 0 0 TLB_TINYPAGE) fresh_line1 (fun _ => mkEntry 0 0 0 0 TLB_TINYPAGE) fresh_line1
     (fun _ => mkWbEntry 0 (replicate 8 0) 0) data0).1.
Definition ops1 : list data_op :=
  [DWrite Word 0x4000 0x11223344; DRead Byte 0x4001; DWrite Half 0x4002 0x5566; DClean 0x4000; DRead Word 0x4000; DRead Word 0x4001].

(** A word, a byte and a halfword through the buffer and the cache. *)
Lemma data_side_transparent_witness : exists p s,
  data_run 0 ops1 parts1 data0 = Some ([Wrote NO_FAULT; Got (inr 0x33); Wrote NO_FAULT; Done; Got (inr 0x55663344);
    Got (inl ALIGNMENT_FAULT)], p, s).
Proof.
  assert (Hline : forall i j, line_shape (fresh_line1 i j)) by (intros i j; split; [done|by repeat constructor]).
  assert (Hops : Forall (op_ok data0 half0) ops1).
  { unfold ops1, op_ok, half0. repeat (apply list.Forall_cons_2; [vm_compute; by repeat split|]). apply list.Forall_nil_2. }
  assert (Hidle : data_idle data0 (bytes_of section1) parts1) by by apply arm920t_init_idle.
  pose proof (data_side_transparent data0 parts1 (bytes_of section1) half0 0 ops1 setting1 (implements_of section1 section1_word) Hidle Hops) as H.
  assert (E : (flat_data data0 (bytes_of section1) ops1 (bytes_of section1)).1 =
    [Wrote NO_FAULT; Got (inr 0x33); Wrote NO_FAULT; Done; Got (inr 0x55663344); Got (inl ALIGNMENT_FAULT)]) by (vm_compute; reflexivity).
  destruct (flat_data _ _ _ _) as [xs v]. cbn [fst] in E. subst xs. apply H.
Defined.
